(* ===== verification/_CoqProject ===== *)
-Q . S2P
Prelude.v
GoFloat.v
GoStrings.v
GoText.v
GoMatch.v
GoNum.v
GoRegexp.v
GoFlag.v
GoFloatText.v
GoJSON.v
Events.v
RingBuffer.v
Session.v
Transport.v
EventTransport.v
Metrics.v
EventPipeline.v
NetworkEvents.v
Procfs.v
ProcessEvents.v
Loop.v
ProcessRun.v
NetworkRun.v
SystemEvents.v
SystemRun.v
AuthEvents.v
AuthRun.v
Upgrade.v
LogTail.v
TailRun.v
LogAllow.v
LogShip.v
LogRedact.v
LogDiscover.v
LogParse.v
LogEncode.v
Registry.v
Agent.v
LogStats.v
Config.v
Remote.v
HostFs.v
SystemMetrics.v
HostInfo.v
FastCGI.v
Integrations.v
Scrape.v
Journal.v
Stdout.v
Main.v
Platform.v
Process.v
Sharing.v
