(* ===== verification/Prelude.v ===== *)
(** * Verification of yomins-agent

    yomins-agent is a host monitoring agent written in Go.  It collects
    metrics, watches the host for security events, follows log files and sends
    all three to an ingest server, and upgrades itself.  This library models
    the parts of the program that carry its logic and proves what makes them
    right.

    ** The program and the files

    The parts talk through a few narrow interfaces.  Event collectors send
    events into the fan-in of the pipeline, which keeps them in a ring buffer;
    the event transport drains the buffer in batches and puts back what it
    could not send.  Log discovery finds the files to read; log sources parse
    their lines into entries, each with an acknowledgement, and send them to the
    shipper, which redacts and renders them and acknowledges an entry when the
    server answered for it; acknowledgements move the positions from which
    files are read after a restart.  The agent's tick runs the metric
    collectors of the registry and pushes their points.  All transports share a
    session (a pause after a rejection, the offer of gzip).  The configuration
    comes from the command line and the environment, and the one fetched from
    the server is applied over it at the next start.

    - [Prelude]: 64-bit integers with their wrap-around, instants and
      durations, slices, counting, the tactics and hint databases.
    - [GoFloat], [GoStrings], [GoText], [GoMatch], [GoNum], [GoRegexp],
      [GoFlag], [GoFloatText], [GoJSON]: what the
      program uses of Go's float64/float32, strings and UTF-8, cutting and
      trimming of text, [path.Match], number parsing
      and printing, regular expressions (compiled from the source's own
      patterns; the matcher is proved sound and complete for the language of an
      expression), command-line flags and durations, and JSON (a written value
      is proved to be read back).
    - [Events]: [internal/events/types.go].
    - [RingBuffer]: [internal/events/buffer.go].
    - [Session], [Transport], [EventTransport]: [internal/transport]
      [session.go], [post.go] and [http.go], [events.go].
    - [Metrics]: [internal/metrics].
    - [EventPipeline]: [internal/events/pipeline.go] and [counter.go].
    - [NetworkEvents], [ProcessEvents], [SystemEvents], [AuthEvents]: the four
      collectors under [internal/events], one look at the host at a time;
      [Procfs]: [internal/procfs].
    - [Loop], [ProcessRun], [NetworkRun], [SystemRun], [AuthRun]: the polling
      loop these collectors share, and their [Run] with the goroutines it
      starts, from the baseline to the end of the context, a kill or a restart.
      A [schedule] is the ticks a run finished and the tick in which it ended.
    - [Upgrade]: [internal/upgrade] and [systemd/apply-upgrade.sh].
    - [LogTail], [TailRun], [LogAllow], [LogShip], [LogRedact], [LogDiscover],
      [LogParse], [LogEncode], [LogStats]: [internal/logs] [entry.go],
      [positions.go] and [tail.go]; the rounds of [Run] of [tail.go];
      [allow.go]; [ship.go] and the counters of [stats.go];
      [redact.go]; [discover.go], [docker.go] and [rsyslog.go]; [parse.go];
      [encode] of [ship.go]; [httpmetrics.go] and [Collect] of [stats.go].
    - [Registry], [Agent]: [internal/collector] [collector.go];
      [selfmetrics.go] and [internal/agent].
    - [Config], [Remote]: [internal/config] and [internal/identity];
      [internal/remote].
    - [HostFs], [SystemMetrics], [HostInfo]: the metric collectors of
      [internal/collector]: those that read [/proc] and [/sys] ([hostfs.go],
      [diskio.go], [pressure.go], [mounts.go], [kernel.go], [netstat.go]);
      [cpu.go], [memory.go], [system.go], [disk.go], [network.go],
      [procgroups.go], [timesync_linux.go] and the caching wrapper of [cmd.go];
      [systemd.go], [updates.go], [certs.go], [backup.go], [info.go] and
      [info_linux.go].
    - [FastCGI], [Integrations], [Scrape]: [internal/integrations]:
      [fastcgi.go], [phpfpm.go] and [status.go]; [nginx.go], [mailqueue.go] and
      [mysql.go]; [scrape.go].
    - [Journal]: [internal/logs] [journal.go] and [pipeline.go].
    - [Stdout]: [internal/transport/stdout.go].
    - [Main]: [cmd/yomins-agent]: what a start builds from the command line, the
      environment, the stored remote configuration and the host.
    - [Process]: the process such a plan starts, until it ends: the loop of the
      agent, the event pipeline with the goroutines of the auth and the system
      collector, the poller, the upgrade check and the signals, as steps on one state.
    - [Sharing]: the session [run] hands to the transports of
      [internal/transport] and to the poller, as a cell they alias.
    - [Platform]: the reader interfaces of [internal/collector] as classes, and
      their instances over gopsutil ([*_gopsutil.go]), for Linux
      ([info_linux.go]) and for other systems ([info_other.go],
      [timesync_other.go]).

    A definition keeps the name of the function it models; a record models a
    struct, with a prefix on its fields where two structs share a name.  Code
    that changes state takes it and returns it; a panic is [None] or a
    constructor of its own; concurrent code is a step function or relation
    over interleaved actions.  The clock, the network and the file system are
    arguments.  Third-party code (the backoff library, the checksum and gzip
    functions, UUIDs) is a parameter with its documented laws as a class or a
    hypothesis, and every theorem that uses one has a concrete instance.

    ** What is proved

    - No loss, or loss that is counted: the ring buffer refines a bounded
      queue and accounts for every event ([RingBuffer]); the pipeline keeps
      this under every schedule, until one of the goroutines a collector leaves
      behind sends on the closed channel, and shuts down ([EventPipeline]); a
      flush delivers, drops after a final refusal, or puts back, and a run of
      the transport accounts for every event by the buffer's own count of
      evictions and leaves exactly what it could not send ([EventTransport],
      proved against the queue interface the buffer implements).
    - Logs are delivered at least once: one round of reading reports each byte
      once ([read_round_complete]); the shipper acknowledges a prefix of what it
      received, exactly what the server answered for ([ship_in_order]); and over
      crashes and restarts the recorded position passes only lines that are
      blank or acknowledged ([at_least_once]); once there is a saved cursor of
      the journal it moves over acknowledged records only
      ([journal_at_least_once]), which are read as journald prints them
      ([journal_record_read]); and a rotation under a running source, with less
      than a chunk left to read, loses and splits no line
      ([rotation_complete]).
    - Log lines keep their content: structured lines keep their fields, Docker's
      wrapping is transparent, text lines are kept whole ([LogParse]); what is
      sent is one JSON line that the server decodes to the redacted entry
      ([encode_line]); redaction always returns, and its cheap tests change
      nothing ([LogRedact]); derived series stay bounded and count their lines
      ([LogStats]).
    - Confinement: the allow list decides the documented glob semantics for
      globs in ASCII, and the default list cannot be made to read outside seven
      directories ([LogAllow]); containers open only known logs inside their
      mounts ([LogDiscover]); only a binary that matches its checksum, for a
      newer release, is installed, wherever the check or the installer is killed,
      also inside a copy, and one that does not come up is rolled back, while a release that is served
      reaches the host ([Upgrade]); a scraped endpoint
      cannot set a label that identifies the agent or flood a push
      ([scrape_confined]).
    - Configuration: flag before environment before default for every setting,
      well-typed results ([Config]); what the server may and may not change,
      that it cannot make the configuration invalid, and that a restart for a
      new version settles ([Remote]); what every start guarantees
      ([start_guarantees]), and that the process started for a new version runs
      with it and stays up ([restart_applies], and from the poll of one process
      to the plan of the next [restart_completes]).
    - The life of the process: under every schedule it exits with status 0,
      after one final push or with a staged upgrade, or crashes in one of four
      named ways ([process_ends]).
    - Collection: under every interleaving a pass returns this pass's results in
      order, and under every timed schedule it makes a bounded number of steps
      and is never held up past its deadlines ([Registry]); the agent's own
      counters are exact and an upgrade is committed once ([Agent]).
    - Figures: what the kernel counts is what is reported ([netstat_kernel]);
      process groups are exact and the top ones are kept ([groups_reported]);
      the interfaces reported are the selected ones ([interfaces_reported]);
      units and services as systemd prints them ([list_units_exact],
      [parseShow_services]); a slow collector runs only when its result is due
      ([Every_contract]).
    - Server protocol: every branch of a post, the pause after rejections and
      its bounds, retries only after retryable answers ([Session],
      [Transport]); a rejection of any transport silences all four clients but
      for the operations under way ([rejection_silences]).
    - Detection: the process table follows the host through PID reuse, start
      and stop events are exact, alerts are spaced ([ProcessEvents]); listeners
      and bursts ([NetworkEvents]); the brute-force detector with its pruning
      refines one that keeps all history ([AuthEvents]); reboots, users and
      watched files ([SystemEvents]).
    - Detection over whole runs: start and stop events can be replayed to the
      set of running processes ([run_observable]); listeners are reported
      exactly when they appear ([run_reports_appearances]); no change of a
      watched file or of the users passes silently over restarts, kills and
      failing writes ([file_change_reported], [user_change_reported]); the
      brute-force events of a run are those of the specification, from the
      lines of the log on ([alerts_of_run], [authlog_follows]).
    - Round trips with the formats of the host: stat lines, socket tables and
      wtmp records as the kernel and the C library write them are read back;
      a FastCGI server decodes the request that is sent, and its answer is read
      back however it is cut into records ([fcgi_roundtrip]); the status page of
      nginx is read figure by figure ([nginx_reported]), and the databases of
      MySQL under their own names ([largest_databases]).
    - Metric families and label names ([Metrics]).

    Lemmas that show a defect (an overflow, a nil map, a lost record, a crash
    that loses the backup, a secret that is not masked) are stated beside the
    operation they are about.

    ** Bounds and fuel

    Recursion that is not structural runs on fuel that is shown to be enough:
    the length of the data for cutting lines ([cut_lines_spec]) and for the
    batches of a flush, the number of runes left for the iterations of a star
    ([star_complete]), twice the length of a pattern for its parser
    ([parse_toks] for the globs, evaluation for the fixed patterns), one more
    than the number of arguments for the flags ([Parse_ok]), and twice the
    length of a text for JSON, whose nesting Go bounds by 10000
    ([Unmarshal_Marshal]), the length of the answer for FastCGI records and of
    the file for PEM blocks.  The retry loop of the shipper is a machine that
    takes one step per attempt, so it needs no fuel; [delivery_ends] shows that
    it ends at the first final answer.

    ** What is not modelled

    The ticks of timers are events of a schedule, not clocks.  In [Process] a
    tick of the agent begins and ends, and what happens inside it is [Agent],
    [Registry] and [Transport]: that a tick ends is not proved there, and
    neither is that the metric collectors do not panic.  The log pipeline,
    which nothing in the process waits for, has its steps in [LogTail] and
    [Journal] and is not part of that state, and neither are the states of the
    process and network collectors ([ProcessRun], [NetworkRun]).  JSON files of
    the event collectors are what decoding them gives, so names that are not
    UTF-8 are not followed through a file.  Reading of files and processes by the operating system,
    warnings and log messages are left out.  The library gopsutil is a class of
    functions without laws; the SQL driver, the parser and the writer of the
    Prometheus text format, X.509 and PEM, URL parsing, and the printing of
    floats and times are arguments. *)

From Stdlib Require Export ZArith Lia.
From Stdlib Require Import Ascii.
From stdpp Require Export base option list gmap strings sorting.

(** ** Machine integers

    Go's [int] is 64 bits wide on the platforms the agent is released for
    (linux/amd64 and linux/arm64); [time.Duration] is an [int64] of
    nanoseconds.  Values are kept as [Z] and every operation that can leave
    the range goes through the wrap-around below. *)
Definition wrap_i64 (z : Z) : Z := ((z + 2 ^ 63) mod 2 ^ 64 - 2 ^ 63)%Z.
Definition wrap_u64 (z : Z) : Z := (z mod 2 ^ 64)%Z.
Definition wrap_i32 (z : Z) : Z := ((z + 2 ^ 31) mod 2 ^ 32 - 2 ^ 31)%Z.
Definition max_i64 : Z := (2 ^ 63 - 1)%Z.
Definition min_i64 : Z := (- 2 ^ 63)%Z.
Definition is_i64 (z : Z) : Prop := (min_i64 <= z <= max_i64)%Z.

Declare Scope go_scope.
Delimit Scope go_scope with go.
Notation "x +i y" := (wrap_i64 (x + y)) (at level 50, left associativity) : go_scope.
Notation "x -i y" := (wrap_i64 (x - y)) (at level 50, left associativity) : go_scope.
Notation "x *i y" := (wrap_i64 (x * y)) (at level 40, left associativity) : go_scope.
Notation "x %i y" := (Z.rem x y) (at level 40, no associativity) : go_scope.
Open Scope go_scope.
Open Scope Z_scope.

Lemma wrap_i64_id (z : Z) : is_i64 z -> wrap_i64 z = z.
Proof. unfold is_i64, wrap_i64, min_i64, max_i64. intros H. rewrite Z.mod_small; lia. Qed.

Lemma wrap_i64_range (z : Z) : is_i64 (wrap_i64 z).
Proof.
  unfold is_i64, wrap_i64, min_i64, max_i64.
  pose proof (Z.mod_pos_bound (z + 2 ^ 63) (2 ^ 64) eq_refl). lia.
Qed.

Lemma wrap_u64_id (z : Z) : 0 <= z < 2 ^ 64 -> wrap_u64 z = z.
Proof. unfold wrap_u64. apply Z.mod_small. Qed.

Lemma wrap_u64_add (a b : Z) : wrap_u64 (wrap_u64 a + b) = wrap_u64 (a + b).
Proof. unfold wrap_u64. by rewrite Z.add_mod_idemp_l. Qed.

(** Index arithmetic of a slice of length [n]: one step of [(i + 1) % n]. *)
Lemma rem_succ (i n : Z) :
  0 <= i < n -> n <= 2 ^ 62 -> (i +i 1) %i n = if decide (i + 1 = n) then 0 else i + 1.
Proof.
  intros Hi Hn. rewrite wrap_i64_id by (unfold is_i64, min_i64, max_i64; lia).
  case_decide as Heq.
  - rewrite Heq. by apply Z.rem_same; lia.
  - by apply Z.rem_small; lia.
Qed.

(** ** Time

    A [time.Time] is the number of nanoseconds since Go's zero time
    (1 January of year 1, UTC), so the zero value is [0] and [IsZero] is a
    test for it.  [Time.Add] is exact on the range a clock can show;
    [Time.Sub] saturates at the bounds of [time.Duration]. *)
Abbreviation time := Z (only parsing).
Abbreviation duration := Z (only parsing).
Definition time_zero : time := 0.
Definition IsZero (t : time) : bool := t =? time_zero.
Definition time_add (t : time) (d : duration) : time := t + d.
Definition time_sub (t u : time) : duration := Z.max min_i64 (Z.min max_i64 (t - u)).
Definition time_after (t u : time) : bool := u <? t.
Definition time_before (t u : time) : bool := t <? u.
(** Seconds from the zero time to the Unix epoch. *)
Definition unix_epoch_s : Z := 62135596800.
Definition time_unix (sec nsec : Z) : time := (unix_epoch_s + sec) * 1000000000 + nsec.
Definition nanosecond : duration := 1.
Definition millisecond : duration := 1000000.
Definition second : duration := 1000000000.
Definition minute : duration := 60 * second.
Definition hour : duration := 60 * minute.

(** ** Slices

    Reading or writing a slice out of range panics; a panic is [None]. *)
Definition slice_get {A} (l : list A) (i : Z) : option A :=
  if decide (0 <= i) then l !! Z.to_nat i else None.
Definition slice_set {A} (l : list A) (i : Z) (x : A) : option (list A) :=
  if decide (0 <= i < Z.of_nat (length l)) then Some (<[Z.to_nat i := x]> l) else None.
Definition len {A} (l : list A) : Z := Z.of_nat (length l).

Lemma slice_set_Some {A} (l : list A) (i : Z) (x : A) :
  0 <= i < len l -> slice_set l i x = Some (<[Z.to_nat i := x]> l).
Proof. intros H. unfold slice_set, len in *. by rewrite decide_True. Qed.

Lemma slice_get_lookup {A} (l : list A) (i : Z) :
  0 <= i -> slice_get l i = l !! Z.to_nat i.
Proof. intros H. unfold slice_get. by rewrite decide_True. Qed.

(** ** Generic lemmas on lists *)

(** [lastn n l] is the suffix of [l] of length at most [n]. *)
Definition lastn {A} (n : nat) (l : list A) : list A := drop (length l - n) l.

Lemma lastn_all {A} (n : nat) (l : list A) : (length l <= n)%nat -> lastn n l = l.
Proof. intros H. unfold lastn. by replace (length l - n)%nat with 0%nat by lia. Qed.

Lemma length_lastn {A} (n : nat) (l : list A) : length (lastn n l) = Nat.min n (length l).
Proof. unfold lastn. rewrite length_drop. lia. Qed.

Lemma lastn_snoc_full {A} (n : nat) (l : list A) (x : A) :
  length l = n -> (0 < n)%nat -> lastn n (l ++ [x]) = drop 1 l ++ [x].
Proof.
  intros <- Hn. unfold lastn. rewrite length_app. cbn.
  replace (length l + 1 - length l)%nat with 1%nat by lia.
  rewrite drop_app_le by lia. done.
Qed.

Lemma lastn_lastn_app {A} (n : nat) (l k : list A) :
  lastn n (lastn n l ++ k) = lastn n (l ++ k).
Proof.
  unfold lastn. rewrite !length_app, length_drop, !drop_app, drop_drop. f_equal.
  - destruct (decide (length l <= n)%nat); f_equal; lia.
  - f_equal. rewrite length_drop. lia.
Qed.

(** How many elements [lastn] leaves out. *)
Definition overflow {A} (n : nat) (l : list A) : Z := Z.of_nat (length l - n).

Lemma overflow_none {A} (n : nat) (l : list A) : (length l <= n)%nat -> overflow n l = 0%Z.
Proof. unfold overflow. lia. Qed.

Lemma overflow_lastn {A} (n : nat) (l k : list A) :
  (overflow n l + overflow n (lastn n l ++ k))%Z = overflow n (l ++ k).
Proof. unfold overflow. rewrite !length_app, length_lastn. lia. Qed.

Lemma lastn_split {A} (n : nat) (l : list A) :
  exists gone, l = gone ++ lastn n l /\ Z.of_nat (length gone) = overflow n l.
Proof.
  exists (take (length l - n) l). unfold lastn, overflow. rewrite take_drop, length_take. split; [done|lia].
Qed.

Lemma lastn_sublist {A} (n : nat) (l : list A) : sublist (lastn n l) l.
Proof. unfold lastn. apply sublist_drop. Qed.

(** Elements of a list that satisfy a boolean test. *)
Definition countb {A} (p : A -> bool) (l : list A) : nat := length (List.filter p l).

Lemma countb_app {A} (p : A -> bool) (l k : list A) :
  countb p (l ++ k) = (countb p l + countb p k)%nat.
Proof. unfold countb. by rewrite List.filter_app, length_app. Qed.

(** ** Automation *)

(** [go_lia] unfolds the ranges before calling [lia]. *)
Ltac go_lia := unfold is_i64, min_i64, max_i64, time_zero, nanosecond, millisecond, hour, minute, second, len in *; lia.


(** [bool_hyps] splits boolean connectives in the hypotheses, so that [lia]
    sees the comparisons. *)
Ltac bool_hyps :=
  repeat match goal with
    | H : (_ && _)%bool = true |- _ => apply andb_true_iff in H; destruct H
    | H : (_ || _)%bool = false |- _ => apply orb_false_iff in H; destruct H
    | H : (_ || _)%bool = true |- _ => apply orb_true_iff in H; destruct H
    | H : (_ && _)%bool = false |- _ => apply andb_false_iff in H; destruct H
    | H : negb _ = true |- _ => apply negb_true_iff in H
    | H : negb _ = false |- _ => apply negb_false_iff in H
    end.

Create HintDb agent.
Lemma sublist_keep {A} (f : A -> bool) (l : list A) : sublist (List.filter f l) l.
Proof. induction l as [|x l IH]; cbn [List.filter]; [constructor|]. destruct (f x); by constructor. Qed.

Lemma concat_filter {A B} (p : A -> bool) (f : A -> list B) (l : list A) :
  concat (map (fun x => if p x then f x else []) l) = concat (map f (List.filter p l)).
Proof. induction l as [|x l IH]; [done|]. cbn. destruct (p x); cbn; by rewrite IH. Qed.

#[export] Hint Resolve lastn_sublist wrap_i64_range : agent.
Create Rewrite HintDb go_simpl.
#[export] Hint Rewrite @length_lastn @countb_app @length_app @length_take @length_drop : go_simpl.
