(* ===== verification/GoFloat.v ===== *)
(** * Go's floating-point numbers

    [float64] and [float32] as IEEE 754 binary64 and binary32, with the
    operations of the Standard Library's executable specification
    ([SpecFloat]): every sum, product, quotient, comparison and conversion of
    the agent rounds here exactly as it does in the program. *)
From Stdlib Require Export SpecFloat.
From S2P Require Import Prelude.
Local Open Scope Z_scope.

Abbreviation float64 := spec_float (only parsing).
Abbreviation float32 := spec_float (only parsing).

Definition f64_of_Z (z : Z) : float64 := binary_normalize 53 1024 z 0 false.
Definition f64_add : float64 -> float64 -> float64 := SFadd 53 1024.
Definition f64_sub : float64 -> float64 -> float64 := SFsub 53 1024.
Definition f64_mul : float64 -> float64 -> float64 := SFmul 53 1024.
Definition f64_div : float64 -> float64 -> float64 := SFdiv 53 1024.
Definition f32_of_Z (z : Z) : float32 := binary_normalize 24 128 z 0 false.
Definition f32_add : float32 -> float32 -> float32 := SFadd 24 128.
Definition f32_mul : float32 -> float32 -> float32 := SFmul 24 128.
Definition f32_div : float32 -> float32 -> float32 := SFdiv 24 128.

(** Comparisons are false on NaN, as in Go. *)
Definition f_lt (x y : spec_float) : bool := SFltb x y.
Definition f_gt (x y : spec_float) : bool := SFltb y x.
Definition f_le (x y : spec_float) : bool := SFleb x y.
Definition f_ge (x y : spec_float) : bool := SFleb y x.
Definition f_eq (x y : spec_float) : bool := SFeqb x y.

(** The conversion [float32(x)] of a [float64]. *)
Definition f32_of_f64 (x : float64) : float32 :=
  match x with
  | S754_finite s m e => binary_round 24 128 s m e
  | y => y
  end.

(** The integer part, as a conversion to an integer type takes it. *)
Definition f64_trunc (x : float64) : Z :=
  match x with
  | S754_finite sg m e =>
      let v := if 0 <=? e then Z.shiftl (Zpos m) e else Z.shiftr (Zpos m) (- e) in
      if sg then - v else v
  | _ => 0
  end.

Definition f64_zero : float64 := S754_zero false.
Definition f64_one : float64 := f64_of_Z 1.
Definition f32_zero : float32 := S754_zero false.

(** A counter after [n] increments ([x += 1]).  Below 2^53 that is the integer
    [n] itself ([f64_count_exact] below); beyond, an increment no longer
    changes it, as in the program. *)
Definition f64_count (n : nat) : float64 := Nat.iter n (fun x => f64_add x f64_one) f64_zero.

(** [Duration.Seconds]: whole seconds plus the fraction. *)
Definition Seconds (d : duration) : float64 :=
  f64_add (f64_of_Z (Z.quot d second)) (f64_div (f64_of_Z (Z.rem d second)) (f64_of_Z second)).

Example Seconds_1500ms : Seconds (1500 * millisecond) = f64_div (f64_of_Z 3) (f64_of_Z 2).
Proof. vm_compute. reflexivity. Qed.

#[export] Instance spec_float_eq_dec : EqDecision spec_float.
Proof. solve_decision. Defined.

(** ** Counting in a float

    Integers below 2^53 are represented exactly, and so is their successor. *)
(** [p] shifted left by [n]. *)
Definition f_shl (n : nat) (p : positive) : positive := Nat.iter n xO p.

Lemma f_shl_add (n k : nat) (p : positive) : f_shl n (f_shl k p) = f_shl (n + k) p.
Proof. unfold f_shl. by rewrite Nat.iter_add. Qed.

Lemma Zpos_f_shl (n : nat) (p : positive) : Zpos (f_shl n p) = Zpos p * 2 ^ Z.of_nat n.
Proof.
  induction n as [|n IH]; [cbn; lia|]. change (f_shl (Datatypes.S n) p) with (xO (f_shl n p)).
  rewrite Pos2Z.inj_xO, IH, Nat2Z.inj_succ, Z.pow_succ_r by lia. lia.
Qed.

Definition f_digits (p : positive) : nat := Pos.to_nat (digits2_pos p).

Lemma f_digits_shl (n : nat) (p : positive) : f_digits (f_shl n p) = (f_digits p + n)%nat.
Proof.
  unfold f_digits. induction n as [|n IH]; [cbn; lia|]. change (f_shl (Datatypes.S n) p) with (xO (f_shl n p)).
  cbn [digits2_pos]. rewrite Pos2Nat.inj_succ, IH. lia.
Qed.

Lemma f_digits_small (p : positive) (n : nat) : Zpos p < 2 ^ Z.of_nat n -> (1 <= f_digits p <= n)%nat.
Proof.
  intros Hp. assert (He : digits2_pos p = Pos.size p) by (clear; induction p; cbn; congruence).
  pose proof (Pos.size_le p) as Hs. unfold f_digits. rewrite He. split; [lia|].
  destruct (decide (Pos.to_nat (Pos.size p) <= n)%nat) as [|Hn]; [done|].
  assert (2 ^ (Z.of_nat n + 1) <= 2 ^ Zpos (Pos.size p)) as Hm by (apply Z.pow_le_mono_r; lia).
  rewrite Z.pow_add_r in Hm by lia. lia.
Qed.

Lemma shift_left (p : positive) (e : Z) (n : nat) :
  shl_align p e (e - Z.of_nat n) = (f_shl n p, e - Z.of_nat n).
Proof.
  unfold shl_align. replace (e - Z.of_nat n - e) with (- Z.of_nat n) by lia.
  destruct n as [|n]; [by rewrite Z.sub_0_r|]. cbn [Z.of_nat Z.opp]. f_equal.
  change (Pos.iter xO p (Pos.of_succ_nat n) = f_shl (Datatypes.S n) p).
  rewrite Pos2Nat.inj_iter, SuccNat2Pos.id_succ. done.
Qed.

Lemma shift_right (p : positive) (e : Z) (n : nat) :
  shr {| shr_m := Zpos (f_shl n p); shr_r := false; shr_s := false |} e (Z.of_nat n)
  = ({| shr_m := Zpos p; shr_r := false; shr_s := false |}, e + Z.of_nat n).
Proof.
  assert (Hit : forall {A} (f : A -> A) q x, SpecFloat.iter_pos f q x = Nat.iter (Pos.to_nat q) f x).
  { intros A f q. induction q as [q IH|q IH|]; intros x; cbn [SpecFloat.iter_pos]; [| |done].
    - rewrite !IH, <-Nat.iter_add, Pos2Nat.inj_xI, <-Nat.iter_succ_r. f_equal. lia.
    - rewrite !IH, <-Nat.iter_add, Pos2Nat.inj_xO. f_equal. lia. }
  destruct n as [|n]; [cbn; by rewrite Z.add_0_r|]. unfold shr. cbn [Z.of_nat]. f_equal.
  rewrite Hit, SuccNat2Pos.id_succ. generalize (Datatypes.S n) as k. clear n.
  induction k as [|k IH]; [done|]. rewrite Nat.iter_succ_r. exact IH.
Qed.

(** The float of an integer below 2^53: 53 f_digits, an exact exponent. *)
Definition f_canon (p : positive) : float64 :=
  S754_finite false (f_shl (53 - f_digits p) p) (Z.of_nat (f_digits p) - 53).

Lemma fexp_small (e : Z) : 0 <= e -> fexp 53 1024 e = e - 53.
Proof. intros. unfold fexp, emin. lia. Qed.

Lemma round_aux_exact (p : positive) (k j : nat) :
  (1 <= f_digits p <= 53)%nat -> (k = 53 - f_digits p + j)%nat ->
  binary_round_aux 53 1024 false (Zpos (f_shl k p)) (- Z.of_nat k) loc_Exact = f_canon p.
Proof.
  intros Hd ->. unfold binary_round_aux, shr_fexp, Zdigits2. rewrite Nat.add_comm, <-f_shl_add.
  set (q := f_shl (53 - f_digits p) p). assert (Hq : f_digits q = 53%nat) by (unfold q; rewrite f_digits_shl; lia).
  assert (Hz : forall r, Zpos (digits2_pos r) = Z.of_nat (f_digits r)) by (intros; unfold f_digits; lia).
  rewrite Hz, fexp_small, f_digits_shl, Hq by (rewrite ?f_digits_shl; lia).
  replace (Z.of_nat (53 + j) + - Z.of_nat (j + (53 - f_digits p)) - 53 - - Z.of_nat (j + (53 - f_digits p))) with (Z.of_nat j) by lia.
  cbn [shr_record_of_loc]. rewrite shift_right. cbn [shr_m loc_of_shr_record round_nearest_even].
  rewrite Hz, fexp_small, Hq by lia.
  match goal with |- context [shr _ _ ?n] => replace n with 0 by lia end. cbn [shr shr_m shr_record_of_loc].
  unfold f_canon. fold q. destruct (Z.leb_spec (- Z.of_nat (j + (53 - f_digits p)) + Z.of_nat j) (1024 - 53)); [|lia]. f_equal. lia.
Qed.

Lemma binary_round_exact (p : positive) (k : nat) :
  (1 <= f_digits p <= 53)%nat -> binary_round 53 1024 false (f_shl k p) (- Z.of_nat k) = f_canon p.
Proof.
  intros Hd. unfold binary_round.
  assert (Hz : forall r, Zpos (digits2_pos r) = Z.of_nat (f_digits r)) by (intros; unfold f_digits; lia).
  rewrite Hz, fexp_small, f_digits_shl by (rewrite ?f_digits_shl; lia).
  destruct (decide (k <= 53 - f_digits p)%nat) as [Hk|Hk].
  - replace (Z.of_nat (f_digits p + k) + - Z.of_nat k - 53) with (- Z.of_nat k - Z.of_nat (53 - f_digits p - k)) by lia.
    rewrite shift_left, f_shl_add.
    replace (- Z.of_nat k - _) with (- Z.of_nat (53 - f_digits p - k + k)) by lia.
    apply (round_aux_exact p _ 0); lia.
  - unfold shl_align. destruct (_ - - Z.of_nat k) eqn:He; [lia|..|lia].
    apply (round_aux_exact p k (k - (53 - f_digits p))); lia.
Qed.

Lemma f64_of_small (p : positive) : Zpos p < 2 ^ 53 -> f64_of_Z (Zpos p) = f_canon p.
Proof. intros Hp. apply (binary_round_exact p 0). by apply (f_digits_small p 53). Qed.

(** A counter counts exactly while it is below 2^53. *)
Lemma f64_succ (z : Z) : 0 <= z -> z + 1 < 2 ^ 53 -> f64_add (f64_of_Z z) f64_one = f64_of_Z (z + 1).
Proof.
  intros H0 H1. destruct z as [|p|]; [vm_compute; reflexivity| |lia].
  replace (Zpos p + 1) with (Zpos (p + 1)) in * by lia.
  rewrite !f64_of_small by lia. pose proof (f_digits_small p 53 ltac:(lia)) as Hd.
  unfold f64_add, f_canon at 1. unfold f64_one. rewrite (f64_of_small 1) by lia.
  change (f_canon 1) with (S754_finite false (f_shl 52 1) (-52)). cbn [SFadd cond_Zopp].
  replace (Z.min _ _) with (Z.of_nat (f_digits p) - 53 - Z.of_nat (f_digits p - 1)) by lia.
  rewrite shift_left, f_shl_add. replace (_ - 53 - _) with (-52 - Z.of_nat 0) by lia. rewrite shift_left. cbn [fst].
  replace (_ + _) with (Zpos (f_shl 52 (p + 1))); [apply (binary_round_exact (p + 1) 52), (f_digits_small _ 53); lia|].
  rewrite !Zpos_f_shl. replace (Z.of_nat (f_digits p - 1 + (53 - f_digits p))) with (Z.of_nat 52) by lia. cbn [f_shl Nat.iter nat_rect]. lia.
Qed.

Lemma f64_count_exact (n : nat) : Z.of_nat n < 2 ^ 53 -> f64_count n = f64_of_Z (Z.of_nat n).
Proof.
  induction n as [|n IH]; intros Hn; [done|]. change (f64_add (f64_count n) f64_one = f64_of_Z (Z.of_nat (Datatypes.S n))).
  rewrite IH, f64_succ by lia. f_equal. lia.
Qed.
