(* ===== verification/GoStrings.v ===== *)
(** * Go strings

    Go strings and byte slices are byte sequences: [string] (for literals and
    map keys) and [list ascii] (for slices), with the functions of the
    packages [strings], [bytes], [strconv] and [unicode/utf8] the agent
    calls. *)
From Stdlib Require Export Ascii.
From stdpp Require Export pretty.
From S2P Require Import Prelude.

Abbreviation bytes := (list ascii) (only parsing).
Definition B (s : string) : bytes := String.list_ascii_of_string s.
Definition S (l : bytes) : string := String.string_of_list_ascii l.

Lemma S_B (s : string) : S (B s) = s.
Proof. apply String.string_of_list_ascii_of_string. Qed.
Lemma B_S (l : bytes) : B (S l) = l.
Proof. apply String.list_ascii_of_string_of_list_ascii. Qed.
#[export] Hint Rewrite S_B B_S : go_simpl.

#[export] Instance B_inj : Inj (=) (=) B.
Proof. intros x y H. by rewrite <-(S_B x), H, S_B. Qed.

Lemma B_append (s t : string) : B (s +:+ t) = B s ++ B t.
Proof. unfold B. induction s as [|c s IH]; cbn; [done|]. by rewrite <-IH. Qed.
#[export] Hint Rewrite B_append : go_simpl.

(** The value of a byte. *)
Definition byteval (c : ascii) : Z := Z.of_N (N_of_ascii c).
Definition byte_of_Z (z : Z) : ascii := ascii_of_N (Z.to_N (z mod 256)).

Lemma byteval_range (c : ascii) : 0 <= byteval c < 256.
Proof. unfold byteval. pose proof (N_ascii_bounded c). lia. Qed.
Lemma byteval_of_Z (z : Z) : byteval (byte_of_Z z) = z mod 256.
Proof.
  unfold byteval, byte_of_Z. pose proof (Z.mod_pos_bound z 256 eq_refl).
  rewrite N_ascii_embedding; lia.
Qed.
Lemma byte_of_byteval (c : ascii) : byte_of_Z (byteval c) = c.
Proof.
  unfold byte_of_Z. rewrite Z.mod_small by apply byteval_range.
  unfold byteval. rewrite N2Z.id. apply ascii_N_embedding.
Qed.

(** ** UTF-8

    [runes l] decodes [l] as [for _, r := range string(l)] does: each rune
    with the bytes it was read from, and U+FFFD for each byte that does not
    start a valid encoding. *)
Definition rune_error : Z := 65533.
Definition cont (c : ascii) : bool := (128 <=? byteval c) && (byteval c <=? 191).
Definition lead2 (a b : ascii) : bool :=
  (194 <=? byteval a) && (byteval a <=? 223) && cont b.
Definition lead3 (a b c : ascii) : bool :=
  let x := byteval a in let y := byteval b in
  (224 <=? x) && (x <=? 239) && cont b && cont c
  && (if x =? 224 then 160 <=? y else true) && (if x =? 237 then y <=? 159 else true).
Definition lead4 (a b c d : ascii) : bool :=
  let x := byteval a in let y := byteval b in
  (240 <=? x) && (x <=? 244) && cont b && cont c && cont d
  && (if x =? 240 then 144 <=? y else true) && (if x =? 244 then y <=? 143 else true).
Definition low6 (c : ascii) : Z := Z.land (byteval c) 63.

Fixpoint runes (l : bytes) : list (Z * bytes) :=
  match l with
  | [] => []
  | a :: t0 =>
      let bad := fun _ : unit => (rune_error, [a]) :: runes t0 in
      if byteval a <? 128 then (byteval a, [a]) :: runes t0
      else match t0 with
           | [] => bad tt
           | b :: t1 =>
               if lead2 a b then (Z.land (byteval a) 31 * 64 + low6 b, [a; b]) :: runes t1
               else match t1 with
                    | [] => bad tt
                    | c :: t2 =>
                        if lead3 a b c
                        then (Z.land (byteval a) 15 * 4096 + low6 b * 64 + low6 c, [a; b; c]) :: runes t2
                        else match t2 with
                             | [] => bad tt
                             | d :: t3 =>
                                 if lead4 a b c d
                                 then (Z.land (byteval a) 7 * 262144 + low6 b * 4096 + low6 c * 64 + low6 d,
                                       [a; b; c; d]) :: runes t3
                                 else bad tt
                             end
                    end
           end
  end.

(** The bytes of a rune sequence. *)
Definition unrunes (rs : list (Z * bytes)) : bytes := concat (map snd rs).

Lemma unrunes_app (r1 r2 : list (Z * bytes)) : unrunes (r1 ++ r2) = unrunes r1 ++ unrunes r2.
Proof. unfold unrunes. by rewrite map_app, concat_app. Qed.

(** Decoding loses no byte. *)
Lemma unrunes_runes (l : bytes) : unrunes (runes l) = l.
Proof.
  remember (length l) as n eqn:Hn. revert l Hn.
  induction n as [n IH] using lt_wf_ind. intros l ->.
  assert (Hsub : forall k, (length k < length l)%nat -> unrunes (runes k) = k) by eauto.
  clear IH. unfold unrunes in *.
  destruct l as [|a t0]; [done|]. cbn [length] in Hsub. cbn [runes].
  repeat case_match; subst; cbn [map concat snd length app] in *;
    rewrite Hsub by (cbn [length]; lia); done.
Qed.

(** [unicode.IsSpace]. *)
Definition is_space (r : Z) : bool :=
  ((9 <=? r) && (r <=? 13)) || (r =? 32) || (r =? 133) || (r =? 160) || (r =? 5760)
  || ((8192 <=? r) && (r <=? 8202)) || (r =? 8232) || (r =? 8233) || (r =? 8239)
  || (r =? 8287) || (r =? 12288).

Fixpoint dropwhile {A} (p : A -> bool) (l : list A) : list A :=
  match l with
  | [] => []
  | x :: t => if p x then dropwhile p t else l
  end.

Definition space_rune (r : Z * bytes) : bool := is_space r.1.

(** [strings.TrimSpace]. *)
Definition TrimSpace (l : bytes) : bytes :=
  unrunes (reverse (dropwhile space_rune (reverse (dropwhile space_rune (runes l))))).

(** [strings.Fields]. *)
Fixpoint fields_go (rs : list (Z * bytes)) (cur : bytes) : list bytes :=
  match rs with
  | [] => match cur with [] => [] | _ => [cur] end
  | r :: t =>
      if space_rune r
      then match cur with [] => fields_go t [] | _ => cur :: fields_go t [] end
      else fields_go t (cur ++ r.2)
  end.
Definition Fields (l : bytes) : list bytes := fields_go (runes l) [].

(** [strings.ToLower] and [strings.ToUpper], up to the non-ASCII letters whose
    image is not ASCII: those keep their bytes here.  The agent compares the
    results with ASCII words only, so the letters with an ASCII image
    (U+0130, U+212A; U+0131, U+017F) are the ones that matter. *)
Definition lower_rune (r : Z * bytes) : bytes :=
  if (65 <=? r.1) && (r.1 <=? 90) then [byte_of_Z (r.1 + 32)]
  else if r.1 =? 304 then ["i"%char] else if r.1 =? 8490 then ["k"%char] else r.2.
Definition upper_rune (r : Z * bytes) : bytes :=
  if (97 <=? r.1) && (r.1 <=? 122) then [byte_of_Z (r.1 - 32)]
  else if r.1 =? 305 then ["I"%char] else if r.1 =? 383 then ["S"%char] else r.2.
Definition ToLower (l : bytes) : bytes := concat (map lower_rune (runes l)).
Definition ToUpper (l : bytes) : bytes := concat (map upper_rune (runes l)).

(** ** Prefixes, suffixes, searching and splitting *)
Fixpoint HasPrefix (l p : bytes) {struct p} : bool :=
  match p, l with
  | [], _ => true
  | c :: p', d :: l' => bool_decide (c = d) && HasPrefix l' p'
  | _ :: _, [] => false
  end.
Definition HasSuffix (l p : bytes) : bool := HasPrefix (reverse l) (reverse p).
Definition TrimPrefix (l p : bytes) : bytes := if HasPrefix l p then drop (length p) l else l.
Definition CutPrefix (l p : bytes) : option bytes :=
  if HasPrefix l p then Some (drop (length p) l) else None.
Definition CutSuffix (l p : bytes) : option bytes :=
  if HasSuffix l p then Some (take (length l - length p) l) else None.
Fixpoint Contains (l p : bytes) : bool :=
  HasPrefix l p || match l with [] => false | _ :: t => Contains t p end.

(** [bytes.IndexByte] and [bytes.LastIndexByte]; [None] is -1. *)
Fixpoint IndexByte (l : bytes) (c : ascii) : option nat :=
  match l with
  | [] => None
  | d :: t => if bool_decide (d = c) then Some 0%nat else Datatypes.S <$> IndexByte t c
  end.
Definition LastIndexByte (l : bytes) (c : ascii) : option nat :=
  (fun i => length l - 1 - i)%nat <$> IndexByte (reverse l) c.

(** [strings.Cut] at a one-byte separator. *)
Definition Cut (l : bytes) (c : ascii) : option (bytes * bytes) :=
  (fun i => (take i l, drop (Datatypes.S i) l)) <$> IndexByte l c.

(** [strings.Split] and [strings.SplitN] (n > 0) at a one-byte separator. *)
Fixpoint Split (l : bytes) (c : ascii) : list bytes :=
  match l with
  | [] => [[]]
  | d :: t =>
      if bool_decide (d = c) then [] :: Split t c
      else match Split t c with
           | w :: ws => (d :: w) :: ws
           | [] => [[d]]
           end
  end.
Fixpoint SplitN (l : bytes) (c : ascii) (n : nat) : list bytes :=
  match n with
  | O => []
  | 1%nat => [l]
  | Datatypes.S n' =>
      match Cut l c with
      | Some (a, b) => a :: SplitN b c n'
      | None => [l]
      end
  end.
(** [strings.Join] with a one-byte separator. *)
Fixpoint Join (ls : list bytes) (c : ascii) : bytes :=
  match ls with
  | [] => []
  | [l] => l
  | l :: t => l ++ c :: Join t c
  end.

(** [strings.TrimRight] with a set of ASCII bytes. *)
Definition TrimRight (l cutset : bytes) : bytes :=
  reverse (dropwhile (fun c => bool_decide (c ∈ cutset)) (reverse l)).

Lemma HasPrefix_spec (l p : bytes) : HasPrefix l p = true <-> exists t, l = p ++ t.
Proof.
  revert l. induction p as [|c p IH]; intros l; cbn.
  - split; [by exists l|done].
  - destruct l as [|d l]; cbn; [split; [done|by intros [t ?]]|].
    rewrite andb_true_iff, bool_decide_eq_true, IH. split.
    + intros [-> [t ->]]. by exists t.
    + intros [t [= -> ->]]. eauto.
Qed.

Lemma HasPrefix_app (p t : bytes) : HasPrefix (p ++ t) p = true.
Proof. apply HasPrefix_spec. eauto. Qed.

Lemma HasPrefix_length (l p : bytes) : HasPrefix l p = true -> (length p <= length l)%nat.
Proof. rewrite HasPrefix_spec. intros [t ->]. rewrite length_app. lia. Qed.

Lemma IndexByte_Some (l : bytes) (c : ascii) (i : nat) :
  IndexByte l c = Some i ->
  (i < length l)%nat /\ l = take i l ++ c :: drop (Datatypes.S i) l /\ c ∉ take i l.
Proof.
  revert i. induction l as [|d l IH]; intros i; cbn [IndexByte]; [done|].
  case_bool_decide as Hd; [intros [= <-]; subst; cbn; split; [lia|split; [done|apply not_elem_of_nil]]|].
  rewrite fmap_Some. intros (j & Hj & ->). destruct (IH _ Hj) as (? & Heq & Hni). cbn.
  split; [lia|]. split; [by f_equal|]. rewrite not_elem_of_cons. split; congruence.
Qed.

Lemma IndexByte_None (l : bytes) (c : ascii) : IndexByte l c = None <-> c ∉ l.
Proof.
  induction l as [|d l IH]; cbn [IndexByte].
  - split; [intros _; apply not_elem_of_nil|done].
  - rewrite not_elem_of_cons, <-IH. case_bool_decide as Hd.
    + split; [done|naive_solver].
    + rewrite fmap_None. naive_solver.
Qed.

Lemma IndexByte_app (l k : bytes) (c : ascii) :
  c ∉ l -> IndexByte (l ++ c :: k) c = Some (length l).
Proof.
  induction l as [|d l IH]; cbn [IndexByte app length]; intros H.
  - by rewrite bool_decide_eq_true_2.
  - rewrite not_elem_of_cons in H. destruct H as [Hd Hl].
    rewrite bool_decide_eq_false_2 by congruence. by rewrite IH.
Qed.

Lemma Cut_app (l k : bytes) (c : ascii) : c ∉ l -> Cut (l ++ c :: k) c = Some (l, k).
Proof.
  intros H. unfold Cut. rewrite IndexByte_app by done. cbn. f_equal. f_equal.
  - by rewrite take_app_length.
  - rewrite drop_app_ge by lia. by replace (Datatypes.S (length l) - length l)%nat with 1%nat by lia.
Qed.

Lemma Cut_None (l : bytes) (c : ascii) : c ∉ l -> Cut l c = None.
Proof. intros H. unfold Cut. by rewrite (proj2 (IndexByte_None l c) H). Qed.

Lemma Cut_Some (l a b : bytes) (c : ascii) :
  Cut l c = Some (a, b) -> l = a ++ c :: b /\ c ∉ a.
Proof.
  unfold Cut. rewrite fmap_Some. intros (i & Hi & [= -> ->]).
  apply IndexByte_Some in Hi as (_ & ? & ?). done.
Qed.

Lemma Split_nonempty (l : bytes) (c : ascii) : Split l c <> [].
Proof. destruct l; cbn; [done|]. repeat case_match; done. Qed.

(** Splitting and joining are inverse. *)
Lemma Join_Split (l : bytes) (c : ascii) : Join (Split l c) c = l.
Proof.
  induction l as [|d l IH]; cbn [Split]; [done|].
  pose proof (Split_nonempty l c) as Hne.
  destruct (Split l c) as [|w ws] eqn:E; [done|].
  case_bool_decide as Hd; [subst d; cbn [Join app]; by f_equal|].
  rewrite <-IH. by destruct ws.
Qed.

Lemma Split_no_sep (l w : bytes) (c : ascii) : w ∈ Split l c -> c ∉ w.
Proof.
  revert w. induction l as [|d l IH]; intros w; cbn [Split].
  - rewrite list_elem_of_singleton. intros ->. apply not_elem_of_nil.
  - case_bool_decide as Hd.
    + rewrite elem_of_cons. intros [->|H]; [apply not_elem_of_nil|eauto].
    + pose proof (Split_nonempty l c). destruct (Split l c) as [|u us]; [done|].
      rewrite elem_of_cons. intros [->|H'].
      * rewrite not_elem_of_cons. split; [congruence|]. apply IH. by left.
      * apply IH. by right.
Qed.

(** ** ASCII text *)
Definition ascii_rune (c : ascii) : Z * bytes := (byteval c, [c]).

Lemma runes_ascii (l : bytes) : Forall (fun c => byteval c < 128) l -> runes l = map ascii_rune l.
Proof.
  induction 1 as [|c l Hc Hl IH]; [done|]. cbn [runes map].
  destruct (Z.ltb_spec (byteval c) 128); [|lia]. by rewrite IH.
Qed.

(** Decoding splits before an ASCII byte, which never continues a rune. *)
Lemma runes_app_ascii (l : bytes) (c : ascii) (k : bytes) :
  byteval c < 128 -> runes (l ++ c :: k) = runes l ++ runes (c :: k).
Proof.
  intros Hc. remember (length l) as n eqn:Hn. revert l Hn.
  induction n as [n IH] using lt_wf_ind. intros l ->.
  assert (Hsub : forall m, (length m < length l)%nat -> runes (m ++ c :: k) = runes m ++ runes (c :: k)) by eauto.
  clear IH. destruct l as [|x t0]; [done|].
  assert (Hnc : cont c = false) by (unfold cont; lia).
  rewrite <- app_comm_cons. cbn [length] in Hsub.
  destruct (Z.ltb_spec (byteval x) 128) as [Hx|Hx].
  { cbn [runes]. rewrite !(proj2 (Z.ltb_lt _ _) Hx). rewrite Hsub by lia. done. }
  destruct t0 as [|y t1].
  { cbn [app runes]. rewrite (proj2 (Z.ltb_ge _ _) Hx). unfold lead2, lead3, lead4. rewrite Hnc, !andb_false_r. cbn.
    repeat case_match; done. }
  pose proof (Hsub (y :: t1) ltac:(cbn; lia)) as Hbad. rewrite <- app_comm_cons in Hbad.
  cbn [app].
  destruct (lead2 x y) eqn:H2.
  { cbn [runes]. rewrite (proj2 (Z.ltb_ge _ _) Hx), H2, Hsub by (cbn; lia). done. }
  assert (Hstep : forall t2, runes (x :: y :: t2) =
     match t2 with
     | [] => (rune_error, [x]) :: runes (y :: t2)
     | z :: t3 =>
        if lead3 x y z then (Z.land (byteval x) 15 * 4096 + low6 y * 64 + low6 z, [x; y; z]) :: runes t3
        else match t3 with
             | [] => (rune_error, [x]) :: runes (y :: t2)
             | w :: t4 => if lead4 x y z w then (Z.land (byteval x) 7 * 262144 + low6 y * 4096 + low6 z * 64 + low6 w,
                                       [x; y; z; w]) :: runes t4
                          else (rune_error, [x]) :: runes (y :: t2)
             end
     end).
  { intros t2. cbn [runes]. rewrite (proj2 (Z.ltb_ge _ _) Hx), H2. done. }
  rewrite !Hstep, Hbad. destruct t1 as [|z t2]; cbn [app].
  { unfold lead3, lead4. rewrite Hnc, !andb_false_r. cbn. destruct k; by rewrite ?andb_false_r. }
  destruct (lead3 x y z); [rewrite Hsub by (cbn; lia); done|].
  destruct t2 as [|w t3]; cbn [app].
  { unfold lead4. by rewrite Hnc, !andb_false_r. }
  destruct (lead4 x y z w); [rewrite Hsub by (cbn; lia); done|done].
Qed.

(** A byte above ASCII never starts an ASCII rune. *)
Lemma runes_high (c : ascii) (l : bytes) :
  128 <= byteval c -> match runes (c :: l) with x :: _ => 128 <= x.1 | [] => False end.
Proof.
  intros Hc. pose proof (byteval_range c). cbn [runes]. rewrite (proj2 (Z.ltb_ge _ _) Hc).
  assert (Hlow : forall d, low6 d = byteval d mod 64) by (intros d; apply (Z.land_ones _ 6); lia).
  destruct l as [|b [|d l]]; cbn [fst]; [done| |].
  - destruct (lead2 c b) eqn:H2; cbn [fst]; [|done]. unfold lead2, cont in H2. rewrite Hlow.
    change 31 with (Z.ones 5). rewrite Z.land_ones by lia. change (2 ^ 5) with 32. Z.div_mod_to_equations; lia.
  - destruct (lead2 c b) eqn:H2; cbn [fst].
    { unfold lead2, cont in H2. rewrite Hlow. change 31 with (Z.ones 5). rewrite Z.land_ones by lia. change (2 ^ 5) with 32. Z.div_mod_to_equations; lia. }
    destruct (lead3 c b d) eqn:H3; cbn [fst].
    { unfold lead3, cont in H3. rewrite !Hlow. change 15 with (Z.ones 4). rewrite Z.land_ones by lia. change (2 ^ 4) with 16.
      destruct (Z.eqb_spec (byteval c) 224), (Z.eqb_spec (byteval c) 237); Z.div_mod_to_equations; lia. }
    destruct l as [|e l]; cbn [fst]; [done|]. destruct (lead4 c b d e) eqn:H4; cbn [fst]; [|done].
    unfold lead4, cont in H4. rewrite !Hlow. change 7 with (Z.ones 3). rewrite Z.land_ones by lia. change (2 ^ 3) with 8.
    destruct (Z.eqb_spec (byteval c) 240), (Z.eqb_spec (byteval c) 244); Z.div_mod_to_equations; lia.
Qed.

Lemma runes_embed (a l b : bytes) :
  Forall (fun c => byteval c < 128) l -> l <> [] -> runes (a ++ l ++ b) = runes a ++ map ascii_rune l ++ runes b.
Proof.
  intros Hl Hne. destruct l as [|c l]; [done|]. inversion Hl; subst. cbn [app].
  rewrite runes_app_ascii by done. f_equal. clear Hne a. revert c Hl H1. induction l as [|d l IH]; intros c Hl Hc; cbn [app map].
  - cbn [runes]. by rewrite (proj2 (Z.ltb_lt _ _) Hc).
  - inversion Hl as [|?? _ Hl']; subst. inversion Hl'; subst. cbn [app map] in IH.
    change (runes (c :: d :: l ++ b)) with (runes (([c] ++ d :: l ++ b))). rewrite runes_app_ascii by done.
    rewrite IH by done. cbn [runes]. by rewrite (proj2 (Z.ltb_lt _ _) Hc).
Qed.

Lemma unrunes_ascii (l : bytes) : unrunes (map ascii_rune l) = l.
Proof. unfold unrunes. induction l as [|c l IH]; [done|]. cbn in *. by rewrite IH. Qed.

Definition plain_byte (c : ascii) : Prop := byteval c < 128 /\ is_space (byteval c) = false.

Lemma dropwhile_none {A} (p : A -> bool) (l : list A) :
  Forall (fun x => p x = false) l -> dropwhile p l = l.
Proof. intros H. destruct H as [|x l Hx Hl]; [done|]. cbn. by rewrite Hx. Qed.

(** Text without spaces is left alone by [TrimSpace]. *)
Lemma TrimSpace_plain (l : bytes) : Forall plain_byte l -> TrimSpace l = l.
Proof.
  intros H. unfold TrimSpace. rewrite runes_ascii by (eapply Forall_impl; [exact H|by intros ? []]).
  assert (Hs : Forall (fun r => space_rune r = false) (map ascii_rune l)).
  { apply Forall_map. eapply Forall_impl; [exact H|]. by intros ? []. }
  rewrite (dropwhile_none _ (map ascii_rune l)) by done.
  rewrite dropwhile_none by by apply Forall_reverse. rewrite reverse_involutive. apply unrunes_ascii.
Qed.

(** Text that starts and ends with a byte that is not a space is left alone. *)
Lemma fields_go_plain (l cur : bytes) :
  Forall plain_byte l -> fields_go (map ascii_rune l) cur = fields_go [] (cur ++ l).
Proof.
  intros H. revert cur. induction H as [|c l [Hc Hs] Hl IH]; intros cur; cbn [map fields_go].
  - by rewrite app_nil_r.
  - unfold space_rune at 1. cbn. rewrite Hs, IH. by rewrite <-app_assoc.
Qed.

(** ** Lines of words

    Text as the kernel prints it: ASCII words separated by single spaces,
    possibly indented. *)
Definition word (w : bytes) : Prop := Forall plain_byte w /\ w <> [].
Definition space : ascii := " "%char.
Definition newline : ascii := "010"%char.

Lemma Join_ascii (ws : list bytes) : Forall word ws -> Forall (fun c => byteval c < 128) (Join ws space).
Proof.
  intros H. induction H as [|w ws [Hw _] Hws IH]; [constructor|].
  assert (Forall (fun c => byteval c < 128) w) by (eapply Forall_impl; [exact Hw|by intros ? []]).
  cbn. destruct ws; [done|]. apply Forall_app. split; [done|]. by constructor.
Qed.

Lemma fields_go_word (w cur : bytes) (rest : list (Z * bytes)) :
  Forall plain_byte w -> fields_go (map ascii_rune w ++ rest) cur = fields_go rest (cur ++ w).
Proof.
  intros H. revert cur. induction H as [|c l [Hc Hs] Hl IH]; intros cur; cbn [map app fields_go].
  - by rewrite app_nil_r.
  - unfold space_rune at 1. cbn. rewrite Hs, IH. by rewrite <-app_assoc.
Qed.

(** Splitting a joined line gives the words back. *)
Lemma fields_go_Join (ws : list bytes) : Forall word ws -> fields_go (map ascii_rune (Join ws space)) [] = ws.
Proof.
  induction 1 as [|w ws [Hw Hne] Hws IH]; [done|]. cbn [Join]. destruct ws as [|w' ws'].
  - rewrite fields_go_plain by done. by destruct w.
  - rewrite map_app, fields_go_word by done. cbn [map fields_go app]. rewrite IH.
    change (space_rune (ascii_rune space)) with true. by destruct w.
Qed.

Lemma Fields_Join (ws : list bytes) : Forall word ws -> Fields (Join ws space) = ws.
Proof. intros H. unfold Fields. rewrite runes_ascii by by apply Join_ascii. by apply fields_go_Join. Qed.

Lemma dropwhile_replicate {A} (p : A -> bool) (n : nat) (x : A) (l : list A) :
  p x = true -> dropwhile p (replicate n x ++ l) = dropwhile p l.
Proof. intros Hx. induction n as [|n IH]; [done|]. cbn. by rewrite Hx. Qed.

Lemma dropwhile_head {A} (p : A -> bool) (x : A) (l : list A) : p x = false -> dropwhile p (x :: l) = x :: l.
Proof. intros H. cbn. by rewrite H. Qed.

(** A joined line starts and ends with a byte that is not a space. *)
Lemma Join_ends (ws : list bytes) :
  Forall word ws -> ws <> [] ->
  exists c d m, plain_byte c /\ plain_byte d /\
    (Join ws space = [c] /\ c = d \/ Join ws space = c :: m ++ [d]).
Proof.
  induction 1 as [|w ws [Hw Hne] Hws IH]; [done|]. intros _. destruct w as [|c w]; [done|].
  inversion Hw as [|?? Hc Hw']; subst. cbn [Join]. destruct ws as [|w' ws'].
  - destruct w as [|x w0] eqn:E using rev_ind; [exists c, c, []; by eauto|].
    apply Forall_app in Hw' as [_ Hx]. inversion Hx; subst. exists c, x, w0. split_and!; [done..|by right].
  - destruct IH as (c1 & d1 & m1 & H1 & H2 & H3); [done|].
    destruct H3 as [[H3 ->]|H3]; rewrite H3.
    + exists c, d1, (w ++ [space]). split_and!; [done..|]. right. cbn. by rewrite <- app_assoc.
    + exists c, d1, (w ++ space :: c1 :: m1). split_and!; [done..|]. right. cbn. by rewrite <- !app_assoc.
Qed.

Lemma plain_not_space (c : ascii) : plain_byte c -> space_rune (ascii_rune c) = false.
Proof. by intros []. Qed.

(** ** [bufio.Scanner] over lines

    Lines end at a newline, a carriage return before it is dropped, a last
    line without newline counts when it is not empty, and a line that does
    not fit the scanner's buffer of 64 KiB ends the scan with an error. *)
Definition max_token : nat := Z.to_nat 65536.
Definition drop_cr (l : bytes) : bytes := match CutSuffix l ["013"%char] with Some w => w | None => l end.

Fixpoint scan_go (segs : list bytes) : list bytes * bool :=
  match segs with
  | [] => ([], false)
  | seg :: rest =>
      if (max_token <=? length seg)%nat then ([], true)
      else match seg, rest with
           | [], [] => ([], false)
           | _, _ => let '(ls, err) := scan_go rest in (drop_cr seg :: ls, err)
           end
  end.
(** The lines scanned and whether the scan failed. *)
Definition ScanLines (data : bytes) : list bytes * bool := scan_go (Split data newline).
