(* ===== verification/GoText.v ===== *)
(** * Searching and cutting text at a substring

    [strings.Index], [strings.Cut], [strings.Split] and [strings.Trim] with a
    separator or a set of several bytes, beside the single-byte versions of
    [GoStrings]. *)
From S2P Require Import Prelude GoStrings.
Local Open Scope Z_scope.

(** [strings.Index] of a text that is not empty. *)
Fixpoint IndexStr (l sep : bytes) : option nat :=
  if HasPrefix l sep then Some 0%nat
  else match l with
       | [] => None
       | _ :: t => Datatypes.S <$> IndexStr t sep
       end.

Definition CutStr (l sep : bytes) : option (bytes * bytes) :=
  (fun i => (take i l, drop (i + length sep) l)) <$> IndexStr l sep.

(** [strings.Split]: occurrences from the left that do not overlap; [skip]
    counts the bytes of a separator still to pass. *)
Fixpoint split_str (sep l cur : bytes) (skip : nat) : list bytes :=
  match l with
  | [] => [cur]
  | c :: t =>
      match skip with
      | Datatypes.S k => split_str sep t cur k
      | O => if HasPrefix l sep then cur :: split_str sep t [] (length sep - 1) else split_str sep t (cur ++ [c]) 0
      end
  end.
Definition SplitStr (l sep : bytes) : list bytes := split_str sep l [] 0.

(** [strings.Trim] with an ASCII cutset. *)
Definition Trim (l cutset : bytes) : bytes :=
  let p c := bool_decide (c ∈ cutset) in reverse (dropwhile p (reverse (dropwhile p l))).

Definition TrimSuffix (l s : bytes) : bytes := default l (CutSuffix l s).

Example text_runs : (CutStr (B "Size: 16 GB") (B ": "), SplitStr (B "a--b----c") (B "--"), S (Trim (B "[www]") (B "[]")), IndexStr (B "ab") (B "b"))
  = (Some (B "Size", B "16 GB"), map B ["a"; "b"; ""; "c"]%string, "www"%string, Some 1%nat).
Proof. vm_compute. reflexivity. Qed.

(** ** The first occurrence *)
Lemma IndexStr_Some (l sep : bytes) (i : nat) : IndexStr l sep = Some i ->
  exists t, l = take i l ++ sep ++ t /\ forall j, (j < i)%nat -> HasPrefix (drop j l) sep = false.
Proof.
  revert i. induction l as [|c l IH]; intros i; cbn [IndexStr].
  - destruct (HasPrefix [] sep) eqn:E; [|done]. intros [= <-]. apply HasPrefix_spec in E as [t Ht]. exists t. split; [done|lia].
  - destruct (HasPrefix (c :: l) sep) eqn:E.
    + intros [= <-]. apply HasPrefix_spec in E as [t Ht]. exists t. split; [done|lia].
    + intros (k & Hk & ->)%fmap_Some. destruct (IH k Hk) as (t & Ht & Hno). exists t. cbn [take app]. split; [by rewrite <-Ht|].
      intros [|j] Hj; [done|]. apply Hno. lia.
Qed.

(** A text in which the separator starts nowhere before the end of [a]. *)
Lemma IndexStr_at (a sep t : bytes) : (forall j, (j < length a)%nat -> HasPrefix (drop j (a ++ sep ++ t)) sep = false) ->
  IndexStr (a ++ sep ++ t) sep = Some (length a).
Proof.
  induction a as [|c a IH]; intros H; cbn [app length].
  - destruct (sep ++ t) eqn:E; cbn [IndexStr]; rewrite <-E, HasPrefix_app; done.
  - cbn [IndexStr]. specialize (H 0%nat) as H0. cbn in H0. rewrite H0 by lia. rewrite IH; [done|].
    intros j Hj. apply (H (Datatypes.S j)). cbn. lia.
Qed.

Lemma IndexStr_None (l sep : bytes) : IndexStr l sep = None <-> forall j, HasPrefix (drop j l) sep = false.
Proof.
  induction l as [|c l IH]; cbn [IndexStr].
  - destruct (HasPrefix [] sep) eqn:E; split; intros H; try done; [specialize (H 0%nat); cbn in H; congruence|by intros []].
  - destruct (HasPrefix (c :: l) sep) eqn:E; split; intros H; try done; [specialize (H 0%nat); cbn in H; congruence| |].
    + apply fmap_None in H. intros [|j]; [done|]. by apply IH.
    + apply fmap_None, IH. intros j. apply (H (Datatypes.S j)).
Qed.

(** ** Splitting what was put together *)
Lemma split_str_skip (sep x t cur : bytes) : split_str sep (x ++ t) cur (length x) = split_str sep t cur 0.
Proof. induction x as [|c x IH]; [by destruct t|]. exact IH. Qed.

Lemma split_str_piece (sep a t cur : bytes) : sep <> [] ->
  (forall j, (j < length a)%nat -> HasPrefix (drop j (a ++ sep ++ t)) sep = false) ->
  split_str sep (a ++ sep ++ t) cur 0 = (cur ++ a) :: split_str sep t [] 0.
Proof.
  intros Hne. revert cur. induction a as [|c a IH]; intros cur H; cbn [app].
  - rewrite app_nil_r. destruct sep as [|d s]; [done|]. cbn [app split_str]. change (d :: s ++ t) with ((d :: s) ++ t). rewrite HasPrefix_app.
    f_equal. replace (length (d :: s) - 1)%nat with (length s) by (cbn; lia). apply split_str_skip.
  - cbn [split_str]. pose proof (H 0%nat ltac:(cbn; lia)) as H0. cbn [drop app] in H0. rewrite H0. rewrite IH; [by rewrite <-app_assoc|].
    intros j Hj. apply (H (Datatypes.S j)). cbn. lia.
Qed.

Lemma split_str_end (sep a cur : bytes) : (forall j, HasPrefix (drop j a) sep = false) -> split_str sep a cur 0 = [cur ++ a].
Proof.
  revert cur. induction a as [|c a IH]; intros cur H; cbn [split_str]; [by rewrite app_nil_r|].
  pose proof (H 0%nat) as H0. cbn in H0. rewrite H0. rewrite IH; [by rewrite <-app_assoc|]. intros j. apply (H (Datatypes.S j)).
Qed.
