(* ===== verification/GoMatch.v ===== *)
(** * Shell patterns

    [path.Match]: chunks between stars, character classes, escapes.  A bad
    pattern is [None], which the callers treat as no match. *)
From S2P Require Import Prelude GoStrings.
Local Open Scope Z_scope.

Definition slash : ascii := "/"%char.
Definition star : ascii := "*"%char.
Definition escape : ascii := "\"%char.
Definition open_class : ascii := "["%char.
Definition close_class : ascii := "]"%char.

(** [scanChunk]: what follows the leading stars, up to the next star. *)
Fixpoint chunk_end (inrange : bool) (p : bytes) : bytes * bytes :=
  match p with
  | [] => ([], [])
  | c :: t =>
      if bool_decide (c = escape) then
        match t with
        | [] => ([c], [])
        | d :: t' => let '(a, b) := chunk_end inrange t' in (c :: d :: a, b)
        end
      else if bool_decide (c = star) && negb inrange then ([], p)
      else let '(a, b) := chunk_end (if bool_decide (c = open_class) then true
                                     else if bool_decide (c = close_class) then false else inrange) t in (c :: a, b)
  end.

Fixpoint skip_stars (p : bytes) : bool * bytes :=
  match p with
  | c :: t => if bool_decide (c = star) then (true, (skip_stars t).2) else (false, p)
  | [] => (false, [])
  end.

Definition scanChunk (p : bytes) : bool * bytes * bytes :=
  let '(s, r) := skip_stars p in
  let '(chunk, rest) := chunk_end false r in (s, chunk, rest).

(** [utf8.DecodeRuneInString] and what follows the rune. *)
Definition decode_rune (s : bytes) : Z * bytes :=
  match runes s with
  | (r, bs) :: _ => (r, drop (length bs) s)
  | [] => (rune_error, [])
  end.

(** [getEsc]: one character of a class; something must follow it. *)
Definition getEsc (chunk : bytes) : option (Z * bytes) :=
  match chunk with
  | [] => None
  | c :: t =>
      if bool_decide (c = "-"%char) || bool_decide (c = close_class) then None
      else
        let body := if bool_decide (c = escape) then t else chunk in
        match runes body with
        | (r, bs) :: _ =>
            if (r =? rune_error) && (len bs =? 1) then None
            else match drop (length bs) body with [] => None | rest => Some (r, rest) end
        | [] => None
        end
  end.

(** The ranges of a class: whether one holds the rune, and what follows. *)
Fixpoint class_ranges (fuel : nat) (r : Z) (chunk : bytes) (first matched : bool) : option (bool * bytes) :=
  match fuel with
  | O => None
  | Datatypes.S fuel' =>
      match chunk with
      | c :: t =>
          if bool_decide (c = close_class) && negb first then Some (matched, t)
          else
            match getEsc chunk with
            | None => None
            | Some (lo, d :: rest) =>
                if bool_decide (d = "-"%char) then
                  match getEsc rest with
                  | None => None
                  | Some (hi, rest') => class_ranges fuel' r rest' false (matched || ((lo <=? r) && (r <=? hi)))
                  end
                else class_ranges fuel' r (d :: rest) false (matched || (lo =? r))
            | Some (_, []) => None
            end
      | [] => None
      end
  end.

(** [matchChunk]: [Some None] is a failed match of a well-formed chunk; [s] is
    [None] once the match has failed. *)
Fixpoint matchChunk (fuel : nat) (chunk : bytes) (s : option bytes) : option (option bytes) :=
  match fuel with
  | O => None
  | Datatypes.S fuel' =>
      match chunk with
      | [] => Some s
      | c :: t =>
          let s := match s with Some [] => None | _ => s end in
          if bool_decide (c = open_class) then
            let '(r, s') := match s with Some n => let '(r, n') := decode_rune n in (r, Some n') | None => (0, None) end in
            let '(negated, body) := match t with d :: t' => if bool_decide (d = "^"%char) then (true, t') else (false, t) | [] => (false, t) end in
            match class_ranges (Datatypes.S (length body)) r body true false with
            | None => None
            | Some (matched, rest) => matchChunk fuel' rest (if Bool.eqb matched negated then None else s')
            end
          else if bool_decide (c = "?"%char) then
            matchChunk fuel' t (match s with
                                | Some (x :: n) => if bool_decide (x = slash) then None else Some (decode_rune (x :: n)).2
                                | _ => None
                                end)
          else
            match (if bool_decide (c = escape) then match t with [] => None | d :: t' => Some (d, t') end else Some (c, t)) with
            | None => None
            | Some (d, t') =>
                matchChunk fuel' t' (match s with
                                     | Some (x :: n) => if bool_decide (x = d) then Some n else None
                                     | _ => None
                                     end)
            end
      end
  end.

Definition match_chunk (chunk s : bytes) : option (option bytes) := matchChunk (Datatypes.S (length chunk)) chunk (Some s).

(** The positions a star may skip to: not past a slash. *)
Fixpoint star_skip (last : bool) (chunk name : bytes) : option (option bytes) :=
  match name with
  | [] => Some None
  | c :: t =>
      if bool_decide (c = slash) then Some None
      else match match_chunk chunk t with
           | None => None
           | Some (Some r) => if last && negb (bool_decide (r = [])) then star_skip last chunk t else Some (Some r)
           | Some None => star_skip last chunk t
           end
  end.

(** The check of the rest of a pattern that does not match. *)
Fixpoint rest_ok (fuel : nat) (p : bytes) : bool :=
  match fuel, p with
  | _, [] => true
  | O, _ => false
  | Datatypes.S f, _ => let '(_, chunk, rest) := scanChunk p in
                        match match_chunk chunk [] with None => false | Some _ => rest_ok f rest end
  end.

Fixpoint match_pattern (fuel : nat) (p name : bytes) : option bool :=
  match fuel, p with
  | _, [] => Some (bool_decide (name = []))
  | O, _ => None
  | Datatypes.S f, _ =>
      let '(st, chunk, rest) := scanChunk p in
      if st && bool_decide (chunk = []) then Some (bool_decide (slash ∉ name))
      else
        let last := bool_decide (rest = []) in
        match match_chunk chunk name with
        | None => None
        | Some here =>
            match (match here with
                   | Some r => if negb last || bool_decide (r = []) then Some (Some r) else if st then star_skip last chunk name else Some None
                   | None => if st then star_skip last chunk name else Some None
                   end) with
            | None => None
            | Some (Some r) => match_pattern f rest r
            | Some None => if rest_ok f rest then Some false else None
            end
        end
  end.

Definition Match (p name : bytes) : option bool := match_pattern (Datatypes.S (length p)) p name.
(** [ok, _ := path.Match(p, name)]. *)
Definition matches (p name : bytes) : bool := match Match p name with Some b => b | None => false end.

Example match_runs : map (fun '(p, n) => Match (B p) (B n))
  [("eth*", "eth0"); ("eth*", "veth0"); ("php*-fpm.service", "php8.2-fpm.service"); ("br-*", "br"); ("a[0-9]?", "a1x"); ("a[^0-9]", "a1");
   ("*", "a/b"); ("[", "a"); ("a\*b", "a*b"); ("*x*y", "axby"); ("a*b*", "ac/b")]
  = [Some true; Some false; Some true; Some false; Some true; Some false; Some false; None; Some true; Some true; Some false].
Proof. vm_compute. reflexivity. Qed.

(** ** Literal patterns and prefixes *)
Definition literal_byte (c : ascii) : bool := bool_decide (c ∉ B "*?[]\").

Lemma literal_not (c : ascii) : literal_byte c = true -> c <> star /\ c <> escape /\ c <> open_class /\ c <> "?"%char.
Proof. intros H. apply bool_decide_eq_true_1 in H. split_and!; intros ->; apply H; apply (bool_decide_eq_true_1 _); vm_compute; reflexivity. Qed.

Lemma chunk_end_literal (l t : bytes) : forallb literal_byte l = true -> t = [] \/ (exists t', t = star :: t') ->
  chunk_end false (l ++ t) = (l, t).
Proof.
  intros Hl Ht. induction l as [|c l IH]; cbn [app chunk_end].
  { destruct Ht as [->|[t' ->]]; [done|]. cbn [chunk_end]. rewrite bool_decide_false by done. by rewrite bool_decide_true. }
  cbn [forallb] in Hl. apply andb_true_iff in Hl as [Hc Hl]. pose proof (literal_not c Hc) as (H1 & H2 & H3 & H4).
  assert (H5 : c <> close_class). { intros ->. apply bool_decide_eq_true_1 in Hc. apply Hc. apply (bool_decide_eq_true_1 _); vm_compute; reflexivity. }
  rewrite !bool_decide_false by done. cbn [andb]. by rewrite IH.
Qed.

Lemma skip_stars_literal (l t : bytes) : forallb literal_byte l = true -> l <> [] -> skip_stars (l ++ t) = (false, l ++ t).
Proof.
  destruct l as [|c l]; [done|]. cbn [forallb]. intros Hl _. apply andb_true_iff in Hl as [Hc _].
  destruct (literal_not c Hc) as (H1 & _). cbn [app skip_stars]. by rewrite bool_decide_false.
Qed.

Lemma matchChunk_failed (l : bytes) (fuel : nat) : forallb literal_byte l = true -> (length l < fuel)%nat -> matchChunk fuel l None = Some None.
Proof.
  revert fuel. induction l as [|c l IH]; intros fuel Hl Hf; (destruct fuel as [|fuel]; [cbn in Hf; lia|]); [done|].
  cbn [forallb length] in *. apply andb_true_iff in Hl as [Hc Hl]. destruct (literal_not c Hc) as (H1 & H2 & H3 & H4).
  cbn [matchChunk]. rewrite !bool_decide_false by done. apply IH; [done|lia].
Qed.

Lemma matchChunk_literal (l s : bytes) (fuel : nat) : forallb literal_byte l = true -> (length l < fuel)%nat ->
  matchChunk fuel l (Some s) = Some (if HasPrefix s l then Some (drop (length l) s) else None).
Proof.
  revert s fuel. induction l as [|c l IH]; intros s fuel Hl Hf; (destruct fuel as [|fuel]; [cbn in Hf; lia|]); [by destruct s|].
  cbn [forallb length] in *. apply andb_true_iff in Hl as [Hc Hl]. destruct (literal_not c Hc) as (H1 & H2 & H3 & H4).
  cbn [matchChunk]. rewrite (bool_decide_false (c = open_class)), (bool_decide_false (c = "?"%char)), (bool_decide_false (c = escape)) by done.
  destruct s as [|x s]; cbn [HasPrefix drop]; [apply matchChunk_failed; [done|lia]|].
  destruct (decide (c = x)) as [<-|E].
  - rewrite !bool_decide_true by done. by apply IH; [|lia].
  - rewrite !bool_decide_false by done. apply matchChunk_failed; [done|lia].
Qed.

Lemma match_chunk_literal (l s : bytes) : forallb literal_byte l = true ->
  match_chunk l s = Some (if HasPrefix s l then Some (drop (length l) s) else None).
Proof. intros Hl. apply matchChunk_literal; [done|lia]. Qed.

Lemma matches_prefix (l name : bytes) : forallb literal_byte l = true -> l <> [] ->
  matches (l ++ [star]) name = HasPrefix name l && bool_decide (slash ∉ drop (length l) name).
Proof.
  intros Hl Hne. unfold matches, Match. rewrite length_app, Nat.add_1_r. cbn [match_pattern].
  destruct (l ++ [star]) as [|c0 p0] eqn:Hp; [by destruct l|]. rewrite <-Hp. clear c0 p0 Hp. unfold scanChunk.
  rewrite skip_stars_literal by done. rewrite chunk_end_literal by eauto. cbn [andb].
  rewrite match_chunk_literal by done. rewrite (bool_decide_false ([star] = [])) by done. cbn [negb orb].
  destruct l as [|c l]; [done|]. destruct (HasPrefix name (c :: l)); reflexivity.
Qed.
