(* ===== verification/GoNum.v ===== *)
(** * Numbers and addresses as text

    The parts of [strconv], [encoding/hex], [encoding/binary] and [net] the
    agent uses to read and print numbers and IP addresses. *)
From S2P Require Import Prelude GoStrings.
Local Open Scope Z_scope.

(** ** [strconv.ParseUint], [strconv.ParseInt], [strconv.Atoi] *)
Inductive num_error := ErrSyntax | ErrRange.

Definition digit_val (base : Z) (c : ascii) : option Z :=
  let v := byteval c in
  let d := if (48 <=? v) && (v <=? 57) then Some (v - 48)
           else if (97 <=? v) && (v <=? 122) then Some (v - 87)
           else if (65 <=? v) && (v <=? 90) then Some (v - 55) else None in
  match d with
  | Some n => if n <? base then Some n else None
  | None => None
  end.

(** The digit loop stops at the first byte that is not a digit, and at the
    first digit that takes the number over [maxval]. *)
Fixpoint parse_digits (base maxval : Z) (l : bytes) (n : Z) : Z * option num_error :=
  match l with
  | [] => (n, None)
  | c :: t =>
      match digit_val base c with
      | None => (0, Some ErrSyntax)
      | Some d =>
          if maxval <? n * base + d then (maxval, Some ErrRange)
          else parse_digits base maxval t (n * base + d)
      end
  end.

Definition ParseUint (l : bytes) (base bits : Z) : Z * option num_error :=
  match l with
  | [] => (0, Some ErrSyntax)
  | _ => parse_digits base (2 ^ bits - 1) l 0
  end.

Definition ParseInt (l : bytes) (base bits : Z) : Z * option num_error :=
  let '(neg, rest) :=
    match l with
    | "-"%char :: t => (true, t)
    | "+"%char :: t => (false, t)
    | _ => (false, l)
    end in
  match ParseUint rest base bits with
  | (_, Some ErrSyntax) => (0, Some ErrSyntax)
  | (un, _) =>
      let cutoff := 2 ^ (bits - 1) in
      if negb neg && (cutoff <=? un) then (cutoff - 1, Some ErrRange)
      else if neg && (cutoff <? un) then (- cutoff, Some ErrRange)
      else ((if neg then - un else un), None)
  end.

Definition Atoi (l : bytes) : Z * option num_error := ParseInt l 10 64.

(** [strconv.FormatUint], [strconv.FormatInt], [fmt.Sprintf("%d")]. *)
Definition FormatUint (n : Z) : bytes := B (pretty (Z.to_N n)).
Definition FormatInt (n : Z) : bytes := B (pretty n).

Lemma digit_val_range (base : Z) (c : ascii) (d : Z) : digit_val base c = Some d -> 0 <= d < base.
Proof.
  unfold digit_val. pose proof (byteval_range c).
  repeat case_match; intros; simplify_eq;
    repeat match goal with H : (_ && _)%bool = true |- _ => apply andb_true_iff in H as [??] end; lia.
Qed.

Lemma parse_digits_range (base maxval : Z) (l : bytes) (n : Z) :
  0 <= n <= maxval -> 0 <= base -> 0 <= (parse_digits base maxval l n).1 <= maxval.
Proof.
  revert n. induction l as [|c l IH]; intros n Hn Hb; cbn; [done|].
  destruct (digit_val base c) as [d|] eqn:Hd; cbn; [|lia].
  apply digit_val_range in Hd. destruct (Z.ltb_spec maxval (n * base + d)); cbn; [lia|].
  apply IH; nia.
Qed.

Lemma ParseUint_range (l : bytes) (base bits : Z) :
  0 <= bits -> 0 <= base -> 0 <= (ParseUint l base bits).1 < 2 ^ bits.
Proof.
  intros Hb Hbase. pose proof (Z.pow_pos_nonneg 2 bits ltac:(lia) Hb). unfold ParseUint.
  destruct l; cbn -[parse_digits]; [lia|].
  pose proof (parse_digits_range base (2 ^ bits - 1) (a :: l) 0). lia.
Qed.

Lemma digit_val_pretty (n : N) :
  (n < 10)%N -> digit_val 10 (pretty_N_char n) = Some (Z.of_N n).
Proof. intros H. destruct n as [|p]; [done|]. do 4 (destruct p as [p|p|]; try done; try lia). Qed.

(** Parsing the decimal digits printed for [x] continues with [x]. *)
Lemma parse_digits_pretty (maxval : Z) (x : N) (s : string) :
  Z.of_N x <= maxval ->
  parse_digits 10 maxval (B (pretty_N_go x s)) 0 = parse_digits 10 maxval (B s) (Z.of_N x).
Proof.
  revert s. induction (N.lt_wf_0 x) as [x _ IH]; intros s Hx.
  destruct (decide (x = 0%N)) as [->|Hne]; [by rewrite pretty_N_go_0|].
  rewrite pretty_N_go_step by lia.
  pose proof (N.div_mod' x 10) as Hdm. pose proof (N.mod_lt x 10 ltac:(lia)) as Hm.
  assert (Hle : (x / 10 <= x)%N) by (apply N.Div0.div_le_upper_bound; lia).
  rewrite IH; [|apply N.div_lt; lia|lia].
  cbn [B String.list_ascii_of_string parse_digits].
  change (String.list_ascii_of_string s) with (B s).
  rewrite digit_val_pretty by lia.
  assert (Hsum : Z.of_N (x / 10) * 10 + Z.of_N (x mod 10) = Z.of_N x) by lia.
  rewrite Hsum. by destruct (Z.ltb_spec maxval (Z.of_N x)); [lia|].
Qed.

Lemma pretty_N_go_cons (x : N) (s : string) :
  s <> "" -> exists c t, pretty_N_go x s = String c t.
Proof.
  revert s. induction (N.lt_wf_0 x) as [x _ IH]; intros s Hs.
  destruct (decide (x = 0%N)) as [->|Hne]; [rewrite pretty_N_go_0; destruct s; [done|eauto]|].
  rewrite pretty_N_go_step by lia. apply IH; [apply N.div_lt; lia|done].
Qed.

(** Printing a number and parsing it back gives the number. *)
Lemma ParseUint_FormatUint (n bits : Z) :
  0 <= bits -> 0 <= n < 2 ^ bits -> ParseUint (FormatUint n) 10 bits = (n, None).
Proof.
  intros Hb Hn. unfold FormatUint, ParseUint.
  destruct (decide (n = 0)) as [->|Hne].
  { change (B (pretty (Z.to_N 0))) with ["0"%char]. cbn [parse_digits].
    change (digit_val 10 "0") with (Some 0). cbn match.
    by destruct (Z.ltb_spec (2 ^ bits - 1) (0 * 10 + 0)); [lia|]. }
  unfold pretty, pretty_N. rewrite decide_False by lia.
  destruct (pretty_N_go_cons (Z.to_N n / 10) (String (pretty_N_char (Z.to_N n mod 10)) "")) as (c & t & Hc); [done|].
  rewrite <-pretty_N_go_step in Hc by lia.
  assert (HB : B (pretty_N_go (Z.to_N n) "") = c :: B t) by by rewrite Hc.
  rewrite HB, <-HB. rewrite parse_digits_pretty by lia. cbn. f_equal. lia.
Qed.

(** ** [hex.DecodeString] *)
Fixpoint HexDecode (l : bytes) : option bytes :=
  match l with
  | [] => Some []
  | [_] => None
  | a :: b :: t =>
      match digit_val 16 a, digit_val 16 b, HexDecode t with
      | Some x, Some y, Some r => Some (byte_of_Z (16 * x + y) :: r)
      | _, _, _ => None
      end
  end.

(** The digits the kernel prints ([%02X]). *)
Definition hexdigit_upper (d : Z) : ascii := byte_of_Z (if d <? 10 then 48 + d else 55 + d).
Definition hex_upper (l : bytes) : bytes :=
  concat (map (fun c => [hexdigit_upper (byteval c / 16); hexdigit_upper (byteval c mod 16)]) l).

Lemma digit_val_hexdigit (d : Z) : 0 <= d < 16 -> digit_val 16 (hexdigit_upper d) = Some d.
Proof.
  intros H. unfold digit_val, hexdigit_upper. rewrite byteval_of_Z.
  destruct (Z.ltb_spec d 10); rewrite Z.mod_small by lia;
    repeat case_match; simplify_eq; try (f_equal; lia);
    repeat match goal with
           | H : (_ && _)%bool = true |- _ => apply andb_true_iff in H as [??]
           | H : (_ && _)%bool = false |- _ => apply andb_false_iff in H as [?|?]
           end; try lia; f_equal; lia.
Qed.

Lemma HexDecode_hex_upper (l : bytes) : HexDecode (hex_upper l) = Some l.
Proof.
  induction l as [|c l IH]; [done|].
  change (hex_upper (c :: l)) with
    (hexdigit_upper (byteval c / 16) :: hexdigit_upper (byteval c mod 16) :: hex_upper l).
  pose proof (byteval_range c). pose proof (Z.mod_pos_bound (byteval c) 16 eq_refl).
  pose proof (Z.div_mod (byteval c) 16 ltac:(lia)).
  cbn [HexDecode]. rewrite !digit_val_hexdigit, IH by lia.
  f_equal. f_equal. rewrite <-H1. apply byte_of_byteval.
Qed.

(** ** [net.IP.String] *)
Definition dotted (a b c d : ascii) : bytes :=
  Join [FormatUint (byteval a); FormatUint (byteval b); FormatUint (byteval c); FormatUint (byteval d)] "."%char.

Fixpoint hex_digits (fuel : nat) (n : Z) (acc : bytes) : bytes :=
  match fuel with
  | O => acc
  | Datatypes.S f =>
      let c := byte_of_Z (if n mod 16 <? 10 then 48 + n mod 16 else 87 + n mod 16) in
      if n <? 16 then c :: acc else hex_digits f (n / 16) (c :: acc)
  end.
Definition FormatHex16 (n : Z) : bytes := hex_digits 4 n [].

Fixpoint groups16 (l : bytes) : list Z :=
  match l with
  | a :: b :: t => (byteval a * 256 + byteval b) :: groups16 t
  | _ => []
  end.

(** Length of the run of zero groups at the head. *)
Fixpoint zero_run (g : list Z) : nat :=
  match g with
  | 0 :: t => Datatypes.S (zero_run t)
  | _ => 0%nat
  end.

(** The first longest run of at least two zero groups: start and length. *)
Fixpoint longest_run (g : list Z) (i : nat) (best : nat * nat) : nat * nat :=
  match g with
  | [] => best
  | _ :: t =>
      let l := zero_run g in
      longest_run t (Datatypes.S i) (if (2 <=? l)%nat && (best.2 <? l)%nat then (i, l) else best)
  end.

Fixpoint format_groups (g : list Z) (i start zlen : nat) : bytes :=
  match g with
  | [] => []
  | x :: t =>
      if (start <=? i)%nat && (i <? start + zlen)%nat
      then (if (i =? start)%nat then B "::" else []) ++ format_groups t (Datatypes.S i) start zlen
      else (if (0 <? i)%nat && negb ((0 <? zlen)%nat && (i =? start + zlen)%nat) then [":"%char] else [])
           ++ FormatHex16 x ++ format_groups t (Datatypes.S i) start zlen
  end.

Definition v4in6 (l : bytes) : option bytes :=
  if bool_decide (take 12 l = replicate 10 (byte_of_Z 0) ++ replicate 2 (byte_of_Z 255))
  then Some (drop 12 l) else None.

(** [IP.String] for a slice of 4 or 16 bytes. *)
Definition IPString (l : bytes) : bytes :=
  match l with
  | [a; b; c; d] => dotted a b c d
  | _ =>
      match v4in6 l with
      | Some [a; b; c; d] => dotted a b c d
      | _ =>
          let g := groups16 l in
          let '(start, zlen) := longest_run g 0 (0%nat, 0%nat) in
          format_groups g 0 start zlen
      end
  end.

Definition bytes_of_Zs (l : list Z) : bytes := map byte_of_Z l.

Example IPString_v4 : S (IPString (bytes_of_Zs [127; 0; 0; 1])) = "127.0.0.1".
Proof. vm_compute. reflexivity. Qed.
Example IPString_loopback6 :
  S (IPString (bytes_of_Zs [0;0;0;0;0;0;0;0;0;0;0;0;0;0;0;1])) = "::1".
Proof. vm_compute. reflexivity. Qed.
Example IPString_unspecified6 : S (IPString (replicate 16 (byte_of_Z 0))) = "::".
Proof. vm_compute. reflexivity. Qed.
Example IPString_doc6 :
  S (IPString (bytes_of_Zs [32;1;13;184;0;0;0;1;0;0;0;0;0;0;0;42])) = "2001:db8:0:1::2a".
Proof. vm_compute. reflexivity. Qed.
Example IPString_mapped6 :
  S (IPString (bytes_of_Zs [0;0;0;0;0;0;0;0;0;0;255;255;10;0;0;7])) = "10.0.0.7".
Proof. vm_compute. reflexivity. Qed.

(** ** Round trips through decimal text *)
Definition is_digit (c : ascii) : Prop := 48 <= byteval c <= 57.

Lemma pretty_N_char_digit (n : N) : (n < 10)%N -> is_digit (pretty_N_char n).
Proof. intros H. destruct n as [|p]; [done|]. do 4 (destruct p as [p|p|]; try done; try lia). Qed.

Lemma pretty_N_go_digits (x : N) (s : string) :
  Forall is_digit (B s) -> Forall is_digit (B (pretty_N_go x s)).
Proof.
  revert s. induction (N.lt_wf_0 x) as [x _ IH]; intros s Hs.
  destruct (decide (x = 0%N)) as [->|Hne]; [by rewrite pretty_N_go_0|].
  rewrite pretty_N_go_step by lia. apply IH; [apply N.div_lt; lia|].
  cbn. constructor; [|done]. apply pretty_N_char_digit. apply N.mod_lt. lia.
Qed.

Lemma FormatUint_digits (n : Z) : Forall is_digit (FormatUint n).
Proof.
  unfold FormatUint, pretty, pretty_N. case_decide.
  - vm_compute. repeat constructor; discriminate.
  - by apply pretty_N_go_digits.
Qed.

Lemma FormatUint_nonempty (n : Z) : FormatUint n <> [].
Proof.
  unfold FormatUint, pretty, pretty_N. case_decide; [done|]. rewrite pretty_N_go_step by lia.
  destruct (pretty_N_go_cons (Z.to_N n / 10) (String (pretty_N_char (Z.to_N n mod 10)) "")) as (c & t & ->); done.
Qed.

Lemma is_digit_plain (c : ascii) : is_digit c -> plain_byte c.
Proof. unfold is_digit, plain_byte, is_space. intros H. split; lia. Qed.

Lemma TrimSpace_FormatUint (n : Z) : TrimSpace (FormatUint n) = FormatUint n.
Proof. apply TrimSpace_plain. eapply Forall_impl; [apply FormatUint_digits|apply is_digit_plain]. Qed.

Lemma ParseInt_digits (l : bytes) (base bits : Z) :
  Forall is_digit l ->
  ParseInt l base bits =
    match ParseUint l base bits with
    | (_, Some ErrSyntax) => (0, Some ErrSyntax)
    | (un, _) => if 2 ^ (bits - 1) <=? un then (2 ^ (bits - 1) - 1, Some ErrRange) else (un, None)
    end.
Proof.
  intros Hd. unfold ParseInt. destruct l as [|c l]; [done|]. inversion Hd as [|?? Hc _]; subst.
  assert (Hsign : match c :: l with "-"%char :: t => (true, t) | "+"%char :: t => (false, t) | _ => (false, c :: l) end
                  = (false, c :: l)).
  { destruct c as [[] [] [] [] [] [] [] []]; try done; vm_compute in Hc; naive_solver. }
  rewrite Hsign. destruct (ParseUint (c :: l) base bits) as [un [[]|]]; done.
Qed.

(** Printing a non-negative 64-bit number and reading it back. *)
Lemma Atoi_FormatUint (n : Z) : 0 <= n <= max_i64 -> Atoi (FormatUint n) = (n, None).
Proof.
  intros H. unfold Atoi. rewrite ParseInt_digits by apply FormatUint_digits.
  rewrite ParseUint_FormatUint by go_lia. change (64 - 1) with 63.
  destruct (Z.leb_spec (2 ^ 63) n); [go_lia|done].
Qed.
