(* ===== verification/GoRegexp.v ===== *)
(** * Regular expressions

    The part of Go's [regexp] the agent uses: [Compile] for the syntax its
    patterns are written in, and leftmost-first matching ([MatchString],
    [FindStringSubmatch]) over the runes of the text.  Patterns are kept in
    the development as the source spells them and compiled here. *)
From S2P Require Import Prelude GoStrings.
Local Open Scope Z_scope.

Definition ranges := list (Z * Z).

Inductive re :=
  | RChar (fold neg : bool) (rs : ranges)
  | REmpty
  | RSeq (a b : re)
  | RAlt (a b : re)
  | RStar (greedy : bool) (a : re)
  | RGroup (n : nat) (a : re)
  | RBegin (multiline : bool)
  | REnd (multiline : bool)
  | RWord (neg : bool).

(** ** Matching *)

(** Runes equal up to case: ASCII letters, and the two other runes that fold
    to one. *)
Definition orbit (r : Z) : list Z :=
  if (r =? 107) || (r =? 75) || (r =? 8490) then [107; 75; 8490]
  else if (r =? 115) || (r =? 83) || (r =? 383) then [115; 83; 383]
  else if (97 <=? r) && (r <=? 122) then [r; r - 32]
  else if (65 <=? r) && (r <=? 90) then [r; r + 32] else [r].

Definition in_ranges (rs : ranges) (r : Z) : bool := existsb (fun '(lo, hi) => (lo <=? r) && (r <=? hi)) rs.
Definition char_ok (fold neg : bool) (rs : ranges) (r : Z) : bool :=
  xorb neg (if fold then existsb (in_ranges rs) (orbit r) else in_ranges rs r).

Definition is_word (r : Z) : bool :=
  ((48 <=? r) && (r <=? 57)) || ((65 <=? r) && (r <=? 90)) || ((97 <=? r) && (r <=? 122)) || (r =? 95).

(** A position: the rune before it and the runes after it. *)
Definition position : Type := option Z * list (Z * bytes).
(** Captures: group number, runes at its start, number of runes it spans. *)
Definition captures := list (nat * (list (Z * bytes) * nat)).

Definition at_begin (m : bool) (p : position) : bool :=
  match p.1 with None => true | Some r => m && (r =? 10) end.
Definition at_end (m : bool) (p : position) : bool :=
  match p.2 with [] => true | r :: _ => m && (r.1 =? 10) end.
Definition word_boundary (p : position) : bool :=
  xorb (match p.1 with None => false | Some r => is_word r end)
       (match p.2 with [] => false | r :: _ => is_word r.1 end).

(** A matcher takes a continuation; the iterations of a star must each consume
    something, so [n], the number of runes left, bounds them. *)
Definition cont : Type := position -> captures -> option captures.
Definition star_loop (m : cont -> cont) (greedy : bool) (k : cont) : nat -> cont :=
  fix loop (n : nat) (p : position) (caps : captures) {struct n} : option captures :=
    match n with
    | O => k p caps
    | Datatypes.S n' =>
        let more := fun _ : unit =>
          m (fun p' caps' => if (length p'.2 <? length p.2)%nat then loop n' p' caps' else None) p caps in
        if greedy then match more tt with Some c => Some c | None => k p caps end
        else match k p caps with Some c => Some c | None => more tt end
    end.

Fixpoint bt (r : re) (k : position -> captures -> option captures) (p : position) (caps : captures)
    {struct r} : option captures :=
  match r with
  | RChar fold neg rs =>
      match p.2 with
      | x :: t => if char_ok fold neg rs x.1 then k (Some x.1, t) caps else None
      | [] => None
      end
  | REmpty => k p caps
  | RSeq a b => bt a (bt b k) p caps
  | RAlt a b => match bt a k p caps with Some c => Some c | None => bt b k p caps end
  | RStar greedy a => star_loop (bt a) greedy k (length p.2) p caps
  | RGroup n a =>
      bt a (fun p' caps' => k p' ((n, (p.2, (length p.2 - length p'.2)%nat)) :: caps')) p caps
  | RBegin m => if at_begin m p then k p caps else None
  | REnd m => if at_end m p then k p caps else None
  | RWord neg => if xorb neg (word_boundary p) then k p caps else None
  end.

(** Leftmost match: the captures, group 0 being the whole match. *)
Fixpoint search (r : re) (prev : option Z) (l : list (Z * bytes)) : option captures :=
  match bt (RGroup 0 r) (fun _ caps => Some caps) (prev, l) [] with
  | Some c => Some c
  | None => match l with
            | [] => None
            | x :: t => search r (Some x.1) t
            end
  end.

Definition MatchString (r : re) (s : bytes) : bool :=
  match search r None (runes s) with Some _ => true | None => false end.

Definition capture_text (c : captures) (n : nat) : bytes :=
  match list_find (fun x => x.1 = n) c with
  | Some (_, (_, (l, w))) => unrunes (take w l)
  | None => []
  end.

(** [FindStringSubmatch] for the groups 0 to [n]; a group that took no part is
    the empty string. *)
Definition FindStringSubmatch (r : re) (n : nat) (s : bytes) : option (list bytes) :=
  (fun c => map (capture_text c) (seq 0 (Datatypes.S n))) <$> search r None (runes s).

(** ** Compiling *)
Record flags := { f_i : bool; f_m : bool; f_s : bool }.

Definition digit_class : ranges := [(48, 57)].
Definition space_class : ranges := [(9, 10); (12, 13); (32, 32)].
Definition word_class : ranges := [(48, 57); (65, 90); (95, 95); (97, 122)].
Definition max_rune : Z := 1114111.

(** The complement of a list of ranges that is sorted and disjoint. *)
Fixpoint complement (rs : ranges) (from : Z) : ranges :=
  match rs with
  | [] => if from <=? max_rune then [(from, max_rune)] else []
  | (lo, hi) :: t => (if from <? lo then [(from, lo - 1)] else []) ++ complement t (hi + 1)
  end.

(** The rune of an escape that stands for one rune. *)
Definition escape_rune (c : Z) : option Z :=
  if c =? 110 then Some 10 else if c =? 116 then Some 9 else if c =? 114 then Some 13
  else if c =? 102 then Some 12 else if c =? 118 then Some 11 else if c =? 97 then Some 7
  else if is_word c then None else if c <? 128 then Some c else None.

(** The class of an escape that stands for one: [\d \D \s \S \w \W]. *)
Definition escape_class (c : Z) : option ranges :=
  if c =? 100 then Some digit_class else if c =? 68 then Some (complement digit_class 0)
  else if c =? 115 then Some space_class else if c =? 83 then Some (complement space_class 0)
  else if c =? 119 then Some word_class else if c =? 87 then Some (complement word_class 0) else None.

(** The inside of a bracket class, up to its closing bracket. *)
Fixpoint class_items (l : list Z) (first : bool) (acc : ranges) : option (ranges * list Z) :=
  match l with
  | [] => None
  | 93 :: t => if first then class_item_after t 93 acc else Some (acc, t)
  | 92 :: c :: t =>
      match escape_class c with
      | Some rs => class_items t false (acc ++ rs)
      | None => match escape_rune c with Some r => class_item_after t r acc | None => None end
      end
  | c :: t => class_item_after t c acc
  end
(** After the rune [lo]: a range when a dash and another rune follow. *)
with class_item_after (l : list Z) (lo : Z) (acc : ranges) : option (ranges * list Z) :=
  match l with
  | [] => None
  | 45 :: t =>
      match t with
      | [] => None
      | 93 :: _ => class_items t false (acc ++ [(lo, lo); (45, 45)])
      | 92 :: c :: t' =>
          match escape_rune c with
          | Some hi => if hi <? lo then None else class_items t' false (acc ++ [(lo, hi)])
          | None => None
          end
      | hi :: t' => if hi <? lo then None else class_items t' false (acc ++ [(lo, hi)])
      end
  | 93 :: t => Some (acc ++ [(lo, lo)], t)
  | 92 :: c :: t =>
      match escape_class c with
      | Some rs => class_items t false (acc ++ [(lo, lo)] ++ rs)
      | None => match escape_rune c with Some r => class_item_after t r (acc ++ [(lo, lo)]) | None => None end
      end
  | c :: t => class_item_after t c (acc ++ [(lo, lo)])
  end.

Fixpoint read_number (l : list Z) (acc : option Z) : option Z * list Z :=
  match l with
  | c :: t => if (48 <=? c) && (c <=? 57) then read_number t (Some (default 0 acc * 10 + (c - 48))) else (acc, l)
  | [] => (acc, l)
  end.

(** [{n}], [{n,}] and [{n,m}] after the opening brace. *)
Definition read_bounds (l : list Z) : option (Z * option Z * list Z) :=
  match read_number l None with
  | (Some n, 125 :: t) => Some (n, Some n, t)
  | (Some n, 44 :: t) =>
      match read_number t None with
      | (None, 125 :: t') => Some (n, None, t')
      | (Some m, 125 :: t') => Some (n, Some m, t')
      | _ => None
      end
  | _ => None
  end.

Definition r_opt (greedy : bool) (r : re) : re := if greedy then RAlt r REmpty else RAlt REmpty r.
Fixpoint r_opts (greedy : bool) (r : re) (n : nat) : re :=
  match n with O => REmpty | Datatypes.S n' => r_opt greedy (RSeq r (r_opts greedy r n')) end.
Fixpoint r_copies (r : re) (n : nat) (tail : re) : re :=
  match n with O => tail | Datatypes.S n' => RSeq r (r_copies r n' tail) end.

Definition lazy_mark (l : list Z) : bool * list Z :=
  match l with 63 :: t => (false, t) | _ => (true, l) end.
Definition starts_repeat (l : list Z) : bool :=
  match l with
  | c :: t => (c =? 42) || (c =? 43) || (c =? 63) || ((c =? 123) && match read_bounds t with Some _ => true | None => false end)
  | [] => false
  end.

(** A repetition operator after an atom. *)
Definition parse_repeat (r : re) (l : list Z) : option (re * list Z) :=
  let finish (mk : bool -> re) (t : list Z) :=
    let '(greedy, t') := lazy_mark t in if starts_repeat t' then None else Some (mk greedy, t') in
  match l with
  | 42 :: t => finish (fun g => RStar g r) t
  | 43 :: t => finish (fun g => RSeq r (RStar g r)) t
  | 63 :: t => finish (fun g => r_opt g r) t
  | 123 :: t =>
      match read_bounds t with
      | Some (n, m, t') =>
          match m with
          | None => if 1000 <? n then None else finish (fun g => r_copies r (Z.to_nat n) (RStar g r)) t'
          | Some m => if (1000 <? m) || (m <? n) then None
                      else finish (fun g => r_copies r (Z.to_nat n) (r_opts g r (Z.to_nat (m - n)))) t'
          end
      | None => Some (r, l)
      end
  | _ => Some (r, l)
  end.

Fixpoint read_flags (l : list Z) (fl : flags) : option (flags * Z * list Z) :=
  match l with
  | 105 :: t => read_flags t {| f_i := true; f_m := f_m fl; f_s := f_s fl |}
  | 109 :: t => read_flags t {| f_i := f_i fl; f_m := true; f_s := f_s fl |}
  | 115 :: t => read_flags t {| f_i := f_i fl; f_m := f_m fl; f_s := true |}
  | 58 :: t => Some (fl, 58, t)
  | 41 :: t => Some (fl, 41, t)
  | _ => None
  end.

(** An atom that is not a group. *)
Definition parse_atom (fl : flags) (l : list Z) : option (re * list Z) :=
  match l with
  | 46 :: t => Some (RChar false (negb (f_s fl)) (if f_s fl then [(0, max_rune)] else [(10, 10)]), t)
  | 94 :: t => Some (RBegin (f_m fl), t)
  | 36 :: t => Some (REnd (f_m fl), t)
  | 91 :: 94 :: t => '(rs, t') ← class_items t true []; Some (RChar (f_i fl) true rs, t')
  | 91 :: t => '(rs, t') ← class_items t true []; Some (RChar (f_i fl) false rs, t')
  | 92 :: 98 :: t => Some (RWord false, t)
  | 92 :: 66 :: t => Some (RWord true, t)
  | 92 :: c :: t =>
      match escape_class c with
      | Some rs => Some (RChar (f_i fl) false rs, t)
      | None => r ← escape_rune c; Some (RChar (f_i fl) false [(r, r)], t)
      end
  | 92 :: [] => None
  | c :: t => if (c =? 42) || (c =? 43) || (c =? 63) then None else Some (RChar (f_i fl) false [(c, c)], t)
  | [] => None
  end.

(** An alternation up to the end or a closing parenthesis; [n] is the number
    of the next group. *)
Fixpoint parse_alt (fuel : nat) (fl : flags) (n : nat) (l : list Z) : option (re * flags * nat * list Z) :=
  match fuel with
  | O => None
  | Datatypes.S f =>
      '(a, fl, n, l) ← parse_seq f fl n l;
      match l with
      | 124 :: t => '(b, fl, n, l) ← parse_alt f fl n t; Some (RAlt a b, fl, n, l)
      | _ => Some (a, fl, n, l)
      end
  end
with parse_seq (fuel : nat) (fl : flags) (n : nat) (l : list Z) : option (re * flags * nat * list Z) :=
  match fuel with
  | O => None
  | Datatypes.S f =>
      let continue (a : re) (n : nat) (t : list Z) :=
        '(a, t) ← parse_repeat a t; '(b, fl, n, t) ← parse_seq f fl n t; Some (RSeq a b, fl, n, t) in
      match l with
      | [] => Some (REmpty, fl, n, l)
      | 124 :: _ | 41 :: _ => Some (REmpty, fl, n, l)
      | 40 :: 63 :: t =>
          '(fl', c, t) ← read_flags t fl;
          if c =? 41 then parse_seq f fl' n t
          else '(a, _, n, t) ← parse_alt f fl' n t;
               match t with 41 :: t => continue a n t | _ => None end
      | 40 :: t =>
          '(a, _, n', t) ← parse_alt f fl (Datatypes.S n) t;
          match t with 41 :: t => continue (RGroup n a) n' t | _ => None end
      | _ => '(a, t) ← parse_atom fl l; continue a n t
      end
  end.

Definition no_flags : flags := {| f_i := false; f_m := false; f_s := false |}.

(** [regexp.Compile]; [None] is a syntax error. *)
Definition Compile (pattern : bytes) : option re :=
  let l := map fst (runes pattern) in
  match parse_alt (2 * length l + 2) no_flags 1 l with
  | Some (r, _, _, []) => Some r
  | _ => None
  end.

(** [regexp.MustCompile] of a pattern of the source. *)
Definition MustCompile (pattern : string) : re := default REmpty (Compile (B pattern)).

Definition compiles (pattern : string) : bool := match Compile (B pattern) with Some _ => true | None => false end.

(** ** Checks against the behaviour Go documents *)
Example re_submatch :
  FindStringSubmatch (MustCompile "a(x*)b(y|z)?c") 2 (B "-axxxbyc-") = Some [B "axxxbyc"; B "xxx"; B "y"].
Proof. vm_compute. reflexivity. Qed.
Example re_leftmost_first : FindStringSubmatch (MustCompile "(a|ab)(c|bcd)(d*)") 3 (B "abcd") = Some [B "abcd"; B "a"; B "bcd"; []].
Proof. vm_compute. reflexivity. Qed.
Example re_lazy : FindStringSubmatch (MustCompile "<(.+?)>") 1 (B "<a><b>") = Some [B "<a>"; B "a"].
Proof. vm_compute. reflexivity. Qed.
Example re_fold : MatchString (MustCompile "(?i)\bwarn(ing)?\b") (B "a WARNING:") = true.
Proof. vm_compute. reflexivity. Qed.
Example re_bounds : MatchString (MustCompile "^[a-z0-9][a-z0-9_-]{0,3}$") (B "a-_99") = false.
Proof. vm_compute. reflexivity. Qed.
Example re_bad : compiles "a(b" = false /\ compiles "a**" = false /\ compiles "*a" = false /\ compiles "[b-a]" = false.
Proof. vm_compute. done. Qed.

(** ** Meaning

    The language of an expression between two positions, and that the
    matcher finds a match exactly when there is one. *)
Inductive lang : re -> position -> position -> Prop :=
  | L_char f n rs p x t : p.2 = x :: t -> char_ok f n rs x.1 = true -> lang (RChar f n rs) p (Some x.1, t)
  | L_empty p : lang REmpty p p
  | L_seq a b p q r : lang a p q -> lang b q r -> lang (RSeq a b) p r
  | L_altl a b p q : lang a p q -> lang (RAlt a b) p q
  | L_altr a b p q : lang b p q -> lang (RAlt a b) p q
  | L_stop g a p : lang (RStar g a) p p
  | L_more g a p q r : lang a p q -> (length q.2 < length p.2)%nat -> lang (RStar g a) q r -> lang (RStar g a) p r
  | L_group n a p q : lang a p q -> lang (RGroup n a) p q
  | L_begin m p : at_begin m p = true -> lang (RBegin m) p p
  | L_end m p : at_end m p = true -> lang (REnd m) p p
  | L_word n p : xorb n (word_boundary p) = true -> lang (RWord n) p p.


Lemma star_loop_succ (m : cont -> cont) (g : bool) (k : cont) (n : nat) (p : position) (caps : captures) :
  star_loop m g k (Datatypes.S n) p caps =
  let more := m (fun p' caps' => if (length p'.2 <? length p.2)%nat then star_loop m g k n p' caps' else None) p caps in
  if g then match more with Some c => Some c | None => k p caps end
  else match k p caps with Some c => Some c | None => more end.
Proof. reflexivity. Qed.

(** Whatever the matcher returns was reached through the language. *)
Lemma star_sound (g : bool) (a : re) (k : cont) (n : nat) :
  (forall k p caps res, bt a k p caps = Some res -> exists q caps', lang a p q /\ k q caps' = Some res) ->
  forall p caps res, star_loop (bt a) g k n p caps = Some res ->
  exists q caps', lang (RStar g a) p q /\ k q caps' = Some res.
Proof.
  intros IHa. induction n as [|n IHn]; intros p caps res H; [eauto using lang|].
  rewrite star_loop_succ in H. cbv zeta in H. set (more := bt a _ p caps) in H.
  assert (Hmore : forall c, more = Some c -> exists q caps', lang (RStar g a) p q /\ k q caps' = Some c).
  { intros c Hc. apply IHa in Hc as (q & c' & Hq & Hc). cbn beta in Hc.
    destruct (Nat.ltb_spec (length q.2) (length p.2)); [|done].
    apply IHn in Hc as (q' & c'' & Hq' & Hc). eauto using lang. }
  destruct g.
  - destruct more eqn:E; simplify_eq; eauto using lang.
  - destruct (k p caps) eqn:E; simplify_eq; eauto using lang.
Qed.

Lemma bt_sound (r : re) (k : cont) (p : position) (caps res : captures) :
  bt r k p caps = Some res -> exists q caps', lang r p q /\ k q caps' = Some res.
Proof.
  revert k p caps res. induction r as [f n rs| |a IHa b IHb|a IHa b IHb|g a IHa|n a IHa|m|m|n]; intros k p caps res H; cbn in H.
  - destruct p as [prev [|x t]]; cbn in *; [done|]. destruct (char_ok f n rs x.1) eqn:E; [|done].
    eexists _, _. split; [by eapply L_char|done].
  - eauto using lang.
  - apply IHa in H as (q & c & Hq & H). apply IHb in H as (q' & c' & Hq' & H). eauto using lang.
  - destruct (bt a k p caps) as [c|] eqn:E; simplify_eq.
    + apply IHa in E as (q & c' & Hq & H). eauto using lang.
    + apply IHb in H as (q & c' & Hq & H). eauto using lang.
  - by eapply star_sound in H.
  - apply IHa in H as (q & c & Hq & H). eauto using lang.
  - destruct (at_begin m p) eqn:E; [|done]. eauto using lang.
  - destruct (at_end m p) eqn:E; [|done]. eauto using lang.
  - destruct (xorb n (word_boundary p)) eqn:E; [|done]. eauto using lang.
Qed.

(** A match in the language whose continuation succeeds is found. *)
Lemma star_complete (g : bool) (a : re) (k : cont) (p q : position) :
  (forall k p q, lang a p q -> (forall caps, is_Some (k q caps)) -> forall caps, is_Some (bt a k p caps)) ->
  lang (RStar g a) p q -> (forall caps, is_Some (k q caps)) ->
  forall n caps, (length p.2 <= n)%nat -> is_Some (star_loop (bt a) g k n p caps).
Proof.
  intros IHa Hl Hk. remember (RStar g a) as s eqn:Hs.
  induction Hl as [| | | | |g' a' p|g' a' p q r Hpq _ Hlt Hqr IH| | | |]; simplify_eq; intros n caps Hn.
  - destruct n; [apply Hk|]. rewrite star_loop_succ. cbv zeta. destruct g; [destruct (bt a _ p caps); eauto|]. destruct (Hk caps) as [? ->]; eauto.
  - destruct n as [|n]; [lia|]. rewrite star_loop_succ. cbv zeta.
    set (k' := fun (p' : position) (caps' : captures) =>
      if (length p'.2 <? length p.2)%nat then star_loop (bt a) g k n p' caps' else None).
    assert (Hb : is_Some (bt a k' p caps)).
    { apply (IHa k' p q Hpq). intros caps'. subst k'. cbv beta. rewrite (proj2 (Nat.ltb_lt _ _)) by done.
      apply IH; [done..|lia]. }
    destruct Hb as [c Hc]. rewrite Hc. destruct g; [eauto|]. destruct (k p caps); eauto.
Qed.

Lemma bt_complete (r : re) (k : cont) (p q : position) :
  lang r p q -> (forall caps, is_Some (k q caps)) -> forall caps, is_Some (bt r k p caps).
Proof.
  revert k p q. induction r as [f n rs| |a IHa b IHb|a IHa b IHb|g a IHa|n a IHa|m|m|n]; intros k p q Hl Hk caps; cbn.
  5: { by eapply star_complete. }
  all: inversion Hl; subst; try done.
  - match goal with H : p.2 = _ |- _ => rewrite H end. match goal with H : char_ok _ _ _ _ = true |- _ => rewrite H end. apply Hk.
  - eapply IHa; [done|]. intros c. by eapply IHb.
  - edestruct (IHa k p q) as [c Hc]; [done..|]. rewrite Hc. eauto.
  - destruct (bt a k p caps); [eauto|]. by eapply IHb.
  - eapply IHa; [done|]. intros c. apply Hk.
  - match goal with H : at_begin _ _ = true |- _ => rewrite H end. apply Hk.
  - match goal with H : at_end _ _ = true |- _ => rewrite H end. apply Hk.
  - match goal with H : xorb _ _ = true |- _ => rewrite H end. apply Hk.
Qed.

(** The rune before the suffix of a text after [pre]. *)
Definition prev_of (prev : option Z) (pre : list (Z * bytes)) : option Z := match last pre with Some x => Some x.1 | None => prev end.

Lemma search_spec (r : re) (prev : option Z) (l : list (Z * bytes)) :
  is_Some (search r prev l) <-> exists pre suf q, l = pre ++ suf /\ lang r (prev_of prev pre, suf) q.
Proof.
  revert prev. induction l as [|x l IH]; intros prev; cbn [search].
  - split.
    + intros [c Hc]. destruct (bt (RGroup 0 r) _ (prev, []) []) eqn:E; [|done].
      apply bt_sound in E as (q & c' & Hq & _). inversion Hq; subst. by exists [], [], q.
    + intros (pre & suf & q & Heq & Hl). symmetry in Heq. apply app_nil in Heq as [-> ->].
      destruct (bt_complete (RGroup 0 r) (fun _ caps => Some caps) (prev, []) q ltac:(by constructor) ltac:(eauto) []) as [c ->]. eauto.
  - split.
    + intros [c Hc]. destruct (bt (RGroup 0 r) _ (prev, x :: l) []) eqn:E.
      * apply bt_sound in E as (q & c' & Hq & _). inversion Hq; subst. by exists [], (x :: l), q.
      * destruct (proj1 (IH (Some x.1)) ltac:(eauto)) as (pre & suf & q & -> & Hl). exists (x :: pre), suf, q.
        split; [done|]. destruct pre; [done|]. unfold prev_of in *. change (last (x :: p :: pre)) with (last (p :: pre)).
        destruct (last_is_Some (p :: pre)) as [_ H]. destruct H as [y Hy]; [done|]. by rewrite Hy in *.
    + intros (pre & suf & q & Heq & Hl). destruct (bt (RGroup 0 r) _ (prev, x :: l) []) eqn:E; [eauto|].
      apply IH. destruct pre as [|y pre]; cbn in Heq; simplify_eq.
      * destruct (bt_complete (RGroup 0 r) (fun _ caps => Some caps) (prev, x :: l) q ltac:(by constructor) ltac:(eauto) []). congruence.
      * exists pre, suf, q. split; [done|]. unfold prev_of in *. destruct pre as [|z pre]; [done|].
        change (last (y :: z :: pre)) with (last (z :: pre)) in Hl.
        destruct (last_is_Some (z :: pre)) as [_ H]. destruct H as [w Hw]; [done|]. by rewrite Hw in *.
Qed.

(** [MatchString] decides whether some part of the text is in the language. *)
Lemma MatchString_spec (r : re) (s : bytes) :
  MatchString r s = true <-> exists pre suf q, runes s = pre ++ suf /\ lang r (prev_of None pre, suf) q.
Proof. unfold MatchString. rewrite <- search_spec. destruct (search r None (runes s)); split; [eauto|done|done|by intros []]. Qed.

(** A literal ASCII pattern matches exactly where its bytes stand. *)
Fixpoint lits (l : bytes) : re :=
  match l with
  | [] => REmpty
  | c :: t => RSeq (RChar false false [(byteval c, byteval c)]) (lits t)
  end.

Lemma lits_lang (l : bytes) (prev : option Z) (rest : list (Z * bytes)) :
  exists q, lang (lits l) (prev, map ascii_rune l ++ rest) q.
Proof.
  revert prev. induction l as [|c l IH]; intros prev; cbn [lits map app]; [eauto using lang|].
  destruct (IH (Some (byteval c))) as [q Hq]. exists q. eapply L_seq; [|exact Hq].
  eapply (L_char false false _ _ (ascii_rune c)); [done|]. unfold char_ok, in_ranges. cbn. rewrite !Z.leb_refl. done.
Qed.

Lemma MatchString_lits (a l b : bytes) :
  Forall (fun c => byteval c < 128) l -> l <> [] -> MatchString (lits l) (a ++ l ++ b) = true.
Proof.
  intros Hl Hne. apply MatchString_spec. rewrite runes_embed by done.
  destruct (lits_lang l (prev_of None (runes a)) (runes b)) as [q Hq]. exists (runes a), (map ascii_rune l ++ runes b), q.
  done.
Qed.
