(* ===== verification/GoFlag.v ===== *)
(** * Command-line flags and durations as text

    The parts of Go's [flag], [strconv] and [time] packages the configuration
    uses: [FlagSet.Parse], the values of boolean, integer, string and duration
    flags, and [time.ParseDuration]. *)
From S2P Require Import Prelude GoFloat GoStrings GoNum.
Local Open Scope Z_scope.

(** ** [time.ParseDuration] *)
Definition is_num (c : ascii) : bool := (48 <=? byteval c) && (byteval c <=? 57).
Definition dot : ascii := "."%char.

(** [leadingInt]: [None] is the overflow error. *)
Fixpoint leadingInt (s : bytes) (x : Z) : option (Z * bytes) :=
  match s with
  | c :: t =>
      if is_num c then
        if 2 ^ 63 / 10 <? x then None
        else let x' := x * 10 + (byteval c - 48) in if 2 ^ 63 <? x' then None else leadingInt t x'
      else Some (x, s)
  | [] => Some (x, s)
  end.

(** [leadingFraction]: digits after an overflow are skipped. *)
Fixpoint leadingFraction (s : bytes) (x : Z) (scale : float64) (overflow : bool) : Z * float64 * bytes :=
  match s with
  | c :: t =>
      if is_num c then
        if overflow || ((2 ^ 63 - 1) / 10 <? x) then leadingFraction t x scale true
        else let y := x * 10 + (byteval c - 48) in
             if 2 ^ 63 <? y then leadingFraction t x scale true
             else leadingFraction t y (f64_mul scale (f64_of_Z 10)) false
      else (x, scale, s)
  | [] => (x, scale, s)
  end.

(** The bytes before the next digit or dot. *)
Fixpoint unit_of (s : bytes) : bytes * bytes :=
  match s with
  | c :: t => if is_num c || bool_decide (c = dot) then ([], s) else let '(u, r) := unit_of t in (c :: u, r)
  | [] => ([], [])
  end.

Definition unitMap (u : bytes) : option Z :=
  if bool_decide (u = B "ns") then Some nanosecond
  else if bool_decide (u = B "us") || bool_decide (u = map byte_of_Z [194; 181; 115]) || bool_decide (u = map byte_of_Z [206; 188; 115]) then Some 1000
  else if bool_decide (u = B "ms") then Some millisecond
  else if bool_decide (u = B "s") then Some second
  else if bool_decide (u = B "m") then Some minute
  else if bool_decide (u = B "h") then Some hour
  else None.

(** One term of the sum: its value and the rest. *)
Definition duration_term (s : bytes) : option (Z * bytes) :=
  match s with
  | [] => None
  | c :: _ =>
      if negb (is_num c || bool_decide (c = dot)) then None
      else
        '(v, s1) ← leadingInt s 0;
        let pre := negb (len s1 =? len s) in
        let '(f, scale, s2, post) :=
          match s1 with
          | d :: t => if bool_decide (d = dot)
                      then let '(f, scale, r) := leadingFraction t 0 f64_one false in (f, scale, r, negb (len r =? len t))
                      else (0, f64_one, s1, false)
          | [] => (0, f64_one, s1, false)
          end in
        if negb pre && negb post then None
        else
          let '(u, s3) := unit_of s2 in
          match u with
          | [] => None
          | _ =>
              unit ← unitMap u;
              if 2 ^ 63 / unit <? v then None
              else
                let v1 := v * unit in
                if 0 <? f then
                  let v2 := wrap_u64 (v1 + f64_trunc (f64_mul (f64_of_Z f) (f64_div (f64_of_Z unit) scale))) in
                  if 2 ^ 63 <? v2 then None else Some (v2, s3)
                else Some (v1, s3)
          end
  end.

(** The loop; every term takes a byte at least. *)
Fixpoint duration_sum (fuel : nat) (s : bytes) (d : Z) : option Z :=
  match s with
  | [] => Some d
  | _ =>
      match fuel with
      | O => None
      | Datatypes.S f =>
          '(v, rest) ← duration_term s;
          let d' := d + v in
          if 2 ^ 63 <? d' then None else duration_sum f rest d'
      end
  end.

Definition ParseDuration (s : bytes) : option duration :=
  let '(neg, r) := match s with
                   | c :: t => if bool_decide (c = "-"%char) then (true, t) else if bool_decide (c = "+"%char) then (false, t) else (false, s)
                   | [] => (false, s)
                   end in
  if bool_decide (r = B "0") then Some 0
  else match r with
       | [] => None
       | _ =>
           d ← duration_sum (length r) r 0;
           if neg then Some (wrap_i64 (- d))
           else if 2 ^ 63 - 1 <? d then None else Some d
       end.

Example durations : map (fun s => ParseDuration (B s)) ["60s"; "1h30m"; "1.5s"; "-2m"; "0"; ""; "10"; ".s"; "9223372036s"; "9223372037s"; "300ms"; "1d"]
  = [Some (60 * second); Some (90 * minute); Some (1500 * millisecond); Some (-2 * minute); Some 0; None; None; None;
     Some (9223372036 * second); None; Some (300 * millisecond); None].
Proof. vm_compute. reflexivity. Qed.

(** ** [strconv.ParseBool] and [strconv.ParseInt] with base 0 *)
Definition ParseBool (s : bytes) : option bool :=
  if bool_decide (s ∈ map B ["1"; "t"; "T"; "TRUE"; "true"; "True"]) then Some true
  else if bool_decide (s ∈ map B ["0"; "f"; "F"; "FALSE"; "false"; "False"]) then Some false
  else None.

Definition underscore : ascii := "_"%char.
Definition lower_byte (c : ascii) : ascii := byte_of_Z (Z.lor (byteval c) 32).

(** [underscoreOK] on the digits; [prev] is 0 after a digit, 1 after an
    underscore, 2 otherwise. *)
Fixpoint underscores_ok (hex : bool) (prev : Z) (s : bytes) : bool :=
  match s with
  | [] => negb (prev =? 1)
  | c :: t =>
      let v := byteval (lower_byte c) in
      if is_num c || (hex && (97 <=? v) && (v <=? 102)) then underscores_ok hex 0 t
      else if bool_decide (c = underscore) then (if prev =? 0 then underscores_ok hex 1 t else false)
      else if prev =? 1 then false else underscores_ok hex 2 t
  end.

(** The base of a literal and its digits. *)
Definition literal_base (s : bytes) : Z * bytes :=
  match s with
  | c :: t =>
      if bool_decide (c = "0"%char) then
        match t with
        | d :: _ :: _ =>
            if bool_decide (lower_byte d = "b"%char) then (2, drop 1 t)
            else if bool_decide (lower_byte d = "o"%char) then (8, drop 1 t)
            else if bool_decide (lower_byte d = "x"%char) then (16, drop 1 t)
            else (8, t)
        | _ => (8, t)
        end
      else (10, s)
  | [] => (10, s)
  end.

Definition ParseUint0 (s : bytes) : option Z :=
  match s with
  | [] => None
  | _ =>
      let '(base, digits) := literal_base s in
      let plain := List.filter (fun c => negb (bool_decide (c = underscore))) digits in
      match parse_digits base (2 ^ 64 - 1) plain 0 with
      | (n, None) =>
          let prefixed := match s with
                          | c :: d :: t => bool_decide (c = "0"%char) && bool_decide (lower_byte d ∈ B "box")
                          | _ => false
                          end in
          if (len plain =? len digits)
             || underscores_ok (prefixed && bool_decide (lower_byte (nth 1 s "0"%char) = "x"%char)) (if prefixed then 0 else 2) (if prefixed then drop 2 s else s)
          then Some n else None
      | _ => None
      end
  end.

Definition ParseInt0 (s : bytes) : option Z :=
  let '(neg, r) := match s with
                   | c :: t => if bool_decide (c = "-"%char) then (true, t) else if bool_decide (c = "+"%char) then (false, t) else (false, s)
                   | [] => (false, s)
                   end in
  un ← ParseUint0 r;
  if negb neg && (2 ^ 63 <=? un) then None
  else if neg && (2 ^ 63 <? un) then None
  else Some (if neg then - un else un).

Example ints0 : map (fun s => ParseInt0 (B s)) ["200"; "0x1F"; "-5"; "1_000"; "1__0"; "08"; "0"; "0b11"; ""; "9223372036854775808"; "_1"]
  = [Some 200; Some 31; Some (-5); Some 1000; None; None; Some 0; Some 3; None; None; None].
Proof. vm_compute. reflexivity. Qed.

(** ** [flag.FlagSet] *)
Inductive value := VBool (b : bool) | VInt (n : Z) | VStr (s : bytes) | VDur (d : duration).

Definition same_kind (a b : value) : bool :=
  match a, b with
  | VBool _, VBool _ | VInt _, VInt _ | VStr _, VStr _ | VDur _, VDur _ => true
  | _, _ => false
  end.

(** [Value.Set] of a flag whose present value is [v]; [None] is its error. *)
Definition flag_Set (v : value) (s : bytes) : option value :=
  match v with
  | VBool _ => VBool <$> ParseBool s
  | VInt _ => VInt <$> ParseInt0 s
  | VStr _ => Some (VStr s)
  | VDur _ => VDur <$> ParseDuration s
  end.

Inductive flag_error := BadSyntax | NotDefined | HelpRequested | InvalidValue | NeedsArgument.

(** A flag set: the values by name, and the names set on the command line. *)
Record FlagSet := { fs_values : gmap bytes value; fs_actual : gset bytes }.

Definition minus : ascii := "-"%char.
Definition equals : ascii := "="%char.

Definition set_flag (fs : FlagSet) (name : bytes) (v : value) (s : bytes) : flag_error + FlagSet :=
  match flag_Set v s with
  | Some v' => inr {| fs_values := <[name := v']> (fs_values fs); fs_actual := {[name]} ∪ fs_actual fs |}
  | None => inl InvalidValue
  end.

(** [parseOne]: [inl None] is the end of the flags. *)
Definition parseOne (fs : FlagSet) (args : list bytes) : option flag_error + FlagSet * list bytes :=
  match args with
  | [] => inl None
  | s :: rest =>
      match s with
      | m :: m2 :: t =>
          if negb (bool_decide (m = minus)) then inl None
          else if bool_decide (m2 = minus) && bool_decide (t = []) then inl None
          else
            let name := if bool_decide (m2 = minus) then t else m2 :: t in
            match name with
            | [] => inl (Some BadSyntax)
            | c :: _ =>
                if bool_decide (c = minus) || bool_decide (c = equals) then inl (Some BadSyntax)
                else
                  let '(name, val) := match Cut name equals with Some (a, b) => (a, Some b) | None => (name, None) end in
                  match fs_values fs !! name with
                  | None => inl (Some (if bool_decide (name = B "help") || bool_decide (name = B "h") then HelpRequested else NotDefined))
                  | Some v =>
                      let finish (s : bytes) (rest : list bytes) :=
                        match set_flag fs name v s with inl e => inl (Some e) | inr fs' => inr (fs', rest) end in
                      match v, val with
                      | VBool _, Some x => finish x rest
                      | VBool _, None => finish (B "true") rest
                      | _, Some x => finish x rest
                      | _, None => match rest with a :: rest' => finish a rest' | [] => inl (Some NeedsArgument) end
                      end
                  end
            end
      | _ => inl None
      end
  end.

(** [Parse]; each turn takes an argument at least. *)
Fixpoint Parse (fuel : nat) (fs : FlagSet) (args : list bytes) : flag_error + FlagSet :=
  match fuel with
  | O => inr fs
  | Datatypes.S f =>
      match parseOne fs args with
      | inl None => inr fs
      | inl (Some e) => inl e
      | inr (fs', rest) => Parse f fs' rest
      end
  end.

Definition new_flags (defs : list (bytes * value)) : FlagSet := {| fs_values := list_to_map defs; fs_actual := ∅ |}.

Example parse_flags :
  let fs := new_flags [(B "logs", VStr (B "off")); (B "n", VInt 1); (B "v", VBool false)] in
  match Parse 9 fs (map B ["--logs=auto"; "-n"; "7"; "-v"; "rest"; "-n"; "8"]) with
  | inr f => (fs_values f !! B "logs", fs_values f !! B "n", fs_values f !! B "v", bool_decide (B "v" ∈ fs_actual f))
  | inl _ => (None, None, None, false)
  end = (Some (VStr (B "auto")), Some (VInt 7), Some (VBool true), true).
Proof. vm_compute. reflexivity. Qed.

(** ** What parsing guarantees *)

(** A flag keeps its kind, whatever the arguments. *)
Lemma same_kind_refl (v : value) : same_kind v v = true.
Proof. by destruct v. Qed.

Lemma same_kind_trans (u v w : value) : same_kind u v = true -> same_kind v w = true -> same_kind u w = true.
Proof. by destruct u, v, w. Qed.

Lemma flag_Set_kind (v w : value) (s : bytes) : flag_Set v s = Some w -> same_kind v w = true.
Proof. destruct v; cbn; intros H; simplify_option_eq; try (apply fmap_Some in H as (? & _ & ->)); done. Qed.

Lemma flag_Set_same (v w : value) (s : bytes) : same_kind v w = true -> flag_Set v s = flag_Set w s.
Proof. by destruct v, w. Qed.

Definition keeps_kinds (m m' : gmap bytes value) : Prop :=
  forall n, option_relation (fun v w => same_kind v w = true) (fun _ => False) (fun _ => False) (m !! n) (m' !! n).

Lemma keeps_kinds_refl (m : gmap bytes value) : keeps_kinds m m.
Proof. intros n. destruct (m !! n); cbn; [apply same_kind_refl|done]. Qed.

Lemma keeps_kinds_trans (m1 m2 m3 : gmap bytes value) : keeps_kinds m1 m2 -> keeps_kinds m2 m3 -> keeps_kinds m1 m3.
Proof.
  intros H1 H2 n. specialize (H1 n). specialize (H2 n).
  destruct (m1 !! n), (m2 !! n), (m3 !! n); cbn in *; try done. by eapply same_kind_trans.
Qed.

Lemma set_flag_kinds (fs fs' : FlagSet) (name : bytes) (v : value) (s : bytes) :
  fs_values fs !! name = Some v -> set_flag fs name v s = inr fs' -> keeps_kinds (fs_values fs) (fs_values fs').
Proof.
  intros Hv. unfold set_flag. destruct (flag_Set v s) as [w|] eqn:Hw; [|done]. intros [= <-] n. cbn.
  destruct (decide (n = name)) as [->|].
  - rewrite Hv, lookup_insert_eq. by apply flag_Set_kind in Hw.
  - rewrite lookup_insert_ne by done. apply keeps_kinds_refl.
Qed.

(** A successful turn of the loop sets one flag and takes an argument. *)
Lemma parseOne_set (fs fs' : FlagSet) (args rest : list bytes) :
  parseOne fs args = inr (fs', rest) ->
  (exists n v s, fs_values fs !! n = Some v /\ set_flag fs n v s = inr fs') /\ (length rest < length args)%nat.
Proof.
  destruct args as [|[|m [|m2 t]] args]; try done. cbn [parseOne].
  destruct (negb _); [done|]. destruct (_ && _); [done|].
  set (name := if bool_decide (m2 = minus) then t else m2 :: t). destruct name as [|c nm]; [done|].
  destruct (_ || _); [done|].
  destruct (match Cut _ _ with Some p => _ | None => _ end) as [n val].
  destruct (fs_values fs !! n) as [v|] eqn:Hv; [|done].
  intros H.
  assert (forall s r, match set_flag fs n v s with inl e => inl (Some e) | inr fs' => inr (fs', r) end = inr (fs', rest) ->
            (exists n v s, fs_values fs !! n = Some v /\ set_flag fs n v s = inr fs') /\ rest = r) as Hset.
  { intros s r. destruct (set_flag fs n v s) eqn:Hs; [done|]. intros [= -> ->]. split; [by exists n, v, s|done]. }
  destruct v, val as [x|]; cbv zeta beta in H;
    first [destruct args as [|a args]; [done|]; apply Hset in H as [? ->] | apply Hset in H as [? ->]]; cbn; split; (done || lia).
Qed.

Lemma Parse_kinds (fuel : nat) (fs fs' : FlagSet) (args : list bytes) :
  Parse fuel fs args = inr fs' -> keeps_kinds (fs_values fs) (fs_values fs').
Proof.
  revert fs args. induction fuel as [|fuel IH]; intros fs args; cbn [Parse].
  { intros [= ->]. apply keeps_kinds_refl. }
  destruct (parseOne fs args) as [[e|]|[fs1 rest]] eqn:H1; [done| |].
  { intros [= ->]. apply keeps_kinds_refl. }
  intros H. apply IH in H. apply parseOne_set in H1 as [(n & v & t & Hv & Ht) _].
  eapply keeps_kinds_trans; [by eapply set_flag_kinds|done].
Qed.

(** Arguments of the form [--name=text], and the text given last for a flag. *)
Definition flag_arg (g : bytes * bytes) : bytes := minus :: minus :: g.1 ++ equals :: g.2.
Fixpoint last_given (n : bytes) (given : list (bytes * bytes)) : option bytes :=
  match given with
  | [] => None
  | (m, s) :: t => match last_given n t with Some x => Some x | None => if bool_decide (n = m) then Some s else None end
  end.

Definition plain_name (n : bytes) : bool :=
  match n with [] => false | c :: _ => negb (bool_decide (c = minus)) && bool_decide (equals ∉ n) end.

Lemma parseOne_given (fs : FlagSet) (n s : bytes) (v w : value) (rest : list bytes) :
  plain_name n = true -> fs_values fs !! n = Some v -> flag_Set v s = Some w ->
  parseOne fs (flag_arg (n, s) :: rest)
  = inr ({| fs_values := <[n := w]> (fs_values fs); fs_actual := {[n]} ∪ fs_actual fs |}, rest).
Proof.
  intros Hn Hv Hw. unfold parseOne, flag_arg. cbn [fst snd].
  rewrite bool_decide_true by done. cbn [negb andb].
  destruct n as [|c n]; [done|]. cbn in Hn. apply andb_true_iff in Hn as [Hc He].
  apply negb_true_iff, bool_decide_eq_false in Hc. apply bool_decide_eq_true in He.
  rewrite (bool_decide_false ((c :: n) ++ equals :: s = [])) by done.
  destruct ((c :: n) ++ equals :: s) as [|c0 t0] eqn:Hnm; [done|]. injection Hnm as <- Ht. rewrite <-Ht.
  change (c :: (n ++ equals :: s)) with ((c :: n) ++ equals :: s).
  assert (c <> equals) by (intros ->; apply He; left).
  rewrite (bool_decide_false (c = minus)), (bool_decide_false (c = equals)) by done. cbn [orb].
  rewrite Cut_app by done. cbn beta iota. rewrite Hv. unfold set_flag. destruct v; rewrite Hw; done.
Qed.

Lemma Parse_given (fuel : nat) (fs : FlagSet) (given : list (bytes * bytes)) :
  (length given < fuel)%nat ->
  Forall (fun g => plain_name g.1 = true /\ exists v, fs_values fs !! g.1 = Some v /\ is_Some (flag_Set v g.2)) given ->
  exists fs', Parse fuel fs (map flag_arg given) = inr fs'
    /\ (forall n v, fs_values fs !! n = Some v ->
          fs_values fs' !! n = match last_given n given with Some s => flag_Set v s | None => Some v end)
    /\ (forall n, n ∈ fs_actual fs' <-> n ∈ fs_actual fs \/ is_Some (last_given n given)).
Proof.
  revert fs fuel. induction given as [|[n s] given IH]; intros fs fuel Hf H; (destruct fuel as [|fuel]; [cbn in Hf; lia|]).
  - exists fs. split_and!; [done|by intros ? ? ?|]. intros m. cbn. split; [by left|]. by intros [?|[? ?]].
  - apply Forall_cons in H as [(Hn & v & Hv & w & Hw) H]. cbn [fst snd] in *.
    cbn [map Parse]. rewrite (parseOne_given fs n s v w) by done.
    set (fs1 := {| fs_values := _ |}).
    destruct (IH fs1 fuel) as (fs' & -> & Hvals & Hact).
    { cbn in Hf. lia. }
    { eapply Forall_impl; [exact H|]. intros [m x] (Hm & u & Hu & Hx). cbn [fst snd] in *. split; [done|].
      unfold fs1. cbn [fs_values]. destruct (decide (m = n)) as [->|].
      - exists w. rewrite lookup_insert_eq. split; [done|].
        assert (u = v) as -> by congruence.
        erewrite <-flag_Set_same; [exact Hx|]. by eapply flag_Set_kind.
      - exists u. by rewrite lookup_insert_ne. }
    exists fs'. split_and!; [done| |].
    + intros m u Hu. cbn [last_given]. destruct (decide (m = n)) as [->|Hne].
      * rewrite (Hvals n w) by (unfold fs1; cbn [fs_values]; apply lookup_insert_eq).
        assert (u = v) as -> by congruence. rewrite bool_decide_true by done.
        destruct (last_given n given); [|done]. symmetry. apply flag_Set_same. by eapply flag_Set_kind.
      * rewrite (Hvals m u) by (unfold fs1; cbn [fs_values]; by rewrite lookup_insert_ne).
        rewrite bool_decide_false by done. by destruct (last_given m given).
    + intros m. rewrite Hact. unfold fs1. cbn [fs_actual last_given]. rewrite elem_of_union, elem_of_singleton.
      destruct (last_given m given) as [x|]; [split; intros _; [right|right]; by eexists|].
      case_bool_decide; split; try naive_solver. 
Qed.

(** ** Values fit their 64-bit types *)
Lemma leadingInt_nonneg (s r : bytes) (x v : Z) : 0 <= x -> leadingInt s x = Some (v, r) -> 0 <= v.
Proof.
  revert x. induction s as [|c s IH]; intros x Hx; cbn [leadingInt]; [intros [= <- <-]; done|].
  destruct (is_num c) eqn:Hc; [|intros [= <- <-]; done].
  destruct (_ <? x); [done|]. cbv zeta. destruct (_ <? _); [done|].
  unfold is_num in Hc. bool_hyps. apply IH. lia.
Qed.

Lemma unitMap_pos (u : bytes) (z : Z) : unitMap u = Some z -> 0 < z.
Proof. unfold unitMap. repeat case_match; intros; simplify_eq; done. Qed.

Lemma duration_term_nonneg (s r : bytes) (v : Z) : duration_term s = Some (v, r) -> 0 <= v.
Proof.
  unfold duration_term. destruct s as [|c s]; [done|]. destruct (negb _); [done|].
  destruct (leadingInt (c :: s) 0) as [[n s1]|] eqn:Hn; [|done]. apply leadingInt_nonneg in Hn; [|done].
  cbn [mbind option_bind]. cbv zeta.
  destruct (match s1 with [] => _ | _ => _ end) as [[[f scale] s2] post]. destruct (_ && _); [done|].
  destruct (unit_of s2) as [u s3]. destruct u as [|c0 u]; [done|].
  destruct (unitMap (c0 :: u)) as [unit|] eqn:Hu; [|done]. apply unitMap_pos in Hu. cbn [mbind option_bind].
  destruct (_ <? n); [done|]. destruct (0 <? f).
  - destruct (_ <? _); [done|]. intros [= <- <-]. unfold wrap_u64. by apply Z.mod_pos_bound.
  - intros [= <- <-]. lia.
Qed.

Lemma duration_sum_range (fuel : nat) (s : bytes) (d v : Z) :
  0 <= d <= 2 ^ 63 -> duration_sum fuel s d = Some v -> 0 <= v <= 2 ^ 63.
Proof.
  revert s d. induction fuel as [|fuel IH]; intros s d Hd; destruct s as [|c s]; cbn [duration_sum]; try (intros [= <-]; lia).
  destruct (duration_term (c :: s)) as [[x r]|] eqn:Ht; [|done]. apply duration_term_nonneg in Ht. cbn [mbind option_bind].
  destruct (Z.ltb_spec (2 ^ 63) (d + x)); [done|]. apply IH. lia.
Qed.

Lemma ParseDuration_range (s : bytes) (d : duration) : ParseDuration s = Some d -> is_i64 d.
Proof.
  unfold ParseDuration. destruct (match s with [] => _ | _ => _ end) as [neg r].
  destruct (bool_decide _); [intros [= <-]; go_lia|]. destruct r as [|c r]; [done|].
  destruct (duration_sum _ _ _) as [v|] eqn:Hv; [|done]. apply duration_sum_range in Hv; [|lia].
  cbn [mbind option_bind]. destruct neg; [intros [= <-]; apply wrap_i64_range|].
  destruct (Z.ltb_spec (2 ^ 63 - 1) v); [done|]. intros [= <-]. go_lia.
Qed.

Lemma literal_base_nonneg (s : bytes) : 0 <= (literal_base s).1.
Proof. unfold literal_base. repeat case_match; cbn; lia. Qed.

Lemma ParseInt0_range (s : bytes) (n : Z) : ParseInt0 s = Some n -> is_i64 n.
Proof.
  unfold ParseInt0. destruct (match s with [] => _ | _ => _ end) as [neg r].
  destruct (ParseUint0 r) as [un|] eqn:Hu; [|done]. cbn [mbind option_bind].
  assert (0 <= un) as Hun.
  { unfold ParseUint0 in Hu. destruct r as [|c r]; [done|]. pose proof (literal_base_nonneg (c :: r)) as Hb.
    destruct (literal_base (c :: r)) as [base digits]. cbv zeta in Hu. cbn [fst] in Hb.
    set (pl := List.filter _ digits) in Hu.
    pose proof (parse_digits_range base (2 ^ 64 - 1) pl 0 ltac:(lia) Hb) as Hr.
    destruct (parse_digits base (2 ^ 64 - 1) pl 0) as [m [e|]]; [done|].
    destruct (_ || _); [|done]. injection Hu as <-. cbn [fst] in Hr. lia. }
  destruct neg; cbn [negb andb]; [destruct (Z.ltb_spec (2 ^ 63) un)|destruct (Z.leb_spec (2 ^ 63) un)]; try done; intros [= <-]; go_lia.
Qed.

Definition value_ok (v : value) : Prop :=
  match v with VInt n => is_i64 n | VDur d => is_i64 d | _ => True end.

Lemma flag_Set_ok (v w : value) (s : bytes) : flag_Set v s = Some w -> value_ok w.
Proof.
  destruct v; cbn [flag_Set]; intros H; [| |by injection H as <-|]; apply fmap_Some in H as (x & Hx & ->);
    [done|by eapply ParseInt0_range|by eapply ParseDuration_range].
Qed.

Definition values_ok (m : gmap bytes value) : Prop := forall n v, m !! n = Some v -> value_ok v.

Lemma set_flag_ok (fs fs' : FlagSet) (name : bytes) (v : value) (s : bytes) :
  values_ok (fs_values fs) -> set_flag fs name v s = inr fs' -> values_ok (fs_values fs').
Proof.
  intros Hok. unfold set_flag. destruct (flag_Set v s) as [w|] eqn:Hw; [|done]. intros [= <-] n u. cbn.
  destruct (decide (n = name)) as [->|]; [rewrite lookup_insert_eq; intros [= <-]; by eapply flag_Set_ok|].
  rewrite lookup_insert_ne by done. apply Hok.
Qed.

Lemma Parse_ok (fuel : nat) (fs fs' : FlagSet) (args : list bytes) :
  values_ok (fs_values fs) -> Parse fuel fs args = inr fs' -> values_ok (fs_values fs').
Proof.
  revert fs args. induction fuel as [|fuel IH]; intros fs args Hok; cbn [Parse]; [by intros [= ->]|].
  destruct (parseOne fs args) as [[e|]|[fs1 rest]] eqn:H1; [done|by intros [= ->]|].
  apply parseOne_set in H1 as [(n & v & t & Hv & Ht) _]. apply IH. by eapply set_flag_ok.
Qed.
