(* ===== verification/GoFloatText.v ===== *)
(** * Floating-point numbers as text

    [strconv.ParseFloat] with 64 bits: decimal and hexadecimal literals, the
    special values, underscores, and the nearest [float64] of what was read
    (rounding to even, exactly as [strconv] documents; an infinite result is a
    range error). *)
From S2P Require Import Prelude GoFloat GoStrings GoNum GoFlag.
Local Open Scope Z_scope.

(** The digits read so far: their number (leading zeros left out), the integer
    they spell, and the position of the point among them. *)
Record mantissa := { m_digits : Z; m_nd : Z; m_dp : Z; m_dot : bool; m_seen : bool }.
Definition no_digits : mantissa := {| m_digits := 0; m_nd := 0; m_dp := 0; m_dot := false; m_seen := false |}.

Fixpoint scan_mantissa (base : Z) (s : bytes) (m : mantissa) : mantissa * bytes :=
  match s with
  | [] => (m, [])
  | c :: t =>
      if bool_decide (c = underscore) then scan_mantissa base t m
      else if bool_decide (c = dot) then
        if m_dot m then (m, s)
        else scan_mantissa base t {| m_digits := m_digits m; m_nd := m_nd m; m_dp := m_nd m; m_dot := true; m_seen := m_seen m |}
      else match digit_val base c with
           | None => (m, s)
           | Some d =>
               if (d =? 0) && (m_nd m =? 0)
               then scan_mantissa base t {| m_digits := 0; m_nd := 0; m_dp := m_dp m - 1; m_dot := m_dot m; m_seen := true |}
               else scan_mantissa base t {| m_digits := m_digits m * base + d; m_nd := m_nd m + 1; m_dp := m_dp m;
                                            m_dot := m_dot m; m_seen := true |}
           end
  end.

(** The digits of an exponent: it stops growing above 10000. *)
Fixpoint scan_exponent (s : bytes) (e : Z) : Z * bytes :=
  match s with
  | [] => (e, [])
  | c :: t =>
      if bool_decide (c = underscore) then scan_exponent t e
      else if is_num c then scan_exponent t (if e <? 10000 then e * 10 + (byteval c - 48) else e)
      else (e, s)
  end.

(** The exponent after its letter: a sign and at least one digit. *)
Definition read_exponent (s : bytes) : option (Z * bytes) :=
  let '(sign, r) := match s with
                    | c :: t => if bool_decide (c = "+"%char) then (1, t) else if bool_decide (c = "-"%char) then (-1, t) else (1, s)
                    | [] => (1, s)
                    end in
  match r with
  | c :: _ => if is_num c then let '(e, rest) := scan_exponent r 0 in Some (sign * e, rest) else None
  | [] => None
  end.

(** The nearest float of [num / den]; both are positive. *)
Definition nearest (neg : bool) (num den : Z) : float64 :=
  match num, den with
  | Zpos n, Zpos 1 => binary_round 53 1024 neg n 0
  | Zpos n, Zpos d =>
      let '(q, e, l) := SFdiv_core_binary 53 1024 (Zpos n) 0 (Zpos d) 0 in
      binary_round_aux 53 1024 neg q e l
  | _, _ => S754_zero neg
  end.

(** [digits * b ^ e]. *)
Definition scaled (neg : bool) (digits b e : Z) : float64 :=
  if 0 <=? e then nearest neg (digits * b ^ e) 1 else nearest neg digits (b ^ (- e)).

Definition float_value (neg hex : bool) (digits nd dp : Z) : float64 :=
  if digits =? 0 then S754_zero neg
  else if hex then scaled neg digits 2 (dp - 4 * nd)
  else if 310 <? dp then S754_infinity neg
  else if dp <? -330 then S754_zero neg
  else scaled neg digits 10 (dp - nd).

(** [special]: infinity and not-a-number, in any case. *)
Definition special (s : bytes) : option float64 :=
  let '(neg, signed, r) := match s with
                   | c :: t => if bool_decide (c = "-"%char) then (true, true, t) else if bool_decide (c = "+"%char) then (false, true, t) else (false, false, s)
                   | [] => (false, false, s)
                   end in
  let l := map lower_byte r in
  if bool_decide (l = B "inf") || bool_decide (l = B "infinity") then Some (S754_infinity neg)
  else if bool_decide (l = B "nan") && negb signed then Some S754_nan
  else None.

(** The value and whether there was no error. *)
Definition ParseFloat (s : bytes) : float64 * bool :=
  match special s with
  | Some f => (f, true)
  | None =>
      let '(neg, r) := match s with
                       | c :: t => if bool_decide (c = "-"%char) then (true, t) else if bool_decide (c = "+"%char) then (false, t) else (false, s)
                       | [] => (false, s)
                       end in
      let '(hex, body) := match r with
                          | z :: x :: ((_ :: _) as t) => if bool_decide (z = "0"%char) && bool_decide (lower_byte x = "x"%char) then (true, t) else (false, r)
                          | _ => (false, r)
                          end in
      let '(m, rest) := scan_mantissa (if hex then 16 else 10) body no_digits in
      if negb (m_seen m) then (f64_zero, false)
      else
        let dp := if m_dot m then m_dp m else m_nd m in
        let exponent := match rest with
                        | [] => if hex then None else Some (0, [])
                        | c :: t => if bool_decide (lower_byte c = if hex then "p"%char else "e"%char) then read_exponent t
                                    else if hex then None else Some (0, rest)
                        end in
        match exponent with
        | Some (e, []) =>
            if bool_decide (underscore ∈ r) && negb (underscores_ok hex (if hex then 0 else 2) body) then (f64_zero, false)
            else let f := float_value neg hex (m_digits m) (m_nd m) ((if hex then 4 * dp else dp) + e) in
                 (f, match f with S754_infinity _ => false | _ => true end)
        | _ => (f64_zero, false)
        end
  end.

Definition half : float64 := f64_div (f64_of_Z 1) (f64_of_Z 2).
Example floats : map (fun s => ParseFloat (B s)) ["0.5"; "12"; "1e3"; "5e-1"; "0x1p-1"; "1_0.0"; "-0"; "+Inf"; "nan"; "1e309"; ""; "."; "1e"; "_1"; "0x1"; "1.2.3"; "abc"; "-nan"]
  = [(half, true); (f64_of_Z 12, true); (f64_of_Z 1000, true); (half, true); (half, true); (f64_of_Z 10, true); (S754_zero true, true);
     (S754_infinity false, true); (S754_nan, true); (S754_infinity false, false); (f64_zero, false); (f64_zero, false); (f64_zero, false);
     (f64_zero, false); (f64_zero, false); (f64_zero, false); (f64_zero, false); (f64_zero, false)].
Proof. vm_compute. reflexivity. Qed.
(** 0.1 and the largest float are read as Go reads them. *)
Example floats_rounded : (ParseFloat (B "0.1")).1 = S754_finite false 7205759403792794 (-56)
  /\ (ParseFloat (B "1.7976931348623157e308")).1 = S754_finite false 9007199254740991 971
  /\ (ParseFloat (B "4.9e-324")).1 = S754_finite false 1 (-1074) /\ (ParseFloat (B "2e-324")).1 = S754_zero false.
Proof. vm_compute. repeat split. Qed.

(** ** Rounding a 64-bit integer does not overflow *)
Lemma digits2_low (p : positive) : 2 ^ (Zpos (digits2_pos p) - 1) <= Zpos p.
Proof.
  induction p as [p IH|p IH|]; cbn [digits2_pos]; [| |done]; rewrite Pos2Z.inj_succ;
    replace (Z.succ (Zpos (digits2_pos p)) - 1) with (Z.succ (Zpos (digits2_pos p) - 1)) by lia; rewrite Z.pow_succ_r by lia; lia.
Qed.

Lemma Zdigits2_le (z k : Z) : 0 <= z < 2 ^ k -> 0 <= k -> Zdigits2 z <= k.
Proof.
  intros Hz Hk. destruct z as [|p|p]; [done| |lia]. cbn [Zdigits2]. pose proof (digits2_low p).
  destruct (Z.le_gt_cases (Zpos (digits2_pos p)) k); [done|].
  pose proof (Z.pow_le_mono_r 2 k (Zpos (digits2_pos p) - 1) ltac:(lia) ltac:(lia)). lia.
Qed.

Lemma shr_1_bound (M : Z) (r : shr_record) : 0 <= shr_m r <= M -> 0 <= shr_m (shr_1 r) <= M.
Proof. destruct r as [m r s]. cbn. destruct m as [|p|p]; cbn; [lia| |lia]. destruct p; cbn; lia. Qed.

Lemma iter_bound (M : Z) (n : positive) (r : shr_record) : 0 <= shr_m r <= M -> 0 <= shr_m (SpecFloat.iter_pos shr_1 n r) <= M.
Proof. revert r. induction n as [n IH|n IH|]; intros r Hr; cbn [SpecFloat.iter_pos]; auto using shr_1_bound. Qed.

Lemma shr_bound (M e n : Z) (r : shr_record) : 0 <= shr_m r <= M ->
  0 <= shr_m (shr r e n).1 <= M /\ (shr r e n).2 <= Z.max e (e + n).
Proof. intros Hr. destruct n as [|n|n]; cbn [shr fst snd]; [lia| |lia]. split; [by apply iter_bound|lia]. Qed.

Lemma round_even_bound (M m : Z) (l : location) : 0 <= m <= M -> 0 <= round_nearest_even m l <= M + 1.
Proof. intros H. destruct l as [|[]]; cbn; try lia. destruct (Z.even m); lia. Qed.

Lemma shr_fexp_bound (k m e : Z) (l : location) : 0 <= m < 2 ^ k -> 0 <= k -> e <= 400 -> k <= 300 ->
  0 <= shr_m (shr_fexp 53 1024 m e l).1 < 2 ^ k /\ (shr_fexp 53 1024 m e l).2 <= Z.max e (Z.max (k + e - 53) (-1074)).
Proof.
  intros Hm Hk He Hk3. unfold shr_fexp. pose proof (Zdigits2_le m k Hm Hk) as Hd.
  destruct (shr_bound (2 ^ k - 1) e (fexp 53 1024 (Zdigits2 m + e) - e) (shr_record_of_loc m l)) as [Hb He'].
  { destruct l as [|[]]; cbn; lia. }
  split; [lia|]. etransitivity; [exact He'|]. unfold fexp, emin. lia.
Qed.

Lemma round_aux_finite (sx s : bool) (m e : Z) (l : location) : 0 <= m < 2 ^ 200 -> e <= 0 ->
  binary_round_aux 53 1024 sx m e l <> S754_infinity s.
Proof.
  intros Hm He. unfold binary_round_aux.
  destruct (shr_fexp_bound 200 m e l Hm) as [H1 H2]; [lia..|]. destruct (shr_fexp 53 1024 m e l) as [r1 e1]. cbn [fst snd] in *.
  pose proof (round_even_bound (2 ^ 200 - 1) (shr_m r1) (loc_of_shr_record r1)) as Hr.
  destruct (shr_fexp_bound 201 (round_nearest_even (shr_m r1) (loc_of_shr_record r1)) e1 loc_Exact) as [H3 H4]; [|lia..|].
  { change (2 ^ 201) with (2 * 2 ^ 200). lia. }
  destruct (shr_fexp 53 1024 _ e1 loc_Exact) as [r2 e2]. cbn [fst snd] in *.
  destruct (shr_m r2) as [|p|p]; [done| |done]. destruct (Z.leb_spec e2 (1024 - 53)); [done|lia].
Qed.

Lemma iter_xO (p d : positive) : Zpos (Pos.iter xO p d) = Zpos p * 2 ^ Zpos d.
Proof.
  induction d as [|d IH] using Pos.peano_ind; [cbn [Pos.iter]; change (2 ^ 1) with 2; lia|].
  rewrite Pos.iter_succ, Pos2Z.inj_xO, IH, Pos2Z.inj_succ, Z.pow_succ_r by lia. lia.
Qed.

Lemma round_finite (sx s : bool) (p : positive) : Zpos p < 2 ^ 64 -> binary_round 53 1024 sx p 0 <> S754_infinity s.
Proof.
  intros Hp. unfold binary_round. rewrite Z.add_0_r. unfold shl_align. rewrite Z.sub_0_r.
  assert (Hf : -52 <= fexp 53 1024 (Zpos (digits2_pos p))) by (unfold fexp, emin; lia).
  destruct (fexp 53 1024 (Zpos (digits2_pos p))) as [|d|d]; [apply round_aux_finite; lia..|].
  apply round_aux_finite; [|lia]. rewrite iter_xO. pose proof (Z.pow_le_mono_r 2 (Zpos d) 52 ltac:(lia) ltac:(lia)).
  split; [nia|]. apply Z.le_lt_trans with (2 ^ 64 * 2 ^ 52); [nia|reflexivity].
Qed.

(** ** Decimal integers are read exactly

    The text of a number is read as the nearest float of that number, which is
    the conversion [float64(n)]. *)
Definition mantissa_of (n nd : Z) (m : mantissa) : Prop :=
  m_digits m = n /\ m_nd m = nd /\ m_dot m = false /\ 0 <= nd /\ (nd = 0 -> n = 0) /\ (0 < nd -> 10 ^ (nd - 1) <= n).

Lemma digit_not_special (c : ascii) : is_digit c -> c <> underscore /\ c <> dot /\ digit_val 10 c = Some (byteval c - 48).
Proof.
  unfold is_digit. intros H. split_and!; [intros ->; vm_compute in H; naive_solver|intros ->; vm_compute in H; naive_solver|].
  unfold digit_val. rewrite (proj2 (andb_true_iff _ _)) by lia. by destruct (Z.ltb_spec (byteval c - 48) 10); [|lia].
Qed.

Lemma scan_digits (maxval : Z) (l : bytes) (n nd v : Z) (m : mantissa) : Forall is_digit l -> mantissa_of n nd m ->
  parse_digits 10 maxval l n = (v, None) -> exists m' nd', scan_mantissa 10 l m = (m', []) /\ mantissa_of v nd' m' /\ (l <> [] -> m_seen m' = true).
Proof.
  intros Hl. revert n nd m. induction Hl as [|c l Hc Hl IH]; intros n nd m Hm; cbn [parse_digits scan_mantissa].
  { intros [= ->]. by exists m, nd. }
  destruct (digit_not_special c Hc) as (Hu & Hd & ->). rewrite !bool_decide_false by done.
  set (d := byteval c - 48). assert (Hd10 : 0 <= d < 10) by (unfold is_digit in Hc; lia).
  destruct (Z.ltb_spec maxval (n * 10 + d)) as [|Hmax]; [done|]. destruct Hm as (Hn & Hnd & Hdot & Hnd0 & Hz & Hp). intros Hv.
  destruct ((d =? 0) && (m_nd m =? 0)) eqn:E.
  - apply andb_true_iff in E as [E1 E2]. assert (Hn0 : n * 10 + d = 0) by (rewrite Hz by lia; lia). rewrite Hn0 in Hv.
    edestruct (IH 0 0) as (m' & nd' & Hs & Hm' & Hseen); [|exact Hv|].
    2: { exists m', nd'. split; [exact Hs|]. split; [done|]. intros _. destruct l; [by injection Hs as <-|by apply Hseen]. }
    repeat split; cbn; try lia; done.
  - edestruct (IH (n * 10 + d) (nd + 1)) as (m' & nd' & Hs & Hm' & Hseen); [|exact Hv|].
    2: { exists m', nd'. split; [exact Hs|]. split; [done|]. intros _. destruct l; [by injection Hs as <-|by apply Hseen]. }
    assert (10 ^ nd <= n * 10 + d).
    { destruct (decide (nd = 0)) as [->|]; [|replace nd with (Z.succ (nd - 1)) at 1 by lia; rewrite Z.pow_succ_r by lia; specialize (Hp ltac:(lia)); lia].
      rewrite Hz by lia. apply andb_false_iff in E as [E|E]; lia. }
    repeat split; cbn; try lia; try done; by replace (nd + 1 - 1) with nd by lia.
Qed.

Lemma ParseFloat_digits (l : bytes) (n : Z) : Forall is_digit l -> l <> [] -> 0 <= n < 2 ^ 64 ->
  parse_digits 10 (2 ^ 64 - 1) l 0 = (n, None) -> ParseFloat l = (f64_of_Z n, true).
Proof.
  intros Hl Hne Hn Hp. unfold ParseFloat.
  destruct (scan_digits (2 ^ 64 - 1) l 0 0 n no_digits Hl) as (m & nd & Hs & (Hdig & Hnd & Hdot & H0 & Hz & Hlow) & Hseen); [by repeat split|done|].
  assert (Hu : underscore ∉ l). { intros Hin. rewrite Forall_forall in Hl. apply Hl in Hin. by vm_compute in Hin; destruct Hin. }
  assert (Hbound : nd <= 310).
  { destruct (decide (nd = 0)); [lia|]. specialize (Hlow ltac:(lia)). destruct (Z.le_gt_cases nd 310) as [|Hgt]; [done|].
    pose proof (Z.pow_le_mono_r 10 309 (nd - 1) ltac:(lia) ltac:(lia)) as Hq. assert (2 ^ 64 < 10 ^ 309) by (vm_compute; reflexivity). lia. }
  destruct l as [|c t]; [done|]. pose proof (Forall_cons_1 _ _ _ Hl) as [Hc Ht].
  assert (Hsp : special (c :: t) = None).
  { unfold special. rewrite !bool_decide_false by (intros ->; vm_compute in Hc; by destruct Hc). cbn match.
    assert (Hne' : forall x w, ~ is_digit (byte_of_Z x) -> map lower_byte (c :: t) = byte_of_Z x :: w -> 97 <= x < 123 -> False).
    { intros x w _ [= E _] Hx. apply (f_equal byteval) in E. unfold lower_byte in E. rewrite !byteval_of_Z in E.
      unfold is_digit in Hc. assert (Hx' : x mod 256 = x) by (apply Z.mod_small; lia). rewrite Hx' in E.
      assert (Hc' : exists k, byteval c = 48 + k /\ 0 <= k < 10) by (exists (byteval c - 48); lia). destruct Hc' as (k & Hck & Hk). rewrite Hck in E.
      assert (k = 0 \/ k = 1 \/ k = 2 \/ k = 3 \/ k = 4 \/ k = 5 \/ k = 6 \/ k = 7 \/ k = 8 \/ k = 9) as Hcases by lia.
      repeat destruct Hcases as [Hcases|Hcases]; rewrite Hcases in E; vm_compute in E; lia. }
    rewrite !bool_decide_false; [done|..]; intros E.
    - eapply (Hne' 110 _); [|exact E|lia]. vm_compute. tauto.
    - eapply (Hne' 105 _); [|exact E|lia]. vm_compute. tauto.
    - eapply (Hne' 105 _); [|exact E|lia]. vm_compute. tauto. }
  rewrite Hsp. rewrite !bool_decide_false by (intros ->; vm_compute in Hc; by destruct Hc). cbn match.
  assert (Hhex : (match c :: t with
                  | z :: x :: (_ :: _) as t0 => if bool_decide (z = "0"%char) && bool_decide (lower_byte x = "x"%char) then (true, t0) else (false, c :: t)
                  | _ => (false, c :: t) end) = (false, c :: t)).
  { destruct t as [|x [|y t]]; [done|done|]. destruct (bool_decide (lower_byte x = "x"%char)) eqn:Ex; [|by rewrite andb_false_r].
    apply bool_decide_eq_true_1 in Ex. inversion Ht as [|?? Hx _]; subst. exfalso.
    destruct x as [[] [] [] [] [] [] [] []]; vm_compute in Hx, Ex; naive_solver. }
  rewrite Hhex, Hs. rewrite Hseen by done. cbn [negb]. rewrite Hdot, Hnd, Hdig. cbn match.
  rewrite (bool_decide_false (underscore ∈ c :: t)) by done. cbn [andb].
  unfold float_value. rewrite Z.add_0_r. destruct (Z.eqb_spec n 0) as [->|Hn0]; [done|].
  destruct (Z.ltb_spec 310 nd); [lia|]. destruct (Z.ltb_spec nd (-330)); [lia|].
  unfold scaled. rewrite Z.sub_diag. cbn [Z.leb]. change (0 <=? 0) with true. cbn match. rewrite Z.pow_0_r, Z.mul_1_r.
  unfold nearest, f64_of_Z, binary_normalize. destruct n as [|p|p]; [lia| |lia].
  f_equal. destruct (binary_round 53 1024 false p 0) eqn:Er; try done. by apply round_finite in Er; [|lia].
Qed.

Lemma ParseFloat_FormatUint (n : Z) : 0 <= n < 2 ^ 64 -> ParseFloat (FormatUint n) = (f64_of_Z n, true).
Proof.
  intros Hn. apply ParseFloat_digits; [apply FormatUint_digits|apply FormatUint_nonempty|done|].
  pose proof (ParseUint_FormatUint n 64 ltac:(lia) Hn) as H. unfold ParseUint in H.
  by destruct (FormatUint n) eqn:E; [destruct (FormatUint_nonempty n)|].
Qed.
