(* ===== verification/GoJSON.v ===== *)
(** * JSON text

    The parts of Go's [encoding/json] the agent uses: the compact text
    [Marshal] writes and the syntax [Unmarshal] and [Decoder.Decode] accept,
    on a tree of values.  A number is kept as its text; an object as its
    members in the order of the text. *)
From S2P Require Import Prelude GoStrings GoNum.
Local Open Scope Z_scope.

Inductive json :=
  | JNull
  | JBool (b : bool)
  | JNum (text : bytes)
  | JStr (s : bytes)
  | JArr (l : list json)
  | JObj (l : list (bytes * json)).

(** ** Writing *)
Definition dquote : ascii := "034".
Definition backslash : ascii := "\".
Definition hex_lower (d : Z) : ascii := byte_of_Z (if d <? 10 then 48 + d else 87 + d).
Definition hex4 (n : Z) : bytes :=
  map hex_lower [n / 4096 mod 16; n / 256 mod 16; n / 16 mod 16; n mod 16].
Definition escape_u (n : Z) : bytes := backslash :: "u"%char :: hex4 n.

(** [appendString] with HTML escaping, on one rune. *)
Definition quote_rune (r : Z * bytes) : bytes :=
  let '(c, bs) := r in
  if c =? 34 then [backslash; dquote]
  else if c =? 92 then [backslash; backslash]
  else if c =? 8 then B "\b"
  else if c =? 12 then B "\f"
  else if c =? 10 then B "\n"
  else if c =? 13 then B "\r"
  else if c =? 9 then B "\t"
  else if (c <? 32) || (c =? 60) || (c =? 62) || (c =? 38) then escape_u c
  else if (c =? rune_error) && (len bs =? 1) then escape_u rune_error
  else if (c =? 8232) || (c =? 8233) then escape_u c
  else bs.

Definition quote (s : bytes) : bytes := dquote :: concat (map quote_rune (runes s)) ++ [dquote].

(** Items separated by commas. *)
Fixpoint commas (l : list bytes) : bytes :=
  match l with
  | [] => []
  | [x] => x
  | x :: t => x ++ ","%char :: commas t
  end.

Fixpoint Marshal (j : json) : bytes :=
  match j with
  | JNull => B "null"
  | JBool b => if b then B "true" else B "false"
  | JNum t => t
  | JStr s => quote s
  | JArr l => "["%char :: commas (map Marshal l) ++ ["]"%char]
  | JObj l => "{"%char :: commas (map (fun '(k, v) => quote k ++ ":"%char :: Marshal v) l) ++ ["}"%char]
  end.

(** ** Reading *)
Definition json_space (c : ascii) : bool := bool_decide (c ∈ map byte_of_Z [32; 9; 13; 10]).
Definition skip (s : bytes) : bytes := dropwhile json_space s.

(** The pieces of a string literal: bytes as they stand, one-letter escapes,
    and UTF-16 units. *)
Inductive piece := Raw (c : ascii) | Esc (c : ascii) | Unit (n : Z).

Definition escape_letter (c : ascii) : option ascii :=
  if bool_decide (c = dquote) then Some dquote
  else if bool_decide (c = backslash) then Some backslash
  else if bool_decide (c = "/"%char) then Some "/"%char
  else if bool_decide (c = "b"%char) then Some (byte_of_Z 8)
  else if bool_decide (c = "f"%char) then Some (byte_of_Z 12)
  else if bool_decide (c = "n"%char) then Some (byte_of_Z 10)
  else if bool_decide (c = "r"%char) then Some (byte_of_Z 13)
  else if bool_decide (c = "t"%char) then Some (byte_of_Z 9)
  else None.

(** The literal after its opening quote, up to the closing one. *)
Fixpoint literal (s : bytes) : option (list piece * bytes) :=
  match s with
  | [] => None
  | c :: t =>
      if bool_decide (c = dquote) then Some ([], t)
      else if bool_decide (c = backslash) then
        match t with
        | [] => None
        | e :: t1 =>
            if bool_decide (e = "u"%char) then
              match t1 with
              | a :: b :: c :: d :: t2 =>
                  match digit_val 16 a, digit_val 16 b, digit_val 16 c, digit_val 16 d with
                  | Some a, Some b, Some c, Some d =>
                      '(ps, r) ← literal t2; Some (Unit (a * 4096 + b * 256 + c * 16 + d) :: ps, r)
                  | _, _, _, _ => None
                  end
              | _ => None
              end
            else
              x ← escape_letter e;
              '(ps, r) ← literal t1; Some (Esc x :: ps, r)
        end
      else if byteval c <? 32 then None
      else '(ps, r) ← literal t; Some (Raw c :: ps, r)
  end.

(** [utf8.AppendRune] on a rune that is not a surrogate. *)
Definition append_rune (r : Z) : bytes :=
  map byte_of_Z
    (if r <? 128 then [r]
     else if r <? 2048 then [192 + r / 64; 128 + r mod 64]
     else if r <? 65536 then [224 + r / 4096; 128 + r / 64 mod 64; 128 + r mod 64]
     else [240 + r / 262144; 128 + r / 4096 mod 64; 128 + r / 64 mod 64; 128 + r mod 64]).

(** Bytes that are not UTF-8 become U+FFFD. *)
Definition fix_rune (r : Z * bytes) : bytes :=
  if (r.1 =? rune_error) && (len r.2 =? 1) then append_rune rune_error else r.2.
Definition to_valid (l : bytes) : bytes := concat (map fix_rune (runes l)).

Definition is_surrogate (n : Z) : bool := (55296 <=? n) && (n <? 57344).

(** [unquote]; [run] holds the raw bytes read since the last escape. *)
Fixpoint unquote (ps : list piece) (run : bytes) : bytes :=
  match ps with
  | [] => to_valid run
  | Raw c :: t => unquote t (run ++ [c])
  | Esc c :: t => to_valid run ++ c :: unquote t []
  | Unit n :: t =>
      to_valid run ++
      if is_surrogate n then
        match t with
        | Unit m :: t1 =>
            if (n <? 56320) && (56320 <=? m) && (m <? 57344)
            then append_rune ((n - 55296) * 1024 + (m - 56320) + 65536) ++ unquote t1 []
            else append_rune rune_error ++ unquote t []
        | _ => append_rune rune_error ++ unquote t []
        end
      else append_rune n ++ unquote t []
  end.

Definition string_value (s : bytes) : option (bytes * bytes) :=
  '(ps, r) ← literal s; Some (unquote ps [], r).

(** Numbers: the longest digits, then a fraction, then an exponent. *)
Definition json_digit (c : ascii) : bool := (48 <=? byteval c) && (byteval c <=? 57).
Fixpoint digits (s : bytes) : bytes * bytes :=
  match s with
  | c :: t => if json_digit c then let '(d, r) := digits t in (c :: d, r) else ([], s)
  | [] => ([], [])
  end.
Definition some_digits (s : bytes) : option (bytes * bytes) :=
  match digits s with ([], _) => None | p => Some p end.

Definition number (s : bytes) : option (bytes * bytes) :=
  let '(sign, s1) := match s with c :: t => if bool_decide (c = "-"%char) then ([c], t) else ([], s) | [] => ([], s) end in
  '(int, s2) ← match s1 with
               | c :: t => if bool_decide (c = "0"%char) then Some ([c], t) else some_digits s1
               | [] => None
               end;
  '(frac, s3) ← match s2 with
                | c :: t => if bool_decide (c = "."%char) then '(d, r) ← some_digits t; Some (c :: d, r) else Some ([], s2)
                | [] => Some ([], s2)
                end;
  '(exp, s4) ← match s3 with
               | c :: t =>
                   if bool_decide (c ∈ B "eE") then
                     let '(sg, t1) := match t with x :: u => if bool_decide (x ∈ B "+-") then ([x], u) else ([], t) | [] => ([], t) end in
                     '(d, r) ← some_digits t1; Some (c :: sg ++ d, r)
                   else Some ([], s3)
               | [] => Some ([], s3)
               end;
  Some (sign ++ int ++ frac ++ exp, s4).

Definition max_depth : nat := 10000.

(** A value and what follows it; [depth] is how many more arrays and objects
    may be opened. *)
Fixpoint value (fuel depth : nat) (s : bytes) : option (json * bytes) :=
  match fuel with
  | O => None
  | Datatypes.S f =>
      match skip s with
      | [] => None
      | c :: t =>
          if bool_decide (c = dquote) then '(x, r) ← string_value t; Some (JStr x, r)
          else if bool_decide (c = "["%char) then
            match depth with
            | O => None
            | Datatypes.S d =>
                match skip t with
                | e :: r => if bool_decide (e = "]"%char) then Some (JArr [], r)
                            else '(l, r) ← elements f d t; Some (JArr l, r)
                | [] => None
                end
            end
          else if bool_decide (c = "{"%char) then
            match depth with
            | O => None
            | Datatypes.S d =>
                match skip t with
                | e :: r => if bool_decide (e = "}"%char) then Some (JObj [], r)
                            else '(l, r) ← members f d t; Some (JObj l, r)
                | [] => None
                end
            end
          else match CutPrefix (c :: t) (B "null"), CutPrefix (c :: t) (B "true"), CutPrefix (c :: t) (B "false") with
               | Some r, _, _ => Some (JNull, r)
               | _, Some r, _ => Some (JBool true, r)
               | _, _, Some r => Some (JBool false, r)
               | None, None, None => '(n, r) ← number (c :: t); Some (JNum n, r)
               end
      end
  end
with elements (fuel depth : nat) (s : bytes) : option (list json * bytes) :=
  match fuel with
  | O => None
  | Datatypes.S f =>
      '(v, r) ← value f depth s;
      match skip r with
      | e :: r1 => if bool_decide (e = ","%char) then '(l, r2) ← elements f depth r1; Some (v :: l, r2)
                   else if bool_decide (e = "]"%char) then Some ([v], r1) else None
      | [] => None
      end
  end
with members (fuel depth : nat) (s : bytes) : option (list (bytes * json) * bytes) :=
  match fuel with
  | O => None
  | Datatypes.S f =>
      match skip s with
      | q :: t =>
          if bool_decide (q = dquote) then
            '(k, r) ← string_value t;
            match skip r with
            | e :: r1 =>
                if bool_decide (e = ":"%char) then
                  '(v, r2) ← value f depth r1;
                  match skip r2 with
                  | e :: r3 => if bool_decide (e = ","%char) then '(l, r4) ← members f depth r3; Some ((k, v) :: l, r4)
                               else if bool_decide (e = "}"%char) then Some ([(k, v)], r3) else None
                  | [] => None
                  end
                else None
            | [] => None
            end
          else None
      | [] => None
      end
  end.

(** Every call takes a byte, or is followed by one that does. *)
Definition json_fuel (s : bytes) : nat := 2 * length s + 2.

(** [Decoder.Decode]: the first value. *)
Definition Decode (s : bytes) : option json := fst <$> value (json_fuel s) max_depth s.
(** [Unmarshal]: the only value. *)
Definition Unmarshal (s : bytes) : option json :=
  '(j, r) ← value (json_fuel s) max_depth s;
  match skip r with [] => Some j | _ => None end.

(** ** Decoding into structures

    A key names the field it equals, or else equals up to case; [null] clears
    a pointer and leaves a string; a value of another kind is an error. *)

(** [foldName]: letters in upper case, and the two other runes that fold to a letter. *)
Definition fold_name (s : bytes) : bytes :=
  concat (map (fun r => if r.1 =? 383 then B "S" else if r.1 =? 8490 then B "K" else upper_rune r) (runes s)).

Definition decoder (A : Type) := json -> A -> option A.

Definition find_field {A} (fields : list (bytes * decoder A)) (k : bytes) : option (decoder A) :=
  match List.find (fun f => bool_decide (f.1 = k)) fields with
  | Some f => Some f.2
  | None => (fun f => f.2) <$> List.find (fun f => bool_decide (fold_name f.1 = fold_name k)) fields
  end.

Fixpoint decode_members {A} (fields : list (bytes * decoder A)) (ms : list (bytes * json)) (a : A) : option A :=
  match ms with
  | [] => Some a
  | (k, v) :: t =>
      match find_field fields k with
      | Some f => a' ← f v a; decode_members fields t a'
      | None => decode_members fields t a
      end
  end.

Definition decode_struct {A} (fields : list (bytes * decoder A)) : decoder A := fun j a =>
  match j with
  | JNull => Some a
  | JObj ms => decode_members fields ms a
  | _ => None
  end.

Definition dec_string : decoder bytes := fun j a => match j with JNull => Some a | JStr s => Some s | _ => None end.
(** A pointer: [null] clears it, another value goes into what it points to. *)
Definition dec_ptr {A} (zero : A) (d : decoder A) : decoder (option A) := fun j a =>
  match j with JNull => Some None | _ => Some <$> d j (default zero a) end.
Definition q (s : string) : bytes := dquote :: B s ++ [dquote].

Example unmarshal_object :
  Unmarshal (B "{ " ++ q "a" ++ B ": [1, -2.5e3 ,true],"  ++ q "b\u00e9\n" ++ B ":null } ")
  = Some (JObj [(B "a", JArr [JNum (B "1"); JNum (B "-2.5e3"); JBool true]); (B "b" ++ map byte_of_Z [195; 169; 10], JNull)]).
Proof. vm_compute. reflexivity. Qed.

Example unmarshal_errors : map Unmarshal [B "[1,]"; B "01"; B "{} x"; q "\x"; B "[1"; []; B "nul"; q "a" ++ B ","; B "[0 1]"; B "{,}"]
  = replicate 10 None.
Proof. vm_compute. reflexivity. Qed.

Example surrogates : map Unmarshal [q "\ud83d\ude00"; q "\ud83dx"; q "\ude00\ud83d"]
  = [Some (JStr (map byte_of_Z [240; 159; 152; 128])); Some (JStr (map byte_of_Z [239; 191; 189] ++ B "x"));
     Some (JStr (map byte_of_Z [239; 191; 189; 239; 191; 189]))].
Proof. vm_compute. reflexivity. Qed.

Example marshal_object : Marshal (JObj [(B "a<b", JStr (B "x" ++ [dquote; "009"%char])); (B "l", JArr [JNull; JBool false])])
  = B "{" ++ q "a\u003cb" ++ B ":" ++ q ("x\" +:+ S [dquote] +:+ "\t") ++ B "," ++ q "l" ++ B ":[null,false]}".
Proof. vm_compute. reflexivity. Qed.

(** ** What is written is read back

    For trees without numbers whose strings are valid UTF-8. *)
Definition rune_valid (r : Z * bytes) : bool := negb ((r.1 =? rune_error) && (len r.2 =? 1)).
Definition valid_utf8 (l : bytes) : bool := forallb rune_valid (runes l).

(** What every valid rune of a text satisfies. *)
Definition good_rune (r : Z * bytes) : Prop :=
  rune_valid r = true
  /\ (forall t, runes (r.2 ++ t) = r :: runes t)
  /\ append_rune r.1 = r.2
  /\ ((exists a, r = (byteval a, [a]) /\ byteval a < 128) \/ (128 <= r.1 /\ Forall (fun c => 128 <= byteval c) r.2)).

Lemma low6_mod (c : ascii) : low6 c = byteval c mod 64.
Proof. apply (Z.land_ones _ 6). lia. Qed.

Lemma land_low (c : ascii) (k : Z) : 0 <= k -> Z.land (byteval c) (Z.ones k) = byteval c mod 2 ^ k.
Proof. intros H. by apply Z.land_ones. Qed.

Lemma byte_eq (z : Z) (c : ascii) : z = byteval c -> byte_of_Z z = c.
Proof. intros ->. apply byte_of_byteval. Qed.

Lemma rune_1 (a : ascii) : byteval a < 128 -> good_rune (byteval a, [a]).
Proof.
  intros Ha. pose proof (byteval_range a). split_and!; cbn [fst snd].
  - unfold rune_valid, rune_error. cbn [fst]. destruct (Z.eqb_spec (byteval a) 65533); [lia|done].
  - intros t. cbn [app runes]. by rewrite (proj2 (Z.ltb_lt _ _) Ha).
  - unfold append_rune. rewrite (proj2 (Z.ltb_lt _ _) Ha). cbn [map]. by rewrite byte_of_byteval.
  - left. eauto.
Qed.

Lemma rune_2 (a b : ascii) : lead2 a b = true -> good_rune (Z.land (byteval a) 31 * 64 + low6 b, [a; b]).
Proof.
  intros H2. pose proof H2 as H2'. unfold lead2, cont in H2'. bool_hyps.
  assert (128 <= byteval a) by lia.
  change 31 with (Z.ones 5). rewrite land_low, low6_mod by lia. change (2 ^ 5) with 32.
  split_and!; cbn [fst snd].
  - unfold rune_valid. cbn [fst snd]. unfold len. cbn. apply negb_true_iff, andb_false_iff. by right.
  - intros t. cbn [app runes]. rewrite (proj2 (Z.ltb_ge _ _)) by lia. rewrite H2.
    change 31 with (Z.ones 5). by rewrite land_low, low6_mod by lia.
  - unfold append_rune. set (r := _ + _). assert (128 <= r < 2048) by (subst r; Z.div_mod_to_equations; lia).
    rewrite (proj2 (Z.ltb_ge _ _)), (proj2 (Z.ltb_lt _ _)) by lia. cbn [map].
    f_equal; [|f_equal]; apply byte_eq; subst r; Z.div_mod_to_equations; lia.
  - right. split; [Z.div_mod_to_equations; lia|]. repeat constructor; lia.
Qed.

Lemma rune_3 (a b c : ascii) : lead2 a b = false -> lead3 a b c = true ->
  good_rune (Z.land (byteval a) 15 * 4096 + low6 b * 64 + low6 c, [a; b; c]).
Proof.
  intros H2 H3. pose proof H3 as H3'. unfold lead3, cont in H3'. cbv zeta in H3'. bool_hyps.
  assert (128 <= byteval a) by lia.
  change 15 with (Z.ones 4). rewrite land_low, !low6_mod by lia. change (2 ^ 4) with 16.
  set (r := _ + _).
  assert (2048 <= r < 65536) by (subst r; destruct (Z.eqb_spec (byteval a) 224); Z.div_mod_to_equations; lia).
  split_and!; cbn [fst snd].
  - unfold rune_valid. cbn [fst snd]. unfold len. cbn. apply negb_true_iff, andb_false_iff. by right.
  - intros t. cbn [app runes]. rewrite (proj2 (Z.ltb_ge _ _)) by lia. rewrite H2, H3.
    change 15 with (Z.ones 4). by rewrite land_low, !low6_mod by lia.
  - unfold append_rune. rewrite !(proj2 (Z.ltb_ge _ _)), (proj2 (Z.ltb_lt _ _)) by lia. cbn [map].
    f_equal; [|f_equal; [|f_equal]]; apply byte_eq; subst r; Z.div_mod_to_equations; lia.
  - right. split; [lia|]. repeat constructor; lia.
Qed.

Lemma rune_4 (a b c d : ascii) : lead2 a b = false -> lead3 a b c = false -> lead4 a b c d = true ->
  good_rune (Z.land (byteval a) 7 * 262144 + low6 b * 4096 + low6 c * 64 + low6 d, [a; b; c; d]).
Proof.
  intros H2 H3 H4. pose proof H4 as H4'. unfold lead4, cont in H4'. cbv zeta in H4'. bool_hyps.
  assert (128 <= byteval a) by lia.
  change 7 with (Z.ones 3). rewrite land_low, !low6_mod by lia. change (2 ^ 3) with 8.
  set (r := _ + _).
  assert (65536 <= r < 1114112) by (subst r; destruct (Z.eqb_spec (byteval a) 240), (Z.eqb_spec (byteval a) 244); Z.div_mod_to_equations; lia).
  split_and!; cbn [fst snd].
  - unfold rune_valid. cbn [fst snd]. unfold len. cbn. apply negb_true_iff, andb_false_iff. by right.
  - intros t. cbn [app runes]. rewrite (proj2 (Z.ltb_ge _ _)) by lia. rewrite H2, H3, H4.
    change 7 with (Z.ones 3). by rewrite land_low, !low6_mod by lia.
  - unfold append_rune. rewrite !(proj2 (Z.ltb_ge _ _)) by lia. cbn [map].
    f_equal; [|f_equal; [|f_equal; [|f_equal]]]; apply byte_eq; subst r; Z.div_mod_to_equations; lia.
  - right. split; [lia|]. repeat constructor; lia.
Qed.

Lemma rune_bad (a : ascii) : rune_valid (rune_error, [a]) = true -> good_rune (rune_error, [a]).
Proof. done. Qed.

Lemma runes_good (l : bytes) : Forall (fun r => rune_valid r = true -> good_rune r) (runes l).
Proof.
  remember (length l) as n eqn:Hn. revert l Hn.
  induction n as [n IH] using lt_wf_ind. intros l ->.
  assert (Hsub : forall k, (length k < length l)%nat -> Forall (fun r => rune_valid r = true -> good_rune r) (runes k)) by eauto.
  clear IH. destruct l as [|a t0]; [constructor|]. cbn [length] in Hsub. cbn [runes].
  destruct (Z.ltb_spec (byteval a) 128); [constructor; [intros _; by apply rune_1|apply Hsub; lia]|].
  repeat case_match; subst; (constructor; [|apply Hsub; cbn [length]; lia]);
    try (apply rune_bad); intros _; by first [apply rune_2 | apply rune_3 | apply rune_4].
Qed.

Lemma valid_good (l : bytes) : valid_utf8 l = true -> Forall good_rune (runes l).
Proof.
  unfold valid_utf8. intros H. pose proof (runes_good l) as Hg. rewrite Forall_forall in Hg |- *.
  intros r Hr. apply Hg; [done|]. rewrite forallb_forall in H. apply H. by apply list_elem_of_In.
Qed.

Lemma runes_unrunes (rs : list (Z * bytes)) : Forall good_rune rs -> runes (unrunes rs) = rs.
Proof.
  induction 1 as [|r rs Hr _ IH]; [done|]. unfold unrunes in *. cbn [map concat].
  destruct Hr as (_ & -> & _). by rewrite IH.
Qed.

Lemma to_valid_good (rs : list (Z * bytes)) : Forall good_rune rs -> to_valid (unrunes rs) = unrunes rs.
Proof.
  intros H. unfold to_valid. rewrite runes_unrunes by done. unfold unrunes. f_equal.
  induction H as [|r rs (Hr & _) _ IH]; [done|]. cbn [map]. rewrite IH. f_equal.
  unfold rune_valid in Hr. unfold fix_rune. by destruct (_ && _).
Qed.

(** The pieces the quoted form of a rune is read as. *)
Definition pieces_of (r : Z * bytes) : list piece :=
  let '(c, bs) := r in
  if bool_decide (c ∈ [34; 92; 8; 12; 10; 13; 9]) then [Esc (byte_of_Z c)]
  else if (c <? 32) || (c =? 60) || (c =? 62) || (c =? 38) || (c =? 8232) || (c =? 8233) then [Unit c]
  else map Raw bs.

Lemma digit_val_hex_lower (d : Z) : 0 <= d < 16 -> digit_val 16 (hex_lower d) = Some d.
Proof.
  intros H. assert (d ∈ map Z.of_nat (seq 0 16)) as Hd.
  { apply list_elem_of_In, in_map_iff. exists (Z.to_nat d). split; [lia|]. apply in_seq. lia. }
  repeat (apply elem_of_cons in Hd as [->|Hd]; [reflexivity|]). by apply not_elem_of_nil in Hd.
Qed.

Lemma literal_unit (n : Z) (t r : bytes) (ps : list piece) :
  0 <= n < 65536 -> literal t = Some (ps, r) -> literal (escape_u n ++ t) = Some (Unit n :: ps, r).
Proof.
  intros Hn Ht. unfold escape_u, hex4. cbn [map app literal].
  rewrite !digit_val_hex_lower by (apply Z.mod_pos_bound; lia). rewrite Ht. cbn. do 4 f_equal.
  Z.div_mod_to_equations. lia.
Qed.

Lemma literal_raw (bs t r : bytes) (ps : list piece) :
  Forall (fun c => 32 <= byteval c /\ c <> dquote /\ c <> backslash) bs ->
  literal t = Some (ps, r) -> literal (bs ++ t) = Some (map Raw bs ++ ps, r).
Proof.
  intros H Ht. induction H as [|c bs (H1 & H2 & H3) _ IH]; [done|]. cbn [app literal].
  rewrite !bool_decide_false, (proj2 (Z.ltb_ge _ _)), IH by done. done.
Qed.

Lemma literal_rune (r : Z * bytes) (t rest : bytes) (ps : list piece) :
  good_rune r -> literal t = Some (ps, rest) -> literal (quote_rune r ++ t) = Some (pieces_of r ++ ps, rest).
Proof.
  intros (Hv & _ & _ & Hs) Ht. destruct r as [c bs]. cbn [fst snd] in *. unfold quote_rune, pieces_of.
  unfold rune_valid in Hv. cbn [fst snd] in Hv. apply negb_true_iff in Hv. rewrite Hv.
  destruct (Z.eqb_spec c 34) as [->|]; [cbn; by rewrite Ht|].
  destruct (Z.eqb_spec c 92) as [->|]; [cbn; by rewrite Ht|].
  destruct (Z.eqb_spec c 8) as [->|]; [cbn; by rewrite Ht|].
  destruct (Z.eqb_spec c 12) as [->|]; [cbn; by rewrite Ht|].
  destruct (Z.eqb_spec c 10) as [->|]; [cbn; by rewrite Ht|].
  destruct (Z.eqb_spec c 13) as [->|]; [cbn; by rewrite Ht|].
  destruct (Z.eqb_spec c 9) as [->|]; [cbn; by rewrite Ht|].
  rewrite bool_decide_false by (rewrite !elem_of_cons; intros [?|[?|[?|[?|[?|[?|[?|H]]]]]]]; try done; by apply not_elem_of_nil in H).
  assert (0 <= c) as H0 by (destruct Hs as [(a & [= -> _] & _)|[? _]]; [pose proof (byteval_range a)|]; lia).
  destruct ((c <? 32) || (c =? 60) || (c =? 62) || (c =? 38)) eqn:He; cbn [orb].
  { apply literal_unit; [|done]. bool_hyps; lia. }
  destruct ((c =? 8232) || (c =? 8233)) eqn:Hu.
  { apply literal_unit; [|done]. bool_hyps; lia. }
  apply literal_raw; [|done]. clear Hv. bool_hyps.
  destruct Hs as [(a & [= -> ->] & Ha)|[Hc Hb]].
  - apply List.Forall_cons; [|apply List.Forall_nil]. split_and!; [lia| |]; intros ->; done.
  - eapply Forall_impl; [exact Hb|]. intros x Hx. cbn beta in Hx. split_and!; [lia| |]; intros ->; by cbv in Hx.
Qed.

Lemma unquote_raw (bs run : bytes) (ps : list piece) : unquote (map Raw bs ++ ps) run = unquote ps (run ++ bs).
Proof. revert run. induction bs as [|c bs IH]; intros run; cbn; [by rewrite app_nil_r|]. by rewrite IH, <-app_assoc. Qed.

Lemma unquote_pieces (rs run : list (Z * bytes)) : Forall good_rune rs -> Forall good_rune run ->
  unquote (concat (map pieces_of rs)) (unrunes run) = unrunes run ++ unrunes rs.
Proof.
  intros Hrs. revert run. induction Hrs as [|r rs Hr Hrs IH]; intros run Hrun.
  { cbn [map concat unquote]. rewrite to_valid_good by done. by rewrite app_nil_r. }
  cbn [map concat]. change (unrunes (r :: rs)) with (r.2 ++ unrunes rs). set (ps := concat (map pieces_of rs)) in *.
  pose proof (IH [] ltac:(constructor)) as IH0. change (unrunes []) with (@nil ascii) in IH0. cbn [app] in IH0.
  pose proof Hr as (_ & _ & Ha & Hs). destruct r as [c bs]. cbn [fst snd] in *. unfold pieces_of.
  case_bool_decide as Hc.
  { cbn [app unquote]. rewrite to_valid_good, IH0 by done. f_equal. rewrite <-Ha.
    repeat (apply elem_of_cons in Hc as [->|Hc]; [reflexivity|]). by apply not_elem_of_nil in Hc. }
  destruct (_ || _) eqn:He.
  - cbn [app unquote]. rewrite to_valid_good by done. f_equal.
    assert (is_surrogate c = false) as -> by (unfold is_surrogate; bool_hyps; lia). by rewrite Ha, IH0.
  - rewrite unquote_raw.
    replace (unrunes run ++ bs) with (unrunes (run ++ [(c, bs)])) by (rewrite unrunes_app; cbn; by rewrite app_nil_r).
    rewrite IH by (apply Forall_app; split; [done|by apply Forall_singleton]).
    rewrite unrunes_app. cbn. by rewrite app_nil_r, <-app_assoc.
Qed.

Lemma string_value_quote (s rest : bytes) :
  valid_utf8 s = true -> string_value (concat (map quote_rune (runes s)) ++ dquote :: rest) = Some (s, rest).
Proof.
  intros Hv. apply valid_good in Hv. unfold string_value.
  assert (literal (concat (map quote_rune (runes s)) ++ dquote :: rest) = Some (concat (map pieces_of (runes s)), rest)) as ->.
  { induction Hv as [|r rs Hr _ IH]; [done|]. cbn [map concat]. rewrite <-app_assoc. by apply literal_rune. }
  cbn [mbind option_bind]. do 2 f_equal.
  pose proof (unquote_pieces (runes s) [] Hv ltac:(constructor)) as H. change (unrunes []) with (@nil ascii) in H.
  rewrite H. apply unrunes_runes.
Qed.

(** Induction on trees. *)
Section json_induction.
Context (P : json -> Prop).
Context (HNull : P JNull) (HBool : forall b, P (JBool b)) (HNum : forall t, P (JNum t)) (HStr : forall s, P (JStr s)).
Context (HArr : forall l, Forall P l -> P (JArr l)) (HObj : forall l, Forall (fun m => P m.2) l -> P (JObj l)).

Fixpoint json_tree_ind (j : json) : P j :=
  match j with
  | JNull => HNull
  | JBool b => HBool b
  | JNum t => HNum t
  | JStr s => HStr s
  | JArr l => HArr l ((fix go (l : list json) : Forall P l :=
      match l with [] => List.Forall_nil _ | x :: t => Forall_cons_2 _ _ _ (json_tree_ind x) (go t) end) l)
  | JObj l => HObj l ((fix go (l : list (bytes * json)) : Forall (fun m => P m.2) l :=
      match l with [] => List.Forall_nil _ | x :: t => Forall_cons_2 _ _ _ (json_tree_ind x.2) (go t) end) l)
  end.
End json_induction.

(** Trees the round trip covers, of depth at most [d]. *)
Fixpoint plain_json (d : nat) (j : json) {struct j} : bool :=
  match j with
  | JNull | JBool _ => true
  | JNum _ => false
  | JStr s => valid_utf8 s
  | JArr l => match d with O => false | Datatypes.S d => forallb (plain_json d) l end
  | JObj l => match d with O => false | Datatypes.S d => forallb (fun m => valid_utf8 m.1 && plain_json d m.2) l end
  end.

Fixpoint need (j : json) : nat :=
  match j with
  | JArr l => 1 + list_sum (map (fun v => 1 + need v)%nat l)
  | JObj l => 1 + list_sum (map (fun m => 1 + need m.2)%nat l)
  | _ => 1
  end.

Lemma commas_cons2 (x y : bytes) (l : list bytes) : commas (x :: y :: l) = x ++ ","%char :: commas (y :: l).
Proof. done. Qed.

Lemma commas_length {A} (f : A -> bytes) (g : A -> nat) (l : list A) :
  Forall (fun x => (g x <= length (f x))%nat) l ->
  (list_sum (map (fun x => 1 + g x)%nat l) <= 1 + length (commas (map f l)))%nat.
Proof.
  induction 1 as [|x l Hx _ IH]; [cbn; lia|]. destruct l as [|y l]; [cbn in *; lia|].
  change (map f (x :: y :: l)) with (f x :: f y :: map f l). rewrite commas_cons2, length_app.
  change (f y :: map f l) with (map f (y :: l)). cbn [length].
  change (list_sum (map (fun x => 1 + g x)%nat (x :: y :: l))) with (1 + g x + list_sum (map (fun x => 1 + g x)%nat (y :: l)))%nat. lia.
Qed.

Lemma need_length (d : nat) (j : json) : plain_json d j = true -> (need j <= length (Marshal j))%nat.
Proof.
  revert d. induction j as [| | | |l IH|l IH] using json_tree_ind; intros d Hp.
  - cbn; lia.
  - destruct b; cbn; lia.
  - done.
  - cbn. lia.
  - cbn [need Marshal length]. rewrite length_app. cbn [length].
    destruct d as [|d]; [done|]. cbn in Hp.
    pose proof (commas_length Marshal need l) as H. rewrite forallb_forall in Hp. setoid_rewrite <-list_elem_of_In in Hp.
    assert (Forall (fun x => (need x <= length (Marshal x))%nat) l) as HF; [|specialize (H HF); lia].
    rewrite Forall_forall in IH |- *. eauto.
  - cbn [need Marshal length]. rewrite length_app. cbn [length].
    destruct d as [|d]; [done|]. cbn in Hp.
    pose proof (commas_length (fun '(k, v) => quote k ++ ":"%char :: Marshal v) (fun m => need m.2) l) as H.
    rewrite forallb_forall in Hp. setoid_rewrite <-list_elem_of_In in Hp.
    match type of H with Forall ?P _ -> _ => assert (Forall P l) as HF; [|specialize (H HF); lia] end.
    rewrite Forall_forall in IH |- *. intros [k v] Hin. cbn [snd]. rewrite length_app. cbn [length].
    specialize (IH _ Hin d). cbn in IH. pose proof (Hp _ Hin) as Hv. cbn in Hv. apply andb_true_iff in Hv as [_ Hv].
    specialize (IH Hv). lia.
Qed.

Lemma skip_head (c : ascii) (t : bytes) : json_space c = false -> skip (c :: t) = c :: t.
Proof. intros H. unfold skip. by apply dropwhile_head. Qed.

Lemma quote_app (k rest : bytes) : quote k ++ rest = dquote :: concat (map quote_rune (runes k)) ++ dquote :: rest.
Proof. unfold quote. cbn [app]. f_equal. by rewrite <-app_assoc. Qed.

(** The reader on a written value; stated for every fuel that is enough. *)
Definition reads_back (j : json) : Prop :=
  forall d fuel rest, plain_json d j = true -> (need j <= fuel)%nat -> value fuel d (Marshal j ++ rest) = Some (j, rest).

Lemma Marshal_head (j : json) (d : nat) : plain_json d j = true ->
  exists c t, Marshal j = c :: t /\ json_space c = false /\ c <> "]"%char /\ c <> "}"%char.
Proof.
  destruct j as [|[]| | | |]; intros H; try done; eexists _, _; (split; [reflexivity|]); by vm_compute.
Qed.

Lemma elements_back (l : list json) : Forall reads_back l -> l <> [] ->
  forall d fuel rest, forallb (plain_json d) l = true -> (list_sum (map (fun v => 1 + need v)%nat l) <= fuel)%nat ->
  elements fuel d (commas (map Marshal l) ++ "]"%char :: rest) = Some (l, rest).
Proof.
  induction 1 as [|v l Hv _ IH]; [done|]. intros _ d fuel rest Hp Hf.
  cbn [forallb] in Hp. apply andb_true_iff in Hp as [Hp Hl].
  change (list_sum _) with (1 + need v + list_sum (map (fun v => 1 + need v)%nat l))%nat in Hf.
  destruct fuel as [|fuel]; [lia|]. cbn [elements]. destruct l as [|w l].
  - cbn [map commas]. rewrite Hv by (done || lia). done.
  - change (map Marshal (v :: w :: l)) with (Marshal v :: Marshal w :: map Marshal l).
    rewrite commas_cons2, <-app_assoc, Hv by (done || lia). cbn [mbind option_bind app].
    rewrite skip_head by done. rewrite bool_decide_true by done.
    change (Marshal w :: map Marshal l) with (map Marshal (w :: l)). rewrite IH by (done || lia). done.
Qed.

Definition member (m : bytes * json) : bytes := let '(k, v) := m in quote k ++ ":"%char :: Marshal v.

Lemma member_step (k : bytes) (v : json) (fuel d : nat) (r : bytes) :
  valid_utf8 k = true -> reads_back v -> plain_json d v = true -> (need v <= fuel)%nat ->
  members (Datatypes.S fuel) d (member (k, v) ++ r)
  = match skip r with
    | e :: r3 => if bool_decide (e = ","%char) then '(l, r4) ← members fuel d r3; Some ((k, v) :: l, r4)
                 else if bool_decide (e = "}"%char) then Some ([(k, v)], r3) else None
    | [] => None
    end.
Proof.
  intros Hk Hv Hp Hn. unfold member. rewrite <-app_assoc, quote_app. cbn [members].
  rewrite skip_head, bool_decide_true by done. rewrite string_value_quote by done. cbn [mbind option_bind app].
  rewrite skip_head, bool_decide_true by done. by rewrite Hv.
Qed.

Lemma members_back (l : list (bytes * json)) : Forall (fun m => reads_back m.2) l -> l <> [] ->
  forall d fuel rest, forallb (fun m => valid_utf8 m.1 && plain_json d m.2) l = true ->
  (list_sum (map (fun m => 1 + need m.2)%nat l) <= fuel)%nat ->
  members fuel d (commas (map member l) ++ "}"%char :: rest) = Some (l, rest).
Proof.
  induction 1 as [|[k v] l Hv _ IH]; [done|]. intros _ d fuel rest Hp Hf. cbn [snd] in Hv.
  cbn [forallb fst snd] in Hp. apply andb_true_iff in Hp as [Hp Hl]. apply andb_true_iff in Hp as [Hk Hp].
  change (list_sum _) with (1 + need v + list_sum (map (fun m : bytes * json => 1 + need m.2)%nat l))%nat in Hf.
  destruct fuel as [|fuel]; [lia|]. destruct l as [|m l].
  - change (commas (map member [(k, v)])) with (member (k, v)). by rewrite member_step by (done || lia).
  - change (map member ((k, v) :: m :: l)) with (member (k, v) :: member m :: map member l).
    rewrite commas_cons2, <-app_assoc, member_step by (done || lia).
    cbn [app]. rewrite skip_head, bool_decide_true by done.
    change (member m :: map member l) with (map member (m :: l)). rewrite IH by (done || lia). done.
Qed.

Lemma value_back (j : json) : reads_back j.
Proof.
  induction j as [| | | |l IH|l IH] using json_tree_ind; intros d fuel rest Hp Hf; (destruct fuel as [|fuel]; [cbn in Hf; lia|]).
  - done.
  - by destruct b.
  - done.
  - cbn [Marshal]. rewrite quote_app. cbn [value]. rewrite skip_head, bool_decide_true by done. by rewrite string_value_quote.
  - destruct d as [|d]; [done|]. cbn [plain_json] in Hp. cbn [need] in Hf. cbn [Marshal app value].
    rewrite skip_head by done. rewrite bool_decide_false, bool_decide_true by done.
    destruct l as [|v l]; [done|]. rewrite <-app_assoc. cbn [app].
    assert (exists c t, commas (map Marshal (v :: l)) = c :: t /\ json_space c = false /\ c <> "]"%char) as (c & t & Hc & Hs & Hne).
    { cbn [forallb] in Hp. apply andb_true_iff in Hp as [Hv _]. apply Marshal_head in Hv as (c & t & Hv & ? & ? & _).
      destruct l as [|w l]; [exists c, t|exists c, (t ++ ","%char :: commas (map Marshal (w :: l)))]; (split; [|done]).
      - done.
      - change (map Marshal (v :: w :: l)) with (Marshal v :: Marshal w :: map Marshal l). by rewrite commas_cons2, Hv. }
    rewrite Hc. cbn [app]. rewrite skip_head, bool_decide_false by done. rewrite app_comm_cons, <-Hc.
    rewrite elements_back by (done || lia). done.
  - destruct d as [|d]; [done|]. cbn [plain_json] in Hp. cbn [need] in Hf. cbn [Marshal app value].
    rewrite skip_head by done. rewrite !bool_decide_false, bool_decide_true by done.
    destruct l as [|[k v] l]; [done|]. rewrite <-app_assoc. cbn [app].
    change (map (fun '(k, v) => quote k ++ ":"%char :: Marshal v) ((k, v) :: l)) with (map member ((k, v) :: l)).
    assert (exists t, commas (map member ((k, v) :: l)) = dquote :: t) as (t & Hc).
    { destruct l as [|w l]; eexists; [reflexivity|].
      change (map member ((k, v) :: w :: l)) with (member (k, v) :: member w :: map member l). rewrite commas_cons2. reflexivity. }
    rewrite Hc. cbn [app]. rewrite skip_head, bool_decide_false by done. rewrite app_comm_cons, <-Hc.
    rewrite members_back by (done || lia). done.
Qed.

Lemma Unmarshal_Marshal (j : json) : plain_json max_depth j = true -> Unmarshal (Marshal j) = Some j.
Proof.
  intros Hp. unfold Unmarshal. pose proof (value_back j max_depth (json_fuel (Marshal j)) [] Hp) as H.
  rewrite app_nil_r in H. rewrite H; [done|]. apply need_length in Hp. unfold json_fuel. lia.
Qed.

Lemma Marshal_inj (i j : json) : plain_json max_depth i = true -> plain_json max_depth j = true -> Marshal i = Marshal j -> i = j.
Proof. intros Hi Hj H. apply Unmarshal_Marshal in Hi, Hj. rewrite H in Hi. congruence. Qed.

(** ** What is read is valid UTF-8 *)
Lemma good_valid (rs : list (Z * bytes)) : Forall good_rune rs -> valid_utf8 (unrunes rs) = true.
Proof.
  intros H. unfold valid_utf8. rewrite runes_unrunes by done. apply forallb_forall. intros r Hr.
  rewrite Forall_forall in H. by destruct (H r (proj2 (list_elem_of_In _ _) Hr)).
Qed.

Lemma valid_app (a b : bytes) : valid_utf8 a = true -> valid_utf8 b = true -> valid_utf8 (a ++ b) = true.
Proof.
  intros Ha Hb. apply valid_good in Ha, Hb. rewrite <-(unrunes_runes a), <-(unrunes_runes b), <-unrunes_app.
  apply good_valid, Forall_app. by split.
Qed.

Lemma byteval_byte (z : Z) : 0 <= z < 256 -> byteval (byte_of_Z z) = z.
Proof. intros H. rewrite byteval_of_Z. by apply Z.mod_small. Qed.

Lemma append_good (r : Z) : 0 <= r < 1114112 -> is_surrogate r = false -> valid_utf8 (append_rune r) = true.
Proof.
  intros Hr Hs. unfold is_surrogate in Hs. unfold append_rune.
  assert (forall x : Z * bytes, good_rune x -> valid_utf8 x.2 = true) as Hone.
  { intros x Hx. replace x.2 with (unrunes [x]) by (unfold unrunes; cbn; by rewrite app_nil_r). apply good_valid. by apply Forall_singleton. }
  destruct (Z.ltb_spec r 128).
  { change (valid_utf8 (map byte_of_Z [r])) with (valid_utf8 (byteval (byte_of_Z r), [byte_of_Z r]).2). apply Hone, rune_1. rewrite byteval_byte; lia. }
  destruct (Z.ltb_spec r 2048).
  { eapply (Hone (_, [byte_of_Z _; byte_of_Z _])), rune_2. unfold lead2, cont. rewrite !byteval_byte by (Z.div_mod_to_equations; lia).
    Z.div_mod_to_equations; lia. }
  destruct (Z.ltb_spec r 65536).
  - eapply (Hone (_, [byte_of_Z _; byte_of_Z _; byte_of_Z _])), rune_3; unfold lead2, lead3, cont; cbv zeta;
      rewrite !byteval_byte by (Z.div_mod_to_equations; lia).
    + apply andb_false_iff. left. apply andb_false_iff. right. Z.div_mod_to_equations; lia.
    + destruct (Z.eqb_spec (224 + r / 4096) 224), (Z.eqb_spec (224 + r / 4096) 237); rewrite !andb_true_iff, ?Z.leb_le; split_and!;
        bool_hyps; Z.div_mod_to_equations; lia.
  - eapply (Hone (_, [byte_of_Z _; byte_of_Z _; byte_of_Z _; byte_of_Z _])), rune_4; unfold lead2, lead3, lead4, cont; cbv zeta;
      rewrite !byteval_byte by (Z.div_mod_to_equations; lia).
    + apply andb_false_iff. left. apply andb_false_iff. right. Z.div_mod_to_equations; lia.
    + do 4 (apply andb_false_iff; left). apply andb_false_iff; right. Z.div_mod_to_equations; lia.
    + destruct (Z.eqb_spec (240 + r / 262144) 240), (Z.eqb_spec (240 + r / 262144) 244); rewrite !andb_true_iff, ?Z.leb_le; split_and!;
        Z.div_mod_to_equations; lia.
Qed.

Lemma to_valid_valid (l : bytes) : valid_utf8 (to_valid l) = true.
Proof.
  unfold to_valid. pose proof (runes_good l) as H. induction H as [|r rs Hr _ IH]; [done|]. cbn [map concat].
  apply valid_app; [|done]. unfold fix_rune. destruct (_ && _) eqn:Hb; [apply append_good; (done || by vm_compute)|].
  assert (good_rune r) as Hg by (apply Hr; unfold rune_valid; by rewrite Hb).
  replace r.2 with (unrunes [r]) by (unfold unrunes; cbn; by rewrite app_nil_r). apply good_valid. by apply Forall_singleton.
Qed.

Definition piece_ok (p : piece) : Prop :=
  match p with Raw _ => True | Esc c => byteval c < 128 | Unit n => 0 <= n < 65536 end.

Lemma literal_pieces (s r : bytes) (ps : list piece) : literal s = Some (ps, r) -> Forall piece_ok ps.
Proof.
  remember (length s) as n eqn:Hn. revert s Hn ps r.
  induction n as [n IH] using lt_wf_ind. intros s -> ps r.
  destruct s as [|c t]; [done|]. cbn [literal]. case_bool_decide; [by intros [= <- <-]|].
  case_bool_decide.
  - destruct t as [|e t1]; [done|]. case_bool_decide.
    + destruct t1 as [|a [|b [|c0 [|d t2]]]]; try done.
      destruct (digit_val 16 a) eqn:Ha; [|done]. destruct (digit_val 16 b) eqn:Hb; [|done].
      destruct (digit_val 16 c0) eqn:Hc; [|done]. destruct (digit_val 16 d) eqn:Hd; [|done].
      apply digit_val_range in Ha, Hb, Hc, Hd.
      destruct (literal t2) as [[ps' r']|] eqn:Hl; [|done]. intros [= <- <-]. constructor; [cbn; lia|].
      eapply (IH (length t2)); [cbn; lia|done|done].
    + destruct (escape_letter e) as [x|] eqn:He; [|done]. cbn [mbind option_bind].
      destruct (literal t1) as [[ps' r']|] eqn:Hl; [|done]. intros [= <- <-]. constructor.
      * unfold escape_letter in He. cbn. repeat case_bool_decide; simplify_eq; by vm_compute.
      * eapply (IH (length t1)); [cbn; lia|done|done].
  - destruct (byteval c <? 32); [done|]. destruct (literal t) as [[ps' r']|] eqn:Hl; [|done]. intros [= <- <-]. constructor; [done|].
    eapply (IH (length t)); [cbn; lia|done|done].
Qed.

Lemma ascii_valid (c : ascii) : byteval c < 128 -> valid_utf8 [c] = true.
Proof.
  intros H. unfold valid_utf8. cbn [runes]. rewrite (proj2 (Z.ltb_lt _ _) H). cbn [forallb]. apply andb_true_iff. split; [|done].
  apply (rune_1 c H).
Qed.

Lemma unquote_valid (ps : list piece) (run : bytes) : Forall piece_ok ps -> valid_utf8 (unquote ps run) = true.
Proof.
  remember (length ps) as n eqn:Hn. revert ps run Hn. induction n as [n IH] using lt_wf_ind. intros ps run -> H.
  destruct H as [|p ps Hp H]; [apply to_valid_valid|].
  assert (forall run, valid_utf8 (unquote ps run) = true) as Hps by (intros run'; eapply (IH (length ps)); [cbn; lia|done..]).
  destruct p as [c|c|k]; cbn [unquote].
  - apply Hps.
  - apply valid_app; [apply to_valid_valid|]. apply (valid_app [c]); [by apply ascii_valid|apply Hps].
  - apply valid_app; [apply to_valid_valid|]. cbn in Hp. destruct (is_surrogate k) eqn:Hs.
    + assert (valid_utf8 (append_rune rune_error ++ unquote ps []) = true) as Hbad by (apply valid_app; [by vm_compute|apply Hps]).
      destruct ps as [|[c|c|m] ps']; [exact Hbad..|]. destruct (_ && _) eqn:Hb; [|exact Hbad].
      inversion H; subst. apply valid_app; [|eapply (IH (length ps')); [cbn; lia|done..]].
      unfold is_surrogate in *. bool_hyps. apply append_good; [lia|]. unfold is_surrogate. lia.
    + apply valid_app; [|apply Hps]. by apply append_good; [lia|].
Qed.

Lemma string_value_valid (s r x : bytes) : string_value s = Some (x, r) -> valid_utf8 x = true.
Proof.
  unfold string_value. destruct (literal s) as [[ps r']|] eqn:Hl; [|done]. intros [= <- <-].
  apply unquote_valid. by eapply literal_pieces.
Qed.

Fixpoint strings_ok (j : json) : bool :=
  match j with
  | JNull | JBool _ | JNum _ => true
  | JStr s => valid_utf8 s
  | JArr l => forallb strings_ok l
  | JObj l => forallb (fun m => valid_utf8 m.1 && strings_ok m.2) l
  end.

Lemma value_strings (fuel : nat) :
  (forall d s j r, value fuel d s = Some (j, r) -> strings_ok j = true)
  /\ (forall d s l r, elements fuel d s = Some (l, r) -> forallb strings_ok l = true)
  /\ (forall d s l r, members fuel d s = Some (l, r) -> forallb (fun m => valid_utf8 m.1 && strings_ok m.2) l = true).
Proof.
  induction fuel as [|f (IHv & IHe & IHm)]; [done|]. split_and!; intros d s.
  - intros j r. cbn [value]. destruct (skip s) as [|c t]; [done|]. case_bool_decide.
    { destruct (string_value t) as [[x r']|] eqn:Hx; [|done]. intros [= <- <-]. by apply string_value_valid in Hx. }
    case_bool_decide.
    { destruct d as [|d]; [done|]. destruct (skip t) as [|e u]; [done|]. case_bool_decide; [by intros [= <- <-]|].
      destruct (elements f d t) as [[l r']|] eqn:Hl; [|done]. intros [= <- <-]. by apply IHe in Hl. }
    case_bool_decide.
    { destruct d as [|d]; [done|]. destruct (skip t) as [|e u]; [done|]. case_bool_decide; [by intros [= <- <-]|].
      destruct (members f d t) as [[l r']|] eqn:Hl; [|done]. intros [= <- <-]. by apply IHm in Hl. }
    destruct (CutPrefix (c :: t) (B "null")); [by intros [= <- <-]|]. destruct (CutPrefix (c :: t) (B "true")); [by intros [= <- <-]|].
    destruct (CutPrefix (c :: t) (B "false")); [by intros [= <- <-]|].
    destruct (number (c :: t)) as [[x r']|]; [|done]. by intros [= <- <-].
  - intros l r. cbn [elements]. destruct (value f d s) as [[v r1]|] eqn:Hv; [|done]. apply IHv in Hv. cbn [mbind option_bind].
    destruct (skip r1) as [|e r2]; [done|]. case_bool_decide.
    + destruct (elements f d r2) as [[l' r3]|] eqn:Hl; [|done]. intros [= <- <-]. apply IHe in Hl. cbn. by rewrite Hv.
    + case_bool_decide; [|done]. intros [= <- <-]. cbn. by rewrite Hv.
  - intros l r. cbn [members]. destruct (skip s) as [|q t]; [done|]. case_bool_decide; [|done].
    destruct (string_value t) as [[k r1]|] eqn:Hk; [|done]. apply string_value_valid in Hk. cbn [mbind option_bind].
    destruct (skip r1) as [|e r2]; [done|]. case_bool_decide; [|done].
    destruct (value f d r2) as [[v r3]|] eqn:Hv; [|done]. apply IHv in Hv. cbn [mbind option_bind].
    destruct (skip r3) as [|e2 r4]; [done|]. case_bool_decide.
    + destruct (members f d r4) as [[l' r5]|] eqn:Hl; [|done]. intros [= <- <-]. apply IHm in Hl. cbn [forallb fst snd]. by rewrite Hk, Hv.
    + case_bool_decide; [|done]. intros [= <- <-]. cbn [forallb fst snd]. by rewrite Hk, Hv.
Qed.

Lemma Decode_strings (s : bytes) (j : json) : Decode s = Some j -> strings_ok j = true.
Proof.
  unfold Decode. destruct (value _ _ s) as [[j' r]|] eqn:H; [|done]. intros [= <-].
  destruct (value_strings (json_fuel s)) as (Hv & _). by eapply Hv.
Qed.

Lemma Unmarshal_strings (s : bytes) (j : json) : Unmarshal s = Some j -> strings_ok j = true.
Proof.
  unfold Unmarshal. destruct (value _ _ s) as [[j' r]|] eqn:H; [|done]. cbn. destruct (skip r); [|done]. intros [= <-].
  destruct (value_strings (json_fuel s)) as (Hv & _). by eapply Hv.
Qed.

(** ** Lemmas on decoding *)

(** One member at a time. *)
Lemma decode_member {A} (fields : list (bytes * decoder A)) (k : bytes) (v : json) (t : list (bytes * json)) (a a' : A) (f : decoder A) :
  find_field fields k = Some f -> f v a = Some a' -> decode_members fields ((k, v) :: t) a = decode_members fields t a'.
Proof. intros Hf Ha. cbn [decode_members]. by rewrite Hf, Ha. Qed.

(** Decoding keeps a property its fields keep. *)
Lemma decode_struct_keeps {A} (P : A -> Prop) (fields : list (bytes * decoder A)) (j : json) (a a' : A) :
  Forall (fun f => forall v x x', strings_ok v = true -> P x -> f.2 v x = Some x' -> P x') fields ->
  strings_ok j = true -> P a -> decode_struct fields j a = Some a' -> P a'.
Proof.
  intros Hf Hj Ha. unfold decode_struct. destruct j as [| | | | |ms]; try done; [by intros [= <-]|].
  cbn [strings_ok] in Hj. revert a Ha. induction ms as [|[k v] ms IH]; intros a Ha; cbn [decode_members]; [by intros [= <-]|].
  cbn [forallb fst snd] in Hj. apply andb_true_iff in Hj as [Hv Hj]. apply andb_true_iff in Hv as [_ Hv].
  destruct (find_field fields k) as [f|] eqn:Hk; [|by apply IH].
  destruct (f v a) as [a1|] eqn:Hfa; [|done]. cbn [mbind option_bind]. apply IH; [done|].
  unfold find_field in Hk. rewrite Forall_forall in Hf.
  destruct (List.find _ fields) as [g|] eqn:Hg; [injection Hk as <-|].
  - apply find_some in Hg as [Hg _]. eapply (Hf g); [by apply list_elem_of_In|done|exact Ha|done].
  - apply fmap_Some in Hk as (g & Hg' & ->). apply find_some in Hg' as [Hg' _].
    eapply (Hf g); [by apply list_elem_of_In|done|exact Ha|done].
Qed.
