(* ===== verification/Events.v ===== *)
(** * The event envelope

    The data model of security events: [src/internal/events/types.go].  The
    string-typed enumerations are inductive types with their wire names. *)
From S2P Require Import Prelude GoFloat GoStrings.
Local Open Scope Z_scope.

Inductive EventType :=
  | EventAuthLoginSuccess | EventAuthLoginFailed | EventAuthLogout | EventAuthSudo
  | EventAuthBruteforceDetected | EventAuthLoginNewIP
  | EventProcessStart | EventProcessStop | EventProcessHighCPU | EventProcessHighMemory
  | EventProcessSuspicious | EventProcessExecTmp | EventProcessReverseShell
  | EventNetworkConnectionOpen | EventNetworkScanDetected | EventNetworkSuspiciousPort
  | EventSystemReboot | EventSystemOOMKiller | EventSystemUserCreated | EventSystemUserDeleted
  | EventSystemConfigModified.

Definition EventType_string (t : EventType) : string :=
  match t with
  | EventAuthLoginSuccess => "auth.login_success"
  | EventAuthLoginFailed => "auth.login_failed"
  | EventAuthLogout => "auth.logout"
  | EventAuthSudo => "auth.sudo"
  | EventAuthBruteforceDetected => "auth.bruteforce_detected"
  | EventAuthLoginNewIP => "auth.login_new_ip"
  | EventProcessStart => "process.start"
  | EventProcessStop => "process.stop"
  | EventProcessHighCPU => "process.high_cpu"
  | EventProcessHighMemory => "process.high_memory"
  | EventProcessSuspicious => "process.suspicious"
  | EventProcessExecTmp => "process.exec_tmp"
  | EventProcessReverseShell => "process.reverse_shell"
  | EventNetworkConnectionOpen => "network.connection_open"
  | EventNetworkScanDetected => "network.scan_detected"
  | EventNetworkSuspiciousPort => "network.suspicious_port"
  | EventSystemReboot => "system.reboot"
  | EventSystemOOMKiller => "system.oom_killer"
  | EventSystemUserCreated => "system.user_created"
  | EventSystemUserDeleted => "system.user_deleted"
  | EventSystemConfigModified => "system.config_modified"
  end.

(** [AllTypes] of [counter.go]. *)
Definition AllTypes : list EventType :=
  [ EventAuthLoginSuccess; EventAuthLoginFailed; EventAuthLogout; EventAuthSudo;
    EventAuthBruteforceDetected; EventAuthLoginNewIP;
    EventProcessStart; EventProcessStop; EventProcessHighCPU; EventProcessHighMemory;
    EventProcessSuspicious; EventProcessExecTmp; EventProcessReverseShell;
    EventNetworkConnectionOpen; EventNetworkScanDetected; EventNetworkSuspiciousPort;
    EventSystemReboot; EventSystemOOMKiller; EventSystemUserCreated; EventSystemUserDeleted;
    EventSystemConfigModified ].

#[export] Instance EventType_eq_dec : EqDecision EventType.
Proof. solve_decision. Defined.

Definition EventType_of_string (s : string) : option EventType :=
  snd <$> list_find (fun t => EventType_string t = s) AllTypes.

Lemma EventType_of_to_string (t : EventType) : EventType_of_string (EventType_string t) = Some t.
Proof. by destruct t. Qed.

#[export] Instance EventType_countable : Countable EventType :=
  inj_countable EventType_string EventType_of_string EventType_of_to_string.

#[export] Instance EventType_string_inj : Inj (=) (=) EventType_string.
Proof.
  intros x y H. apply (f_equal EventType_of_string) in H.
  rewrite !EventType_of_to_string in H. by simplify_eq.
Qed.

Lemma AllTypes_complete (t : EventType) : t ∈ AllTypes.
Proof. destruct t; unfold AllTypes; set_solver. Qed.

Inductive Category := CategoryAccessEvent | CategoryThreatActivity | CategorySystemCheck.
Inductive Severity := SeverityInfo | SeverityWarning | SeverityCritical.
(** [ConfidenceNone] is the empty string of an event without a confidence. *)
Inductive Confidence := ConfidenceNone | ConfidenceLow | ConfidenceMedium | ConfidenceHigh.

Record HostInfo := { host_Hostname : string; host_IP : string }.
Record AgentInfo := { agent_Name : string; agent_Version : string }.
Record ActorInfo := {
  actor_User : string; actor_UID : Z; actor_IP : string; actor_Method : string;
  actor_TargetUser : string; actor_Command : string }.
Record ContextInfo := {
  ctx_SessionID : string; ctx_TTY : string; ctx_RemoteIP : string; ctx_Reason : string;
  ctx_Service : string }.
Record ProcessDetail := {
  pd_Name : string; pd_PID : Z; pd_PPID : Z; pd_Cmdline : string; pd_Exe : string;
  pd_CPUPercent : float64; pd_MemoryPercent : float32 }.
Record NetworkDetail := { nd_LocalIP : string; nd_LocalPort : Z; nd_Proto : string }.

Record Event := {
  ev_ID : string;
  ev_Timestamp : time;
  ev_Type : EventType;
  ev_Category : Category;
  ev_Severity : Severity;
  ev_Confidence : Confidence;
  ev_Host : HostInfo;
  ev_Agent : AgentInfo;
  ev_Actor : option ActorInfo;
  ev_Context : option ContextInfo;
  ev_Tags : list string;
  ev_Process : option ProcessDetail;
  ev_Network : option NetworkDetail }.

#[export] Instance Category_eq_dec : EqDecision Category.
Proof. solve_decision. Defined.
#[export] Instance Severity_eq_dec : EqDecision Severity.
Proof. solve_decision. Defined.
#[export] Instance Confidence_eq_dec : EqDecision Confidence.
Proof. solve_decision. Defined.
#[export] Instance HostInfo_eq_dec : EqDecision HostInfo.
Proof. solve_decision. Defined.
#[export] Instance AgentInfo_eq_dec : EqDecision AgentInfo.
Proof. solve_decision. Defined.
#[export] Instance ActorInfo_eq_dec : EqDecision ActorInfo.
Proof. solve_decision. Defined.
#[export] Instance ContextInfo_eq_dec : EqDecision ContextInfo.
Proof. solve_decision. Defined.
#[export] Instance ProcessDetail_eq_dec : EqDecision ProcessDetail.
Proof. solve_decision. Defined.
#[export] Instance NetworkDetail_eq_dec : EqDecision NetworkDetail.
Proof. solve_decision. Defined.
#[export] Instance Event_eq_dec : EqDecision Event.
Proof. solve_decision. Defined.

Definition empty_actor : ActorInfo := {|
  actor_User := ""; actor_UID := 0; actor_IP := ""; actor_Method := "";
  actor_TargetUser := ""; actor_Command := "" |}.
Definition empty_context : ContextInfo := {|
  ctx_SessionID := ""; ctx_TTY := ""; ctx_RemoteIP := ""; ctx_Reason := ""; ctx_Service := "" |}.
Definition empty_process : ProcessDetail := {|
  pd_Name := ""; pd_PID := 0; pd_PPID := 0; pd_Cmdline := ""; pd_Exe := "";
  pd_CPUPercent := f64_zero; pd_MemoryPercent := f32_zero |}.

(** The documented shape of an event: at most one domain payload. *)
Definition event_payload_ok (e : Event) : bool :=
  negb (bool_decide (is_Some (ev_Process e)) && bool_decide (is_Some (ev_Network e))).

(** Events about a threat carry a threat severity, never [SeverityInfo]. *)
Definition event_threat_ok (e : Event) : bool :=
  match ev_Category e, ev_Severity e with
  | CategoryThreatActivity, SeverityInfo => false
  | _, _ => true
  end.

Definition of_type (ty : EventType) (e : Event) : bool := bool_decide (ev_Type e = ty).

(** An event whose random identifier is still to be drawn, and the numbering
    of a sequence of them with the identifiers drawn in order. *)
Abbreviation pending := (string -> Event) (only parsing).
Definition number (uuid : nat -> string) (evs : list pending) : list Event := imap (fun i mk => mk (uuid i)) evs.
