(* ===== verification/RingBuffer.v ===== *)
(** * The event ring buffer

    [src/internal/events/buffer.go]: a bounded FIFO that drops the oldest
    event when full.  Every method of the Go type runs under its mutex, so an
    execution is a sequence of atomic calls.  Out-of-range indexing panics
    ([None]); indices are 64-bit.

    [EventQueue] is the contract the event transport relies on: a queue of
    bounded length that evicts the oldest elements.  [ring_queue] discharges
    it for the ring buffer. *)
From S2P Require Import Prelude GoStrings Events.
Local Open Scope Z_scope.

Record RingBuffer := {
  buf : list Event;
  head : Z;
  tail : Z;
  size : Z;
  cap : Z;
  dropped : Z }.

Definition zero_event : Event := {|
  ev_ID := ""; ev_Timestamp := time_zero; ev_Type := EventAuthLoginSuccess;
  ev_Category := CategoryAccessEvent; ev_Severity := SeverityInfo; ev_Confidence := ConfidenceNone;
  ev_Host := {| host_Hostname := ""; host_IP := "" |};
  ev_Agent := {| agent_Name := ""; agent_Version := "" |};
  ev_Actor := None; ev_Context := None; ev_Tags := []; ev_Process := None; ev_Network := None |}.

Definition NewRingBuffer (capacity : Z) : option RingBuffer :=
  if capacity <? 1 then None
  else Some {| buf := replicate (Z.to_nat capacity) zero_event; head := 0; tail := 0;
               size := 0; cap := capacity; dropped := 0 |}.

Definition Push (r : RingBuffer) (e : Event) : option RingBuffer :=
  if size r =? cap r then
    b ← slice_set (buf r) (tail r) e;
    Some {| buf := b; head := (head r +i 1) %i cap r; tail := (tail r +i 1) %i cap r;
            size := size r; cap := cap r; dropped := wrap_u64 (dropped r + 1) |}
  else
    b ← slice_set (buf r) (tail r) e;
    Some {| buf := b; head := head r; tail := (tail r +i 1) %i cap r;
            size := size r +i 1; cap := cap r; dropped := dropped r |}.

(** The copy loop of [Drain]: [out[i] = r.buf[(r.head+i)%r.cap]] for each
    index [i] of [out]. *)
Definition drain_copy (r : RingBuffer) : option (list Event) :=
  mapM (fun i : nat => slice_get (buf r) ((head r +i Z.of_nat i) %i cap r)) (seq 0 (Z.to_nat (size r))).

Definition Drain (r : RingBuffer) : option (list Event * RingBuffer) :=
  if size r =? 0 then Some ([], r)
  else
    out ← drain_copy r;
    Some (out, {| buf := buf r; head := 0; tail := 0; size := 0; cap := cap r; dropped := dropped r |}).

Definition Len (r : RingBuffer) : Z := size r.
Definition Dropped (r : RingBuffer) : Z := dropped r.

(** ** Invariant and abstraction *)

(** Capacities above 2^62 cannot be allocated; below, no index computation
    wraps. *)
Definition wf (r : RingBuffer) : Prop :=
  1 <= cap r <= 2 ^ 62 /\ len (buf r) = cap r /\ 0 <= head r < cap r /\ 0 <= tail r < cap r
  /\ 0 <= size r <= cap r /\ tail r = (head r + size r) mod cap r /\ 0 <= dropped r < 2 ^ 64.

(** Slot [k] of the queue lives at index [(head + k) mod cap]. *)
Definition slot (r : RingBuffer) (k : nat) : option Event :=
  buf r !! Z.to_nat ((head r + Z.of_nat k) mod cap r).

(** The abstract content: the stored events, oldest first. *)
Definition contents (r : RingBuffer) : list Event := omap (slot r) (seq 0 (Z.to_nat (size r))).

Lemma mod_cap_range (r : RingBuffer) (x : Z) : wf r -> 0 <= x mod cap r < cap r.
Proof. intros (? & _). apply Z.mod_pos_bound. lia. Qed.

Lemma slot_Some (r : RingBuffer) (k : nat) : wf r -> is_Some (slot r k).
Proof.
  intros Hwf. pose proof (mod_cap_range r (head r + Z.of_nat k) Hwf).
  destruct Hwf as (? & Hl & _). unfold slot, len in *. apply lookup_lt_is_Some. lia.
Qed.

Lemma omap_seq_lookup (f : nat -> option Event) (n : nat) :
  (forall k, is_Some (f k)) -> forall s k, (k < n)%nat -> omap f (seq s n) !! k = f (s + k)%nat.
Proof.
  intros Hf. induction n as [|n IH]; intros s k Hk; [lia|]. cbn.
  destruct (Hf s) as [e He]. rewrite He. destruct k as [|k]; cbn.
  - by rewrite Nat.add_0_r.
  - rewrite IH by lia. f_equal. lia.
Qed.

Lemma length_omap_seq (f : nat -> option Event) (n s : nat) :
  (forall k, is_Some (f k)) -> length (omap f (seq s n)) = n.
Proof.
  intros Hf. revert s. induction n as [|n IH]; intros s; [done|]. cbn.
  destruct (Hf s) as [e ->]. cbn. by rewrite IH.
Qed.

Lemma length_contents (r : RingBuffer) : wf r -> length (contents r) = Z.to_nat (size r).
Proof. intros Hwf. apply length_omap_seq. intros k. by apply slot_Some. Qed.

Lemma lookup_contents (r : RingBuffer) (k : nat) :
  wf r -> (k < Z.to_nat (size r))%nat -> contents r !! k = slot r k.
Proof. intros Hwf Hk. unfold contents. rewrite omap_seq_lookup; [done| |done]. intros j. by apply slot_Some. Qed.

Lemma wf_tail_slot (r : RingBuffer) :
  wf r -> size r = cap r -> tail r = head r.
Proof.
  intros (Hc & _ & Hh & _ & _ & Ht & _) Hs. rewrite Ht, Hs.
  rewrite <-(Z.mul_1_l (cap r)) at 1. rewrite Z.mod_add by lia. by apply Z.mod_small.
Qed.

(** Distinct slots have distinct indices. *)
Lemma slot_index_inj (c h j k : Z) :
  0 < c -> 0 <= j < c -> 0 <= k < c -> (h + j) mod c = (h + k) mod c -> j = k.
Proof.
  intros Hc Hj Hk Heq.
  assert (Hd : (j - k) mod c = 0).
  { replace (j - k) with ((h + j) - (h + k)) by lia. by rewrite Zminus_mod, Heq, Z.sub_diag, Z.mod_0_l by lia. }
  apply Z.mod_divide in Hd; [|lia]. destruct Hd as [q Hq]. assert (q = 0) by nia. nia.
Qed.

Lemma head_succ_mod (r : RingBuffer) (k : Z) :
  wf r -> 0 <= k -> ((head r +i 1) %i cap r + k) mod cap r = (head r + (k + 1)) mod cap r.
Proof.
  intros (Hc & _ & Hh & _) Hk. rewrite rem_succ by lia. case_decide as He.
  - replace (head r + (k + 1)) with (k + 1 * cap r) by lia. by rewrite Z.mod_add by lia.
  - f_equal. lia.
Qed.

Lemma tail_succ_mod (r : RingBuffer) :
  wf r -> (tail r +i 1) %i cap r = (head r + size r + 1) mod cap r.
Proof.
  intros (Hc & _ & Hh & Htl & _ & Ht & _). rewrite rem_succ by lia.
  rewrite <-Zplus_mod_idemp_l, <-Ht. case_decide as He.
  - rewrite He. symmetry. apply Z.mod_same. lia.
  - symmetry. apply Z.mod_small. lia.
Qed.

(** ** Push *)

Definition pushed (r : RingBuffer) (e : Event) : RingBuffer :=
  let b := <[Z.to_nat (tail r) := e]> (buf r) in
  if size r =? cap r
  then {| buf := b; head := (head r +i 1) %i cap r; tail := (tail r +i 1) %i cap r; size := size r;
          cap := cap r; dropped := wrap_u64 (dropped r + 1) |}
  else {| buf := b; head := head r; tail := (tail r +i 1) %i cap r; size := size r +i 1;
          cap := cap r; dropped := dropped r |}.

Lemma Push_pushed (r : RingBuffer) (e : Event) : wf r -> Push r e = Some (pushed r e).
Proof.
  intros (Hc & Hl & _ & Htl & _). unfold Push, pushed. rewrite slice_set_Some by lia.
  by destruct (size r =? cap r).
Qed.

Lemma pushed_wf (r : RingBuffer) (e : Event) : wf r -> wf (pushed r e).
Proof.
  intros Hwf. pose proof (tail_succ_mod r Hwf) as Ht. pose proof (head_succ_mod r (size r) Hwf) as Hh.
  pose proof (mod_cap_range r (head r + size r + 1) Hwf) as Hr.
  pose proof (mod_cap_range r (head r + 1) Hwf) as Hr1.
  pose proof (head_succ_mod r 0 Hwf) as Hh0.
  destruct Hwf as (Hc & Hl & Hhd & Htl & Hs & _ & Hd). unfold wf, pushed, len in *.
  assert (0 <= (head r +i 1) %i cap r < cap r).
  { rewrite rem_succ by lia. case_decide; lia. }
  destruct (Z.eqb_spec (size r) (cap r)) as [He|Hne]; cbn; rewrite length_insert.
  - rewrite Ht. repeat split; try lia.
    + rewrite Hh by lia. by rewrite Z.add_assoc.
    + apply Z.mod_pos_bound. lia.
    + apply Z.mod_pos_bound. lia.
  - rewrite Ht. rewrite wrap_i64_id by go_lia. repeat split; try lia. f_equal. lia.
Qed.

Lemma pushed_fields (r : RingBuffer) (e : Event) :
  buf (pushed r e) = <[Z.to_nat (tail r) := e]> (buf r) /\ cap (pushed r e) = cap r.
Proof. unfold pushed. by destruct (size r =? cap r). Qed.

Lemma pushed_full (r : RingBuffer) (e : Event) :
  size r = cap r -> head (pushed r e) = (head r +i 1) %i cap r /\ size (pushed r e) = size r.
Proof. intros H. unfold pushed. by rewrite (proj2 (Z.eqb_eq _ _) H). Qed.

Lemma pushed_room (r : RingBuffer) (e : Event) :
  wf r -> size r <> cap r -> head (pushed r e) = head r /\ size (pushed r e) = size r + 1.
Proof.
  intros (? & _ & _ & _ & ? & _) Hne. unfold pushed. rewrite (proj2 (Z.eqb_neq _ _) Hne). cbn.
  rewrite wrap_i64_id; go_lia.
Qed.

(** A full buffer: the oldest slot is overwritten and becomes the newest. *)
Lemma contents_pushed_full (r : RingBuffer) (e : Event) :
  wf r -> size r = cap r -> contents (pushed r e) = drop 1 (contents r) ++ [e].
Proof.
  intros Hwf He. pose proof (pushed_wf r e Hwf) as Hwf'. pose proof (length_contents _ Hwf) as Hlen.
  destruct (pushed_fields r e) as [Hb Hcap]. destruct (pushed_full r e He) as [Hh Hsz].
  pose proof Hwf as (Hc & Hl & Hhd & Htl & Hs & Ht & Hd). unfold len in Hl.
  apply list_eq_same_length with (n := Z.to_nat (size r)).
  { rewrite length_app, length_drop, Hlen. cbn. lia. }
  { by rewrite length_contents, Hsz. }
  intros k x y Hk. rewrite lookup_contents by (rewrite ?Hsz; done).
  unfold slot. rewrite Hcap, Hh, Hb, head_succ_mod, (wf_tail_slot r Hwf He) by (done || lia).
  destruct (decide (k = Z.to_nat (size r) - 1)%nat) as [->|Hk'].
  - rewrite lookup_app_r by (rewrite length_drop; lia). rewrite length_drop, Hlen, Nat.sub_diag. cbn.
    replace (head r + _) with (head r + 1 * cap r) by lia. rewrite Z.mod_add, Z.mod_small by lia.
    rewrite list_lookup_insert_eq by lia. congruence.
  - rewrite lookup_app_l by (rewrite length_drop; lia).
    rewrite lookup_drop, lookup_contents by (done || lia). unfold slot.
    rewrite list_lookup_insert_ne.
    + replace (head r + Z.of_nat (1 + k)) with (head r + (Z.of_nat k + 1)) by lia. congruence.
    + intros Heq. apply Z2Nat.inj in Heq; [|lia|apply Z.mod_pos_bound; lia].
      rewrite <-(Z.mod_small (head r) (cap r)) in Heq at 1 by lia.
      rewrite <-(Z.add_0_r (head r)) in Heq at 1. apply slot_index_inj in Heq; lia.
Qed.

(** A buffer with room: the event is appended. *)
Lemma contents_pushed_room (r : RingBuffer) (e : Event) :
  wf r -> size r <> cap r -> contents (pushed r e) = contents r ++ [e].
Proof.
  intros Hwf Hne. pose proof (pushed_wf r e Hwf) as Hwf'. pose proof (length_contents _ Hwf) as Hlen.
  destruct (pushed_fields r e) as [Hb Hcap]. destruct (pushed_room r e Hwf Hne) as [Hh Hsz].
  pose proof Hwf as (Hc & Hl & Hhd & Htl & Hs & Ht & Hd). unfold len in Hl.
  apply list_eq_same_length with (n := Z.to_nat (size r + 1)).
  { rewrite length_app, Hlen. cbn. lia. }
  { by rewrite length_contents, Hsz. }
  intros k x y Hk. rewrite lookup_contents by (rewrite ?Hsz; done).
  unfold slot. rewrite Hcap, Hh, Hb. destruct (decide (k = Z.to_nat (size r))) as [->|Hk'].
  - rewrite lookup_app_r by lia. rewrite Hlen, Nat.sub_diag. cbn.
    rewrite Z2Nat.id, <-Ht by lia. rewrite list_lookup_insert_eq by lia. congruence.
  - rewrite lookup_app_l by lia. rewrite lookup_contents by (done || lia). unfold slot.
    rewrite list_lookup_insert_ne; [congruence|].
    intros Heq. rewrite Ht in Heq. apply Z2Nat.inj in Heq; [|apply Z.mod_pos_bound; lia..].
    apply slot_index_inj in Heq; lia.
Qed.

Lemma contents_pushed (r : RingBuffer) (e : Event) :
  wf r -> contents (pushed r e) = lastn (Z.to_nat (cap r)) (contents r ++ [e]).
Proof.
  intros Hwf. pose proof (length_contents _ Hwf) as Hlen. pose proof Hwf as (Hc & _ & _ & _ & Hs & _).
  destruct (decide (size r = cap r)) as [He|Hne].
  - rewrite contents_pushed_full, lastn_snoc_full by (done || lia). done.
  - rewrite contents_pushed_room, lastn_all; [done| |done|done]. rewrite length_app, Hlen. cbn. lia.
Qed.

Lemma dropped_pushed (r : RingBuffer) (e : Event) :
  wf r -> Dropped (pushed r e) = wrap_u64 (Dropped r + overflow (Z.to_nat (cap r)) (contents r ++ [e])).
Proof.
  intros Hwf. unfold overflow. rewrite length_app, length_contents by done. cbn.
  destruct Hwf as (Hc & _ & _ & _ & Hs & _ & Hd). unfold Dropped, pushed.
  destruct (Z.eqb_spec (size r) (cap r)) as [He|Hne]; cbn [dropped].
  - repeat f_equal. lia.
  - rewrite wrap_u64_id; lia.
Qed.

(** ** Drain *)

Definition drained (r : RingBuffer) : RingBuffer :=
  if size r =? 0 then r
  else {| buf := buf r; head := 0; tail := 0; size := 0; cap := cap r; dropped := dropped r |}.

Lemma drain_index (r : RingBuffer) (k : nat) :
  wf r -> (k < Z.to_nat (size r))%nat -> (head r +i Z.of_nat k) %i cap r = (head r + Z.of_nat k) mod cap r.
Proof.
  intros (Hc & _ & Hh & _ & Hs & _) Hk. rewrite wrap_i64_id by go_lia.
  apply Z.rem_mod_nonneg; lia.
Qed.

Lemma drain_copy_contents (r : RingBuffer) : wf r -> drain_copy r = Some (contents r).
Proof.
  intros Hwf. unfold drain_copy, contents. apply mapM_Some.
  assert (H : forall n s, (s + n <= Z.to_nat (size r))%nat ->
    Forall2 (fun (i : nat) x => slice_get (buf r) ((head r +i Z.of_nat i) %i cap r) = Some x)
            (seq s n) (omap (slot r) (seq s n))); [|by apply H].
  induction n as [|n IH]; intros s Hs; cbn; [constructor|].
  destruct (slot_Some r s Hwf) as [e He]. rewrite He. constructor; [|apply IH; lia].
  rewrite drain_index by (done || lia). pose proof (mod_cap_range r (head r + Z.of_nat s) Hwf).
  rewrite slice_get_lookup by lia. exact He.
Qed.

Lemma Drain_drained (r : RingBuffer) : wf r -> Drain r = Some (contents r, drained r).
Proof.
  intros Hwf. unfold Drain, drained. destruct (Z.eqb_spec (size r) 0) as [H|H].
  - unfold contents. by rewrite H.
  - by rewrite drain_copy_contents.
Qed.

Lemma drained_wf (r : RingBuffer) : wf r -> wf (drained r).
Proof.
  intros Hwf. unfold drained. destruct (Z.eqb_spec (size r) 0) as [H|H]; [done|].
  destruct Hwf as (Hc & Hl & Hh & Ht & Hs & _ & Hd). unfold wf. cbn.
  repeat split; try lia; done.
Qed.

Lemma contents_drained (r : RingBuffer) :
  contents (drained r) = [] /\ cap (drained r) = cap r /\ dropped (drained r) = dropped r.
Proof.
  unfold drained, contents. by destruct (Z.eqb_spec (size r) 0) as [H|H]; rewrite ?H.
Qed.

Lemma NewRingBuffer_wf (n : Z) (r : RingBuffer) :
  NewRingBuffer n = Some r -> n <= 2 ^ 62 -> wf r /\ contents r = [] /\ cap r = n /\ dropped r = 0.
Proof.
  unfold NewRingBuffer. destruct (Z.ltb_spec n 1) as [H|H]; [done|]. intros [= <-] Hn.
  split; [|done]. unfold wf, len. cbn. rewrite length_replicate.
  repeat split; try lia; done.
Qed.
#[export] Hint Resolve pushed_wf drained_wf : agent.

(** ** The queue contract *)

(** A queue of at most [q_cap] events that evicts the oldest one on overflow
    and counts the evictions in 64 bits. *)
Class EventQueue (Q : Type) := {
  q_push : Q -> Event -> option Q;
  q_drain : Q -> option (list Event * Q);
  q_wf : Q -> Prop;
  q_contents : Q -> list Event;
  q_cap : Q -> nat;
  q_evictions : Q -> Z;
  q_push_ok : forall q e, q_wf q -> exists q', q_push q e = Some q' /\ q_wf q' /\
    q_contents q' = lastn (q_cap q) (q_contents q ++ [e]) /\ q_cap q' = q_cap q /\
    q_evictions q' = wrap_u64 (q_evictions q + overflow (q_cap q) (q_contents q ++ [e]));
  q_drain_ok : forall q, q_wf q -> exists q', q_drain q = Some (q_contents q, q') /\ q_wf q' /\
    q_contents q' = [] /\ q_cap q' = q_cap q /\ q_evictions q' = q_evictions q;
  q_bounded : forall q, q_wf q -> (length (q_contents q) <= q_cap q)%nat /\ Z.of_nat (q_cap q) <= 2 ^ 62
    /\ 0 <= q_evictions q < 2 ^ 64 }.

#[export] Program Instance ring_queue : EventQueue RingBuffer := {|
  q_push := Push; q_drain := Drain; q_wf := wf; q_contents := contents;
  q_cap := fun r => Z.to_nat (cap r); q_evictions := Dropped |}.
Next Obligation.
  intros r e Hwf. exists (pushed r e). rewrite Push_pushed, contents_pushed by done.
  rewrite (proj2 (pushed_fields r e)). split_and!; auto with agent. by apply dropped_pushed.
Qed.
Next Obligation.
  intros r Hwf. exists (drained r). rewrite Drain_drained by done.
  destruct (contents_drained r) as (-> & -> & ?). auto with agent.
Qed.
Next Obligation.
  intros r Hwf. rewrite length_contents by done. destruct Hwf as (? & _ & _ & _ & ? & _ & ?).
  unfold Dropped. lia.
Qed.

Section Queue.
Context {Q : Type} `{EventQueue Q}.

(** Pushing a list of events one after the other. *)
Fixpoint push_all (q : Q) (l : list Event) : option Q :=
  match l with
  | [] => Some q
  | e :: t => q' ← q_push q e; push_all q' t
  end.

Lemma push_all_ok (l : list Event) (q : Q) :
  q_wf q -> exists q', push_all q l = Some q' /\ q_wf q' /\ q_cap q' = q_cap q
    /\ q_contents q' = lastn (q_cap q) (q_contents q ++ l)
    /\ q_evictions q' = wrap_u64 (q_evictions q + overflow (q_cap q) (q_contents q ++ l)).
Proof.
  revert q. induction l as [|e l IH]; intros q Hwf; cbn [push_all].
  - destruct (q_bounded q Hwf) as (Hb & _ & He).
    exists q. rewrite app_nil_r, lastn_all, overflow_none, Z.add_0_r, wrap_u64_id by done. done.
  - destruct (q_push_ok q e Hwf) as (q1 & Hp & Hwf1 & Hc1 & Hcap1 & He1).
    destruct (IH q1 Hwf1) as (q' & Hq' & Hwf' & Hcap' & Hc' & He').
    exists q'. rewrite Hp. cbn. split_and!; try done; [congruence|..].
    + rewrite Hc', Hc1, Hcap1, lastn_lastn_app, <-app_assoc. done.
    + rewrite He', Hc1, Hcap1, He1, wrap_u64_add, <-Z.add_assoc, overflow_lastn, <-app_assoc. done.
Qed.
End Queue.

(** ** Sequences of calls *)
Inductive ring_op := OpPush (e : Event) | OpDrain.

(** What the calls returned (all drained events, in order) and the final buffer. *)
Fixpoint run_ops (r : RingBuffer) (ops : list ring_op) : option (list Event * RingBuffer) :=
  match ops with
  | [] => Some ([], r)
  | OpPush e :: t => r' ← Push r e; run_ops r' t
  | OpDrain :: t =>
      '(out, r') ← Drain r; '(out', r'') ← run_ops r' t; Some (out ++ out', r'')
  end.

Definition pushes (ops : list ring_op) : list Event :=
  omap (fun o => match o with OpPush e => Some e | OpDrain => None end) ops.

(** One push accounts for the new event: it is stored, and at most one old
    event leaves and is counted. *)
Lemma pushed_accounts (r : RingBuffer) (e : Event) :
  wf r -> exists gone : nat,
    dropped (pushed r e) = wrap_u64 (dropped r + Z.of_nat gone)
    /\ contents (pushed r e) = drop gone (contents r ++ [e])
    /\ (gone <= length (contents r))%nat.
Proof.
  intros Hwf. pose proof (length_contents r Hwf) as Hlen. pose proof Hwf as (Hc & _ & _ & _ & Hs & _ & Hd).
  destruct (decide (size r = cap r)) as [He|Hne].
  - exists 1%nat. rewrite contents_pushed_full by done. split_and!; [|by rewrite drop_app_le by lia|lia].
    unfold pushed. by rewrite (proj2 (Z.eqb_eq _ _) He).
  - exists 0%nat. rewrite contents_pushed_room by done. split_and!; [|done|lia].
    unfold pushed. rewrite (proj2 (Z.eqb_neq _ _) Hne). cbn. rewrite Z.add_0_r.
    symmetry. by apply wrap_u64_id.
Qed.

Lemma run_ops_accounts (ops : list ring_op) (r : RingBuffer) :
  wf r -> exists out r' (gone : nat),
    run_ops r ops = Some (out, r') /\ wf r' /\ cap r' = cap r
    /\ sublist (out ++ contents r') (contents r ++ pushes ops)
    /\ dropped r' = wrap_u64 (dropped r + Z.of_nat gone)
    /\ (length (contents r) + length (pushes ops) = length out + length (contents r') + gone)%nat.
Proof.
  revert r. induction ops as [|[e|] ops IH]; intros r Hwf; cbn [run_ops pushes omap list_omap].
  - exists [], r, 0%nat. rewrite app_nil_r, Z.add_0_r. cbn.
    split_and!; try done; try lia. symmetry. apply wrap_u64_id. by destruct Hwf as (_ & _ & _ & _ & _ & _ & ?).
  - destruct (pushed_accounts r e Hwf) as (g & Hd & Hcont & Hg).
    destruct (IH (pushed r e)) as (out & r' & gone & Hrun & Hwf' & Hcap & Hsub & Hdr & Hlen); [by auto with agent|].
    exists out, r', (g + gone)%nat. rewrite Push_pushed by done. cbn.
    rewrite (proj2 (pushed_fields r e)) in Hcap. fold (pushes ops) in *.
    rewrite Hcont in Hsub, Hlen. rewrite length_drop, length_app in Hlen. cbn in Hlen.
    split_and!; try done; [| |cbn; lia].
    + etrans; [exact Hsub|]. change (e :: pushes ops) with ([e] ++ pushes ops). rewrite app_assoc.
      apply sublist_app; [apply sublist_drop|done].
    + rewrite Hdr, Hd, wrap_u64_add. f_equal. lia.
  - destruct (contents_drained r) as (Hc0 & Hcap0 & Hd0).
    destruct (IH (drained r)) as (out & r' & gone & Hrun & Hwf' & Hcap & Hsub & Hdr & Hlen); [by auto with agent|].
    exists (contents r ++ out), r', gone. rewrite Drain_drained by done. cbn. rewrite Hrun. cbn.
    rewrite Hc0 in Hsub, Hlen. cbn in Hsub, Hlen. fold (pushes ops) in *.
    split_and!; try done; [congruence| |congruence|rewrite length_app; lia].
    rewrite <-app_assoc. by apply sublist_app.
Qed.

(** ** Properties *)

(** a [Push] never panics and implements the bounded FIFO: the queue
    becomes the newest [cap] events of the old queue followed by the new one,
    and the invariant is kept. *)
Theorem Push_refines (r : RingBuffer) (e : Event) :
  wf r -> exists r', Push r e = Some r' /\ wf r' /\ cap r' = cap r
    /\ contents r' = lastn (Z.to_nat (cap r)) (contents r ++ [e])
    /\ Dropped r' = (if size r =? cap r then wrap_u64 (Dropped r + 1) else Dropped r).
Proof.
  intros Hwf. exists (pushed r e). rewrite Push_pushed, contents_pushed by done.
  split_and!; auto with agent; [apply pushed_fields|].
  unfold pushed, Dropped. by destruct (size r =? cap r).
Qed.

(** [Drain] never panics, returns the queue oldest first, leaves the
    buffer empty and keeps the count of dropped events. *)
Theorem Drain_refines (r : RingBuffer) :
  wf r -> exists r', Drain r = Some (contents r, r') /\ wf r' /\ Len r' = 0
    /\ contents r' = [] /\ cap r' = cap r /\ Dropped r' = Dropped r.
Proof.
  intros Hwf. exists (drained r). rewrite Drain_drained by done.
  destruct (contents_drained r) as (-> & -> & Hd). split_and!; auto with agent.
  unfold Len, drained. by destruct (Z.eqb_spec (size r) 0).
Qed.

(** C8: over any sequence of [Push] and [Drain] calls on a new buffer nothing
    panics, what comes out followed by what is still stored is a subsequence
    of what went in (so order is kept and nothing is invented or duplicated),
    and every event missing from it is counted by [Dropped] (modulo 2^64). *)
Theorem ring_conservation (n : Z) (r0 : RingBuffer) (ops : list ring_op) :
  NewRingBuffer n = Some r0 -> n <= 2 ^ 62 ->
  exists out r (gone : nat), run_ops r0 ops = Some (out, r)
    /\ sublist (out ++ contents r) (pushes ops)
    /\ (length (pushes ops) = length out + length (contents r) + gone)%nat
    /\ Dropped r = wrap_u64 (Z.of_nat gone)
    /\ Len r = Z.of_nat (length (contents r)).
Proof.
  intros H0 Hn. destruct (NewRingBuffer_wf _ _ H0 Hn) as (Hwf & Hc & Hcap & Hd).
  destruct (run_ops_accounts ops r0 Hwf) as (out & r & gone & Hrun & Hwf' & _ & Hsub & Hdr & Hlen).
  exists out, r, gone. rewrite Hc in Hsub, Hlen. rewrite Hd in Hdr. cbn in *.
  split_and!; try done. unfold Len. rewrite length_contents by done.
  destruct Hwf' as (_ & _ & _ & _ & ? & _). lia.
Qed.

(** *** Witnesses *)
Definition ev_n (n : Z) : Event := {|
  ev_ID := pretty n; ev_Timestamp := n; ev_Type := EventProcessStart; ev_Category := CategorySystemCheck;
  ev_Severity := SeverityInfo; ev_Confidence := ConfidenceNone;
  ev_Host := {| host_Hostname := "h"; host_IP := "10.0.0.1" |};
  ev_Agent := {| agent_Name := "yomins-agent"; agent_Version := "dev" |};
  ev_Actor := None; ev_Context := None; ev_Tags := ["process"]; ev_Process := None; ev_Network := None |}.

Definition ring2 : RingBuffer := {|
  buf := [zero_event; zero_event]; head := 0; tail := 0; size := 0; cap := 2; dropped := 0 |}.
Definition ring2_full : RingBuffer := pushed (pushed ring2 (ev_n 1)) (ev_n 2).

Lemma ring2_wf : wf ring2.
Proof. vm_compute. repeat split; discriminate. Qed.

Lemma Push_refines_witness :
  exists r', Push ring2_full (ev_n 3) = Some r' /\ contents r' = [ev_n 2; ev_n 3] /\ Dropped r' = 1.
Proof.
  destruct (Push_refines ring2_full (ev_n 3)) as (r' & H & _ & _ & Hc & Hd).
  { unfold ring2_full. apply pushed_wf, pushed_wf, ring2_wf. }
  exists r'. split; [exact H|]. rewrite Hc, Hd. split; vm_compute; reflexivity.
Defined.

Lemma Drain_refines_witness :
  exists r', Drain ring2_full = Some ([ev_n 1; ev_n 2], r') /\ contents r' = [].
Proof.
  destruct (Drain_refines ring2_full) as (r' & H & _ & _ & Hc & _).
  { unfold ring2_full. apply pushed_wf, pushed_wf, ring2_wf. }
  exists r'. split; [|exact Hc]. rewrite H. vm_compute. reflexivity.
Defined.

Lemma ring_conservation_witness :
  exists out r (gone : nat),
    run_ops ring2 [OpPush (ev_n 1); OpPush (ev_n 2); OpPush (ev_n 3); OpDrain; OpPush (ev_n 4)] = Some (out, r)
    /\ (4 = length out + length (contents r) + gone)%nat.
Proof.
  destruct (ring_conservation 2 ring2
    [OpPush (ev_n 1); OpPush (ev_n 2); OpPush (ev_n 3); OpDrain; OpPush (ev_n 4)])
    as (out & r & gone & H & _ & Hl & _); [reflexivity|lia|].
  exists out, r, gone. split; [exact H|exact Hl].
Defined.
