(* ===== verification/Session.v ===== *)
(** * The server session shared by the transports

    [src/internal/transport/session.go]: whether the server currently rejects
    this agent (and until when pushes pause), and whether it takes gzip.  The
    methods run under the session's mutex; the clock reading each of them
    makes is an argument.  [compress/gzip] is a parameter. *)
From S2P Require Import Prelude GoStrings GoNum.
Local Open Scope Z_scope.

Definition reasonHeader : string := "X-Yomins-Reason".
Definition acceptEncodingHeader : string := "X-Yomins-Accept-Encoding".
Definition minPause : duration := minute.
Definition maxPause : duration := 30 * minute.

(** What the session reads of an [http.Response]. *)
Record Response := {
  StatusCode : Z;
  Header : gmap string string;
  Body : bytes }.
Definition HeaderGet (resp : Response) (k : string) : string := default "" (Header resp !! k).

Record RejectedError := { rej_Status : Z; rej_Reason : string; rej_RetryAfter : duration }.

Record Session := { until : time; pause : duration; reason : string; gzipOK : bool }.

Definition NewSession : Session := {| until := time_zero; pause := 0; reason := ""; gzipOK := false |}.

Definition Paused (s : Session) (now : time) : bool := time_before now (until s).

Definition reject (s : Session) (now : time) (e : RejectedError) : Session :=
  let p := if rej_RetryAfter e <=? 0
           then Z.min (Z.max (pause s *i 2) minPause) maxPause
           else rej_RetryAfter e in
  {| until := time_add now p; pause := p; reason := rej_Reason e; gzipOK := gzipOK s |}.

Definition accepted (s : Session) (resp : Response) : Session :=
  {| until := time_zero; pause := 0; reason := "";
     gzipOK := gzipOK s || Contains (B (HeaderGet resp acceptEncodingHeader)) (B "gzip") |}.

(** The body to send and its Content-Encoding.  [gzip] is [None] when the
    writer fails. *)
Definition encode (gzip : bytes -> option bytes) (s : Session) (payload : bytes) : bytes * string :=
  if negb (gzipOK s) || (len payload <? 1024) then (payload, "")
  else match gzip payload with
       | Some b => (b, "gzip")
       | None => (payload, "")
       end.

(** [retryAfter]: seconds, converted to a [Duration] by a 64-bit product. *)
Definition retryAfter (resp : Response) : duration :=
  let v := TrimSpace (B (HeaderGet resp "Retry-After")) in
  match v with
  | [] => 0
  | _ => match Atoi v with
         | (n, None) => if n <=? 0 then 0 else n *i second
         | _ => 0
         end
  end.

Definition StatusText (code : Z) : string :=
  if code =? 401 then "Unauthorized" else if code =? 403 then "Forbidden" else "".

Definition rejection (resp : Response) : RejectedError :=
  let r1 := HeaderGet resp reasonHeader in
  let r2 := if bool_decide (r1 = "") then S (TrimSpace (take 256 (Body resp))) else r1 in
  let r3 := if bool_decide (r2 = "") then StatusText (StatusCode resp) else r2 in
  {| rej_Status := StatusCode resp; rej_Reason := r3; rej_RetryAfter := retryAfter resp |}.

(** ** Lemmas *)

Definition session_wf (s : Session) : Prop := 0 <= pause s <= max_i64.

Lemma reject_pause_nowait (s : Session) (now : time) (e : RejectedError) :
  rej_RetryAfter e <= 0 ->
  pause (reject s now e) = Z.min (Z.max (pause s *i 2) minPause) maxPause.
Proof. intros H. unfold reject. cbn. by rewrite (proj2 (Z.leb_le _ _) H). Qed.

Lemma reject_pause_wait (s : Session) (now : time) (e : RejectedError) :
  0 < rej_RetryAfter e -> pause (reject s now e) = rej_RetryAfter e.
Proof. intros H. unfold reject. cbn. by rewrite (proj2 (Z.leb_gt _ _) H). Qed.

Lemma reject_pause_pos (s : Session) (now : time) (e : RejectedError) : 0 < pause (reject s now e).
Proof.
  destruct (Z.leb_spec (rej_RetryAfter e) 0) as [H|H].
  - rewrite reject_pause_nowait by done. unfold minPause, maxPause. go_lia.
  - by rewrite reject_pause_wait.
Qed.

Lemma reject_until (s : Session) (now : time) (e : RejectedError) :
  until (reject s now e) = now + pause (reject s now e).
Proof. done. Qed.

(** [n] rejections in a row without a Retry-After, at the given times. *)
Definition reject_row (s : Session) (times : list time) (r : RejectedError) : Session :=
  fold_left (fun s t => reject s t r) times s.

Lemma doubled_pause (n : Z) :
  0 <= n -> Z.min (Z.max (Z.min (2 ^ n * minPause) maxPause *i 2) minPause) maxPause
            = Z.min (2 ^ (n + 1) * minPause) maxPause.
Proof.
  intros Hn. pose proof (Z.pow_pos_nonneg 2 n ltac:(lia) Hn) as Hp.
  rewrite Z.pow_add_r by lia. change (2 ^ 1) with 2.
  rewrite wrap_i64_id by (unfold minPause, maxPause; go_lia).
  unfold minPause, maxPause. go_lia.
Qed.

Lemma reject_row_pause (s : Session) (times : list time) (r : RejectedError) (n : Z) :
  0 <= n -> rej_RetryAfter r <= 0 -> pause s = Z.min (2 ^ n * minPause) maxPause ->
  pause (reject_row s times r) = Z.min (2 ^ (n + len times) * minPause) maxPause.
Proof.
  intros Hn Hr. revert s n Hn. induction times as [|t ts IH]; intros s n Hn Hs; cbn [reject_row fold_left].
  - unfold len. cbn. by rewrite Z.add_0_r.
  - fold (reject_row (reject s t r) ts r). rewrite (IH _ (n + 1)); [|lia|].
    + unfold len. cbn [length]. do 3 f_equal. lia.
    + rewrite reject_pause_nowait, Hs by done. by apply doubled_pause.
Qed.

(** ** Histories *)
Inductive session_event :=
  | Rejects (now : time) (resp : Response)
  | Accepts (resp : Response).

Definition session_step (s : Session) (e : session_event) : Session :=
  match e with
  | Rejects now resp => reject s now (rejection resp)
  | Accepts resp => accepted s resp
  end.

Definition offers_gzip (e : session_event) : bool :=
  match e with
  | Accepts resp => Contains (B (HeaderGet resp acceptEncodingHeader)) (B "gzip")
  | Rejects _ _ => false
  end.

Lemma session_gzip_history (h : list session_event) (s : Session) :
  gzipOK (fold_left session_step h s) = gzipOK s || existsb offers_gzip h.
Proof.
  revert s. induction h as [|e h IH]; intros s; cbn; [by rewrite orb_false_r|].
  rewrite IH. destruct e; cbn; [done|by rewrite orb_assoc].
Qed.

(** ** Properties *)

(** a rejection pauses every push for exactly its pause, which is the
    server's Retry-After when that is positive and otherwise doubles the last
    pause within one and thirty minutes; the next accepted push resumes at
    once. *)
Theorem reject_pauses (s : Session) (now : time) (e : RejectedError) (resp : Response) (t : time) :
  session_wf s ->
  let s' := reject s now e in
  (Paused s' t = true <-> t < now + pause s')
  /\ (0 < rej_RetryAfter e -> pause s' = rej_RetryAfter e)
  /\ (rej_RetryAfter e <= 0 -> minPause <= pause s' <= maxPause
        /\ (minPause <= pause s <= 15 * minute -> pause s' = 2 * pause s))
  /\ (time_zero <= t -> Paused (accepted s' resp) t = false).
Proof.
  intros Hwf s'. split_and!.
  - unfold Paused, time_before. rewrite Z.ltb_lt. unfold s'. by rewrite reject_until.
  - apply reject_pause_wait.
  - intros Hr. unfold s'. rewrite reject_pause_nowait by done. split.
    + unfold minPause, maxPause. go_lia.
    + intros Hp. rewrite wrap_i64_id; unfold minPause, maxPause in *; go_lia.
  - intros Ht. unfold Paused, time_before, accepted. cbn. by apply Z.ltb_ge.
Qed.

(** from a session that pushes freely, n+1 rejections in a row without a
    Retry-After end with a pause of min(2^n, 30) minutes, whatever the times:
    the product never overflows and the pause never leaves its range. *)
Theorem rejection_backoff (times : list time) (t : time) (r : RejectedError) :
  rej_RetryAfter r <= 0 ->
  pause (reject_row NewSession (t :: times) r) = Z.min (2 ^ len times) 30 * minute.
Proof.
  intros Hr. change (reject_row NewSession (t :: times) r) with (reject_row (reject NewSession t r) times r).
  rewrite (reject_row_pause _ _ _ 0); [|lia|done|by rewrite reject_pause_nowait].
  rewrite Z.add_0_l. pose proof (Z.pow_pos_nonneg 2 (len times) ltac:(lia) ltac:(go_lia)).
  unfold minPause, maxPause. go_lia.
Qed.

(** a body is compressed only after some accepted response of this
    session has offered gzip, only when it has at least 1024 bytes, and a
    failing compressor falls back to the plain body. *)
Theorem gzip_only_when_offered (gzip : bytes -> option bytes) (h : list session_event) (payload : bytes) :
  let s := fold_left session_step h NewSession in
  encode gzip s payload =
    if existsb offers_gzip h && (1024 <=? len payload)
    then match gzip payload with Some b => (b, "gzip") | None => (payload, "") end
    else (payload, "").
Proof.
  intros s. unfold encode, s. rewrite session_gzip_history. cbn [gzipOK NewSession orb].
  rewrite Z.leb_antisym. destruct (existsb offers_gzip h); cbn; [|done].
  by destruct (len payload <? 1024).
Qed.

(** [retryAfter] is 0 or the number of seconds of the header, as long as
    that many seconds fit a [Duration] (about 292 years). *)
Theorem retryAfter_seconds (resp : Response) (n : Z) :
  B (HeaderGet resp "Retry-After") = FormatUint n -> 0 <= n <= 9223372036 ->
  retryAfter resp = n * second.
Proof.
  intros Hh Hn. unfold retryAfter. rewrite Hh, TrimSpace_FormatUint, Atoi_FormatUint by go_lia.
  pose proof (FormatUint_nonempty n). destruct (FormatUint n); [done|].
  destruct (Z.leb_spec n 0); [go_lia|]. rewrite wrap_i64_id; go_lia.
Qed.

(** A larger header wraps: 9223372037 seconds become a negative pause,
    which [reject] then treats as if the server had given none. *)
Theorem retryAfter_wraps (resp : Response) :
  HeaderGet resp "Retry-After" = "9223372037" -> retryAfter resp = -9223372036709551616.
Proof. intros H. unfold retryAfter. rewrite H. vm_compute. reflexivity. Qed.

(** *** Witnesses *)
Definition resp401 : Response := {| StatusCode := 401; Header := ∅; Body := B "service is blocked" |}.

Lemma reject_pauses_witness :
  Paused (reject NewSession 1000 (rejection resp401)) (1000 + minute - 1) = true
  /\ pause (reject NewSession 1000 (rejection resp401)) = minute.
Proof.
  destruct (reject_pauses NewSession 1000 (rejection resp401) resp401 (1000 + minute - 1)) as (Hp & _ & Hb & _).
  { vm_compute. split; discriminate. }
  split; [|vm_compute; reflexivity].
  apply Hp. vm_compute. reflexivity.
Defined.

Lemma rejection_backoff_witness :
  pause (reject_row NewSession [10; 20; 30; 40] (rejection resp401)) = 8 * minute.
Proof. rewrite (rejection_backoff [20; 30; 40] 10); [vm_compute; reflexivity|vm_compute; discriminate]. Defined.

Lemma retryAfter_seconds_witness :
  retryAfter {| StatusCode := 429; Header := {["Retry-After" := "120"]}; Body := [] |} = 120 * second.
Proof. apply (retryAfter_seconds _ 120); [vm_compute; reflexivity|lia]. Defined.

Lemma retryAfter_wraps_witness :
  retryAfter {| StatusCode := 401; Header := {["Retry-After" := "9223372037"]}; Body := [] |} = -9223372036709551616.
Proof. apply retryAfter_wraps. vm_compute. reflexivity. Defined.
