(* ===== verification/Transport.v ===== *)
(** * HTTP transports

    [src/internal/transport/post.go] (one attempt, used by the log shipper)
    and [src/internal/transport/http.go] (metrics pushes with retries).  The
    network is the sequence of answers the attempts will get; the retry library
    ([github.com/cenkalti/backoff/v4]) is the interface [BackoffLib], whose
    law is its documented behaviour. *)
From S2P Require Import Prelude GoFloat GoStrings GoNum Session.
Local Open Scope Z_scope.

Inductive push_error :=
  | ErrPaused
  | ErrRejected (e : RejectedError)      (* *RejectedError: 401/403 *)
  | ErrRefused (status : Z)              (* *RefusedError *)
  | ErrBusy (status : Z) (retry : duration) (* *BusyError: 429/5xx *)
  | ErrBadBatch (status : Z)             (* *badBatchError *)
  | ErrStatus (status : Z)               (* "server returned %d" *)
  | ErrNetwork (msg : string)            (* from http.Client.Do *)
  | ErrCreateRequest
  | ErrEncode (msg : string)
  | ErrContext.                          (* ctx.Err() *)

(** [isRejection]: [errors.Is(err, ErrPaused) || errors.As(err, &rej)]. *)
Definition isRejection (e : option push_error) : bool :=
  match e with
  | Some ErrPaused | Some (ErrRejected _) => true
  | _ => false
  end.

Record Request := { req_URL : string; req_Header : gmap string string; req_Body : bytes }.

Abbreviation answer := (string + Response)%type (only parsing).

Definition is_2xx (s : Z) : bool := (200 <=? s) && (s <? 300).
Definition is_auth (s : Z) : bool := (s =? 401) || (s =? 403).

Section Posting.
Context (gzip : bytes -> option bytes) (url_ok : string -> bool).

(** The request of one attempt: [encode], then the headers in order. *)
Definition make_request (s : Session) (url ctype token : string) (headers : gmap string string)
    (payload : bytes) : Request :=
  let '(body, enc) := encode gzip s payload in
  let h0 : gmap string string := <["Authorization" := "Bearer " +:+ token]> {["Content-Type" := ctype]} in
  let h1 := if bool_decide (enc = "") then h0 else <["Content-Encoding" := enc]> h0 in
  {| req_URL := url; req_Header := headers ∪ h1; req_Body := body |}.

(** [Poster.Post]: the error, the session afterwards and the request that was
    sent, if any.  [t0] is the clock at the pause test, [t1] at the answer. *)
Definition Post (client : Request -> answer) (server token path ctype : string)
    (headers : gmap string string) (payload : bytes) (s : Session) (t0 t1 : time)
    : option push_error * Session * option Request :=
  if Paused s t0 then (Some ErrPaused, s, None)
  else
    let req := make_request s (server +:+ path) ctype token headers payload in
    if negb (url_ok (server +:+ path)) then (Some (ErrRefused 0), s, None)
    else match client req with
         | inl e => (Some (ErrNetwork e), s, Some req)
         | inr resp =>
             let st := StatusCode resp in
             if is_2xx st then (None, accepted s resp, Some req)
             else if is_auth st then
               let rej := rejection resp in (Some (ErrRejected rej), reject s t1 rej, Some req)
             else if (st =? 429) || (500 <=? st) then (Some (ErrBusy st (retryAfter resp)), s, Some req)
             else (Some (ErrRefused st), s, Some req)
         end.

(** ** Retries *)

(** What one attempt reports to the retry library. *)
Inductive op_result := OpOk | OpPermanent (e : push_error) | OpRetry (e : push_error).

Record BackoffConfig := { InitialInterval : duration; MaxInterval : duration; MaxElapsedTime : duration }.

(** The documented runs of [backoff.RetryNotify]: it calls the operation until
    it succeeds, reports a permanent error (returned unwrapped, never
    retried), or the policy or the context stops the retries. *)
Inductive attempts {W : Type} (op : W -> op_result * W) : W -> option push_error -> W -> Prop :=
  | att_ok w w' : op w = (OpOk, w') -> attempts op w None w'
  | att_permanent w w' e : op w = (OpPermanent e, w') -> attempts op w (Some e) w'
  | att_stop w w' e : op w = (OpRetry e, w') -> attempts op w (Some e) w'
  | att_cancelled w w' e : op w = (OpRetry e, w') -> attempts op w (Some ErrContext) w'
  | att_again w w1 w' e r : op w = (OpRetry e, w1) -> attempts op w1 r w' -> attempts op w r w'.

Class BackoffLib := {
  RetryNotify : forall {W : Type}, BackoffConfig -> (W -> op_result * W) -> W -> option push_error * W;
  RetryNotify_attempts : forall (W : Type) (bo : BackoffConfig) (op : W -> op_result * W) (w : W),
    attempts op w (RetryNotify bo op w).1 (RetryNotify bo op w).2 }.

(** One attempt's clock reading and the network's answer. *)
Abbreviation attempt := (time * answer)%type (only parsing).
(** The shared session and the number of attempts made so far; [net k] is what
    attempt [k] meets. *)
Abbreviation world := (Session * nat)%type (only parsing).
Context (net : nat -> attempt).

(** One POST attempt, as [HTTPTransport.do] and [EventHTTPTransport.doPost]
    make it; [refuse] is the permanent error they report for a 4xx other than
    401, 403 and 429. *)
Definition http_attempt (refuse : Z -> push_error) (url token ctype : string) (payload : bytes) (w : world)
    : op_result * world :=
  let '(now, ans) := net w.2 in
  let s := w.1 in let rest := Datatypes.S w.2 in
  let req := make_request s url ctype token ∅ payload in
  if negb (url_ok (req_URL req)) then (OpPermanent ErrCreateRequest, w)
  else match ans with
       | inl e => (OpRetry (ErrNetwork e), (s, rest))
       | inr resp =>
           let st := StatusCode resp in
           if is_2xx st then (OpOk, (accepted s resp, rest))
           else if is_auth st then
             let rej := rejection resp in (OpPermanent (ErrRejected rej), (reject s now rej, rest))
           else if (400 <=? st) && (st <? 500) && negb (st =? 429) then (OpPermanent (refuse st), (s, rest))
           else (OpRetry (ErrStatus st), (s, rest))
       end.

(** [HTTPTransport.do]. *)
Definition http_do (server token ctype : string) (payload : bytes) (w : world) : op_result * world :=
  http_attempt ErrStatus (server +:+ "/metrics") token ctype payload w.

(** [time.Duration(float64(interval) * 0.9)]: the product truncated. *)
Definition push_backoff (interval : duration) : BackoffConfig := {|
  InitialInterval := second; MaxInterval := 60 * second;
  MaxElapsedTime := f64_trunc (f64_mul (f64_of_Z interval) (f64_div (f64_of_Z 9) (f64_of_Z 10))) |}.

(** [HTTPTransport.Push]; [encoded] is the result of [metrics.Encode]. *)
Definition Push `{BackoffLib} (server token ctype : string) (interval : duration)
    (encoded : string + bytes) (t0 : time) (w : world) : option push_error * world :=
  if Paused w.1 t0 then (Some ErrPaused, w)
  else match encoded with
       | inl e => (Some (ErrEncode e), w)
       | inr payload => RetryNotify (push_backoff interval) (http_do server token ctype payload) w
       end.

(** ** Lemmas *)

(** An answer after which [http_do] may be tried again. *)
Definition retryable (ans : answer) : bool :=
  match ans with
  | inl _ => true
  | inr resp =>
      let st := StatusCode resp in
      negb (is_2xx st) && negb (is_auth st) && negb ((400 <=? st) && (st <? 500) && negb (st =? 429))
  end.

(** The session after the answers [used]: only the last one can change it. *)
Fixpoint session_after (s : Session) (used : list attempt) : Session :=
  match used with
  | [] => s
  | (now, inr resp) :: t =>
      session_after (if is_2xx (StatusCode resp) then accepted s resp
                     else if is_auth (StatusCode resp) then reject s now (rejection resp) else s) t
  | (_, inl _) :: t => session_after s t
  end.

(** Every attempt but the last was retryable. *)
Definition all_but_last_retryable (used : list attempt) : Prop :=
  forall i a, used !! i = Some a -> (Datatypes.S i < length used)%nat -> retryable a.2 = true.

Definition last_says (refuse : Z -> push_error) (used : list attempt) (r : option push_error) : Prop :=
  match last used with
  | Some (_, inr resp) =>
      (is_2xx (StatusCode resp) = true /\ r = None)
      \/ (is_auth (StatusCode resp) = true /\ r = Some (ErrRejected (rejection resp)))
      \/ (is_2xx (StatusCode resp) = false /\ is_auth (StatusCode resp) = false
          /\ if retryable (inr resp) then r = Some (ErrStatus (StatusCode resp)) \/ r = Some ErrContext
             else r = Some (refuse (StatusCode resp)))
  | Some (_, inl e) => r = Some (ErrNetwork e) \/ r = Some ErrContext
  | None => False
  end.

Lemma all_but_last_cons (a : attempt) (l : list attempt) :
  retryable a.2 = true -> all_but_last_retryable l -> all_but_last_retryable (a :: l).
Proof.
  intros Ha Hl [|i] b Hb Hi; cbn in *; [by simplify_eq|]. apply (Hl i b Hb). lia.
Qed.

Lemma last_says_cons (refuse : Z -> push_error) (a : attempt) (l : list attempt) (r : option push_error) :
  l <> [] -> last_says refuse l r -> last_says refuse (a :: l) r.
Proof. unfold last_says. by destruct l. Qed.

Lemma http_attempt_step (refuse : Z -> push_error) (url token ctype : string) (payload : bytes)
    (w w' : world) (res : op_result) :
  url_ok url = true ->
  http_attempt refuse url token ctype payload w = (res, w') ->
  w' = (session_after w.1 [net w.2], Datatypes.S w.2)
  /\ match res with
     | OpOk => last_says refuse [net w.2] None
     | OpPermanent e => last_says refuse [net w.2] (Some e)
     | OpRetry e => retryable (net w.2).2 = true /\ session_after w.1 [net w.2] = w.1
                    /\ last_says refuse [net w.2] (Some e) /\ last_says refuse [net w.2] (Some ErrContext)
     end.
Proof.
  intros Hurl. unfold http_attempt, make_request, last_says. cbn.
  destruct (encode gzip w.1 payload) as [body enc]. cbn. rewrite Hurl. cbn.
  destruct (net w.2) as [now [e|resp]]; cbn; [intros [= <- <-]; auto 6|].
  destruct (is_2xx (StatusCode resp)) eqn:H2; cbn; [intros [= <- <-]; auto|].
  destruct (is_auth (StatusCode resp)) eqn:Ha; cbn; [intros [= <- <-]; auto|].
  destruct ((400 <=? StatusCode resp) && (StatusCode resp <? 500) && negb (StatusCode resp =? 429)) eqn:H4;
    cbn; intros [= <- <-]; rewrite ?H2, ?Ha, ?H4; cbn; split_and!; auto 10.
Qed.

(** What a run of attempts consumed and what it returned. *)
Definition ran (refuse : Z -> push_error) (w w' : world) (r : option push_error) : Prop :=
  exists used, used <> [] /\ used = map net (seq w.2 (length used)) /\ w'.2 = (w.2 + length used)%nat
    /\ w'.1 = session_after w.1 used /\ all_but_last_retryable used /\ last_says refuse used r.

Lemma ran_once (refuse : Z -> push_error) (w w' : world) (r : option push_error) :
  w' = (session_after w.1 [net w.2], Datatypes.S w.2) -> last_says refuse [net w.2] r -> ran refuse w w' r.
Proof.
  intros -> Hl. exists [net w.2]. cbn -[session_after last_says].
  split_and!; try done; [lia|]. intros [|i] a Ha Hi; cbn in *; lia.
Qed.

Lemma attempts_ran (refuse : Z -> push_error) (url token ctype : string) (payload : bytes)
    (w w' : world) (r : option push_error) :
  url_ok url = true ->
  attempts (http_attempt refuse url token ctype payload) w r w' -> ran refuse w w' r.
Proof.
  intros Hurl H. induction H as [w w' H|w w' e H|w w' e H|w w' e H|w w1 w' e r H Hatt IH];
    apply (http_attempt_step _ _ _ _ _ _ _ _ Hurl) in H as [-> H]; try (apply ran_once; naive_solver).
  destruct H as (Hr & Hs & _). destruct IH as (used & Hne & Hused & Hn & Hses & Hall & Hlast). cbn in *.
  exists (net w.2 :: used). cbn [length seq map]. rewrite <-Hused. split_and!.
  - done.
  - done.
  - rewrite Hn. lia.
  - rewrite Hses, Hs. cbn. destruct (net w.2) as [now [err|resp]]; cbn in *; [done|]. by rewrite Hs.
  - by apply all_but_last_cons.
  - by apply last_says_cons.
Qed.

(** ** Properties *)

(** C23: [Post] reports what is documented and changes the session only as it
    should.  A paused session sends nothing and changes nothing, and neither
    does an address that is no URL, which is reported as refused (status 0,
    the caller drops the payload).  Otherwise exactly one request is sent, to
    the ingest path, with the bearer token and the payload encoded for the
    session; a network failure is passed on, a 2xx is accepted, a 401 or 403
    pauses the session, 429 and 5xx are busy with the server's Retry-After,
    and any other 4xx is refused, and these leave the session alone. *)
Theorem Post_classifies (client : Request -> answer) (server token path ctype : string)
    (headers : gmap string string) (payload : bytes) (s : Session) (t0 t1 : time) :
  headers !! "Authorization" = None ->
  let '(err, s', sent) := Post client server token path ctype headers payload s t0 t1 in
  if Paused s t0 then err = Some ErrPaused /\ s' = s /\ sent = None
  else if negb (url_ok (server +:+ path)) then err = Some (ErrRefused 0) /\ s' = s /\ sent = None
  else exists req, sent = Some req /\ req_URL req = server +:+ path
    /\ req_Header req !! "Authorization" = Some ("Bearer " +:+ token)
    /\ req_Body req = (encode gzip s payload).1
    /\ match client req with
       | inl e => err = Some (ErrNetwork e) /\ s' = s
       | inr resp =>
           let st := StatusCode resp in
           (200 <= st < 300 -> err = None /\ s' = accepted s resp)
           /\ (st = 401 \/ st = 403 -> err = Some (ErrRejected (rejection resp)) /\ Paused s' t1 = true)
           /\ (st = 429 \/ 500 <= st < 600 -> err = Some (ErrBusy st (retryAfter resp)) /\ s' = s)
           /\ (400 <= st < 500 /\ st <> 401 /\ st <> 403 /\ st <> 429 -> err = Some (ErrRefused st) /\ s' = s)
       end.
Proof.
  intros Hauth. unfold Post. destruct (Paused s t0) eqn:Hp; [done|]. destruct (url_ok (server +:+ path)); [|done]. cbn [negb].
  set (req := make_request s (server +:+ path) ctype token headers payload).
  assert (req_URL req = server +:+ path /\ req_Header req !! "Authorization" = Some ("Bearer " +:+ token)
    /\ req_Body req = (encode gzip s payload).1) as (Hu & Ha & Hb).
  { unfold req, make_request. destruct (encode gzip s payload) as [body enc]. cbn. split_and!; [done| |done].
    rewrite lookup_union_r by done. by case_bool_decide; rewrite ?(lookup_insert_ne _ "Content-Encoding") by done; rewrite lookup_insert_eq. }
  destruct (client req) as [e|resp] eqn:Hc; [exists req; rewrite Hc; tauto|].
  unfold is_2xx, is_auth.
  assert (Hpaused : Paused (reject s t1 (rejection resp)) t1 = true).
  { unfold Paused, time_before. apply Z.ltb_lt. rewrite reject_until.
    pose proof (reject_pause_pos s t1 (rejection resp)). lia. }
  destruct ((200 <=? StatusCode resp) && (StatusCode resp <? 300)) eqn:H2;
    [|destruct ((StatusCode resp =? 401) || (StatusCode resp =? 403)) eqn:H4;
      [|destruct ((StatusCode resp =? 429) || (500 <=? StatusCode resp)) eqn:H5]];
    exists req; rewrite Hc; split_and!; try done; intros; split; try done; exfalso; bool_hyps; lia.
Qed.

(** A status that is none of the documented ones, a 1xx or a redirect that was
    not followed, is refused like a 4xx: the caller drops its payload. *)
Lemma undocumented_status_refused (client : Request -> answer) (server token path ctype : string)
    (headers : gmap string string) (payload : bytes) (s : Session) (t0 t1 : time) (resp : Response) :
  Paused s t0 = false -> url_ok (server +:+ path) = true -> (forall req, client req = inr resp) ->
  StatusCode resp < 200 \/ 300 <= StatusCode resp < 400 ->
  (Post client server token path ctype headers payload s t0 t1).1 = (Some (ErrRefused (StatusCode resp)), s).
Proof.
  intros Hp Hu Hc Hst. unfold Post, is_2xx, is_auth. rewrite Hp, Hu. cbn [negb]. rewrite Hc.
  repeat match goal with |- context [if ?b then _ else _] => destruct b eqn:?; [exfalso; bool_hyps; lia|] end. done.
Qed.

(** a metrics push that is not paused makes one attempt or more: every
    attempt but the last met a retryable answer (no attempt follows a 2xx, a
    401/403 or another permanent 4xx), the result is what the last answer
    says, and the session is changed by that last answer alone. *)
Theorem Push_retries `{BackoffLib} (server token ctype : string) (interval : duration) (payload : bytes)
    (t0 : time) (w : world) :
  url_ok (server +:+ "/metrics") = true -> Paused w.1 t0 = false ->
  ran ErrStatus w (Push server token ctype interval (inr payload) t0 w).2
        (Push server token ctype interval (inr payload) t0 w).1.
Proof.
  intros Hurl Hp. unfold Push. rewrite Hp. eapply attempts_ran; [done|]. apply RetryNotify_attempts.
Qed.
End Posting.

(** *** Witnesses *)

(** A retry library that gives up after [n] retries. *)
Fixpoint bounded_retry {W : Type} (n : nat) (op : W -> op_result * W) (w : W) : option push_error * W :=
  match op w with
  | (OpOk, w') => (None, w')
  | (OpPermanent e, w') => (Some e, w')
  | (OpRetry e, w') => match n with O => (Some e, w') | Datatypes.S n' => bounded_retry n' op w' end
  end.

Lemma bounded_retry_attempts {W : Type} (n : nat) (op : W -> op_result * W) (w : W) :
  attempts op w (bounded_retry n op w).1 (bounded_retry n op w).2.
Proof.
  revert w. induction n as [|n IH]; intros w; cbn; destruct (op w) as [[|e|e] w'] eqn:E; cbn;
    eauto using @attempts.
Qed.

Definition two_retries : BackoffLib := {|
  RetryNotify := fun W _ op w => bounded_retry 2 op w;
  RetryNotify_attempts := fun W _ op w => bounded_retry_attempts 2 op w |}.

Definition resp_of (st : Z) : Response := {| StatusCode := st; Header := ∅; Body := [] |}.
Definition net_demo (k : nat) : time * (string + Response) :=
  match k with 0%nat => (5, inl "timeout") | 1%nat => (6, inr (resp_of 503)) | _ => (7, inr (resp_of 200)) end.

Lemma Push_retries_witness :
  ran net_demo ErrStatus (NewSession, 0%nat) (accepted NewSession (resp_of 200), 3%nat) None.
Proof.
  apply (@Push_retries (fun _ => None) (fun _ => true) net_demo two_retries
           "https://x" "t" "text/plain" (60 * second) (B "m") 1 (NewSession, 0%nat)); reflexivity.
Defined.

Lemma Post_classifies_witness :
  (Post (fun _ => None) (fun _ => true) (fun _ => inr (resp_of 413)) "https://x" "t" "/logs" "c" ∅ (B "p")
      NewSession 1 2).1.1 = Some (ErrRefused 413).
Proof.
  pose proof (Post_classifies (fun _ => None) (fun _ => true) (fun _ => inr (resp_of 413)) "https://x" "t" "/logs" "c" ∅ (B "p")
      NewSession 1 2 eq_refl) as H.
  destruct (Post _ _ _ _ _ _ _ _ _ _ _ _) as [[err s'] sent]. cbn in H |- *.
  destruct H as (req & _ & _ & _ & _ & _ & _ & _ & H). apply H. lia.
Defined.
