(* ===== verification/EventTransport.v ===== *)
(** * Flushing events to the server

    [src/internal/transport/events.go]: a flush drains the buffer and posts
    the events in batches; a batch the server will never take is dropped, any
    other failure puts the unsent events back.  The buffer is any
    [EventQueue]; other goroutines may push between any two of the flush's own
    calls, and these arrivals are an argument. *)
From stdpp Require Import list_tactics relations.
From S2P Require Import Prelude GoStrings Events RingBuffer Session Transport.
Local Open Scope Z_scope.

Record EventFlushConfig := {
  fc_Server : string; fc_Token : string; fc_FlushInterval : duration; fc_BatchSize : Z }.

Definition NewEventHTTPTransport (cfg : EventFlushConfig) : EventFlushConfig := {|
  fc_Server := fc_Server cfg; fc_Token := fc_Token cfg;
  fc_FlushInterval := if fc_FlushInterval cfg <=? 0 then 10 * second else fc_FlushInterval cfg;
  fc_BatchSize := if fc_BatchSize cfg <=? 0 then 200 else fc_BatchSize cfg |}.

Inductive batch_fate := Delivered | DroppedAsBad.

Section Flush.
Context (gzip : bytes -> option bytes) (url_ok : string -> bool) (net : nat -> time * (string + Response)).
Context `{BackoffLib}.
(** [json.Marshal] of a batch; [None] on an unsupported value (a NaN). *)
Context (marshal : list Event -> option bytes).
Context {Q : Type} `{EventQueue Q}.
Abbreviation world := (Session * nat)%type (only parsing).

Definition doPost (cfg : EventFlushConfig) (payload : bytes) (w : world) : op_result * world :=
  http_attempt gzip url_ok net ErrBadBatch (fc_Server cfg +:+ "/events") (fc_Token cfg) "application/json" payload w.

Definition events_backoff : BackoffConfig := {|
  InitialInterval := second; MaxInterval := 30 * second; MaxElapsedTime := 60 * second |}.

Definition postBatch (cfg : EventFlushConfig) (batch : list Event) (w : world) : option push_error * world :=
  match marshal batch with
  | None => (Some (ErrEncode "marshal events"), w)
  | Some body => RetryNotify events_backoff (doPost cfg body) w
  end.

(** The batch loop from index [i]: what became of each batch, the error that
    stopped it and the events not sent ([all[i:]]).  [None]: out of fuel. *)
Fixpoint flush_loop (fuel : nat) (cfg : EventFlushConfig) (all : list Event) (i : Z) (w : world)
    : option (list (batch_fate * list Event) * option push_error * list Event * world) :=
  if i <? len all then
    match fuel with
    | O => None
    | Datatypes.S f =>
        let e0 := i +i fc_BatchSize cfg in
        let e := if len all <? e0 then len all else e0 in
        let batch := take (Z.to_nat (e - i)) (drop (Z.to_nat i) all) in
        match postBatch cfg batch w with
        | (None, w') =>
            '(fates, err, unsent, w'') ← flush_loop f cfg all (i +i fc_BatchSize cfg) w';
            Some ((Delivered, batch) :: fates, err, unsent, w'')
        | (Some (ErrBadBatch _), w') =>
            '(fates, err, unsent, w'') ← flush_loop f cfg all (i +i fc_BatchSize cfg) w';
            Some ((DroppedAsBad, batch) :: fates, err, unsent, w'')
        | (Some err, w') => Some ([], Some err, drop (Z.to_nat i) all, w')
        end
    end
  else Some ([], None, [], w).

(** Re-enqueueing [l]; before each push the pipeline may have pushed the next
    list of [arrivals]. *)
Fixpoint requeue (q : Q) (l : list Event) (arrivals : list (list Event)) : option Q :=
  match l, arrivals with
  | [], _ => push_all q (concat arrivals)
  | e :: l', [] => q' ← q_push q e; requeue q' l' []
  | e :: l', a :: arr => q1 ← push_all q a; q2 ← q_push q1 e; requeue q2 l' arr
  end.

Record flush_result := {
  fl_fates : list (batch_fate * list Event);
  fl_err : option push_error;
  fl_left : list Event;
  fl_queue : Q;
  fl_world : world }.

Definition flush (cfg : EventFlushConfig) (t0 : time) (arrivals : list (list Event)) (q : Q) (w : world)
    : option flush_result :=
  if Paused w.1 t0 then
    q' ← requeue q [] arrivals;
    Some {| fl_fates := []; fl_err := None; fl_left := []; fl_queue := q'; fl_world := w |}
  else
    '(all, q1) ← q_drain q;
    '(fates, err, unsent, w') ← flush_loop (length all) cfg all 0 w;
    q' ← requeue q1 unsent arrivals;
    Some {| fl_fates := fates; fl_err := err; fl_left := unsent; fl_queue := q'; fl_world := w' |}.

(** ** Lemmas *)

Fixpoint interleave (l : list Event) (arrivals : list (list Event)) : list Event :=
  match l, arrivals with
  | [], _ => concat arrivals
  | e :: l', [] => e :: interleave l' []
  | e :: l', a :: arr => a ++ e :: interleave l' arr
  end.

Lemma interleave_nil (l : list Event) : interleave l [] = l.
Proof. induction l as [|e l IH]; [done|]. cbn. by rewrite IH. Qed.

Lemma interleave_permutation (l : list Event) (arr : list (list Event)) :
  interleave l arr ≡ₚ l ++ concat arr.
Proof.
  revert arr. induction l as [|e l IH]; intros [|a arr]; cbn; try done; rewrite IH; cbn.
  - done.
  - by rewrite <-Permutation_middle, !(assoc_L (++)), (comm (++) a l).
Qed.

Lemma requeue_ok (l : list Event) (arr : list (list Event)) (q : Q) :
  q_wf q -> exists q', requeue q l arr = Some q' /\ q_wf q' /\ q_cap q' = q_cap q
    /\ q_contents q' = lastn (q_cap q) (q_contents q ++ interleave l arr)
    /\ q_evictions q' = wrap_u64 (q_evictions q + overflow (q_cap q) (q_contents q ++ interleave l arr)).
Proof.
  revert q arr. induction l as [|e l IH]; intros q arr Hwf; [apply (push_all_ok _ q Hwf)|].
  assert (Hstep : forall a arr', exists q1 q2 q', push_all q a = Some q1 /\ q_push q1 e = Some q2
      /\ requeue q2 l arr' = Some q' /\ q_wf q' /\ q_cap q' = q_cap q
      /\ q_contents q' = lastn (q_cap q) (q_contents q ++ a ++ e :: interleave l arr')
      /\ q_evictions q' = wrap_u64 (q_evictions q + overflow (q_cap q) (q_contents q ++ a ++ e :: interleave l arr'))).
  { intros a arr'. destruct (push_all_ok a q Hwf) as (q1 & H1 & Hwf1 & Hcap1 & Hc1 & He1).
    destruct (q_push_ok q1 e Hwf1) as (q2 & H2 & Hwf2 & Hc2 & Hcap2 & He2).
    destruct (IH q2 arr' Hwf2) as (q' & H3 & Hwf' & Hcap' & Hc' & He').
    exists q1, q2, q'. split_and!; try done; [congruence|..].
    - rewrite Hc', Hc2, Hcap2, Hcap1, Hc1, lastn_lastn_app, <-(app_assoc _ [e]), lastn_lastn_app.
      by rewrite <-app_assoc.
    - rewrite He', He2, Hc2, Hcap2, Hcap1, wrap_u64_add, <-Z.add_assoc, overflow_lastn, He1, Hc1, wrap_u64_add.
      rewrite <-Z.add_assoc, <-(app_assoc _ [e]), overflow_lastn. by rewrite <-app_assoc. }
  destruct arr as [|a arr]; cbn [requeue interleave].
  - destruct (Hstep [] []) as (q1 & q2 & q' & [= <-] & -> & H3 & Hrest). exists q'. cbn. auto.
  - destruct (Hstep a arr) as (q1 & q2 & q' & -> & H2 & H3 & Hrest). exists q'. cbn. rewrite H2. auto.
Qed.

Definition fate_events (f : batch_fate) (fates : list (batch_fate * list Event)) : list Event :=
  concat (map snd (List.filter (fun b => match f, b.1 with
                                         | Delivered, Delivered | DroppedAsBad, DroppedAsBad => true
                                         | _, _ => false end) fates)).

(** How the batches met the network: a delivered batch saw a 2xx last, a
    dropped one a permanent refusal, and each made its attempts in turn. *)
Inductive sends : world -> list (batch_fate * list Event) -> world -> Prop :=
  | sends_nil w : sends w [] w
  | sends_ok w w1 w' b fates : ran net ErrBadBatch w w1 None -> sends w1 fates w' ->
      sends w ((Delivered, b) :: fates) w'
  | sends_bad w w1 w' b st fates : ran net ErrBadBatch w w1 (Some (ErrBadBatch st)) -> sends w1 fates w' ->
      sends w ((DroppedAsBad, b) :: fates) w'.

(** The failure that ends a flush early. *)
Definition fails (w w' : world) (err : option push_error) : Prop :=
  match err with
  | None => w' = w
  | Some e => ran net ErrBadBatch w w' (Some e) /\ forall st, e <> ErrBadBatch st
  end.

Lemma postBatch_ran (cfg : EventFlushConfig) (batch : list Event) (w : world) :
  url_ok (fc_Server cfg +:+ "/events") = true -> is_Some (marshal batch) ->
  ran net ErrBadBatch w (postBatch cfg batch w).2 (postBatch cfg batch w).1.
Proof.
  intros Hurl [body Hb]. unfold postBatch. rewrite Hb.
  eapply attempts_ran; [exact Hurl|]. apply RetryNotify_attempts.
Qed.

(** The index of the loop is 0 or at least one batch, so adding the batch
    size does not wrap. *)
Definition index_ok (cfg : EventFlushConfig) (all : list Event) (i : Z) : Prop :=
  1 <= fc_BatchSize cfg <= max_i64 /\ len all <= 2 ^ 62 /\ 0 <= i /\ (i = 0 \/ fc_BatchSize cfg <= i).

Lemma index_step (cfg : EventFlushConfig) (all : list Event) (i : Z) :
  index_ok cfg all i -> i < len all ->
  i +i fc_BatchSize cfg = i + fc_BatchSize cfg /\ index_ok cfg all (i + fc_BatchSize cfg).
Proof. unfold index_ok. intros (? & ? & ? & ?) ?. rewrite wrap_i64_id by go_lia. split; [done|]. lia. Qed.

(** What the loop promises about the events from index [i] on. *)
Definition loop_ok (cfg : EventFlushConfig) (all : list Event) (i : Z) (w : world)
    (fates : list (batch_fate * list Event)) (err : option push_error) (unsent : list Event) (w' : world) : Prop :=
  drop (Z.to_nat i) all = concat (map snd fates) ++ unsent
  /\ Forall (fun b => 1 <= len b.2 <= fc_BatchSize cfg) fates
  /\ (err = None <-> unsent = [])
  /\ (url_ok (fc_Server cfg +:+ "/events") = true -> (forall b, is_Some (marshal b)) ->
      exists w1, sends w fates w1 /\ fails w1 w' err).

Lemma batch_split (cfg : EventFlushConfig) (all : list Event) (i : Z) :
  index_ok cfg all i -> i < len all ->
  let e := if len all <? i + fc_BatchSize cfg then len all else i + fc_BatchSize cfg in
  let batch := take (Z.to_nat (e - i)) (drop (Z.to_nat i) all) in
  1 <= len batch <= fc_BatchSize cfg
  /\ drop (Z.to_nat i) all = batch ++ drop (Z.to_nat (i + fc_BatchSize cfg)) all.
Proof.
  intros (? & ? & ? & ?) Hi e batch. subst batch.
  assert (He : e = Z.min (len all) (i + fc_BatchSize cfg)).
  { unfold e. destruct (Z.ltb_spec (len all) (i + fc_BatchSize cfg)); lia. }
  unfold len in *. rewrite length_take, length_drop. split; [lia|].
  rewrite <-(take_drop (Z.to_nat (e - i)) (drop (Z.to_nat i) all)) at 1. f_equal.
  rewrite drop_drop. destruct (Z.ltb_spec (len all) (i + fc_BatchSize cfg)) as [Hl|Hl]; unfold len in *.
  - rewrite !drop_ge by lia. done.
  - f_equal. lia.
Qed.

(** Adding a batch with a settled fate in front. *)
Lemma loop_ok_cons (cfg : EventFlushConfig) (all : list Event) (i : Z) (w w1 w' : world) (f : batch_fate)
    (batch unsent : list Event) (fates : list (batch_fate * list Event)) (err : option push_error) :
  drop (Z.to_nat i) all = batch ++ drop (Z.to_nat (i + fc_BatchSize cfg)) all ->
  1 <= len batch <= fc_BatchSize cfg ->
  (url_ok (fc_Server cfg +:+ "/events") = true -> (forall b, is_Some (marshal b)) ->
     forall w2, sends w1 fates w2 -> sends w ((f, batch) :: fates) w2) ->
  loop_ok cfg all (i + fc_BatchSize cfg) w1 fates err unsent w' ->
  loop_ok cfg all i w ((f, batch) :: fates) err unsent w'.
Proof.
  intros Hd Hb Hs (H1 & H2 & H3 & H4). unfold loop_ok. cbn [map concat snd].
  split_and!; try done.
  - by rewrite Hd, H1, <-app_assoc.
  - by constructor.
  - intros Hurl Hm. destruct (H4 Hurl Hm) as (w2 & Hs2 & Hf). exists w2. auto.
Qed.

Lemma flush_loop_ok (fuel : nat) (cfg : EventFlushConfig) (all : list Event) (i : Z) (w : world) :
  index_ok cfg all i -> (Z.to_nat (len all - i) <= fuel)%nat ->
  exists fates err unsent w', flush_loop fuel cfg all i w = Some (fates, err, unsent, w')
    /\ loop_ok cfg all i w fates err unsent w'.
Proof.
  revert i w. induction fuel as [|fuel IH]; intros i w Hi Hfuel; cbn [flush_loop];
    destruct (Z.ltb_spec i (len all)) as [Hlt|Hge]; try (go_lia).
  1, 3: exists [], None, [], w; split; [done|]; unfold loop_ok; cbn;
    split_and!; [apply drop_ge; go_lia|constructor|done|intros _ _; exists w; split; [constructor|done]].
  destruct (index_step cfg all i Hi Hlt) as [Hstep Hi']. rewrite Hstep.
  destruct (batch_split cfg all i Hi Hlt) as [Hlen Hsplit].
  set (batch := take _ (drop (Z.to_nat i) all)) in *.
  destruct (postBatch cfg batch w) as [err w1] eqn:Hp.
  assert (Hran : url_ok (fc_Server cfg +:+ "/events") = true -> is_Some (marshal batch) ->
                 ran net ErrBadBatch w w1 err).
  { intros Hu Hm. pose proof (postBatch_ran cfg batch w Hu Hm) as Hr. by rewrite Hp in Hr. }
  destruct (IH (i + fc_BatchSize cfg) w1 Hi') as (fates & err' & unsent & w' & Hl & Hok);
    [destruct Hi as (? & _); lia|].
  assert (Hstop : forall e, err = Some e -> (forall st, e <> ErrBadBatch st) ->
            loop_ok cfg all i w [] err (drop (Z.to_nat i) all) w1).
  { intros e -> Hne. unfold loop_ok. cbn. split_and!; [done|constructor| |].
    - split; [done|]. intros Hnil. apply (f_equal length) in Hnil. rewrite length_drop in Hnil. cbn in Hnil.
      destruct Hi as (_ & _ & ? & _). go_lia.
    - intros Hu Hm. exists w. split; [constructor|]. split; auto. }
  destruct err as [e|].
  - destruct e; try (eexists _, _, _, _; split; [reflexivity|]; by eapply Hstop).
    rewrite Hl. eexists _, _, _, _. split; [reflexivity|].
    eapply loop_ok_cons; eauto. intros Hu Hm w2 Hs. econstructor; eauto.
  - rewrite Hl. eexists _, _, _, _. split; [reflexivity|].
    eapply loop_ok_cons; eauto. intros Hu Hm w2 Hs. econstructor; eauto.
Qed.

Lemma flush_ok (cfg : EventFlushConfig) (t0 : time) (arr : list (list Event)) (q : Q) (w : world) :
  q_wf q -> 1 <= fc_BatchSize cfg <= max_i64 -> Paused w.1 t0 = false ->
  exists r, flush cfg t0 arr q w = Some r /\ q_wf (fl_queue r) /\ q_cap (fl_queue r) = q_cap q
    /\ loop_ok cfg (q_contents q) 0 w (fl_fates r) (fl_err r) (fl_left r) (fl_world r)
    /\ q_contents (fl_queue r) = lastn (q_cap q) (interleave (fl_left r) arr)
    /\ q_evictions (fl_queue r) = wrap_u64 (q_evictions q + overflow (q_cap q) (interleave (fl_left r) arr)).
Proof.
  intros Hwf Hbs Hp. unfold flush. rewrite Hp.
  destruct (q_drain_ok q Hwf) as (q1 & -> & Hwf1 & Hc1 & Hcap1 & He1). cbn.
  destruct (q_bounded q Hwf) as (Hb1 & Hb2 & _).
  destruct (flush_loop_ok (length (q_contents q)) cfg (q_contents q) 0 w) as (fates & err & unsent & w' & -> & Hok).
  { unfold index_ok. go_lia. }
  { go_lia. }
  cbn. destruct (requeue_ok unsent arr q1 Hwf1) as (q' & -> & Hwf' & Hcap' & Hc' & He'). cbn.
  eexists. split; [reflexivity|]. cbn. rewrite Hc', He', Hc1, Hcap1, He1. split_and!; try done. congruence.
Qed.

(** ** Histories of the buffer under pushes and flushes *)
Record system := {
  sys_queue : Q;
  sys_world : world;
  sys_in : list Event;         (* everything pushed by the pipeline *)
  sys_delivered : list Event;  (* sent and accepted by the server *)
  sys_refused : list Event     (* dropped because the server refused the batch *) }.

Inductive system_step (cfg : EventFlushConfig) : system -> system -> Prop :=
  | step_push st e q' : q_push (sys_queue st) e = Some q' ->
      system_step cfg st {| sys_queue := q'; sys_world := sys_world st; sys_in := sys_in st ++ [e];
                            sys_delivered := sys_delivered st; sys_refused := sys_refused st |}
  | step_flush st t0 arr r : flush cfg t0 arr (sys_queue st) (sys_world st) = Some r ->
      system_step cfg st {| sys_queue := fl_queue r; sys_world := fl_world r; sys_in := sys_in st ++ concat arr;
                            sys_delivered := sys_delivered st ++ fate_events Delivered (fl_fates r);
                            sys_refused := sys_refused st ++ fate_events DroppedAsBad (fl_fates r) |}.

(** Every event that entered is delivered, refused, buffered, or was evicted.
    The buffer counted each eviction, and there was none while everything
    that entered fits in it. *)
Definition accounted (st : system) (evicted : list Event) : Prop :=
  q_wf (sys_queue st)
  /\ sys_in st ≡ₚ sys_delivered st ++ sys_refused st ++ q_contents (sys_queue st) ++ evicted
  /\ q_evictions (sys_queue st) = wrap_u64 (len evicted)
  /\ ((length (sys_in st) <= q_cap (sys_queue st))%nat -> evicted = []).

Lemma fates_partition (fates : list (batch_fate * list Event)) :
  concat (map snd fates) ≡ₚ fate_events Delivered fates ++ fate_events DroppedAsBad fates.
Proof.
  unfold fate_events. induction fates as [|[[] b] fates IH]; cbn; [done|..]; rewrite IH.
  - by rewrite app_assoc.
  - by rewrite !app_assoc, (Permutation_app_comm b).
Qed.

(** A step that moves [D'] to the delivered events and [R'] to the refused
    ones, and keeps the newest [rest] of the others. *)
Lemma account_step (st st' : system) (new D' R' rest ev : list Event) :
  accounted st ev -> q_contents (sys_queue st) ++ new ≡ₚ D' ++ R' ++ rest ->
  sys_in st' = sys_in st ++ new -> sys_delivered st' = sys_delivered st ++ D' -> sys_refused st' = sys_refused st ++ R' ->
  q_wf (sys_queue st') -> q_cap (sys_queue st') = q_cap (sys_queue st) ->
  q_contents (sys_queue st') = lastn (q_cap (sys_queue st)) rest ->
  q_evictions (sys_queue st') = wrap_u64 (q_evictions (sys_queue st) + overflow (q_cap (sys_queue st)) rest) ->
  exists ev', accounted st' (ev ++ ev').
Proof.
  intros (_ & Hin & Hcount & Hnone) Hmove Hin' HD HR Hwf' Hcap Hc He.
  destruct (lastn_split (q_cap (sys_queue st)) rest) as (g & Hg & Hlen). exists g. unfold accounted.
  rewrite Hin', HD, HR, Hcap, Hc, He, Hcount. split_and!; [done|..].
  - set (l := lastn _ rest) in *.
    transitivity (sys_delivered st ++ sys_refused st ++ ev ++ (q_contents (sys_queue st) ++ new)); [rewrite Hin; solve_Permutation|].
    rewrite Hmove, Hg. solve_Permutation.
  - unfold len. rewrite wrap_u64_add, length_app, Nat2Z.inj_add, Hlen. done.
  - intros Hfit. rewrite length_app in Hfit. rewrite Hnone by lia. cbn. apply nil_length_inv.
    apply Permutation_length in Hmove, Hin. rewrite !length_app in Hmove, Hin. unfold overflow in Hlen. lia.
Qed.

Lemma system_step_accounted (cfg : EventFlushConfig) (st st' : system) (ev : list Event) :
  1 <= fc_BatchSize cfg <= max_i64 -> system_step cfg st st' -> accounted st ev ->
  exists ev', accounted st' (ev ++ ev').
Proof.
  intros Hbs Hstep Hacc. pose proof Hacc as [Hwf _]. destruct Hstep as [st e q' Hp|st t0 arr r Hf].
  - destruct (q_push_ok (sys_queue st) e Hwf) as (q1 & Hp1 & Hwf1 & Hc1 & Hcap1 & He1). simplify_eq.
    apply (account_step st _ [e] [] [] (q_contents (sys_queue st) ++ [e])); cbn; rewrite ?app_nil_r; done.
  - destruct (Paused (sys_world st).1 t0) eqn:Hpz.
    + unfold flush in Hf. rewrite Hpz in Hf.
      destruct (requeue_ok [] arr (sys_queue st) Hwf) as (q1 & H1 & Hwf1 & Hcap1 & Hc1 & He1).
      rewrite H1 in Hf. cbn in Hf. simplify_eq.
      apply (account_step st _ (concat arr) [] [] (q_contents (sys_queue st) ++ concat arr)); cbn; rewrite ?app_nil_r; done.
    + destruct (flush_ok cfg t0 arr (sys_queue st) (sys_world st) Hwf Hbs Hpz) as (r' & Hr' & Hwf' & Hcap' & Hok & Hc' & He').
      simplify_eq. destruct Hok as (Hall & _). cbn in Hall. rewrite drop_0 in Hall.
      eapply (account_step st _ (concat arr)); try done.
      rewrite Hall, fates_partition, interleave_permutation. solve_Permutation.
Qed.

Lemma push_all_accounted (l : list Event) (st : system) (ev : list Event) :
  accounted st ev -> exists q1 ev', push_all (sys_queue st) l = Some q1 /\ q_cap q1 = q_cap (sys_queue st)
    /\ accounted {| sys_queue := q1; sys_world := sys_world st; sys_in := sys_in st ++ l;
                    sys_delivered := sys_delivered st; sys_refused := sys_refused st |} (ev ++ ev').
Proof.
  intros Hacc. pose proof Hacc as [Hwf _].
  destruct (push_all_ok l (sys_queue st) Hwf) as (q1 & Hq & Hwf1 & Hcap1 & Hc1 & He1).
  destruct (account_step st {| sys_queue := q1; sys_world := sys_world st; sys_in := sys_in st ++ l;
               sys_delivered := sys_delivered st; sys_refused := sys_refused st |} l [] [] (q_contents (sys_queue st) ++ l) ev) as [ev' Hev'];
    cbn; rewrite ?app_nil_r; try done. eauto.
Qed.

(** ** The flush loop *)

(** What a turn of [Run] meets: the events pushed since the last flush, the
    time, and the events pushed while it flushes. *)
Record flush_turn := { ft_before : list Event; ft_time : time; ft_arrivals : list (list Event) }.

Definition run_turn (cfg : EventFlushConfig) (st : system) (t : flush_turn) : option (system * flush_result) :=
  q1 ← push_all (sys_queue st) (ft_before t);
  r ← flush cfg (ft_time t) (ft_arrivals t) q1 (sys_world st);
  Some ({| sys_queue := fl_queue r; sys_world := fl_world r; sys_in := (sys_in st ++ ft_before t) ++ concat (ft_arrivals t);
           sys_delivered := sys_delivered st ++ fate_events Delivered (fl_fates r);
           sys_refused := sys_refused st ++ fate_events DroppedAsBad (fl_fates r) |}, r).

Fixpoint run_turns (cfg : EventFlushConfig) (st : system) (ts : list flush_turn) : option system :=
  match ts with
  | [] => Some st
  | t :: rest => '(st', _) ← run_turn cfg st t; run_turns cfg st' rest
  end.

(** A flush on every tick, whatever its error, and one more after the context
    is cancelled. *)
Definition Run (cfg : EventFlushConfig) (st : system) (ticks : list flush_turn) (final : flush_turn) : option (system * flush_result) :=
  st' ← run_turns cfg st ticks; run_turn cfg st' final.

Definition turn_events (t : flush_turn) : list Event := ft_before t ++ concat (ft_arrivals t).

(** What a turn does with the buffer [c] it finds at its flush: a rejected
    agent sends nothing and keeps it; otherwise the flushed batches come off
    its front and exactly the unsent rest is put back, and in both cases what
    arrives meanwhile is pushed too.  An overflow takes the oldest. *)
Definition turn_outcome (st : system) (t : flush_turn) (st' : system) (r : flush_result) : Prop :=
  let n := q_cap (sys_queue st) in
  let c := lastn n (q_contents (sys_queue st) ++ ft_before t) in
  if Paused (sys_world st).1 (ft_time t)
  then fl_fates r = [] /\ q_contents (sys_queue st') = lastn n (c ++ concat (ft_arrivals t))
  else c = concat (map snd (fl_fates r)) ++ fl_left r
    /\ (fl_err r = None <-> fl_left r = [])
    /\ q_contents (sys_queue st') = lastn n (interleave (fl_left r) (ft_arrivals t)).

Lemma run_turn_ok (cfg : EventFlushConfig) (st : system) (t : flush_turn) (ev : list Event) :
  1 <= fc_BatchSize cfg <= max_i64 -> accounted st ev ->
  exists st' r ev', run_turn cfg st t = Some (st', r) /\ accounted st' (ev ++ ev')
    /\ q_cap (sys_queue st') = q_cap (sys_queue st)
    /\ sys_in st' = sys_in st ++ turn_events t /\ turn_outcome st t st' r.
Proof.
  intros Hbs Hacc. unfold run_turn, turn_outcome. pose proof Hacc as [Hwf _].
  destruct (push_all_ok (ft_before t) (sys_queue st) Hwf) as (q0 & Hq0 & _ & _ & Hc0 & _).
  destruct (push_all_accounted (ft_before t) st ev Hacc) as (q1 & ev1 & Hq1 & Hcap1 & Hacc1).
  rewrite Hq1 in Hq0. injection Hq0 as <-. rewrite Hq1. cbn [mbind option_bind]. rewrite <-Hc0, <-Hcap1.
  set (st1 := {| sys_queue := q1; sys_world := _; sys_in := _; sys_delivered := _; sys_refused := _ |}) in *.
  pose proof Hacc1 as [Hwf1 _]. cbn [sys_queue st1] in Hwf1.
  assert (exists r, flush cfg (ft_time t) (ft_arrivals t) q1 (sys_world st) = Some r /\ q_cap (fl_queue r) = q_cap q1
    /\ if Paused (sys_world st).1 (ft_time t)
       then fl_fates r = [] /\ q_contents (fl_queue r) = lastn (q_cap q1) (q_contents q1 ++ concat (ft_arrivals t))
       else q_contents q1 = concat (map snd (fl_fates r)) ++ fl_left r /\ (fl_err r = None <-> fl_left r = [])
         /\ q_contents (fl_queue r) = lastn (q_cap q1) (interleave (fl_left r) (ft_arrivals t))) as (r & Hr & Hcap & Hout).
  { destruct (Paused (sys_world st).1 (ft_time t)) eqn:Hp.
    - unfold flush. rewrite Hp. destruct (requeue_ok [] (ft_arrivals t) q1 Hwf1) as (q2 & -> & _ & Hcap2 & Hc2 & _). cbn. by eexists.
    - destruct (flush_ok cfg (ft_time t) (ft_arrivals t) q1 (sys_world st) Hwf1 Hbs Hp)
        as (r & Hr & _ & Hcap2 & (Hall & _ & Herr & _) & Hc2 & _). cbn in Hall. rewrite drop_0 in Hall. by exists r. }
  destruct (system_step_accounted cfg st1 _ (ev ++ ev1) Hbs (step_flush cfg st1 (ft_time t) (ft_arrivals t) r Hr) Hacc1) as [ev2 Hacc2].
  rewrite Hr. cbn [mbind option_bind]. eexists _, _, (ev1 ++ ev2). split; [reflexivity|].
  rewrite app_assoc. cbn [sys_queue sys_in]. split_and!; [exact Hacc2|done| |exact Hout].
  unfold turn_events. by rewrite app_assoc.
Qed.

Lemma start_accounted (q0 : Q) (w0 : world) :
  q_wf q0 -> q_contents q0 = [] -> q_evictions q0 = 0 ->
  accounted {| sys_queue := q0; sys_world := w0; sys_in := []; sys_delivered := []; sys_refused := [] |} [].
Proof. intros Hwf Hc He. unfold accounted. cbn. by rewrite Hc, He. Qed.

Lemma run_turns_ok (cfg : EventFlushConfig) (ts : list flush_turn) (st : system) (ev : list Event) :
  1 <= fc_BatchSize cfg <= max_i64 -> accounted st ev ->
  exists st' ev', run_turns cfg st ts = Some st' /\ accounted st' (ev ++ ev') /\ q_cap (sys_queue st') = q_cap (sys_queue st)
    /\ sys_in st' = sys_in st ++ concat (map turn_events ts).
Proof.
  intros Hbs. revert st ev. induction ts as [|t ts IH]; intros st ev Hacc; cbn; [exists st, []; by rewrite !app_nil_r|].
  destruct (run_turn_ok cfg st t ev Hbs Hacc) as (st1 & r & ev1 & -> & Hacc1 & Hcap1 & Hin1 & _). cbn.
  destruct (IH st1 _ Hacc1) as (st2 & ev2 & -> & Hacc2 & Hcap2 & Hin2). exists st2, (ev1 ++ ev2).
  rewrite app_assoc. split_and!; [done..|congruence|]. by rewrite Hin2, Hin1, app_assoc.
Qed.

(** ** Properties *)

(** a flush of an unpaused session terminates (as many rounds as events
    are enough) and accounts for every event it drained, in order: full
    batches of at most BatchSize that were delivered or refused for good, then
    the unsent rest, which is empty exactly when the flush succeeded.  The
    unsent events are back in the buffer, after and among whatever the
    pipeline pushed meanwhile; only an overfull buffer loses the oldest. *)
Theorem flush_accounts (cfg : EventFlushConfig) (t0 : time) (arr : list (list Event)) (q : Q) (w : world) :
  q_wf q -> 1 <= fc_BatchSize cfg <= max_i64 -> Paused w.1 t0 = false ->
  exists r, flush cfg t0 arr q w = Some r /\ q_wf (fl_queue r)
    /\ q_contents q = concat (map snd (fl_fates r)) ++ fl_left r
    /\ Forall (fun b => 1 <= len b.2 <= fc_BatchSize cfg) (fl_fates r)
    /\ (fl_err r = None <-> fl_left r = [])
    /\ q_contents (fl_queue r) = lastn (q_cap q) (interleave (fl_left r) arr)
    /\ (arr = [] -> q_contents (fl_queue r) = fl_left r).
Proof.
  intros Hwf Hbs Hp. destruct (flush_ok cfg t0 arr q w Hwf Hbs Hp) as (r & Hr & Hwf' & _ & (H1 & H2 & H3 & _) & Hc & _).
  cbn in H1. rewrite drop_0 in H1. exists r. split_and!; try done.
  intros ->. rewrite Hc, interleave_nil. apply lastn_all.
  destruct (q_bounded q Hwf) as (Hb & _). rewrite H1, length_app in Hb. lia.
Qed.

(** what a flush reports is what the server said.  A batch counts as
    delivered only when its last attempt was answered 2xx, as dropped only
    when that answer was a permanent 4xx, and the flush stops early only on
    another error (a 401/403, which leaves the session paused, or retries
    running out), each batch making its attempts after the one before. *)
Theorem flush_fates (cfg : EventFlushConfig) (t0 : time) (arr : list (list Event)) (q : Q) (w : world) :
  q_wf q -> 1 <= fc_BatchSize cfg <= max_i64 -> Paused w.1 t0 = false ->
  url_ok (fc_Server cfg +:+ "/events") = true -> (forall b, is_Some (marshal b)) ->
  exists r w1, flush cfg t0 arr q w = Some r
    /\ sends w (fl_fates r) w1 /\ fails w1 (fl_world r) (fl_err r).
Proof.
  intros Hwf Hbs Hp Hu Hm. destruct (flush_ok cfg t0 arr q w Hwf Hbs Hp) as (r & Hr & _ & _ & (_ & _ & _ & H4) & _).
  destruct (H4 Hu Hm) as (w1 & Hs & Hf). by exists r, w1.
Qed.

(** while the server rejects the agent a flush sends nothing, keeps every
    buffered event and reports no error. *)
Theorem flush_paused (cfg : EventFlushConfig) (t0 : time) (q : Q) (w : world) :
  Paused w.1 t0 = true ->
  flush cfg t0 [] q w = Some {| fl_fates := []; fl_err := None; fl_left := []; fl_queue := q; fl_world := w |}.
Proof. intros Hp. unfold flush. by rewrite Hp. Qed.

(** under any interleaving of pipeline pushes and flushes, every event
    that entered the buffer has been accepted by the server, dropped with a
    refused batch, is still buffered, or was evicted by an overflow that the
    buffer counted: none is lost otherwise and none is duplicated. *)
Theorem events_conserved (cfg : EventFlushConfig) (q0 : Q) (w0 : world) (st : system) :
  1 <= fc_BatchSize cfg <= max_i64 -> q_wf q0 -> q_contents q0 = [] -> q_evictions q0 = 0 ->
  rtc (system_step cfg) {| sys_queue := q0; sys_world := w0; sys_in := []; sys_delivered := []; sys_refused := [] |} st ->
  exists evicted,
    sys_in st ≡ₚ sys_delivered st ++ sys_refused st ++ q_contents (sys_queue st) ++ evicted
    /\ q_evictions (sys_queue st) = wrap_u64 (len evicted).
Proof.
  intros Hbs Hwf Hc He Hr. enough (exists ev, accounted st ev) as (ev & _ & ? & ? & _) by eauto.
  eapply (rtc_ind_r (fun s => exists ev, accounted s ev)); [|intros s s' _ Hs [ev Hev]; edestruct system_step_accounted; eauto|exact Hr].
  exists []. by apply start_accounted.
Qed.

(** C3: a run of the transport from a new buffer, through any flushes (failed,
    refused, held back by a rejection) and arrivals at any point, to its
    final flush, loses no event but by overflow.  Every event pushed before or
    during it has been accepted, dropped with a refused batch, is still
    buffered, or was evicted, each exactly once; the evicted ones are exactly
    as many as the buffer's own count of evictions (kept in 64 bits), and
    there are none when everything pushed fits in the buffer.  The final flush
    leaves in the buffer, in order, exactly the events it could not send and
    those that arrived while it ran (the newest, if they overflow it); none is
    unsent when it reports no error, and a rejected agent keeps all it had. *)
Theorem run_drains (cfg : EventFlushConfig) (q0 : Q) (w0 : world) (ticks : list flush_turn) (final : flush_turn) :
  1 <= fc_BatchSize cfg <= max_i64 -> q_wf q0 -> q_contents q0 = [] -> q_evictions q0 = 0 ->
  exists st0 st r evicted,
    run_turns cfg {| sys_queue := q0; sys_world := w0; sys_in := []; sys_delivered := []; sys_refused := [] |} ticks = Some st0
    /\ Run cfg {| sys_queue := q0; sys_world := w0; sys_in := []; sys_delivered := []; sys_refused := [] |} ticks final = Some (st, r)
    /\ concat (map turn_events ticks) ++ turn_events final
       ≡ₚ sys_delivered st ++ sys_refused st ++ q_contents (sys_queue st) ++ evicted
    /\ q_evictions (sys_queue st) = wrap_u64 (len evicted)
    /\ ((length (concat (map turn_events ticks) ++ turn_events final) <= q_cap q0)%nat -> evicted = [])
    /\ turn_outcome st0 final st r.
Proof.
  intros Hbs Hwf Hc He. unfold Run.
  destruct (run_turns_ok cfg ticks _ [] Hbs (start_accounted q0 w0 Hwf Hc He)) as (st0 & ev0 & Hr0 & Hacc0 & Hcap0 & Hin0).
  destruct (run_turn_ok cfg st0 final _ Hbs Hacc0) as (st & r & ev & Hr & (_ & Hev & Hcount & Hnone) & Hcap & Hin & Hout).
  cbn [sys_queue sys_in] in Hcap0, Hin0. rewrite Hin, Hin0 in Hev, Hnone. rewrite Hcap, Hcap0 in Hnone.
  exists st0, st, r, (ev0 ++ ev). rewrite Hr0. cbn [mbind option_bind]. split_and!; done.
Qed.
End Flush.

(** *** Witnesses *)
Definition demo_cfg : EventFlushConfig :=
  {| fc_Server := "https://x"; fc_Token := "t"; fc_FlushInterval := 10 * second; fc_BatchSize := 2 |}.
Definition demo_marshal (b : list Event) : option bytes := Some (B "[]").
(** The first batch is accepted, the second meets an outage. *)
Definition net_outage (k : nat) : time * (string + Response) :=
  match k with 0%nat => (5, inr (resp_of 200)) | _ => (6, inl "connection refused") end.
Definition ring4 : RingBuffer := {|
  buf := replicate 4 zero_event; head := 0; tail := 0; size := 0; cap := 4; dropped := 0 |}.
Definition ring4_3 : RingBuffer := pushed (pushed (pushed ring4 (ev_n 1)) (ev_n 2)) (ev_n 3).

Lemma ring4_wf : wf ring4.
Proof. vm_compute. repeat split; discriminate. Qed.
Lemma ring4_3_wf : wf ring4_3.
Proof. unfold ring4_3. auto using pushed_wf, ring4_wf. Qed.

Lemma flush_accounts_witness :
  exists r, @flush (fun _ => None) (fun _ => true) net_outage two_retries demo_marshal RingBuffer ring_queue
              demo_cfg 1 [] ring4_3 (NewSession, 0%nat) = Some r
    /\ contents (fl_queue r) = [ev_n 3] /\ fl_fates r = [(Delivered, [ev_n 1; ev_n 2])].
Proof.
  destruct (@flush_accounts (fun _ => None) (fun _ => true) net_outage two_retries demo_marshal RingBuffer ring_queue
              demo_cfg 1 [] ring4_3 (NewSession, 0%nat)) as (r & Hr & _ & _ & _ & _ & _ & Hq).
  - apply ring4_3_wf.
  - vm_compute. split; discriminate.
  - reflexivity.
  - exists r. split; [exact Hr|]. specialize (Hq eq_refl). cbn [q_contents ring_queue] in Hq. rewrite Hq.
    vm_compute in Hr. injection Hr as <-. vm_compute. split; reflexivity.
Defined.

Lemma flush_fates_witness :
  exists r w1, @flush (fun _ => None) (fun _ => true) net_outage two_retries demo_marshal RingBuffer ring_queue
              demo_cfg 1 [] ring4_3 (NewSession, 0%nat) = Some r
    /\ sends net_outage (NewSession, 0%nat) (fl_fates r) w1.
Proof.
  destruct (@flush_fates (fun _ => None) (fun _ => true) net_outage two_retries demo_marshal RingBuffer ring_queue
              demo_cfg 1 [] ring4_3 (NewSession, 0%nat)) as (r & w1 & Hr & Hs & _).
  - apply ring4_3_wf.
  - vm_compute. split; discriminate.
  - reflexivity.
  - reflexivity.
  - intros b. exists (B "[]"). reflexivity.
  - exists r, w1. split; [exact Hr|exact Hs].
Defined.

Lemma flush_paused_witness :
  fl_queue <$> @flush (fun _ => None) (fun _ => true) net_outage two_retries demo_marshal RingBuffer ring_queue
     demo_cfg 1 [] ring4_3 (reject NewSession 0 (rejection resp401), 0%nat) = Some ring4_3.
Proof.
  rewrite (@flush_paused (fun _ => None) (fun _ => true) net_outage two_retries demo_marshal RingBuffer ring_queue
     demo_cfg 1 ring4_3 (reject NewSession 0 (rejection resp401), 0%nat)); reflexivity.
Defined.

Lemma events_conserved_witness :
  exists evicted, [ev_n 1] ≡ₚ [] ++ [] ++ contents (pushed ring4 (ev_n 1)) ++ evicted
    /\ Dropped (pushed ring4 (ev_n 1)) = wrap_u64 (len evicted).
Proof.
  apply (@events_conserved (fun _ => None) (fun _ => true) net_outage two_retries demo_marshal RingBuffer ring_queue
    demo_cfg ring4 (NewSession, 0%nat)
    {| sys_queue := pushed ring4 (ev_n 1); sys_world := (NewSession, 0%nat); sys_in := [ev_n 1];
       sys_delivered := []; sys_refused := [] |}).
  - vm_compute. split; discriminate.
  - apply ring4_wf.
  - reflexivity.
  - reflexivity.
  - apply rtc_once. apply (step_push _ _ _ _ demo_cfg
      {| sys_queue := ring4; sys_world := (NewSession, 0%nat); sys_in := []; sys_delivered := []; sys_refused := [] |}
      (ev_n 1)). reflexivity.
Defined.

(** The first flush delivers; the second and the final one meet an outage, and
    their events stay in the buffer. *)
Definition demo_turn (l : list Event) : flush_turn := {| ft_before := l; ft_time := 1; ft_arrivals := [] |}.
Lemma run_drains_witness :
  exists st r,
    @Run (fun _ => None) (fun _ => true) net_outage two_retries demo_marshal RingBuffer ring_queue demo_cfg
      {| sys_queue := ring4; sys_world := (NewSession, 0%nat); sys_in := []; sys_delivered := []; sys_refused := [] |}
      [demo_turn [ev_n 1]; demo_turn [ev_n 2]] (demo_turn [ev_n 3]) = Some (st, r)
    /\ sys_delivered st = [ev_n 1] /\ contents (sys_queue st) = [ev_n 2; ev_n 3]
    /\ [ev_n 1; ev_n 2; ev_n 3] ≡ₚ sys_delivered st ++ sys_refused st ++ contents (sys_queue st) ++ [].
Proof.
  destruct (@run_drains (fun _ => None) (fun _ => true) net_outage two_retries demo_marshal RingBuffer ring_queue demo_cfg
    ring4 (NewSession, 0%nat) [demo_turn [ev_n 1]; demo_turn [ev_n 2]] (demo_turn [ev_n 3]))
    as (st0 & st & r & ev & _ & H1 & H2 & _ & H3 & _).
  - vm_compute. split; discriminate.
  - apply ring4_wf.
  - reflexivity.
  - reflexivity.
  - exists st, r. split; [exact H1|]. rewrite H3 in H2 by (vm_compute; lia). split; [|split; [|exact H2]].
    + vm_compute in H1. injection H1 as <- _. vm_compute. reflexivity.
    + vm_compute in H1. injection H1 as <- _. vm_compute. reflexivity.
Defined.
