(* ===== verification/Metrics.v ===== *)
(** * Metric points and their encoding

    [src/internal/metrics/types.go] and [encode.go]: points are grouped by
    name into families, and the agent's identity labels are put in front of
    every point's own labels.  The Prometheus data types ([dto]) are the
    records below; the text encoder ([expfmt]) is a parameter. *)
From S2P Require Import Prelude GoFloat GoStrings.
Local Open Scope Z_scope.

Inductive MetricType := Gauge | Counter.
#[export] Instance MetricType_eq_dec : EqDecision MetricType.
Proof. solve_decision. Defined.

Record MetricPoint := {
  mp_Name : string; mp_Help : string; mp_Type : MetricType; mp_Value : float64;
  mp_Labels : gmap string string; mp_Timestamp : time }.

Record MetricSet := {
  ms_Points : list MetricPoint; ms_AgentID : string; ms_Hostname : string; ms_Version : string;
  ms_Source : string; ms_CollectedAt : time }.

(** [dto.Metric]: labels in order and the value under its type. *)
Record dto_Metric := { dm_Label : list (string * string); dm_Type : MetricType; dm_Value : float64 }.
Record dto_Family := { df_Name : string; df_Help : string; df_Type : MetricType; df_Metric : list dto_Metric }.

(** A point without a timestamp, as the collectors build them. *)
Definition point (name help : string) (ty : MetricType) (v : float64) (labels : gmap string string) : MetricPoint :=
  {| mp_Name := name; mp_Help := help; mp_Type := ty; mp_Value := v; mp_Labels := labels; mp_Timestamp := time_zero |}.

(** [sort.Strings] of the keys of a map. *)
Definition sorted_keys {V} (m : gmap string V) : list string :=
  merge_sort String.le (map fst (map_to_list m)).

Definition agentLabelPairs (ms : MetricSet) : list (string * string) :=
  [("agent_id", ms_AgentID ms); ("hostname", ms_Hostname ms); ("source", ms_Source ms);
   ("target_name", ms_AgentID ms); ("target_type", "system")].

(** A point label named like an agent label is renamed. *)
Definition label_name (agentLabels : list (string * string)) (k : string) : string :=
  if existsb (fun al => bool_decide (al.1 = k)) agentLabels then "exported_" +:+ k else k.

Definition dtoMetric (pt : MetricPoint) (agentLabels : list (string * string)) : dto_Metric := {|
  dm_Label := agentLabels ++
    map (fun k => (label_name agentLabels k, default "" (mp_Labels pt !! k))) (sorted_keys (mp_Labels pt));
  dm_Type := mp_Type pt;
  dm_Value := mp_Value pt |}.

(** The state of the grouping loop: names in order of first use, and the
    families by name. *)
Definition family_step (agentLabels : list (string * string))
    (st : list string * gmap string dto_Family) (pt : MetricPoint) : list string * gmap string dto_Family :=
  let '(order, byName) := st in
  let '(order', fam) :=
    match byName !! mp_Name pt with
    | Some fam => (order, fam)
    | None => (order ++ [mp_Name pt],
               {| df_Name := mp_Name pt; df_Help := mp_Help pt; df_Type := mp_Type pt; df_Metric := [] |})
    end in
  (order', <[mp_Name pt := {| df_Name := df_Name fam; df_Help := df_Help fam; df_Type := df_Type fam;
                              df_Metric := df_Metric fam ++ [dtoMetric pt agentLabels] |}]> byName).

Definition buildFamilies (ms : MetricSet) : list dto_Family :=
  let '(order, byName) := fold_left (family_step (agentLabelPairs ms)) (ms_Points ms) ([], ∅) in
  omap (fun name => byName !! name) order.

(** [Encode]: the families through the encoder, stopping at the first error. *)
Fixpoint encode_families (enc : dto_Family -> string + bytes) (fs : list dto_Family) (acc : bytes)
    : string + bytes :=
  match fs with
  | [] => inr acc
  | f :: t => match enc f with
              | inl e => inl e
              | inr b => encode_families enc t (acc ++ b)
              end
  end.
Definition Encode (enc : dto_Family -> string + bytes) (ms : MetricSet) : string + bytes :=
  encode_families enc (buildFamilies ms) [].

(** ** Reference definition: one family per name, in order of first use *)
Fixpoint nub (l : list string) : list string :=
  match l with
  | [] => []
  | x :: t => x :: List.filter (fun y => negb (bool_decide (y = x))) (nub t)
  end.

Definition points_named (name : string) (pts : list MetricPoint) : list MetricPoint :=
  List.filter (fun p => bool_decide (mp_Name p = name)) pts.

Definition family_of (agentLabels : list (string * string)) (pts : list MetricPoint) (name : string)
    : option dto_Family :=
  match points_named name pts with
  | [] => None
  | (p :: _) as l => Some {| df_Name := name; df_Help := mp_Help p; df_Type := mp_Type p;
                           df_Metric := map (fun q => dtoMetric q agentLabels) l |}
  end.

Definition families_ref (ms : MetricSet) : list dto_Family :=
  omap (family_of (agentLabelPairs ms) (ms_Points ms)) (nub (map mp_Name (ms_Points ms))).

(** ** Lemmas *)
Lemma sorted_keys_perm {V} (m : gmap string V) : sorted_keys m ≡ₚ map fst (map_to_list m).
Proof. apply merge_sort_Permutation. Qed.

Lemma sorted_keys_sorted {V} (m : gmap string V) : StronglySorted String.le (sorted_keys m).
Proof. apply StronglySorted_merge_sort; apply _. Qed.

Lemma sorted_keys_NoDup {V} (m : gmap string V) : base.NoDup (sorted_keys m).
Proof. rewrite sorted_keys_perm. apply NoDup_fst_map_to_list. Qed.

Lemma elem_of_sorted_keys {V} (m : gmap string V) (k : string) : k ∈ sorted_keys m <-> is_Some (m !! k).
Proof.
  rewrite sorted_keys_perm, list_elem_of_fmap. split.
  - intros ([k' v] & -> & H). apply elem_of_map_to_list in H. eauto.
  - intros [v H]. exists (k, v). by rewrite elem_of_map_to_list.
Qed.

Lemma nub_snoc (l : list string) (x : string) : nub (l ++ [x]) = if decide (x ∈ l) then nub l else nub l ++ [x].
Proof.
  induction l as [|y l IH]; cbn [nub app]; [by rewrite decide_False by apply not_elem_of_nil|]. rewrite IH.
  destruct (decide (x = y)) as [->|Hne].
  - rewrite (decide_True (P := y ∈ y :: l)) by by left. case_decide; [done|].
    rewrite List.filter_app. cbn. rewrite bool_decide_eq_true_2 by done. cbn. by rewrite app_nil_r.
  - destruct (decide (x ∈ l)) as [Hin|Hin].
    + rewrite decide_True by by right. done.
    + rewrite decide_False by (rewrite elem_of_cons; naive_solver).
      rewrite List.filter_app. cbn. by rewrite bool_decide_eq_false_2.
Qed.

Lemma points_named_snoc (n : string) (pts : list MetricPoint) (p : MetricPoint) :
  points_named n (pts ++ [p]) = points_named n pts ++ (if decide (mp_Name p = n) then [p] else []).
Proof. unfold points_named. rewrite List.filter_app. cbn. case_bool_decide; case_decide; done. Qed.

Lemma points_named_nil (n : string) (pts : list MetricPoint) :
  points_named n pts = [] <-> n ∉ map mp_Name pts.
Proof.
  unfold points_named. induction pts as [|p pts IH]; cbn; [split; [intros _; apply not_elem_of_nil|done]|].
  rewrite not_elem_of_cons. case_bool_decide as H; [split; [done|]; naive_solver|]. rewrite IH. naive_solver.
Qed.

(** The loop computes the reference families. *)
Lemma family_fold (al : list (string * string)) (pts : list MetricPoint) :
  let st := fold_left (family_step al) pts ([], ∅) in
  st.1 = nub (map mp_Name pts) /\ forall n, st.2 !! n = family_of al pts n.
Proof.
  induction pts as [|p pts [IH1 IH2]] using rev_ind; cbn zeta in *; [split; [done|]; intros n; apply lookup_empty|].
  rewrite fold_left_app, map_app. cbn [fold_left map]. rewrite nub_snoc.
  destruct (fold_left (family_step al) pts ([], ∅)) as [order byName]. cbn in IH1, IH2.
  unfold family_step. rewrite IH2. unfold family_of at 1 2.
  pose proof (points_named_nil (mp_Name p) pts) as Hnil.
  assert (Hother : forall n, mp_Name p <> n -> family_of al (pts ++ [p]) n = family_of al pts n).
  { intros n Hne. unfold family_of. rewrite points_named_snoc. rewrite decide_False by done. by rewrite app_nil_r. }
  destruct (points_named (mp_Name p) pts) as [|q l] eqn:Hq; cbn [fst snd].
  - destruct (decide (mp_Name p ∈ map mp_Name pts)) as [Hin|Hin]; [by destruct (proj1 Hnil eq_refl)|].
    split; [by rewrite IH1|]. intros n. rewrite lookup_insert. case_decide as Hn; [|by rewrite IH2, Hother].
    subst n. unfold family_of. rewrite points_named_snoc, Hq. by destruct (decide (mp_Name p = mp_Name p)).
  - destruct (decide (mp_Name p ∈ map mp_Name pts)) as [Hin|Hin]; [|by apply (proj2 Hnil) in Hin].
    split; [done|]. intros n. rewrite lookup_insert. case_decide as Hn; [|by rewrite IH2, Hother].
    subst n. unfold family_of. rewrite points_named_snoc, Hq.
    destruct (decide (mp_Name p = mp_Name p)); [|done]. cbn. by rewrite map_app.
Qed.

Lemma label_name_cases (al : list (string * string)) (k : string) :
  (In k (map fst al) /\ label_name al k = "exported_" +:+ k) \/ (~ In k (map fst al) /\ label_name al k = k).
Proof.
  unfold label_name. destruct (existsb _ al) eqn:E; [left|right]; split; try done.
  - apply existsb_exists in E as (x & Hx & Hd). apply bool_decide_eq_true in Hd. subst. by apply in_map.
  - intros Hin. apply in_map_iff in Hin as (x & <- & Hx).
    assert (existsb (fun al0 => bool_decide (al0.1 = x.1)) al = true) as Ht; [|congruence].
    apply existsb_exists. exists x. by rewrite bool_decide_eq_true.
Qed.

(** No point label is spelled like the exported form of another one. *)
Definition no_exported_clash (al : list (string * string)) (labels : gmap string string) : Prop :=
  forall k, In k (map fst al) -> is_Some (labels !! k) -> labels !! ("exported_" +:+ k) = None.

Lemma label_name_inj_on (al : list (string * string)) (labels : gmap string string) (k1 k2 : string) :
  no_exported_clash al labels -> is_Some (labels !! k1) -> is_Some (labels !! k2) ->
  label_name al k1 = label_name al k2 -> k1 = k2.
Proof.
  intros Hno H1 H2.
  destruct (label_name_cases al k1) as [[Hi1 ->]|[Hi1 ->]], (label_name_cases al k2) as [[Hi2 ->]|[Hi2 ->]]; try done.
  - intros Heq. by apply (inj (String.append "exported_")) in Heq.
  - intros <-. rewrite (Hno k1) in H2 by done. by destruct H2.
  - intros ->. rewrite (Hno k2) in H1 by done. by destruct H1.
Qed.

Lemma map_NoDup_on {A B} (f : A -> B) (l : list A) :
  (forall x y, x ∈ l -> y ∈ l -> f x = f y -> x = y) -> base.NoDup l -> base.NoDup (map f l).
Proof.
  intros Hinj Hnd. induction Hnd as [|x l Hx Hnd IH]; cbn; constructor.
  - rewrite list_elem_of_fmap. intros (y & Hy & Hin). apply Hx.
    rewrite (Hinj x y); [done|by left|by right|done].
  - apply IH. intros; apply Hinj; [by right..|done].
Qed.

(** ** Properties *)

(** grouping builds exactly one family per metric name, in order of first
    use, holding every point of that name in collection order, with the help
    and type of the first. *)
Theorem buildFamilies_ref (ms : MetricSet) : buildFamilies ms = families_ref ms.
Proof.
  unfold buildFamilies, families_ref. pose proof (family_fold (agentLabelPairs ms) (ms_Points ms)) as [H1 H2].
  destruct (fold_left _ _ _) as [order byName]. cbn in H1, H2. subst order.
  induction (nub _) as [|n l IH]; cbn; [done|]. rewrite IH. by rewrite H2.
Qed.

(** every series starts with the agent's own identity labels, which no
    point label can displace: the five label names occur once each, with the
    agent's values, and all label names of the series are distinct (as long as
    no point carries both a reserved label and its exported spelling). *)
Theorem labels_identity (ms : MetricSet) (pt : MetricPoint) :
  no_exported_clash (agentLabelPairs ms) (mp_Labels pt) ->
  take 5 (dm_Label (dtoMetric pt (agentLabelPairs ms))) = agentLabelPairs ms
  /\ base.NoDup (map fst (dm_Label (dtoMetric pt (agentLabelPairs ms)))).
Proof.
  intros Hno. split; [done|]. cbn [dtoMetric dm_Label]. rewrite map_app, map_map. cbn [fst].
  assert (Hres : forall k, ~ In (label_name (agentLabelPairs ms) k) (map fst (agentLabelPairs ms))).
  { intros k. destruct (label_name_cases (agentLabelPairs ms) k) as [[_ ->]|[Hn ->]]; [|done].
    cbn. intros [H|[H|[H|[H|[H|[]]]]]]; discriminate H. }
  apply NoDup_app. split_and!.
  - apply NoDup_ListNoDup. cbn. repeat constructor; cbn; intuition discriminate.
  - intros x Hx Hin. apply list_elem_of_fmap in Hin as (k & -> & _). apply (Hres k). by apply list_elem_of_In.
  - apply map_NoDup_on; [|apply sorted_keys_NoDup].
    intros x y Hx%elem_of_sorted_keys Hy%elem_of_sorted_keys. by eapply label_name_inj_on.
Qed.

(** Without that proviso the series is malformed: a point with both the
    labels "source" and "exported_source" gets two labels of the same name,
    which the encoding was meant to exclude. *)
Theorem labels_clash (ms : MetricSet) (pt : MetricPoint) (v1 v2 : string) :
  mp_Labels pt = {["source" := v1; "exported_source" := v2]} ->
  ~ base.NoDup (map fst (dm_Label (dtoMetric pt (agentLabelPairs ms)))).
Proof.
  intros Hl Hnd. cbn [dtoMetric dm_Label] in Hnd. rewrite Hl, map_app, map_map in Hnd. cbn [fst] in Hnd.
  apply NoDup_app in Hnd as (_ & _ & Hnd).
  assert (Hk : sorted_keys ({["source" := v1; "exported_source" := v2]} : gmap string string)
               ≡ₚ ["source"; "exported_source"]).
  { rewrite sorted_keys_perm, map_to_list_insert, map_to_list_singleton by done. done. }
  rewrite Hk in Hnd. cbn in Hnd. apply NoDup_cons in Hnd as [Hnd _]. apply Hnd. by left.
Qed.

(** *** Witnesses *)
Definition demo_ms : MetricSet := {|
  ms_Points := []; ms_AgentID := "a-1"; ms_Hostname := "h"; ms_Version := "v1"; ms_Source := "yomins_agent";
  ms_CollectedAt := 7 |}.
Definition demo_pt : MetricPoint :=
  point "nginx_connections" "help" Gauge f64_one {["source" := "x"; "state" := "reading"]}.

Lemma labels_identity_witness :
  base.NoDup (map fst (dm_Label (dtoMetric demo_pt (agentLabelPairs demo_ms)))).
Proof.
  apply (labels_identity demo_ms demo_pt). intros k Hk Hs. cbn in Hk.
  destruct Hk as [<-|[<-|[<-|[<-|[<-|[]]]]]]; reflexivity.
Defined.

Lemma labels_clash_witness :
  ~ base.NoDup (map fst (dm_Label (dtoMetric
     (point "m" "h" Gauge f64_one {["source" := "x"; "exported_source" := "y"]}) (agentLabelPairs demo_ms)))).
Proof. exact (labels_clash demo_ms (point "m" "h" Gauge f64_one {["source" := "x"; "exported_source" := "y"]}) "x" "y" eq_refl). Defined.
