(* ===== verification/EventPipeline.v ===== *)
(** * The event pipeline and the event counter

    [src/internal/events/pipeline.go] and [counter.go].  The pipeline is one
    goroutine per collector, a goroutine that closes the fan-in channel once
    all collectors have exited, the fan-in loop, and the transport that
    drains the ring buffer from outside.  Each atomic action of these is one
    constructor of [action]; a schedule is a list of actions and [step] says
    what an action does and when it can happen.  A collector may also start
    goroutines of its own on the channel ([AGo]); nobody waits for those, so they
    may send at any later time ([AGoSend]), also after the channel was closed.
    Sending on a closed channel and a panic of the ring buffer lead to
    [Panicked], after which nothing acts any more. *)
From S2P Require Import Prelude GoFloat GoStrings Events RingBuffer Metrics.
Local Open Scope Z_scope.

(** ** The counter *)
Abbreviation CounterMap := (gmap EventType float64).

Definition NewCounter : CounterMap := foldl (fun m t => <[t := f64_zero]> m) ∅ AllTypes.

Definition Add (c : CounterMap) (ev : Event) : CounterMap :=
  <[ev_Type ev := f64_add (default f64_zero (c !! ev_Type ev)) f64_one]> c.

Definition counter_help : string := "Security events detected since the agent started, by type".

Definition Counter_Collect (c : CounterMap) : list MetricPoint :=
  let types := merge_sort String.le (map (fun kv => EventType_string kv.1) (map_to_list c)) in
  map (fun t =>
    point "security_events_total" counter_help Counter
      (match EventType_of_string t with Some ty => default f64_zero (c !! ty) | None => f64_zero end)
      {["type" := t]}) types.

(** ** The pipeline *)
Inductive run_status := Running | Returned | Panicked.
#[export] Instance run_status_eq_dec : EqDecision run_status.
Proof. solve_decision. Defined.

Record PipelineConfig := { BufferSize : Z; FanInDepth : Z; pc_Counter : option CounterMap }.

Record Pipeline := {
  pl_collectors : list bool;        (* true while the collector's goroutine runs *)
  pl_background : nat;              (* the goroutines collectors started on the channel *)
  pl_buf : RingBuffer;
  pl_fanIn : list Event;
  pl_depth : Z;
  pl_closed : bool;
  pl_counter : option CounterMap;
  pl_status : run_status }.

Definition defaultFanInDepth : Z := 256.

(** [NewPipeline], followed by [Run] starting its goroutines. *)
Definition NewPipeline (cfg : PipelineConfig) (collectors : nat) : option Pipeline :=
  let size := if BufferSize cfg <=? 0 then 10000 else BufferSize cfg in
  let depth := if FanInDepth cfg <=? 0 then defaultFanInDepth else FanInDepth cfg in
  buf ← NewRingBuffer size;
  Some {| pl_collectors := replicate collectors true; pl_background := 0; pl_buf := buf; pl_fanIn := []; pl_depth := depth;
          pl_closed := false; pl_counter := pc_Counter cfg; pl_status := Running |}.

Inductive action :=
  | ASend (i : nat) (ev : Event)  (* a collector's [out <- ev] *)
  | AGo (i : nat)                 (* a collector's [go f(ctx, out)] *)
  | AGoSend (ev : Event)          (* an [out <- ev] of such a goroutine *)
  | AExit (i : nat)               (* a collector's [Run] returns *)
  | AClose                        (* [wg.Wait(); close(p.fanIn)] *)
  | ARecv                         (* one iteration of the fan-in loop *)
  | AReturn                       (* the fan-in loop ends *)
  | ADrain.                       (* the transport drains [Buffer()] *)

Definition set_status (p : Pipeline) (st : run_status) : Pipeline := {|
  pl_collectors := pl_collectors p; pl_background := pl_background p; pl_buf := pl_buf p; pl_fanIn := pl_fanIn p; pl_depth := pl_depth p;
  pl_closed := pl_closed p; pl_counter := pl_counter p; pl_status := st |}.

(** The body of [for ev := range p.fanIn]. *)
Definition fan_in_body (p : Pipeline) (ev : Event) (rest : list Event) : Pipeline :=
  match Push (pl_buf p) ev with
  | None => set_status p Panicked
  | Some b => {| pl_collectors := pl_collectors p; pl_background := pl_background p; pl_buf := b; pl_fanIn := rest; pl_depth := pl_depth p;
                 pl_closed := pl_closed p; pl_counter := (fun c => Add c ev) <$> pl_counter p;
                 pl_status := pl_status p |}
  end.

(** [p.fanIn <- ev]: a send on a full channel blocks, on a closed one panics. *)
Definition send (p : Pipeline) (ev : Event) : option Pipeline :=
  if pl_closed p then Some (set_status p Panicked)
  else if len (pl_fanIn p) <? pl_depth p then
    Some {| pl_collectors := pl_collectors p; pl_background := pl_background p; pl_buf := pl_buf p;
            pl_fanIn := pl_fanIn p ++ [ev]; pl_depth := pl_depth p; pl_closed := pl_closed p;
            pl_counter := pl_counter p; pl_status := pl_status p |}
  else None.

(** [None]: the action is blocked.  The second component is what a drain
    took out. *)
Definition live_step (p : Pipeline) (a : action) : option (Pipeline * list Event) :=
  match a with
  | ASend i ev =>
      match pl_collectors p !! i with
      | Some true => p' ← send p ev; Some (p', [])
      | _ => None
      end
  | AGo i =>
      match pl_collectors p !! i with
      | Some true =>
          Some ({| pl_collectors := pl_collectors p; pl_background := Datatypes.S (pl_background p); pl_buf := pl_buf p;
                   pl_fanIn := pl_fanIn p; pl_depth := pl_depth p; pl_closed := pl_closed p;
                   pl_counter := pl_counter p; pl_status := pl_status p |}, [])
      | _ => None
      end
  | AGoSend ev =>
      match pl_background p with
      | O => None
      | _ => p' ← send p ev; Some (p', [])
      end
  | AExit i =>
      match pl_collectors p !! i with
      | Some true =>
          Some ({| pl_collectors := <[i := false]> (pl_collectors p); pl_background := pl_background p; pl_buf := pl_buf p; pl_fanIn := pl_fanIn p;
                   pl_depth := pl_depth p; pl_closed := pl_closed p; pl_counter := pl_counter p;
                   pl_status := pl_status p |}, [])
      | _ => None
      end
  | AClose =>
      if pl_closed p || existsb id (pl_collectors p) then None
      else Some ({| pl_collectors := pl_collectors p; pl_background := pl_background p; pl_buf := pl_buf p; pl_fanIn := pl_fanIn p;
                    pl_depth := pl_depth p; pl_closed := true; pl_counter := pl_counter p;
                    pl_status := pl_status p |}, [])
  | ARecv =>
      match pl_status p, pl_fanIn p with
      | Running, ev :: rest => Some (fan_in_body p ev rest, [])
      | _, _ => None
      end
  | AReturn =>
      match pl_status p, pl_fanIn p with
      | Running, [] => if pl_closed p then Some (set_status p Returned, []) else None
      | _, _ => None
      end
  | ADrain =>
      match Drain (pl_buf p) with
      | None => Some (set_status p Panicked, [])
      | Some (out, b) =>
          Some ({| pl_collectors := pl_collectors p; pl_background := pl_background p; pl_buf := b; pl_fanIn := pl_fanIn p; pl_depth := pl_depth p;
                   pl_closed := pl_closed p; pl_counter := pl_counter p; pl_status := pl_status p |}, out)
      end
  end.

Definition step (p : Pipeline) (a : action) : option (Pipeline * list Event) :=
  match pl_status p with Panicked => None | _ => live_step p a end.

Fixpoint run (p : Pipeline) (acts : list action) : option (Pipeline * list Event) :=
  match acts with
  | [] => Some (p, [])
  | a :: t => '(p', out) ← step p a; '(p'', out') ← run p' t; Some (p'', out ++ out')
  end.

Definition sent_by (a : action) : option Event := match a with ASend _ ev | AGoSend ev => Some ev | _ => None end.
Definition sends (acts : list action) : list Event := omap sent_by acts.

(** The collectors start no goroutines of their own. *)
Definition is_go (a : action) : bool := match a with AGo _ => true | _ => false end.
Definition self_contained (acts : list action) : Prop := Forall (fun a => is_go a = false) acts.

(** ** Counter lemmas *)

Definition counted (ty : EventType) (evs : list Event) : nat := countb (fun e => bool_decide (ev_Type e = ty)) evs.

Lemma NewCounter_lookup (ty : EventType) : NewCounter !! ty = Some f64_zero.
Proof. by destruct ty. Qed.

Lemma Add_counts (evs : list Event) (ty : EventType) :
  foldl Add NewCounter evs !! ty = Some (f64_count (counted ty evs)).
Proof.
  induction evs as [|e evs IH] using rev_ind; [apply NewCounter_lookup|].
  rewrite foldl_app. cbn [foldl]. unfold Add at 1, counted. rewrite countb_app, lookup_insert.
  unfold countb at 2. cbn [List.filter]. case_decide as Hty.
  - subst ty. rewrite bool_decide_eq_true_2, IH by done. cbn [default length]. by rewrite Nat.add_1_r.
  - rewrite bool_decide_eq_false_2, IH by done. cbn. by rewrite Nat.add_0_r.
Qed.

Definition sorted_types : list string := merge_sort String.le (map EventType_string AllTypes).

Lemma counter_keys (c : CounterMap) :
  (forall ty, is_Some (c !! ty)) ->
  merge_sort String.le (map (fun kv => EventType_string kv.1) (map_to_list c)) = sorted_types.
Proof.
  intros Hall. apply (StronglySorted_unique String.le); [apply StronglySorted_merge_sort; apply _..|].
  unfold sorted_types. rewrite !merge_sort_Permutation.
  rewrite <- (map_map fst EventType_string). apply Permutation_map.
  apply NoDup_Permutation; [apply NoDup_fst_map_to_list| |].
  - apply NoDup_ListNoDup. unfold AllTypes. repeat constructor; cbn; intuition discriminate.
  - intros ty. split; [intros _; apply AllTypes_complete|intros _].
    destruct (Hall ty) as [v Hv]. apply list_elem_of_fmap. exists (ty, v). by rewrite elem_of_map_to_list.
Qed.

(** ** The invariant of the pipeline *)
Record pipe_inv (c0 : option CounterMap) (p : Pipeline) (sent out recv : list Event) (gone : nat) : Prop := {
  pi_sent : sent = recv ++ pl_fanIn p;
  pi_status : pl_status p <> Panicked;
  pi_depth : len (pl_fanIn p) <= pl_depth p;
  pi_wf : wf (pl_buf p);
  pi_order : sublist (out ++ contents (pl_buf p)) recv;
  pi_count : length recv = (length out + length (contents (pl_buf p)) + gone)%nat;
  pi_dropped : Dropped (pl_buf p) = wrap_u64 (Z.of_nat gone);
  pi_closed : pl_closed p = true -> existsb id (pl_collectors p) = false;
  pi_returned : pl_status p = Returned -> pl_closed p = true /\ pl_fanIn p = [];
  pi_counter : pl_counter p = (fun c => foldl Add c recv) <$> c0 }.

Lemma existsb_set_false (l : list bool) (i : nat) : existsb id l = false -> existsb id (<[i := false]> l) = false.
Proof.
  revert i. induction l as [|b l IH]; intros i; [done|]. cbn. intros [-> H]%orb_false_iff.
  destruct i; cbn; [done|]. by apply IH.
Qed.

Lemma existsb_lookup (l : list bool) (i : nat) : l !! i = Some true -> existsb id l = true.
Proof. revert i. induction l as [|b l IH]; intros [|i] H; cbn in *; simplify_eq; [done|]. rewrite (IH i H). apply orb_true_r. Qed.

Lemma pushed_inv (c0 : option CounterMap) (p : Pipeline) sent out recv gone ev rest :
  pipe_inv c0 p sent out recv gone -> pl_fanIn p = ev :: rest -> pl_status p = Running ->
  exists gone', pipe_inv c0 (fan_in_body p ev rest) sent out (recv ++ [ev]) gone'.
Proof.
  intros [Hs Hst Hd Hwf Ho Hc Hdr Hcl Hret Hcnt] Hch Hrun.
  destruct (pushed_accounts (pl_buf p) ev Hwf) as (g & Hg1 & Hg2 & Hg3).
  exists (gone + g)%nat. unfold fan_in_body. rewrite (Push_pushed _ _ Hwf).
  constructor; cbn [pl_fanIn pl_status pl_depth pl_buf pl_closed pl_collectors pl_counter]; auto with agent.
  - by rewrite Hs, Hch, <- app_assoc.
  - rewrite Hch in Hd. unfold len in *. cbn in Hd. lia.
  - rewrite Hg2, drop_app_le, app_assoc by lia. apply sublist_app; [|done].
    etrans; [|exact Ho]. apply sublist_app; [done|]. apply sublist_drop.
  - rewrite Hg2, length_drop, !length_app. cbn. lia.
  - unfold Dropped in *. rewrite Hg1, Hdr, wrap_u64_add. f_equal. lia.
  - rewrite Hrun. done.
  - rewrite Hcnt. destruct c0; cbn; [|done]. by rewrite foldl_app.
Qed.

(** A send while the channel is open. *)
Lemma send_inv (c0 : option CounterMap) (p p' : Pipeline) (ev : Event) sent out recv gone :
  pipe_inv c0 p sent out recv gone -> pl_closed p = false -> send p ev = Some p' ->
  pipe_inv c0 p' (sent ++ [ev]) out recv gone /\ pl_background p' = pl_background p.
Proof.
  intros [Hs Hst Hd Hwf Ho Hc Hdr Hcl Hret Hcnt] Hopen Hsend. unfold send in Hsend. rewrite Hopen in Hsend.
  destruct (Z.ltb_spec (len (pl_fanIn p)) (pl_depth p)); [|done]. simplify_eq. split; [|done]. constructor; cbn; auto.
  - by rewrite <- app_assoc.
  - unfold len in *. rewrite length_app. cbn. lia.
  - done.
  - intros H0. destruct (Hret H0). congruence.
Qed.

(** The panic of a late send: a goroutine that no collector's [Run] waited for
    sends after the channel was closed. *)
Definition late_send (p : Pipeline) (a : action) : Prop :=
  pl_closed p = true /\ (0 < pl_background p)%nat /\ exists ev, a = AGoSend ev.

Definition started (p : Pipeline) (a : action) : nat := if is_go a then Datatypes.S (pl_background p) else pl_background p.

Lemma step_inv (c0 : option CounterMap) (p p' : Pipeline) (a : action) sent out recv gone d :
  pipe_inv c0 p sent out recv gone -> step p a = Some (p', d) ->
  (pl_status p' = Panicked /\ late_send p a)
  \/ (pl_background p' = started p a /\ exists recv' gone', pipe_inv c0 p' (sent ++ sends [a]) (out ++ d) recv' gone').
Proof.
  intros Hinv Hstep. pose proof Hinv as [Hs Hst Hd Hwf Ho Hc Hdr Hcl Hret Hcnt].
  assert (Hlive : live_step p a = Some (p', d)) by (unfold step in Hstep; by destruct (pl_status p)). clear Hstep.
  destruct a as [i ev|i|ev|i| | | |]; cbn [live_step sends omap list_omap sent_by] in Hlive |- *; rewrite ?app_nil_r.
  - destruct (pl_collectors p !! i) as [[]|] eqn:Hi; [|done..]. destruct (send p ev) as [q|] eqn:Hq; [|done]. cbn in Hlive. simplify_eq.
    destruct (pl_closed p) eqn:Hclosed; [by rewrite (existsb_lookup _ _ Hi) in Hcl; specialize (Hcl eq_refl)|].
    destruct (send_inv _ _ _ _ _ _ _ _ Hinv Hclosed Hq). right. split; [done|]. exists recv, gone. by rewrite app_nil_r.
  - destruct (pl_collectors p !! i) as [[]|] eqn:Hi; [|done..]. simplify_eq. right. split; [done|]. exists recv, gone.
    rewrite app_nil_r. by constructor.
  - destruct (pl_background p) as [|n] eqn:Hb; [done|]. destruct (send p ev) as [q|] eqn:Hq; [|done]. cbn in Hlive. simplify_eq.
    destruct (pl_closed p) eqn:Hclosed.
    + left. unfold send in Hq. rewrite Hclosed in Hq. simplify_eq. split; [done|]. split_and!; [done|lia|by eexists].
    + destruct (send_inv _ _ _ _ _ _ _ _ Hinv Hclosed Hq) as [? Hb']. right. split; [exact Hb'|]. exists recv, gone. by rewrite app_nil_r.
  - destruct (pl_collectors p !! i) as [[]|] eqn:Hi; [|done..]. simplify_eq. right. split; [done|]. exists recv, gone.
    rewrite app_nil_r. constructor; cbn; auto. intros H. apply existsb_set_false. auto.
  - destruct (pl_closed p || existsb id (pl_collectors p)) eqn:Hg; [done|].
    apply orb_false_iff in Hg as [_ Hg]. simplify_eq. right. split; [done|]. exists recv, gone.
    rewrite app_nil_r. constructor; cbn; auto. intros H0. destruct (Hret H0); auto.
  - destruct (pl_status p) eqn:Hrun; [|done..]. destruct (pl_fanIn p) as [|ev rest] eqn:Hch; [done|]. simplify_eq.
    right. split; [unfold fan_in_body; by destruct (Push (pl_buf p) ev)|].
    rewrite app_nil_r. destruct (pushed_inv _ _ _ _ _ _ _ _ Hinv Hch Hrun) as [g Hg]. eauto.
  - destruct (pl_status p) eqn:Hrun; [|done..]. destruct (pl_fanIn p) as [|] eqn:Hch; [|done].
    destruct (pl_closed p) eqn:Hclosed; [|done]. simplify_eq. right. split; [done|]. exists recv, gone.
    rewrite app_nil_r. constructor; cbn; try done; rewrite ?Hch, ?app_nil_r; auto.
  - rewrite (Drain_drained _ Hwf) in Hlive. simplify_eq. right. split; [done|]. exists recv, gone.
    pose proof (contents_drained (pl_buf p)) as (Hc1 & _ & Hc3).
    constructor; cbn; auto with agent; rewrite ?Hc1, ?app_nil_r; [done|rewrite length_app; cbn; lia|].
    unfold Dropped in *. by rewrite Hc3.
Qed.

Lemma run_panicked (p p' : Pipeline) (acts : list action) d :
  pl_status p = Panicked -> run p acts = Some (p', d) -> acts = [] /\ p' = p /\ d = [].
Proof. intros Hp. destruct acts as [|a acts]; cbn; [by intros [= <- <-]|]. unfold step. by rewrite Hp. Qed.

(** Every schedule: the invariant, or a panic that is its last action. *)
Lemma run_inv (acts : list action) (c0 : option CounterMap) (p p' : Pipeline) sent out recv gone d :
  pipe_inv c0 p sent out recv gone -> run p acts = Some (p', d) ->
  (exists recv' gone', pipe_inv c0 p' (sent ++ sends acts) (out ++ d) recv' gone'
     /\ (self_contained acts -> pl_background p' = pl_background p))
  \/ (pl_status p' = Panicked /\ exists past a q, acts = past ++ [a] /\ run p past = Some (q, d) /\ late_send q a
        /\ (self_contained acts -> pl_background q = pl_background p)).
Proof.
  revert p sent out recv gone d. induction acts as [|a acts IH]; intros p sent out recv gone d Hinv Hrun; cbn in Hrun.
  - simplify_eq. rewrite !app_nil_r. left. eauto 10.
  - destruct (step p a) as [[p1 d1]|] eqn:Hstep; [|done]. cbn in Hrun.
    destruct (run p1 acts) as [[p2 d2]|] eqn:Hrest; [|done]. cbn in Hrun. simplify_eq.
    assert (Hgo : self_contained (a :: acts) -> self_contained acts /\ started p a = pl_background p).
    { intros H%Forall_cons. destruct H as [H1 H2]. split; [done|]. unfold started. by rewrite H1. }
    destruct (step_inv _ _ _ _ _ _ _ _ _ Hinv Hstep) as [[Hp Hl]|[Hb (r1 & g1 & H1)]].
    + right. destruct (run_panicked _ _ _ _ Hp Hrest) as (-> & -> & ->). split; [done|]. exists [], a, p.
      assert (d1 = []) as ->; [|by cbn]. destruct Hl as (Hcl & _ & ev & ->). unfold step in Hstep. cbn in Hstep.
      destruct (pl_status p), (pl_background p); try done; destruct (send p ev); try done; by cbn in Hstep; simplify_eq.
    + destruct (IH _ _ _ _ _ _ H1 Hrest) as [(r2 & g2 & H2 & Hs)|(Hp & past & b & q & -> & Hq & Hl & Hs)].
      * left. exists r2, g2. rewrite <- !app_assoc in H2. change (a :: acts) with ([a] ++ acts). unfold sends. rewrite omap_app.
        split; [exact H2|]. intros H. destruct (Hgo H) as [Ha Hst]. rewrite (Hs Ha), Hb. exact Hst.
      * right. split; [done|]. exists (a :: past), b, q. split; [done|]. cbn [run]. rewrite Hstep. cbn [mbind option_bind]. rewrite Hq.
        split_and!; [done..|]. intros H. destruct (Hgo H) as [Ha Hst]. rewrite (Hs Ha), Hb. exact Hst.
Qed.

Lemma NewPipeline_inv (cfg : PipelineConfig) (n : nat) (p : Pipeline) :
  NewPipeline cfg n = Some p -> BufferSize cfg <= 2 ^ 62 -> pipe_inv (pc_Counter cfg) p [] [] [] 0.
Proof.
  intros Hnew Hb. unfold NewPipeline in Hnew. set (size := if BufferSize cfg <=? 0 then 10000 else BufferSize cfg) in Hnew.
  assert (size <= 2 ^ 62) by (subst size; destruct (BufferSize cfg <=? 0); lia).
  destruct (NewRingBuffer size) as [b|] eqn:Hr; [|done]. cbn in Hnew. simplify_eq.
  destruct (NewRingBuffer_wf _ _ Hr) as (Hwf & Hc & _ & Hd); [done|].
  constructor; cbn; auto; rewrite ?Hc; try done.
  - unfold len. cbn. destruct (Z.leb_spec (FanInDepth cfg) 0); unfold defaultFanInDepth; lia.
  - by destruct (pc_Counter cfg).
Qed.


(** Draining the channel: as many receives as it holds events. *)
Lemma recv_all (p : Pipeline) :
  wf (pl_buf p) -> pl_status p = Running ->
  exists p', run p (replicate (length (pl_fanIn p)) ARecv) = Some (p', [])
    /\ pl_fanIn p' = [] /\ pl_status p' = Running /\ pl_closed p' = pl_closed p /\ wf (pl_buf p').
Proof.
  remember (pl_fanIn p) as l eqn:Hl. revert p Hl. induction l as [|ev l IH]; intros p Hl Hwf Hrun.
  - exists p. done.
  - cbn [length replicate run]. unfold step. rewrite Hrun. cbn [live_step]. rewrite Hrun, <- Hl. unfold fan_in_body.
    rewrite (Push_pushed _ _ Hwf). cbn [mbind option_bind].
    edestruct IH as (p' & -> & H1 & H2 & H3 & H4); [| |exact Hrun|exists p'; split_and!; [done..|exact H3|done]];
      cbn; auto with agent.
Qed.

Lemma run_app (p p1 p2 : Pipeline) (a1 a2 : list action) d1 d2 :
  run p a1 = Some (p1, d1) -> run p1 a2 = Some (p2, d2) -> run p (a1 ++ a2) = Some (p2, d1 ++ d2).
Proof.
  revert p d1. induction a1 as [|a a1 IH]; intros p d1 H1 H2; cbn in *; [by simplify_eq|].
  destruct (step p a) as [[q e]|]; [|done]. cbn in *. destruct (run q a1) as [[q' e']|] eqn:Hq; [|done].
  cbn in *. simplify_eq. rewrite (IH _ _ Hq H2). cbn. by rewrite app_assoc.
Qed.

(** ** Properties *)


(** the pipeline shuts down: from every state a schedule can reach in
    which all collectors have exited, closing the channel, receiving what it
    holds and ending the loop is possible, and leaves [Run] returned with an
    empty channel. *)
Theorem pipeline_shuts_down (cfg : PipelineConfig) (n : nat) (p0 p : Pipeline) (acts : list action) (out : list Event) :
  NewPipeline cfg n = Some p0 -> BufferSize cfg <= 2 ^ 62 -> run p0 acts = Some (p, out) ->
  existsb id (pl_collectors p) = false -> pl_status p = Running ->
  exists p', run p ((if pl_closed p then [] else [AClose]) ++ replicate (length (pl_fanIn p)) ARecv ++ [AReturn])
      = Some (p', []) /\ pl_status p' = Returned /\ pl_fanIn p' = [].
Proof.
  intros Hnew Hb Hrun Hex Hst.
  destruct (run_inv _ _ _ _ _ _ _ _ _ (NewPipeline_inv _ _ _ Hnew Hb) Hrun) as [(recv & gone & H & _)|(Hp & _)]; [|congruence].
  destruct H as [_ _ _ Hwf _ _ _ _ _ _].
  assert (exists p1, run p (if pl_closed p then [] else [AClose]) = Some (p1, []) /\ pl_closed p1 = true
    /\ pl_fanIn p1 = pl_fanIn p /\ pl_status p1 = Running /\ pl_buf p1 = pl_buf p) as (p1 & Hr1 & Hc1 & Hf1 & Hs1 & Hb1).
  { destruct (pl_closed p) eqn:Hc; [by exists p|]. cbn [run]. unfold step. rewrite Hst. cbn [live_step]. rewrite Hc, Hex. cbn. eexists. by split_and!. }
  rewrite <- Hb1 in Hwf. destruct (recv_all p1 Hwf Hs1) as (p2 & Hr2 & Hf2 & Hs2 & Hc2 & _). rewrite Hf1 in Hr2.
  exists (set_status p2 Returned). split; [|done].
  refine (run_app _ _ _ _ _ _ _ Hr1 (run_app _ _ _ _ _ _ _ Hr2 _)).
  cbn [run]. unfold step. rewrite Hs2. cbn [live_step]. by rewrite Hs2, Hf2, Hc2, Hc1.
Qed.

(** every scrape reports one series per known event type, in sorted order,
    from the first scrape on, and its value is the number of events of that
    type (as that many float increments from zero). *)
Theorem counter_reports (evs : list Event) :
  map (fun p => (mp_Name p, mp_Type p, mp_Labels p, mp_Value p)) (Counter_Collect (foldl Add NewCounter evs))
  = map (fun s => ("security_events_total", Counter, {["type" := s]},
       match EventType_of_string s with Some ty => f64_count (counted ty evs) | None => f64_zero end)) sorted_types
  /\ length sorted_types = 21%nat /\ forall ty, EventType_string ty ∈ sorted_types.
Proof.
  split_and!.
  - unfold Counter_Collect. rewrite counter_keys by (intros ty; rewrite Add_counts; eauto).
    rewrite map_map. apply map_ext. intros s. unfold point. cbn [mp_Name mp_Type mp_Labels mp_Value].
    destruct (EventType_of_string s) as [ty|]; [|done].
    by rewrite Add_counts.
  - reflexivity.
  - intros ty. unfold sorted_types. rewrite merge_sort_Permutation. apply list_elem_of_fmap.
    eauto using AllTypes_complete.
Qed.

(** *** Witnesses *)
Definition demo_cfg : PipelineConfig := {| BufferSize := 1; FanInDepth := 2; pc_Counter := Some NewCounter |}.
Definition demo_p0 : Pipeline := {|
  pl_collectors := [true]; pl_background := 0; pl_buf := {| buf := [zero_event]; head := 0; tail := 0; size := 0; cap := 1; dropped := 0 |};
  pl_fanIn := []; pl_depth := 2; pl_closed := false; pl_counter := Some NewCounter; pl_status := Running |}.
Definition demo_acts : list action := [ASend 0 (ev_n 1); ASend 0 (ev_n 2); ARecv; ADrain; AExit 0].
Definition demo_p : Pipeline := {|
  pl_collectors := [false]; pl_background := 0; pl_buf := {| buf := [ev_n 1]; head := 0; tail := 0; size := 0; cap := 1; dropped := 0 |};
  pl_fanIn := [ev_n 2]; pl_depth := 2; pl_closed := false; pl_counter := Some (Add NewCounter (ev_n 1));
  pl_status := Running |}.


Lemma pipeline_shuts_down_witness :
  exists p', run demo_p [AClose; ARecv; AReturn] = Some (p', []) /\ pl_status p' = Returned /\ pl_fanIn p' = [].
Proof.
  exact (pipeline_shuts_down demo_cfg 1 demo_p0 demo_p demo_acts [ev_n 1] eq_refl ltac:(cbn; lia) eq_refl eq_refl eq_refl).
Defined.
