(* ===== verification/NetworkEvents.v ===== *)
(** * The network event collector

    [src/internal/events/network/proc_net.go] (reading the kernel's socket
    tables) and [collector.go] (new listeners and connection bursts).  Files
    are read through an argument; the random event identifiers are a stream
    [uuid], of which one poll uses the elements from 0 on, in order. *)
From S2P Require Import Prelude GoFloat GoStrings GoNum Events.
Local Open Scope Z_scope.

(** ** [proc_net.go] *)
Definition tcpStateListen : bytes := B "0A".

Record listenEntry := { le_Proto : bytes; le_LocalIP : bytes; le_LocalPort : Z }.
#[export] Instance listenEntry_eq_dec : EqDecision listenEntry.
Proof. solve_decision. Defined.

Definition colon : ascii := ":"%char.

(** [fmt.Sprintf("%s:%s:%d", ...)]. *)
Definition key (e : listenEntry) : bytes :=
  le_Proto e ++ colon :: le_LocalIP e ++ colon :: FormatUint (le_LocalPort e).

(** Each group of 4 bytes, stored little-endian, in network order. *)
Fixpoint swap_words (b : bytes) : bytes :=
  match b with
  | b0 :: b1 :: b2 :: b3 :: t => b3 :: b2 :: b1 :: b0 :: swap_words t
  | _ => []
  end.

(** [None] is an error. *)
Definition parseAddr (hexAddr : bytes) (isIPv6 : bool) : option (bytes * Z) :=
  match SplitN hexAddr colon 2 with
  | [part0; part1] =>
      match ParseUint part1 16 16 with
      | (_, Some _) => None
      | (portNum, None) =>
          match HexDecode part0 with
          | None => None
          | Some b =>
              if negb isIPv6 then
                match b with
                | [b0; b1; b2; b3] => Some (IPString [b3; b2; b1; b0], portNum)
                | _ => None
                end
              else if bool_decide (length b = 16%nat) then Some (IPString (swap_words b), portNum)
              else None
          end
      end
  | _ => None
  end.

(** The loop body of [parseProcNetTCP] for a line after the header: whether it
    counts, and the listener it describes. *)
Definition parse_line (proto text : bytes) : bool * option listenEntry :=
  let line := TrimSpace text in
  match line with
  | [] => (false, None)
  | _ =>
      match Fields line with
      | _ :: f1 :: _ :: f3 :: _ =>
          if negb (bool_decide (ToUpper f3 = tcpStateListen)) then (true, None)
          else match parseAddr f1 (bool_decide (proto = B "tcp6")) with
               | None => (true, None)
               | Some (ip, port) => (true, Some {| le_Proto := proto; le_LocalIP := ip; le_LocalPort := port |})
               end
      | _ => (true, None)
      end
  end.

(** Errors of reading a file. *)
Inductive file_error := NotExist | FileError (msg : string).

Definition parse_lines (proto : bytes) (lines : list bytes) : list listenEntry * Z :=
  let rs := map (parse_line proto) lines in
  (omap snd rs, Z.of_nat (countb fst rs)).

Definition parseProcNetTCP (file : file_error + bytes) (proto : bytes)
    : list listenEntry * Z * option file_error :=
  match file with
  | inl e => ([], 0, Some e)
  | inr data =>
      let '(lines, err) := ScanLines data in
      let '(ls, total) := parse_lines proto (drop 1 lines) in
      (ls, total, if err then Some (FileError "token too long") else None)
  end.

(** The body of the loop over the two files, threading the accumulated result;
    [inl] is the early return with an error (the accumulated values are
    returned too, but no caller looks at them). *)
Definition scan_file (acc : list listenEntry * Z) (file : file_error + bytes) (proto : bytes)
    : file_error + (list listenEntry * Z) :=
  match parseProcNetTCP file proto with
  | (_, _, Some NotExist) => inr acc
  | (_, _, Some e) => inl e
  | (l, total, None) => inr (acc.1 ++ l, acc.2 +i total)
  end.

Definition scanListeners (read : string -> file_error + bytes) : file_error + (list listenEntry * Z) :=
  match scan_file ([], 0) (read "/proc/net/tcp") (B "tcp") with
  | inl e => inl e
  | inr acc => scan_file acc (read "/proc/net/tcp6") (B "tcp6")
  end.

(** ** [collector.go] *)
Record Config := {
  PollInterval : duration; ScanDeltaThreshold : Z; ScanMultiplier : float64;
  cfg_Host : HostInfo; cfg_Agent : AgentInfo }.

Record Collector := { c_cfg : Config; prevListen : gmap bytes listenEntry; prevTotal : Z }.

Definition f64_two : float64 := f64_of_Z 2.

Definition NewCollector (cfg : Config) : Collector := {|
  c_cfg := {| PollInterval := if PollInterval cfg <=? 0 then 5 * second else PollInterval cfg;
              ScanDeltaThreshold := if ScanDeltaThreshold cfg <=? 0 then 50 else ScanDeltaThreshold cfg;
              ScanMultiplier := if f_le (ScanMultiplier cfg) f64_zero then f64_two else ScanMultiplier cfg;
              cfg_Host := cfg_Host cfg; cfg_Agent := cfg_Agent cfg |};
  prevListen := ∅; prevTotal := 0 |}.

Definition listen_detail (l : listenEntry) : NetworkDetail :=
  {| nd_LocalIP := S (le_LocalIP l); nd_LocalPort := le_LocalPort l; nd_Proto := S (le_Proto l) |}.

Definition makeConnectionOpenEvent (cfg : Config) (id : string) (l : listenEntry) (now : time) : Event := {|
  ev_ID := id; ev_Timestamp := now; ev_Type := EventNetworkConnectionOpen; ev_Category := CategorySystemCheck;
  ev_Severity := SeverityInfo; ev_Confidence := ConfidenceNone; ev_Host := cfg_Host cfg; ev_Agent := cfg_Agent cfg;
  ev_Actor := None; ev_Context := None; ev_Tags := ["network"; "listen"]; ev_Process := None;
  ev_Network := Some (listen_detail l) |}.

Definition makeSuspiciousPortEvent (cfg : Config) (id : string) (l : listenEntry) (now : time) : Event := {|
  ev_ID := id; ev_Timestamp := now; ev_Type := EventNetworkSuspiciousPort; ev_Category := CategoryThreatActivity;
  ev_Severity := SeverityWarning; ev_Confidence := ConfidenceMedium; ev_Host := cfg_Host cfg;
  ev_Agent := cfg_Agent cfg; ev_Actor := None; ev_Context := None; ev_Tags := ["network"; "suspicious_port"];
  ev_Process := None; ev_Network := Some (listen_detail l) |}.

Definition makeScanDetectedEvent (cfg : Config) (id : string) (now : time) : Event := {|
  ev_ID := id; ev_Timestamp := now; ev_Type := EventNetworkScanDetected; ev_Category := CategoryThreatActivity;
  ev_Severity := SeverityCritical; ev_Confidence := ConfidenceNone; ev_Host := cfg_Host cfg;
  ev_Agent := cfg_Agent cfg; ev_Actor := None;
  ev_Context := Some {| ctx_SessionID := ""; ctx_TTY := ""; ctx_RemoteIP := ""; ctx_Reason := "connection_burst";
                        ctx_Service := "" |};
  ev_Tags := ["network"; "scan"]; ev_Process := None; ev_Network := None |}.

(** The baseline at the start of [Run]; [None]: the collector gives up. *)
Definition baseline (c : Collector) (scan : file_error + (list listenEntry * Z)) : option Collector :=
  match scan with
  | inl _ => None
  | inr (listeners, total) =>
      Some {| c_cfg := c_cfg c; prevListen := foldl (fun m l => <[key l := l]> m) (prevListen c) listeners;
              prevTotal := total |}
  end.

Section Poll.
Context (uuid : nat -> string) (now : time) (c : Collector).

(** One iteration of the loop over the listeners. *)
Definition poll_listener (st : gmap bytes listenEntry * list Event) (l : listenEntry)
    : gmap bytes listenEntry * list Event :=
  let '(currentListen, evs) := st in
  (<[key l := l]> currentListen,
   match prevListen c !! key l with
   | Some _ => evs
   | None => evs ++ [makeConnectionOpenEvent (c_cfg c) (uuid (length evs)) l now;
                     makeSuspiciousPortEvent (c_cfg c) (uuid (Datatypes.S (length evs))) l now]
   end).

(** The burst test. *)
Definition burst (total : Z) : bool :=
  (0 <? prevTotal c) && (ScanDeltaThreshold (c_cfg c) <=? total -i prevTotal c)
  && f_ge (f64_of_Z total) (f64_mul (f64_of_Z (prevTotal c)) (ScanMultiplier (c_cfg c))).

Definition poll (scan : file_error + (list listenEntry * Z)) : Collector * list Event :=
  match scan with
  | inl _ => (c, [])
  | inr (listeners, total) =>
      let '(currentListen, evs) := foldl poll_listener (∅, []) listeners in
      ({| c_cfg := c_cfg c; prevListen := currentListen; prevTotal := total |},
       if burst total then evs ++ [makeScanDetectedEvent (c_cfg c) (uuid (length evs)) now] else evs)
  end.
End Poll.

(** ** Lemmas *)
Definition unseen (c : Collector) (l : listenEntry) : bool := bool_decide (prevListen c !! key l = None).

Lemma poll_listeners (uuid : nat -> string) (now : time) (c : Collector) (ls : list listenEntry) :
  let '(cur, evs) := foldl (poll_listener uuid now c) (∅, []) ls in
  (forall k, is_Some (cur !! k) <-> k ∈ map key ls)
  /\ map ev_Network (List.filter (of_type EventNetworkConnectionOpen) evs)
     = map (fun l => Some (listen_detail l)) (List.filter (unseen c) ls)
  /\ map ev_Network (List.filter (of_type EventNetworkSuspiciousPort) evs)
     = map (fun l => Some (listen_detail l)) (List.filter (unseen c) ls)
  /\ countb (of_type EventNetworkScanDetected) evs = 0%nat
  /\ map ev_ID evs = map uuid (seq 0 (length evs)).
Proof.
  induction ls as [|l ls IH] using rev_ind; cbn [foldl].
  - split_and!; try done. intros k. rewrite lookup_empty. split; [by intros []|]. by intros ?%not_elem_of_nil.
  - rewrite foldl_app. cbn [foldl]. destruct (foldl _ _ ls) as [cur evs]. destruct IH as (H1 & H2 & H3 & H4 & H5).
    cbn [poll_listener]. rewrite !List.filter_app, !map_app. unfold unseen at 2 4. cbn [List.filter].
    split.
    { intros k. rewrite elem_of_app, <- H1, lookup_insert. cbn. rewrite list_elem_of_singleton.
      case_decide as Hk; [subst; naive_solver|]. naive_solver. }
    destruct (prevListen c !! key l).
    + rewrite bool_decide_eq_false_2 by done. cbn. rewrite !app_nil_r. done.
    + rewrite bool_decide_eq_true_2 by done. rewrite !List.filter_app, !map_app, countb_app, H2, H3, H4, length_app.
      cbn [length]. split_and!; [done..|]. rewrite seq_app, map_app, H5. done.
Qed.

(** The separator before the port is the last colon, the one after the
    protocol the first. *)
Lemma app_colon_inj (a b x y : bytes) :
  colon ∉ a -> colon ∉ b -> a ++ colon :: x = b ++ colon :: y -> a = b /\ x = y.
Proof.
  intros Ha Hb Heq. assert (Hc : Cut (a ++ colon :: x) colon = Cut (b ++ colon :: y) colon) by by rewrite Heq.
  rewrite !Cut_app in Hc by done. by simplify_eq.
Qed.

Lemma FormatUint_no_colon (n : Z) : colon ∉ FormatUint n.
Proof.
  intros Hin. pose proof (FormatUint_digits n) as Hd. rewrite Forall_forall in Hd.
  specialize (Hd _ Hin). vm_compute in Hd. naive_solver.
Qed.

Lemma snoc_colon_inj (a b x y : bytes) :
  colon ∉ x -> colon ∉ y -> a ++ colon :: x = b ++ colon :: y -> a = b /\ x = y.
Proof.
  intros Hx Hy Heq. apply (f_equal reverse) in Heq.
  rewrite !reverse_app, !reverse_cons, <- !app_assoc in Heq. cbn in Heq.
  apply app_colon_inj in Heq as [H1 H2]; [|by rewrite elem_of_reverse..].
  by simplify_eq.
Qed.

Lemma FormatUint_inj (n k : Z) : 0 <= n < 2 ^ 64 -> 0 <= k < 2 ^ 64 -> FormatUint n = FormatUint k -> n = k.
Proof.
  intros Hn Hk Heq. pose proof (ParseUint_FormatUint n 64 ltac:(lia) Hn) as H1.
  rewrite Heq, (ParseUint_FormatUint k 64) in H1 by lia. by simplify_eq.
Qed.

(** A hexadecimal field holds no colon. *)
Lemma hex_upper_digit (l : bytes) (c : ascii) : c ∈ hex_upper l -> exists d, 0 <= d < 16 /\ c = hexdigit_upper d.
Proof.
  unfold hex_upper. intros (ys & Hc & Hys)%list_elem_of_In%in_concat. apply in_map_iff in Hc as (x & <- & _).
  pose proof (byteval_range x). pose proof (Z.mod_pos_bound (byteval x) 16 eq_refl).
  destruct Hys as [<-|[<-|[]]]; [exists (byteval x / 16)|exists (byteval x mod 16)]; (split; [|done]); Z.to_euclidean_division_equations; lia.
Qed.

Lemma hexdigit_range (d : Z) :
  0 <= d < 16 -> 48 <= byteval (hexdigit_upper d) <= 57 \/ 65 <= byteval (hexdigit_upper d) <= 70.
Proof. intros H. unfold hexdigit_upper. rewrite byteval_of_Z. destruct (Z.ltb_spec d 10); rewrite Z.mod_small by lia; lia. Qed.

Lemma hex_upper_no_colon (l : bytes) : colon ∉ hex_upper l.
Proof.
  intros (d & Hd & He)%hex_upper_digit. apply hexdigit_range in Hd. rewrite <- He in Hd. change (byteval colon) with 58 in Hd. lia.
Qed.

Lemma hex_upper_plain (l : bytes) : Forall plain_byte (hex_upper l).
Proof.
  apply Forall_forall. intros c (d & Hd & ->)%hex_upper_digit. apply hexdigit_range in Hd.
  unfold plain_byte, is_space. split; lia.
Qed.

Lemma parse_hex16 (p : Z) :
  0 <= p < 65536 -> ParseUint (hex_upper [byte_of_Z (p / 256); byte_of_Z (p mod 256)]) 16 16 = (p, None).
Proof.
  intros Hp. unfold hex_upper. cbn [map concat app]. unfold ParseUint. rewrite !byteval_of_Z.
  pose proof (Z.div_mod p 256 ltac:(lia)). pose proof (Z.mod_pos_bound p 256 eq_refl).
  assert (0 <= p / 256 < 256) by (Z.to_euclidean_division_equations; lia). rewrite !(Z.mod_small _ 256) by lia.
  set (h := p / 256) in *. set (lo := p mod 256) in *.
  pose proof (Z.div_mod h 16 ltac:(lia)). pose proof (Z.mod_pos_bound h 16 eq_refl).
  pose proof (Z.div_mod lo 16 ltac:(lia)). pose proof (Z.mod_pos_bound lo 16 eq_refl).
  assert (0 <= h / 16 < 16) by (Z.to_euclidean_division_equations; lia).
  assert (0 <= lo / 16 < 16) by (Z.to_euclidean_division_equations; lia).
  cbn [parse_digits]. change (2 ^ 16 - 1) with 65535.
  repeat (rewrite digit_val_hexdigit by lia;
          match goal with |- context [65535 <? ?x] => destruct (Z.ltb_spec 65535 x); [lia|] end).
  f_equal. lia.
Qed.

(** ** Padded lines

    Words separated by one or more spaces, with any indent and any padding at
    the end: [g] says how many spaces more than needed follow each word. *)
Fixpoint layout (g : nat -> nat) (ws : list bytes) : bytes :=
  match ws with
  | [] => replicate (g 0%nat) space
  | [w] => w ++ replicate (g 0%nat) space
  | w :: t => w ++ space :: replicate (g 0%nat) space ++ layout (fun i => g (Datatypes.S i)) t
  end.

Lemma layout_ascii (g : nat -> nat) (ws : list bytes) : Forall word ws -> Forall (fun c => byteval c < 128) (layout g ws).
Proof.
  assert (Hsp : forall n, Forall (fun c => byteval c < 128) (replicate n space)) by (intros; by apply Forall_replicate).
  intros H. revert g. induction H as [|w ws [Hw _] _ IH]; intros g; [apply Hsp|].
  assert (Forall (fun c => byteval c < 128) w) by (eapply Forall_impl; [exact Hw|by intros ? []]).
  cbn [layout]. destruct ws; apply Forall_app; (split; [done|]); [apply Hsp|].
  constructor; [done|]. apply Forall_app. split; [apply Hsp|apply IH].
Qed.

Lemma fields_go_indent (n : nat) (rest : bytes) :
  fields_go (map ascii_rune (replicate n space ++ rest)) [] = fields_go (map ascii_rune rest) [].
Proof. induction n as [|n IH]; [done|exact IH]. Qed.

Lemma fields_go_layout (g : nat -> nat) (ws : list bytes) : Forall word ws -> fields_go (map ascii_rune (layout g ws)) [] = ws.
Proof.
  assert (Hend : forall n, fields_go (map ascii_rune (replicate n space)) [] = []).
  { intros n. rewrite <-(app_nil_r (replicate n space)), fields_go_indent. done. }
  intros H. revert g. induction H as [|w ws [Hw Hne] _ IH]; intros g; [apply Hend|]. cbn [layout]. destruct ws as [|w' ws].
  - rewrite map_app, fields_go_word by done. cbn [app]. destruct (g 0%nat) as [|n]; [by destruct w|].
    cbn [replicate map fields_go]. change (space_rune (ascii_rune space)) with true. cbn match.
    rewrite Hend. by destruct w.
  - rewrite map_app, fields_go_word by done. cbn [app map fields_go]. change (space_rune (ascii_rune space)) with true. cbn match.
    rewrite fields_go_indent, IH. by destruct w.
Qed.

(** Splitting does not see the spaces that trimming removes. *)
Lemma fields_go_spaces (sp rs : list (Z * bytes)) (cur : bytes) :
  Forall (fun r => space_rune r = true) sp -> fields_go (rs ++ sp) cur = fields_go rs cur.
Proof.
  intros Hsp. assert (Hnil : fields_go sp [] = []) by (induction Hsp as [|r sp Hr _ IH]; [done|]; cbn; by rewrite Hr).
  revert cur. induction rs as [|r rs IH]; intros cur; cbn [app fields_go]; [|by rewrite !IH].
  destruct Hsp as [|r sp Hr Hsp]; [done|]. cbn [fields_go] in *. rewrite Hr in *. rewrite Hnil. by destruct cur.
Qed.

Lemma dropwhile_split {A} (p : A -> bool) (l : list A) : exists d, l = d ++ dropwhile p l /\ Forall (fun x => p x = true) d.
Proof.
  induction l as [|x l (d & Hd & Hp)]; [by exists []|]. cbn. destruct (p x) eqn:Hx; [|by exists []].
  exists (x :: d). split; [cbn; congruence|by constructor].
Qed.

Lemma Fields_TrimSpace (l : bytes) : Forall (fun c => byteval c < 128) l -> Fields (TrimSpace l) = Fields l.
Proof.
  intros Hl. unfold TrimSpace, Fields. rewrite (runes_ascii l) by done.
  set (r1 := dropwhile space_rune (map ascii_rune l)).
  destruct (dropwhile_split space_rune (map ascii_rune l)) as (d1 & E1 & H1). fold r1 in E1.
  destruct (dropwhile_split space_rune (reverse r1)) as (d2 & E2 & H2). set (r2 := dropwhile space_rune (reverse r1)) in *.
  apply (f_equal reverse) in E2. rewrite reverse_involutive, reverse_app in E2.
  assert (Hr2 : exists m, reverse r2 = map ascii_rune m /\ Forall (fun c => byteval c < 128) m).
  { rewrite E2 in E1. change (map ascii_rune l) with (ascii_rune <$> l) in E1.
    apply fmap_app_inv in E1 as (l1 & l2 & _ & E & ->). symmetry in E. apply fmap_app_inv in E as (l3 & l4 & E & _ & ->).
    exists l3. split; [done|]. apply Forall_app in Hl as [_ Hl]. by apply Forall_app in Hl as [Hl _]. }
  destruct Hr2 as (m & Em & Hm). rewrite Em, unrunes_ascii, (runes_ascii m), <-Em by done.
  rewrite E1, E2, app_assoc, fields_go_spaces by by apply Forall_reverse.
  clear -H1. induction H1 as [|r d Hr _ IH]; [done|]. cbn. by rewrite Hr.
Qed.

(** ** The kernel's side: how a socket is printed

    The kernel stores an address in network byte order and prints each of its
    32-bit words as a number ([%08X]), which on the little-endian machines the
    agent is built for (amd64, arm64) has the first byte as its lowest; the
    port and the state are numbers too ([%04X], [%02X]). *)
Fixpoint load_words (addr : bytes) : list Z :=
  match addr with
  | b0 :: b1 :: b2 :: b3 :: t =>
      (byteval b0 + 2 ^ 8 * byteval b1 + 2 ^ 16 * byteval b2 + 2 ^ 24 * byteval b3) :: load_words t
  | _ => []
  end.

(** [v] with [n] hexadecimal digits. *)
Fixpoint hex_pad (n : nat) (v : Z) : bytes :=
  match n with
  | O => []
  | Datatypes.S k => hex_pad k (v / 16) ++ [hexdigit_upper (v mod 16)]
  end.

Definition kernel_addr (addr : bytes) (port : Z) : bytes :=
  concat (map (hex_pad 8) (load_words addr)) ++ colon :: hex_pad 4 port.

Lemma hex_pad_byte (n : nat) (v : Z) : 0 <= v ->
  hex_pad (Datatypes.S (Datatypes.S n)) v = hex_pad n (v / 256) ++ hex_upper [byte_of_Z (v mod 256)].
Proof.
  intros Hv. unfold hex_upper. cbn [hex_pad map concat app]. rewrite byteval_of_Z, <-app_assoc.
  rewrite Z.div_div by lia. change (16 * 16) with 256. cbn [app]. f_equal. f_equal; [|f_equal]; f_equal; Z.to_euclidean_division_equations; lia.
Qed.

Lemma byte_of_byteval_low (b : ascii) (z : Z) : byte_of_Z ((byteval b + 256 * z) mod 256) = b /\ (byteval b + 256 * z) / 256 = z.
Proof.
  pose proof (byteval_range b). rewrite (Z.mul_comm 256), Z.mod_add, Z.div_add, Z.mod_small, Z.div_small by lia.
  split; [apply byte_of_byteval|done].
Qed.

Lemma hex_pad_word (b0 b1 b2 b3 : ascii) :
  hex_pad 8 (byteval b0 + 2 ^ 8 * byteval b1 + 2 ^ 16 * byteval b2 + 2 ^ 24 * byteval b3) = hex_upper [b3; b2; b1; b0].
Proof.
  pose proof (byteval_range b0). pose proof (byteval_range b1). pose proof (byteval_range b2). pose proof (byteval_range b3).
  replace (byteval b0 + _ + _ + _) with (byteval b0 + 256 * (byteval b1 + 256 * (byteval b2 + 256 * (byteval b3 + 256 * 0)))) by lia.
  do 4 (rewrite hex_pad_byte by lia; match goal with |- context [(byteval ?b + 256 * ?z) mod 256] =>
    rewrite (proj1 (byte_of_byteval_low b z)), (proj2 (byte_of_byteval_low b z)) end). done.
Qed.

(** The program reads the words back in the order of the kernel's bytes. *)
Lemma kernel_addr_swapped (addr : bytes) : concat (map (hex_pad 8) (load_words addr)) = hex_upper (swap_words addr).
Proof.
  remember (length addr) as n eqn:Hn. revert addr Hn. induction n as [n IH] using lt_wf_ind. intros addr ->.
  destruct addr as [|b0 [|b1 [|b2 [|b3 t]]]]; [done..|]. cbn [load_words map concat swap_words].
  rewrite hex_pad_word, (IH (length t)) by (cbn; lia). done.
Qed.

Lemma hex_pad_port (port : Z) : 0 <= port < 65536 -> hex_pad 4 port = hex_upper [byte_of_Z (port / 256); byte_of_Z (port mod 256)].
Proof.
  intros Hp. rewrite !hex_pad_byte by (Z.to_euclidean_division_equations; lia). rewrite (Z.mod_small (port / 256)) by (Z.to_euclidean_division_equations; lia). done.
Qed.

Lemma hex_pad_state (st : Z) : 0 <= st < 256 -> hex_pad 2 st = hex_upper [byte_of_Z st].
Proof. intros Hp. rewrite hex_pad_byte, Z.mod_small by lia. done. Qed.

Lemma SplitN_kernel (h p : bytes) : colon ∉ h -> SplitN (h ++ colon :: p) colon 2 = [h; p].
Proof. intros H. unfold SplitN. by rewrite Cut_app. Qed.

Lemma swap_words_16 (l : bytes) : length l = 16%nat -> swap_words (swap_words l) = l /\ length (swap_words l) = 16%nat.
Proof. intros H. do 16 (destruct l as [|? l]; [done|]). destruct l; [|done]. done. Qed.

Lemma parseAddr_v4 (a b c d : ascii) (port : Z) :
  0 <= port < 65536 -> parseAddr (kernel_addr [a; b; c; d] port) false = Some (IPString [a; b; c; d], port).
Proof.
  intros Hp. unfold parseAddr, kernel_addr. rewrite kernel_addr_swapped, hex_pad_port, SplitN_kernel by (done || apply hex_upper_no_colon).
  rewrite parse_hex16 by done. rewrite HexDecode_hex_upper. done.
Qed.

Lemma parseAddr_v6 (addr : bytes) (port : Z) :
  length addr = 16%nat -> 0 <= port < 65536 -> parseAddr (kernel_addr addr port) true = Some (IPString addr, port).
Proof.
  intros Hl Hp. unfold parseAddr, kernel_addr. rewrite kernel_addr_swapped, hex_pad_port, SplitN_kernel by (done || apply hex_upper_no_colon).
  rewrite parse_hex16 by done. rewrite HexDecode_hex_upper. cbn [negb].
  destruct (swap_words_16 addr Hl) as [-> H2]. by rewrite bool_decide_eq_true_2.
Qed.

(** A socket of the table, its address being 4 or 16 bytes, and its line. *)
Record socket := { s_slot : bytes; s_addr : bytes; s_port : Z; s_remote : bytes; s_state : Z; s_rest : list bytes }.
Definition socket_ok (v6 : bool) (s : socket) : Prop :=
  word (s_slot s) /\ word (s_remote s) /\ Forall word (s_rest s) /\ 0 <= s_port s < 65536 /\ 0 <= s_state s < 256
  /\ length (s_addr s) = (if v6 then 16 else 4)%nat.
Definition kernel_fields (s : socket) : list bytes :=
  s_slot s :: kernel_addr (s_addr s) (s_port s) :: s_remote s :: hex_pad 2 (s_state s) :: s_rest s.
(** The fields with the kernel's padding, whatever it is. *)
Definition kernel_line (indent : nat) (g : nat -> nat) (s : socket) : bytes :=
  replicate indent space ++ layout g (kernel_fields s).
Definition proto_of (v6 : bool) : bytes := if v6 then B "tcp6" else B "tcp".
Definition socket_entry (v6 : bool) (s : socket) : option listenEntry :=
  if s_state s =? 10
  then Some {| le_Proto := proto_of v6; le_LocalIP := IPString (s_addr s); le_LocalPort := s_port s |} else None.

Lemma ToUpper_hex (l : bytes) : ToUpper (hex_upper l) = hex_upper l.
Proof.
  unfold ToUpper. rewrite runes_ascii by (eapply Forall_impl; [apply hex_upper_plain|by intros ? []]).
  rewrite map_map. pose proof (fun c => hex_upper_digit l c) as H. induction (hex_upper l) as [|c t IH]; [done|].
  cbn [map concat]. rewrite IH by (intros; apply H; by right).
  destruct (H c ltac:(by left)) as (d & Hd & ->). apply hexdigit_range in Hd.
  unfold lower_rune, upper_rune. cbn [fst snd ascii_rune].
  set (v := byteval (hexdigit_upper d)) in *.
  destruct (Z.leb_spec 97 v); [lia|]. cbn [andb]. destruct (Z.eqb_spec v 305); [lia|]. by destruct (Z.eqb_spec v 383); [lia|].
Qed.

Lemma hex_state (st : Z) : 0 <= st < 256 -> bool_decide (hex_upper [byte_of_Z st] = tcpStateListen) = (st =? 10).
Proof.
  intros Hs. destruct (Z.eqb_spec st 10) as [->|Hne]; [reflexivity|]. apply bool_decide_eq_false. intros Heq.
  pose proof (HexDecode_hex_upper [byte_of_Z st]) as H1. rewrite Heq in H1.
  assert (byte_of_Z st = byte_of_Z 10) as H2 by (change (HexDecode tcpStateListen) with (Some [byte_of_Z 10]) in H1; congruence).
  apply (f_equal byteval) in H2. rewrite !byteval_of_Z, Z.mod_small in H2 by lia. by change (10 mod 256) with 10 in H2.
Qed.

Lemma kernel_addr_word (addr : bytes) (port : Z) : 0 <= port < 65536 -> word (kernel_addr addr port).
Proof.
  intros Hp. unfold kernel_addr. rewrite kernel_addr_swapped, hex_pad_port by done.
  split; [|by destruct (hex_upper _)]. apply Forall_app. split; [apply hex_upper_plain|].
  constructor; [done|apply hex_upper_plain].
Qed.

Lemma kernel_words (v6 : bool) (s : socket) : socket_ok v6 s -> Forall word (kernel_fields s).
Proof.
  intros (Hs & Hr & Hrest & Hp & Hst & Hl). unfold kernel_fields. rewrite hex_pad_state by done.
  do 4 (apply Forall_cons; split; [first [done|by apply kernel_addr_word|split; [apply hex_upper_plain|done]]|]). done.
Qed.

Lemma kernel_line_ascii (v6 : bool) (indent : nat) (g : nat -> nat) (s : socket) :
  socket_ok v6 s -> Forall (fun c => byteval c < 128) (kernel_line indent g s).
Proof.
  intros H. apply Forall_app. split; [by apply Forall_replicate|]. apply layout_ascii. by eapply kernel_words.
Qed.

Lemma Fields_kernel_line (v6 : bool) (indent : nat) (g : nat -> nat) (s : socket) :
  socket_ok v6 s -> Fields (kernel_line indent g s) = kernel_fields s.
Proof.
  intros H. unfold Fields. rewrite runes_ascii by by eapply kernel_line_ascii. unfold kernel_line.
  rewrite fields_go_indent. eapply fields_go_layout, kernel_words; done.
Qed.

Lemma parse_kernel_line (v6 : bool) (indent : nat) (g : nat -> nat) (s : socket) :
  socket_ok v6 s -> parse_line (proto_of v6) (kernel_line indent g s) = (true, socket_entry v6 s).
Proof.
  intros Hok. pose proof Hok as (_ & _ & _ & Hp & Hst & Hl). unfold parse_line.
  pose proof (Fields_TrimSpace (kernel_line indent g s) ltac:(by eapply kernel_line_ascii)) as Hf.
  rewrite (Fields_kernel_line v6) in Hf by done. destruct (TrimSpace _) as [|c t]; [done|]. rewrite Hf.
  unfold kernel_fields. rewrite hex_pad_state, ToUpper_hex, hex_state by done.
  unfold socket_entry. destruct (s_state s =? 10); [|done]. cbn [negb].
  destruct v6.
  - rewrite bool_decide_eq_true_2 by done. by rewrite parseAddr_v6.
  - rewrite bool_decide_eq_false_2 by done. destruct (s_addr s) as [|b0 [|b1 [|b2 [|b3 [|]]]]]; try done.
    by rewrite parseAddr_v4.
Qed.

(** ** Properties *)

(** C34: reading the lines the kernel printed for its sockets, each with its
    own indent, padding between the fields and trailing spaces, gives the
    sockets back: every line counts, and the listeners are exactly the sockets
    in state LISTEN, with their protocol, their port and their address in
    network byte order (the kernel prints it as one number per 32-bit word of
    a little-endian machine). *)
Theorem parse_lines_kernel (v6 : bool) (socks : list socket) (lines : list bytes) :
  Forall (socket_ok v6) socks ->
  Forall2 (fun s l => exists indent g, l = kernel_line indent g s) socks lines ->
  parse_lines (proto_of v6) lines = (omap (socket_entry v6) socks, Z.of_nat (length socks)).
Proof.
  intros H Hl. unfold parse_lines.
  assert (Heq : map (parse_line (proto_of v6)) lines = map (fun s => (true, socket_entry v6 s)) socks).
  { induction Hl as [|s l socks lines (indent & g & ->) _ IH]; [done|]. apply Forall_cons in H as [Hs H].
    cbn. by rewrite parse_kernel_line, IH. }
  rewrite Heq. clear. induction socks as [|s socks IH]; [done|].
  simplify_eq/=. rewrite H. destruct (socket_entry v6 s); f_equal; unfold countb in *; cbn; lia.
Qed.

(** the key of a listener identifies it: two listeners with the same key
    are the same protocol, address and port. *)
Theorem key_inj (l1 l2 : listenEntry) :
  colon ∉ le_Proto l1 -> colon ∉ le_Proto l2 ->
  0 <= le_LocalPort l1 < 65536 -> 0 <= le_LocalPort l2 < 65536 -> key l1 = key l2 -> l1 = l2.
Proof.
  destruct l1 as [p1 i1 n1], l2 as [p2 i2 n2]. cbn. intros H1 H2 H3 H4 Hk. unfold key in Hk. cbn in Hk.
  apply app_colon_inj in Hk as [-> Hk]; [|done..].
  apply snoc_colon_inj in Hk as [-> Hk]; [|apply FormatUint_no_colon..].
  apply FormatUint_inj in Hk; [|lia..]. by subst.
Qed.

(** a poll whose scan succeeds reports one connection-open and one
    suspicious-port event, in scan order, for each listener that the previous
    successful scan did not have, one scan event exactly on a burst, numbers
    the events with fresh identifiers, and remembers exactly the listeners of
    this scan; a poll whose scan fails reports nothing and changes nothing. *)
Theorem poll_reports (uuid : nat -> string) (now : time) (c : Collector) (ls : list listenEntry) (total : Z) (e : file_error) :
  let '(c', evs) := poll uuid now c (inr (ls, total)) in
  map ev_Network (List.filter (of_type EventNetworkConnectionOpen) evs)
    = map (fun l => Some (listen_detail l)) (List.filter (unseen c) ls)
  /\ map ev_Network (List.filter (of_type EventNetworkSuspiciousPort) evs)
    = map (fun l => Some (listen_detail l)) (List.filter (unseen c) ls)
  /\ countb (of_type EventNetworkScanDetected) evs = (if burst c total then 1 else 0)%nat
  /\ map ev_ID evs = map uuid (seq 0 (length evs))
  /\ prevTotal c' = total /\ c_cfg c' = c_cfg c
  /\ (forall l, unseen c' l = false <-> key l ∈ map key ls)
  /\ poll uuid now c (inl e) = (c, []).
Proof.
  unfold poll. pose proof (poll_listeners uuid now c ls) as H.
  destruct (foldl _ _ ls) as [cur evs]. destruct H as (H1 & H2 & H3 & H4 & H5).
  assert (Hk : forall l, unseen {| c_cfg := c_cfg c; prevListen := cur; prevTotal := total |} l = false <-> key l ∈ map key ls).
  { intros l. unfold unseen. cbn. rewrite bool_decide_eq_false, <- H1, <- not_eq_None_Some. done. }
  destruct (burst c total); split_and!; try done.
  - rewrite List.filter_app. cbn. by rewrite app_nil_r.
  - rewrite List.filter_app. cbn. by rewrite app_nil_r.
  - by rewrite countb_app, H4.
  - rewrite map_app, length_app, seq_app, map_app, H5. done.
Qed.

(** a listener is reported when it appears and not again while it stays:
    a poll that sees only listeners of the previous scan, without a burst,
    reports nothing. *)
Theorem poll_quiet (uuid uuid' : nat -> string) (now now' : time) (c : Collector) (ls ls' : list listenEntry) (total total' : Z) :
  let c' := (poll uuid now c (inr (ls, total))).1 in
  (forall l, l ∈ ls' -> l ∈ ls) -> burst c' total' = false ->
  (poll uuid' now' c' (inr (ls', total'))).2 = [].
Proof.
  cbn zeta. intros Hsub Hb. unfold poll at 1. pose proof (poll_listeners uuid now c ls) as H.
  destruct (poll uuid now c (inr (ls, total))) as [c' evs] eqn:Hp. unfold poll in Hp.
  destruct (foldl _ _ ls) as [cur evs0]. destruct H as (H1 & _).
  assert (Hprev : prevListen c' = cur) by (destruct (burst c total); by simplify_eq).
  cbn [fst] in *.
  assert (Hfold : forall st, (foldl (poll_listener uuid' now' c') st ls').2 = st.2).
  { assert (Hk : forall l, l ∈ ls' -> is_Some (prevListen c' !! key l)).
    { intros l Hl. rewrite Hprev, H1. apply list_elem_of_fmap. eauto. }
    clear - Hk. induction ls' as [|l ls' IH]; intros [m es]; [done|]. cbn [foldl].
    rewrite IH by (intros; apply Hk; by right). cbn [poll_listener snd].
    by destruct (Hk l ltac:(by left)) as [? ->]. }
  specialize (Hfold (∅, [])). destruct (foldl _ _ ls') as [cur' evs']. cbn in Hfold. subst. by rewrite Hb.
Qed.

(** *** Witnesses *)
Definition ssh : socket := {|
  s_slot := B "0:"; s_addr := bytes_of_Zs [127; 0; 0; 1]; s_port := 22; s_remote := B "00000000:0000"; s_state := 10;
  s_rest := [B "00000000:00000000"; B "00:00000000"] |}.
(** The line of the kernel's format ["%4d: %08X:%04X ..."], padded at the end. *)
Definition ssh_gaps (i : nat) : nat := match i with 5%nat => 4 | _ => 0 end.
Example kernel_line_ssh : S (kernel_line 3 ssh_gaps ssh) = "   0: 0100007F:0016 00000000:0000 0A 00000000:00000000 00:00000000    ".
Proof. vm_compute. reflexivity. Qed.
Definition https6 : socket := {|
  s_slot := B "1:"; s_addr := bytes_of_Zs [32; 1; 13; 184; 0; 0; 0; 0; 0; 0; 0; 0; 0; 0; 0; 1]; s_port := 443;
  s_remote := B "00000000000000000000000000000000:0000"; s_state := 10; s_rest := [] |}.
Example kernel_line_https6 : S (kernel_line 0 (fun _ => 0%nat) https6)
  = "1: B80D0120000000000000000001000000:01BB 00000000000000000000000000000000:0000 0A".
Proof. vm_compute. reflexivity. Qed.

Ltac plain_word := split; [|discriminate]; repeat (constructor; [by vm_compute|]); constructor.

Lemma parse_lines_kernel_witness :
  parse_lines (B "tcp") [kernel_line 3 ssh_gaps ssh]
  = ([{| le_Proto := B "tcp"; le_LocalIP := B "127.0.0.1"; le_LocalPort := 22 |}], 1)
  /\ parse_lines (B "tcp6") [kernel_line 0 (fun _ => 0%nat) https6]
  = ([{| le_Proto := B "tcp6"; le_LocalIP := B "2001:db8::1"; le_LocalPort := 443 |}], 1).
Proof.
  split.
  - etrans; [apply (parse_lines_kernel false [ssh])|reflexivity].
    + constructor; [|constructor]. split_and!; [plain_word|plain_word| |done..].
      repeat (constructor; [plain_word|]). constructor.
    + constructor; [|constructor]. exists 3%nat, ssh_gaps. reflexivity.
  - etrans; [apply (parse_lines_kernel true [https6])|vm_compute; reflexivity].
    + constructor; [|constructor]. split_and!; [plain_word|plain_word|constructor|done..].
    + constructor; [|constructor]. exists 0%nat, (fun _ => 0%nat). reflexivity.
Defined.

Lemma key_inj_witness :
  {| le_Proto := B "tcp6"; le_LocalIP := B "::"; le_LocalPort := 443 |}
  = {| le_Proto := B "tcp6"; le_LocalIP := B "::"; le_LocalPort := 443 |}.
Proof.
  apply key_inj; try (cbn; lia); try reflexivity; apply (bool_decide_unpack (colon ∉ B "tcp6")); exact I.
Defined.

Definition demo_config : Config := {|
  PollInterval := 0; ScanDeltaThreshold := 0; ScanMultiplier := f64_zero;
  cfg_Host := {| host_Hostname := "h"; host_IP := "10.0.0.1" |};
  cfg_Agent := {| agent_Name := "yomins-agent"; agent_Version := "1" |} |}.
Definition demo_uuid (n : nat) : string := pretty n.
Definition port22 : listenEntry := {| le_Proto := B "tcp"; le_LocalIP := B "0.0.0.0"; le_LocalPort := 22 |}.

Lemma poll_quiet_witness :
  (poll demo_uuid 9 (poll demo_uuid 7 (NewCollector demo_config) (inr ([port22], 1))).1 (inr ([port22], 2))).2 = [].
Proof.
  apply (poll_quiet demo_uuid demo_uuid 7 9 (NewCollector demo_config) [port22] [port22] 1 2); [done|vm_compute; reflexivity].
Defined.
