(* ===== verification/Procfs.v ===== *)
(** * Reading processes from /proc

    [src/internal/procfs/procfs.go].  The directory listing and the files are
    arguments; [None] from a read is an error of that read. *)
From S2P Require Import Prelude GoFloat GoStrings GoNum.
Local Open Scope Z_scope.

Record Sample := {
  sm_PID : Z; sm_PPID : Z; sm_Name : bytes; sm_State : Z; sm_Start : Z; sm_CPU : Z; sm_RSS : Z }.
#[export] Instance Sample_eq_dec : EqDecision Sample.
Proof. solve_decision. Defined.

Definition zero_sample : Sample := {|
  sm_PID := 0; sm_PPID := 0; sm_Name := []; sm_State := 0; sm_Start := 0; sm_CPU := 0; sm_RSS := 0 |}.

Definition with_pid (s : Sample) (pid : Z) : Sample := {|
  sm_PID := pid; sm_PPID := sm_PPID s; sm_Name := sm_Name s; sm_State := sm_State s; sm_Start := sm_Start s;
  sm_CPU := sm_CPU s; sm_RSS := sm_RSS s |}.

Record FS := { fs_root : bytes; pageSize : Z; clkTck : float64 }.

(** [sysconf] is the clock rate, or an error. *)
Definition New (HOST_PROC : bytes) (sysconf : option Z) (pagesize : Z) : FS := {|
  fs_root := match HOST_PROC with [] => B "/proc" | _ => HOST_PROC end;
  pageSize := wrap_u64 pagesize;
  clkTck := match sysconf with
            | Some v => if 0 <? v then f64_of_Z v else f64_of_Z 100
            | None => f64_of_Z 100
            end |}.

Definition ClockTicks (p : FS) : float64 := clkTck p.

Definition paren_open : ascii := "("%char.
Definition paren_close : ascii := ")"%char.

(** The closure [num]: parse errors are ignored, the value is kept. *)
Definition num (fields : list bytes) (i : nat) : Z := (ParseUint (nth i fields []) 10 64).1.

Definition ParseStat (b : bytes) (pageSize : Z) : option Sample :=
  match IndexByte b paren_open, LastIndexByte b paren_close with
  | Some open, Some end_ =>
      if (end_ <? open)%nat then None
      else
        let fields := Fields (drop (end_ + 1) b) in
        if (length fields <? 22)%nat then None
        else Some {|
          sm_PID := 0;
          sm_PPID := wrap_i32 (num fields 1);
          sm_Name := take (end_ - (open + 1)) (drop (open + 1) b);
          sm_State := match nth 0 fields [] with c :: _ => byteval c | [] => 0 end;
          sm_CPU := wrap_u64 (num fields 11 + num fields 12);
          sm_Start := num fields 19;
          sm_RSS := wrap_u64 (num fields 21 * pageSize) |}
  | _, _ => None
  end.

(** One iteration of the loop of [List]. *)
Definition list_entry (p : FS) (read : bytes -> option bytes) (name : bytes) : option Sample :=
  match ParseInt name 10 32 with
  | (_, Some _) => None
  | (pid, None) =>
      match read name with
      | None => None
      | Some buf => (fun s => with_pid s pid) <$> ParseStat buf (pageSize p)
      end
  end.

(** [List]: [names] is the directory or an error; [ctx_err i] whether the
    context has ended before entry [i]; [read name] the file
    [<root>/<name>/stat]. *)
Fixpoint list_loop (p : FS) (ctx_err : nat -> bool) (read : bytes -> option bytes) (names : list bytes) (i : nat)
    : option (list Sample) :=
  match names with
  | [] => Some []
  | n :: t =>
      if ctx_err i then None
      else rest ← list_loop p ctx_err read t (Datatypes.S i);
           Some (match list_entry p read n with Some s => s :: rest | None => rest end)
  end.
Definition List_ (p : FS) (ctx_err : nat -> bool) (names : option (list bytes)) (read : bytes -> option bytes)
    : option (list Sample) :=
  ns ← names; list_loop p ctx_err read ns 0.

(** [Details]: a failed read gives empty text. *)
Definition Details (exe cmdline : option bytes) : bytes * bytes :=
  (default [] exe, TrimSpace (map (fun c => if bool_decide (c = "000"%char) then space else c) (default [] cmdline))).

(** [MemTotal] on the contents of [meminfo]. *)
Fixpoint memtotal_lines (lines : list bytes) : Z :=
  match lines with
  | [] => 0
  | line :: t =>
      if negb (HasPrefix line (B "MemTotal:")) then memtotal_lines t
      else match Fields line with
           | _ :: f1 :: _ => wrap_u64 ((ParseUint f1 10 64).1 * 1024)
           | _ => 0
           end
  end.
Definition MemTotal (meminfo : option bytes) : Z :=
  match meminfo with
  | None => 0
  | Some data => memtotal_lines (ScanLines data).1
  end.

(** ** The kernel's side: a line of [/proc/<pid>/stat] *)
Record kproc := {
  k_pid : Z; k_comm : bytes; k_state : ascii; k_ppid : Z; k_mid1 : list bytes; k_utime : Z; k_stime : Z;
  k_mid2 : list bytes; k_start : Z; k_vsize : bytes; k_rss : Z; k_tail : list bytes }.

(** The fields after the command name, [k_mid1] being fields 5 to 13 and
    [k_mid2] fields 16 to 21 of proc(5). *)
Definition stat_words (k : kproc) : list bytes :=
  [k_state k] :: FormatUint (k_ppid k) :: k_mid1 k ++ FormatUint (k_utime k) :: FormatUint (k_stime k) :: k_mid2 k
  ++ FormatUint (k_start k) :: k_vsize k :: FormatUint (k_rss k) :: k_tail k.

Definition stat_line (k : kproc) : bytes :=
  FormatUint (k_pid k) ++ space :: paren_open :: k_comm k ++ paren_close :: space :: Join (stat_words k) space ++ [newline].

Definition u64 (z : Z) : Prop := 0 <= z < 2 ^ 64.
Definition kproc_ok (k : kproc) : Prop :=
  plain_byte (k_state k) /\ k_state k <> paren_close /\ 0 <= k_ppid k < 2 ^ 31
  /\ Forall word (k_mid1 k ++ k_mid2 k ++ k_vsize k :: k_tail k)
  /\ Forall (fun w => paren_close ∉ w) (k_mid1 k ++ k_mid2 k ++ k_vsize k :: k_tail k)
  /\ length (k_mid1 k) = 9%nat /\ length (k_mid2 k) = 6%nat
  /\ u64 (k_utime k) /\ u64 (k_stime k) /\ u64 (k_start k) /\ u64 (k_rss k).

(** ** Lemmas *)
Lemma digits_no (c : ascii) (n : Z) : (48 <=? byteval c) && (byteval c <=? 57) = false -> c ∉ FormatUint n.
Proof.
  intros Hc Hin. pose proof (FormatUint_digits n) as Hd. rewrite Forall_forall in Hd. specialize (Hd _ Hin).
  unfold is_digit in Hd. lia.
Qed.

Lemma FormatUint_word (n : Z) : word (FormatUint n).
Proof. split; [eapply Forall_impl; [apply FormatUint_digits|apply is_digit_plain]|apply FormatUint_nonempty]. Qed.

Lemma LastIndexByte_app (a b : bytes) (c : ascii) : c ∉ b -> LastIndexByte (a ++ c :: b) c = Some (length a).
Proof.
  intros Hb. unfold LastIndexByte. rewrite reverse_app, reverse_cons, <- app_assoc. cbn [app].
  rewrite IndexByte_app by by rewrite elem_of_reverse. cbn. rewrite length_app, length_reverse. cbn. f_equal. lia.
Qed.

(** Words between a leading space and a final newline. *)
Lemma Fields_line (ws : list bytes) : Forall word ws -> Fields (space :: Join ws space ++ [newline]) = ws.
Proof.
  intros H. unfold Fields. rewrite runes_ascii.
  2:{ constructor; [done|]. apply Forall_app. split; [by apply Join_ascii|]. by constructor. }
  cbn [map fields_go]. change (space_rune (ascii_rune space)) with true. cbn match. rewrite map_app. cbn [map].
  induction H as [|w ws [Hw Hne] Hws IH]; [done|]. cbn [Join]. destruct ws as [|w' ws'].
  - rewrite fields_go_word by done. cbn. by destruct w.
  - rewrite map_app, <- app_assoc, fields_go_word by done. cbn [map app fields_go].
    change (space_rune (ascii_rune space)) with true. cbn match. rewrite IH. by destruct w.
Qed.

Lemma stat_words_ok (k : kproc) : kproc_ok k -> Forall word (stat_words k) /\ Forall (fun w => paren_close ∉ w) (stat_words k).
Proof.
  intros (Hst & Hpc & _ & Hw & Hp & _). rewrite !Forall_app, !Forall_cons in *. unfold stat_words.
  destruct Hw as (Hw1 & Hw2 & Hw3 & Hw4), Hp as (Hp1 & Hp2 & Hp3 & Hp4).
  rewrite !Forall_cons, !Forall_app, !Forall_cons, !Forall_app, !Forall_cons. split_and!; try done; try apply FormatUint_word;
    try by apply digits_no.
  - split; [constructor; [done|constructor]|done].
  - rewrite list_elem_of_singleton. congruence.
Qed.

Lemma Join_no (ws : list bytes) (c : ascii) : c <> space -> Forall (fun w => c ∉ w) ws -> c ∉ Join ws space.
Proof.
  intros Hc. induction 1 as [|w ws Hw Hws IH]; [apply not_elem_of_nil|]. cbn. destruct ws; [done|].
  rewrite elem_of_app, elem_of_cons. naive_solver.
Qed.

Lemma num_word (fields : list bytes) (i : nat) (n : Z) : fields !! i = Some (FormatUint n) -> u64 n -> num fields i = n.
Proof. intros Hi Hn. unfold num. rewrite (nth_lookup_Some _ _ _ _ Hi), ParseUint_FormatUint; [done|lia|exact Hn]. Qed.

Lemma stat_lookup (k : kproc) :
  length (k_mid1 k) = 9%nat -> length (k_mid2 k) = 6%nat ->
  stat_words k !! 11%nat = Some (FormatUint (k_utime k)) /\ stat_words k !! 12%nat = Some (FormatUint (k_stime k))
  /\ stat_words k !! 19%nat = Some (FormatUint (k_start k)) /\ stat_words k !! 21%nat = Some (FormatUint (k_rss k)).
Proof.
  unfold stat_words. generalize (k_mid1 k) (k_mid2 k). intros l1 l2 H1 H2.
  do 9 (destruct l1 as [|? l1]; [done|]). destruct l1; [|done].
  do 6 (destruct l2 as [|? l2]; [done|]). destruct l2; [|done]. done.
Qed.

(** ** Property *)

(** C33: parsing the line the kernel prints for a process gives back its name,
    state, parent, CPU time, start time and resident size, whatever bytes the
    name holds (spaces and parentheses included). *)
Theorem ParseStat_kernel (k : kproc) (pageSize : Z) :
  kproc_ok k ->
  ParseStat (stat_line k) pageSize = Some {|
    sm_PID := 0; sm_PPID := k_ppid k; sm_Name := k_comm k; sm_State := byteval (k_state k);
    sm_Start := k_start k; sm_CPU := wrap_u64 (k_utime k + k_stime k); sm_RSS := wrap_u64 (k_rss k * pageSize) |}.
Proof.
  intros Hk. destruct (stat_words_ok k Hk) as [Hw Hp].
  destruct Hk as (Hst & Hpc & Hpp & _ & _ & H1 & H2 & Hu & Hs & Hstart & Hr).
  unfold ParseStat, stat_line.
  set (pre := FormatUint (k_pid k) ++ [space]). set (post := space :: Join (stat_words k) space ++ [newline]).
  assert (Hline : FormatUint (k_pid k) ++ space :: paren_open :: k_comm k ++ paren_close :: post
    = pre ++ paren_open :: k_comm k ++ paren_close :: post) by (subst pre; by rewrite <- app_assoc).
  rewrite Hline. rewrite IndexByte_app.
  2:{ subst pre. rewrite elem_of_app, list_elem_of_singleton. intros [H|H]; [by apply digits_no in H|done]. }
  assert (Hline2 : pre ++ paren_open :: k_comm k ++ paren_close :: post = (pre ++ paren_open :: k_comm k) ++ paren_close :: post)
    by by rewrite <- app_assoc.
  rewrite Hline2 at 1. rewrite LastIndexByte_app.
  2:{ subst post. rewrite elem_of_cons, elem_of_app, list_elem_of_singleton.
      intros [H|[H|H]]; [done| |done]. by apply Join_no in H. }
  rewrite length_app. cbn [length]. rewrite (proj2 (Nat.ltb_ge _ _)) by lia.
  replace (drop _ (pre ++ paren_open :: k_comm k ++ paren_close :: post)) with post.
  2:{ rewrite Hline2. replace (length pre + Datatypes.S (length (k_comm k)) + 1)%nat
        with (length (pre ++ paren_open :: k_comm k) + 1)%nat by (rewrite length_app; cbn; lia).
      rewrite drop_app_add'; done. }
  subst post. rewrite Fields_line by done.
  assert (Hlen : (22 <= length (stat_words k))%nat).
  { unfold stat_words. cbn [length]. rewrite length_app. cbn [length]. rewrite length_app. cbn [length]. lia. }
  rewrite (proj2 (Nat.ltb_ge _ _)) by lia.
  destruct (stat_lookup k H1 H2) as (? & ? & ? & ?).
  rewrite (num_word _ 1 (k_ppid k)) by (first [done|unfold u64; lia]).
  rewrite (num_word _ 11 (k_utime k)) by done.
  rewrite (num_word _ 12 (k_stime k)) by done.
  rewrite (num_word _ 19 (k_start k)) by done.
  rewrite (num_word _ 21 (k_rss k)) by done.
  f_equal. f_equal.
  - unfold wrap_i32. rewrite Z.mod_small; lia.
  - rewrite drop_app_add'; [|done]. cbn [drop]. replace (_ - _)%nat with (length (k_comm k)) by lia. apply take_app_length.
Qed.

(** *** Witness *)
Definition kproc1 : kproc := {|
  k_pid := 42; k_comm := B "my (odd) name"; k_state := "S"%char; k_ppid := 1;
  k_mid1 := map B ["42"; "42"; "0"; "-1"; "4194560"; "1"; "2"; "3"; "4"]; k_utime := 250; k_stime := 50;
  k_mid2 := map B ["0"; "0"; "20"; "0"; "1"; "0"]; k_start := 9000; k_vsize := B "1000000"; k_rss := 300; k_tail := [B "0"] |}.

Ltac plain_words := repeat (apply Forall_cons; split; [split; [repeat (constructor; [by vm_compute|]); constructor|discriminate]|]); try constructor.
Ltac no_byte := apply (bool_decide_unpack _); vm_compute; exact I.

Lemma ParseStat_kernel_witness :
  sm_Name <$> ParseStat (stat_line kproc1) 4096 = Some (B "my (odd) name")
  /\ sm_CPU <$> ParseStat (stat_line kproc1) 4096 = Some 300.
Proof.
  rewrite (ParseStat_kernel kproc1 4096); [split; reflexivity|]. unfold kproc_ok.
  split_and!; try done; [plain_words|no_byte].
Defined.
