(* ===== verification/ProcessEvents.v ===== *)
(** * The process event collector

    [src/internal/events/process/snapshot.go] and [collector.go].  The
    process source ([procfs.Source]) and the clock are arguments of [poll];
    so is the order in which Go happens to iterate over the map of tracked
    processes.  [None] is a panic (an array index out of range). *)
From S2P Require Import Prelude GoFloat GoStrings GoNum GoRegexp Events Procfs.
Local Open Scope Z_scope.

(** ** [snapshot.go] *)
Definition rollingWindowSize : Z := 5.

Record ProcessSnapshot := {
  ps_PID : Z; ps_PPID : Z; ps_Name : bytes; ps_Exe : bytes; ps_Cmdline : bytes; isNew : bool;
  start : Z; cpuTicks : Z; sampledAt : time;
  cpuHistory : list float64; memHistory : list float32; historyIdx : Z; historyFilled : Z;
  lastCPUAlertAt : time; lastMemAlertAt : time }.

Definition with_history (s : ProcessSnapshot) (ch : list float64) (mh : list float32) (idx filled : Z) : ProcessSnapshot := {|
  ps_PID := ps_PID s; ps_PPID := ps_PPID s; ps_Name := ps_Name s; ps_Exe := ps_Exe s; ps_Cmdline := ps_Cmdline s;
  isNew := isNew s; start := start s; cpuTicks := cpuTicks s; sampledAt := sampledAt s; cpuHistory := ch;
  memHistory := mh; historyIdx := idx; historyFilled := filled; lastCPUAlertAt := lastCPUAlertAt s;
  lastMemAlertAt := lastMemAlertAt s |}.

Definition with_sample (s : ProcessSnapshot) (ticks : Z) (at_ : time) : ProcessSnapshot := {|
  ps_PID := ps_PID s; ps_PPID := ps_PPID s; ps_Name := ps_Name s; ps_Exe := ps_Exe s; ps_Cmdline := ps_Cmdline s;
  isNew := isNew s; start := start s; cpuTicks := ticks; sampledAt := at_; cpuHistory := cpuHistory s;
  memHistory := memHistory s; historyIdx := historyIdx s; historyFilled := historyFilled s;
  lastCPUAlertAt := lastCPUAlertAt s; lastMemAlertAt := lastMemAlertAt s |}.

Definition with_alerts (s : ProcessSnapshot) (cpuAt memAt : time) : ProcessSnapshot := {|
  ps_PID := ps_PID s; ps_PPID := ps_PPID s; ps_Name := ps_Name s; ps_Exe := ps_Exe s; ps_Cmdline := ps_Cmdline s;
  isNew := isNew s; start := start s; cpuTicks := cpuTicks s; sampledAt := sampledAt s; cpuHistory := cpuHistory s;
  memHistory := memHistory s; historyIdx := historyIdx s; historyFilled := historyFilled s;
  lastCPUAlertAt := cpuAt; lastMemAlertAt := memAt |}.

Definition advance (s : ProcessSnapshot) : ProcessSnapshot :=
  with_history s (cpuHistory s) (memHistory s) ((historyIdx s +i 1) %i rollingWindowSize)
    (if historyFilled s <? rollingWindowSize then historyFilled s +i 1 else historyFilled s).

(** The summing loop, [i] from 0 to [historyFilled - 1]. *)
Definition sum_loop (add : spec_float -> spec_float -> spec_float) (h : list spec_float) (filled : Z) : option spec_float :=
  foldl (fun acc i => sum ← acc; v ← slice_get h (Z.of_nat i); Some (add sum v)) (Some (S754_zero false))
        (seq 0 (Z.to_nat filled)).

Definition cpuAvg (s : ProcessSnapshot) : option float64 :=
  if historyFilled s =? 0 then Some f64_zero
  else sum ← sum_loop f64_add (cpuHistory s) (historyFilled s);
       Some (f64_div sum (f64_of_Z (historyFilled s))).

Definition memAvg (s : ProcessSnapshot) : option float32 :=
  if historyFilled s =? 0 then Some f32_zero
  else sum ← sum_loop f32_add (memHistory s) (historyFilled s);
       Some (f32_div sum (f32_of_Z (historyFilled s))).

Definition pushCPU (s : ProcessSnapshot) (v : float64) : option (ProcessSnapshot * float64) :=
  ch ← slice_set (cpuHistory s) (historyIdx s) v;
  let s' := advance (with_history s ch (memHistory s) (historyIdx s) (historyFilled s)) in
  avg ← cpuAvg s'; Some (s', avg).

Definition pushMem (s : ProcessSnapshot) (v : float32) : option (ProcessSnapshot * float32) :=
  mh ← slice_set (memHistory s) (historyIdx s) v;
  let s' := with_history s (cpuHistory s) mh (historyIdx s) (historyFilled s) in
  avg ← memAvg s'; Some (s', avg).

Definition pushMetrics (s : ProcessSnapshot) (cpu : float64) (mem : float32)
    : option (ProcessSnapshot * float64 * float32) :=
  ch ← slice_set (cpuHistory s) (historyIdx s) cpu;
  mh ← slice_set (memHistory s) (historyIdx s) mem;
  let s' := advance (with_history s ch mh (historyIdx s) (historyFilled s)) in
  ca ← cpuAvg s'; ma ← memAvg s'; Some (s', ca, ma).

Definition readyForAnomaly (s : ProcessSnapshot) : bool := 3 <=? historyFilled s.

(** ** [collector.go] *)
Definition DefaultSuspiciousPatterns : list string := [
  "curl.*\|\s*(ba)?sh"; "wget.*\|\s*(ba)?sh"; "\bnc\s+-[^-]*e"; "base64.*-d.*\|.*sh"; "/dev/tcp/";
  "xmrig|minerd|cpuminer"; "bash\s+-i\s+>&\s+/dev/tcp" ].

Definition DefaultReverseShellPatterns : list string := [
  "\bnc\s+-[^-]*e"; "/dev/tcp/"; "bash\s+-i\s+>&\s+/dev/tcp" ].

Definition defaultTmpPaths : list string := ["/tmp/"; "/var/tmp/"; "/dev/shm/"].

Record Config := {
  PollInterval : duration; SuspiciousPatterns : list string; CPUAlertThreshold : float64; CPUAlertMultiplier : float64;
  MemAlertThreshold : float32; MemAlertMultiplier : float32; AlertCooldown : duration; MonitorLifecycle : bool;
  MonitorTmpPaths : bool; cfg_Host : HostInfo; cfg_Agent : AgentInfo }.

Record Collector := { c_cfg : Config; patterns : list re; reverseShells : list re; procs : gmap Z ProcessSnapshot }.

Definition NewCollector (cfg : Config) : Collector := {|
  c_cfg := {|
    PollInterval := if PollInterval cfg <=? 0 then 2 * second else PollInterval cfg;
    SuspiciousPatterns := SuspiciousPatterns cfg;
    CPUAlertThreshold := if f_eq (CPUAlertThreshold cfg) f64_zero then f64_of_Z 5 else CPUAlertThreshold cfg;
    CPUAlertMultiplier := if f_eq (CPUAlertMultiplier cfg) f64_zero then f64_of_Z 3 else CPUAlertMultiplier cfg;
    MemAlertThreshold := if f_eq (MemAlertThreshold cfg) f32_zero then f32_of_Z 10 else MemAlertThreshold cfg;
    MemAlertMultiplier := if f_eq (MemAlertMultiplier cfg) f32_zero then f32_of_Z 3 else MemAlertMultiplier cfg;
    AlertCooldown := if AlertCooldown cfg =? 0 then 60 * second else AlertCooldown cfg;
    MonitorLifecycle := MonitorLifecycle cfg; MonitorTmpPaths := MonitorTmpPaths cfg;
    cfg_Host := cfg_Host cfg; cfg_Agent := cfg_Agent cfg |};
  patterns := omap (fun p => Compile (B p))
                (match SuspiciousPatterns cfg with [] => DefaultSuspiciousPatterns | ps => ps end);
  reverseShells := omap (fun p => Compile (B p)) DefaultReverseShellPatterns;
  procs := ∅ |}.

Definition isSuspicious (c : Collector) (cmdline : bytes) : bool := existsb (fun re => MatchString re cmdline) (patterns c).
Definition isReverseShell (c : Collector) (cmdline : bytes) : bool := existsb (fun re => MatchString re cmdline) (reverseShells c).
Definition isExecFromTmp (exe : bytes) : bool := existsb (fun prefix => HasPrefix exe (B prefix)) defaultTmpPaths.

(** [details pid] is [source.Details(pid)]. *)
Definition snapshotProcess (details : Z -> bytes * bytes) (p : Sample) (is_new : bool) (now : time) : ProcessSnapshot :=
  let '(exe, cmdline) := details (sm_PID p) in
  {| ps_PID := sm_PID p; ps_PPID := sm_PPID p; ps_Name := sm_Name p; ps_Exe := exe;
     ps_Cmdline := (match cmdline with [] => sm_Name p | _ => cmdline end);
     isNew := is_new; start := sm_Start p; cpuTicks := sm_CPU p; sampledAt := now;
     cpuHistory := replicate 5 f64_zero; memHistory := replicate 5 f32_zero; historyIdx := 0; historyFilled := 0;
     lastCPUAlertAt := time_zero; lastMemAlertAt := time_zero |}.

(** *** Event constructors *)
Definition process_detail (s : ProcessSnapshot) : ProcessDetail := {|
  pd_Name := S (ps_Name s); pd_PID := ps_PID s; pd_PPID := ps_PPID s; pd_Cmdline := S (ps_Cmdline s);
  pd_Exe := S (ps_Exe s); pd_CPUPercent := f64_zero; pd_MemoryPercent := f32_zero |}.

Definition reason (r : string) : ContextInfo := {|
  ctx_SessionID := ""; ctx_TTY := ""; ctx_RemoteIP := ""; ctx_Reason := r; ctx_Service := "" |}.

Definition process_event (cfg : Config) (ty : EventType) (cat : Category) (sev : Severity) (conf : Confidence)
    (ctx : option ContextInfo) (tags : list string) (pd : ProcessDetail) (now : time) (id : string) : Event := {|
  ev_ID := id; ev_Timestamp := now; ev_Type := ty; ev_Category := cat; ev_Severity := sev; ev_Confidence := conf;
  ev_Host := cfg_Host cfg; ev_Agent := cfg_Agent cfg; ev_Actor := None; ev_Context := ctx; ev_Tags := tags;
  ev_Process := Some pd; ev_Network := None |}.

Definition makeStartEvent (cfg : Config) (s : ProcessSnapshot) (now : time) : pending :=
  process_event cfg EventProcessStart CategorySystemCheck SeverityInfo ConfidenceNone None
    ["process"; "start"] (process_detail s) now.
Definition makeStopEvent (cfg : Config) (s : ProcessSnapshot) (now : time) : pending :=
  process_event cfg EventProcessStop CategorySystemCheck SeverityInfo ConfidenceNone None
    ["process"; "stop"] (process_detail s) now.
Definition makeSuspiciousEvent (cfg : Config) (s : ProcessSnapshot) (now : time) : pending :=
  process_event cfg EventProcessSuspicious CategoryThreatActivity SeverityCritical ConfidenceNone None
    ["process"; "suspicious"] (process_detail s) now.
Definition makeExecTmpEvent (cfg : Config) (s : ProcessSnapshot) (now : time) : pending :=
  process_event cfg EventProcessExecTmp CategoryThreatActivity SeverityWarning ConfidenceMedium None
    ["process"; "exec_tmp"] (process_detail s) now.
Definition makeReverseShellEvent (cfg : Config) (s : ProcessSnapshot) (now : time) : pending :=
  process_event cfg EventProcessReverseShell CategoryThreatActivity SeverityCritical ConfidenceHigh None
    ["process"; "reverse_shell"] (process_detail s) now.

Definition makeCPUEvent (cfg : Config) (s : ProcessSnapshot) (current : float64) (now : time) : pending :=
  process_event cfg EventProcessHighCPU CategorySystemCheck SeverityWarning ConfidenceNone (Some (reason "cpu_spike"))
    ["process"; "high_cpu"]
    {| pd_Name := S (ps_Name s); pd_PID := ps_PID s; pd_PPID := 0; pd_Cmdline := S (ps_Cmdline s); pd_Exe := "";
       pd_CPUPercent := current; pd_MemoryPercent := f32_zero |} now.
Definition makeMemEvent (cfg : Config) (s : ProcessSnapshot) (current : float32) (now : time) : pending :=
  process_event cfg EventProcessHighMemory CategorySystemCheck SeverityWarning ConfidenceNone (Some (reason "memory_spike"))
    ["process"; "high_memory"]
    {| pd_Name := S (ps_Name s); pd_PID := ps_PID s; pd_PPID := 0; pd_Cmdline := S (ps_Cmdline s); pd_Exe := "";
       pd_CPUPercent := f64_zero; pd_MemoryPercent := current |} now.

Definition newProcessEvents (c : Collector) (snap : ProcessSnapshot) (now : time) : list pending :=
  (if MonitorLifecycle (c_cfg c) then [makeStartEvent (c_cfg c) snap now] else [])
  ++ (if MonitorTmpPaths (c_cfg c) && isExecFromTmp (ps_Exe snap) then [makeExecTmpEvent (c_cfg c) snap now] else [])
  ++ (if isReverseShell c (ps_Cmdline snap) then [makeReverseShellEvent (c_cfg c) snap now]
      else if isSuspicious c (ps_Cmdline snap) then [makeSuspiciousEvent (c_cfg c) snap now] else []).

Definition with_procs (c : Collector) (m : gmap Z ProcessSnapshot) : Collector :=
  {| c_cfg := c_cfg c; patterns := patterns c; reverseShells := reverseShells c; procs := m |}.

Definition buildBaseline (c : Collector) (details : Z -> bytes * bytes) (listing : option (list Sample)) (now : time)
    : Collector :=
  match listing with
  | None => c
  | Some ps => with_procs c (foldl (fun m p => <[sm_PID p := snapshotProcess details p false now]> m) (procs c) ps)
  end.

Section Poll.
Context (c : Collector) (details : Z -> bytes * bytes) (memTotal : Z) (clockTicks : float64) (now : time).

Definition current_map (ps : list Sample) : gmap Z Sample := foldl (fun m p => <[sm_PID p := p]> m) ∅ ps.

(** One iteration of the loop over the tracked processes. *)
Definition exit_step (current : gmap Z Sample) (st : gmap Z ProcessSnapshot * list pending) (pid : Z)
    : gmap Z ProcessSnapshot * list pending :=
  match st.1 !! pid with
  | None => st
  | Some snap =>
      if match current !! pid with Some p => sm_Start p =? start snap | None => false end then st
      else (delete pid st.1,
            st.2 ++ (if isNew snap && MonitorLifecycle (c_cfg c) then [makeStopEvent (c_cfg c) snap now] else []))
  end.

(** A surviving process: its new snapshot and its alerts. *)
Definition survive (snap : ProcessSnapshot) (p : Sample) : option (ProcessSnapshot * list pending) :=
  let elapsed := Seconds (time_sub now (sampledAt snap)) in
  let cpu := if f_gt elapsed f64_zero && (cpuTicks snap <=? sm_CPU p)
             then f64_mul (f64_div (f64_div (f64_of_Z (wrap_u64 (sm_CPU p - cpuTicks snap))) clockTicks) elapsed) (f64_of_Z 100)
             else f64_zero in
  let snap := with_sample snap (sm_CPU p) now in
  let mem := if 0 <? memTotal
             then f32_of_f64 (f64_mul (f64_div (f64_of_Z (sm_RSS p)) (f64_of_Z memTotal)) (f64_of_Z 100))
             else f32_zero in
  '(snap, ca, ma) ← pushMetrics snap cpu mem;
  if negb (readyForAnomaly snap) then Some (snap, [])
  else
    let cfg := c_cfg c in
    let cpuAlert := f_gt cpu (CPUAlertThreshold cfg)
      && (f_eq ca f64_zero || f_gt cpu (f64_mul (CPUAlertMultiplier cfg) ca))
      && (AlertCooldown cfg <? time_sub now (lastCPUAlertAt snap)) in
    let memAlert := f_gt mem (MemAlertThreshold cfg)
      && (f_eq ma f32_zero || f_gt mem (f32_mul (MemAlertMultiplier cfg) ma))
      && (AlertCooldown cfg <? time_sub now (lastMemAlertAt snap)) in
    Some (with_alerts snap (if cpuAlert then now else lastCPUAlertAt snap) (if memAlert then now else lastMemAlertAt snap),
          (if cpuAlert then [makeCPUEvent cfg snap cpu now] else [])
          ++ (if memAlert then [makeMemEvent cfg snap mem now] else [])).

(** One iteration of the loop over the listed processes. *)
Definition process_step (st : gmap Z ProcessSnapshot * list pending) (p : Sample)
    : option (gmap Z ProcessSnapshot * list pending) :=
  match st.1 !! sm_PID p with
  | None =>
      let snap := snapshotProcess details p true now in
      Some (<[sm_PID p := snap]> st.1, st.2 ++ newProcessEvents c snap now)
  | Some snap => '(snap', evs) ← survive snap p; Some (<[sm_PID p := snap']> st.1, st.2 ++ evs)
  end.

Fixpoint process_loop (st : gmap Z ProcessSnapshot * list pending) (ps : list Sample)
    : option (gmap Z ProcessSnapshot * list pending) :=
  match ps with
  | [] => Some st
  | p :: t => st' ← process_step st p; process_loop st' t
  end.

(** [order] is the order of the iteration over the tracked processes. *)
Definition poll (listing : option (list Sample)) (order : list Z) : option (Collector * list pending) :=
  match listing with
  | None => Some (c, [])
  | Some ps =>
      '(m, evs) ← process_loop (foldl (exit_step (current_map ps)) (procs c, []) order) ps;
      Some (with_procs c m, evs)
  end.
End Poll.

(** ** The invariant of a snapshot *)
Definition snap_ok (s : ProcessSnapshot) : Prop :=
  length (cpuHistory s) = 5%nat /\ length (memHistory s) = 5%nat /\ 0 <= historyIdx s < 5 /\ 0 <= historyFilled s <= 5.

Lemma sum_loop_ok (add : spec_float -> spec_float -> spec_float) (h : list spec_float) (filled : Z) :
  filled <= Z.of_nat (length h) -> is_Some (sum_loop add h filled).
Proof.
  intros Hf. unfold sum_loop. assert (Hb : (Z.to_nat filled <= length h)%nat) by lia. clear Hf.
  assert (Hgen : forall n s acc, (s + n <= length h)%nat -> is_Some acc ->
    is_Some (foldl (fun acc i => sum ← acc; v ← slice_get h (Z.of_nat i); Some (add sum v)) acc (seq s n))).
  { induction n as [|n IH]; intros s acc Hs Hacc; [done|]. cbn [seq foldl]. apply IH; [lia|].
    destruct Hacc as [a ->]. cbn [mbind option_bind]. rewrite slice_get_lookup by lia. rewrite Nat2Z.id.
    destruct (lookup_lt_is_Some_2 h s) as [v ->]; [lia|]. cbn. eauto. }
  apply Hgen; [lia|eauto].
Qed.

Lemma advance_ok (s : ProcessSnapshot) : snap_ok s -> snap_ok (advance s).
Proof.
  intros (H1 & H2 & H3 & H4). unfold advance, snap_ok, rollingWindowSize. cbn.
  rewrite rem_succ by lia. case_decide; destruct (Z.ltb_spec (historyFilled s) 5); split_and!; try done; try lia;
    rewrite wrap_i64_id by go_lia; lia.
Qed.

Lemma avg_ok (s : ProcessSnapshot) : snap_ok s -> is_Some (cpuAvg s) /\ is_Some (memAvg s).
Proof.
  intros (H1 & H2 & H3 & H4). unfold cpuAvg, memAvg. destruct (historyFilled s =? 0); [eauto|].
  destruct (sum_loop_ok f64_add (cpuHistory s) (historyFilled s)) as [x ->]; [lia|].
  destruct (sum_loop_ok f32_add (memHistory s) (historyFilled s)) as [y ->]; [lia|]. cbn. eauto.
Qed.

Lemma slice_set_len {A} (l : list A) (i : Z) (x : A) :
  0 <= i < 5 -> length l = 5%nat -> exists l', slice_set l i x = Some l' /\ length l' = 5%nat.
Proof. intros Hi Hl. rewrite slice_set_Some by go_lia. eexists. split; [done|]. by rewrite length_insert. Qed.

(** What a new reading leaves unchanged. *)
Definition same_process (s s' : ProcessSnapshot) : Prop :=
  ps_PID s' = ps_PID s /\ start s' = start s /\ isNew s' = isNew s.

Lemma pushMetrics_ok (s : ProcessSnapshot) (cpu : float64) (mem : float32) :
  snap_ok s -> exists s' ca ma, pushMetrics s cpu mem = Some (s', ca, ma) /\ snap_ok s' /\ same_process s s'
    /\ lastCPUAlertAt s' = lastCPUAlertAt s /\ lastMemAlertAt s' = lastMemAlertAt s /\ sampledAt s' = sampledAt s.
Proof.
  intros (H1 & H2 & H3 & H4). unfold pushMetrics.
  destruct (slice_set_len (cpuHistory s) (historyIdx s) cpu) as (ch & -> & Hch); [done..|].
  destruct (slice_set_len (memHistory s) (historyIdx s) mem) as (mh & -> & Hmh); [done..|].
  cbn [mbind option_bind]. set (s' := advance _).
  assert (Hok : snap_ok s') by (apply advance_ok; unfold snap_ok; cbn; done).
  destruct (avg_ok s' Hok) as [[ca ->] [ma ->]]. cbn [mbind option_bind].
  eexists _, _, _. split; [done|]. by split_and!.
Qed.

(** ** One surviving process *)
Definition pend_type (mk : pending) : EventType := ev_Type (mk "").
Definition pend_pid (mk : pending) : option Z := pd_PID <$> ev_Process (mk "").

(** The processes named by the events of a type, in order. *)
Definition pids_of (ty : EventType) (evs : list pending) : list Z :=
  omap (fun mk => if bool_decide (pend_type mk = ty) then pend_pid mk else None) evs.

Lemma pids_of_app (ty : EventType) (l k : list pending) : pids_of ty (l ++ k) = pids_of ty l ++ pids_of ty k.
Proof. apply omap_app. Qed.

Record survives (c : Collector) (now : time) (snap snap' : ProcessSnapshot) (evs : list pending) : Prop := {
  sv_ok : snap_ok snap';
  sv_same : same_process snap snap';
  sv_lifecycle : pids_of EventProcessStart evs = [] /\ pids_of EventProcessStop evs = [];
  sv_cpu : (pids_of EventProcessHighCPU evs = [] /\ lastCPUAlertAt snap' = lastCPUAlertAt snap)
    \/ (pids_of EventProcessHighCPU evs = [ps_PID snap] /\ lastCPUAlertAt snap' = now
        /\ AlertCooldown (c_cfg c) < time_sub now (lastCPUAlertAt snap));
  sv_mem : (pids_of EventProcessHighMemory evs = [] /\ lastMemAlertAt snap' = lastMemAlertAt snap)
    \/ (pids_of EventProcessHighMemory evs = [ps_PID snap] /\ lastMemAlertAt snap' = now
        /\ AlertCooldown (c_cfg c) < time_sub now (lastMemAlertAt snap)) }.

Lemma survive_ok (c : Collector) (memTotal : Z) (clockTicks : float64) (now : time) (snap : ProcessSnapshot) (p : Sample) :
  snap_ok snap -> exists snap' evs, survive c memTotal clockTicks now snap p = Some (snap', evs) /\ survives c now snap snap' evs.
Proof.
  intros Hok. unfold survive. set (cpu := if _ && _ then _ else _). set (mem := if 0 <? memTotal then _ else _). cbv zeta.
  destruct (pushMetrics_ok (with_sample snap (sm_CPU p) now) cpu mem) as (s' & ca & ma & -> & Hok' & Hs & Hc & Hm & Ht).
  { done. }
  cbn [mbind option_bind]. destruct Hs as (Hs1 & Hs2 & Hs3). cbn in Hs1, Hs2, Hs3, Hc, Hm.
  destruct (negb (readyForAnomaly s')).
  { eexists _, _. split; [done|]. constructor; try done; left; done. }
  set (cpuAlert := f_gt cpu _ && _ && _). set (memAlert := f_gt mem _ && _ && _).
  eexists _, _. split; [done|].
  assert (HcA : cpuAlert = true -> AlertCooldown (c_cfg c) < time_sub now (lastCPUAlertAt snap)).
  { subst cpuAlert. intros [_ H]%andb_true_iff. rewrite Hc in H. lia. }
  assert (HmA : memAlert = true -> AlertCooldown (c_cfg c) < time_sub now (lastMemAlertAt snap)).
  { subst memAlert. intros [_ H]%andb_true_iff. rewrite Hm in H. lia. }
  constructor; rewrite ?pids_of_app.
  - done.
  - done.
  - by destruct cpuAlert, memAlert.
  - destruct cpuAlert; [right|left]; cbn; (split_and!; [destruct memAlert; cbn; by rewrite ?Hs1|..]); auto.
  - destruct memAlert; [right|left]; cbn; (split_and!; [destruct cpuAlert; cbn; by rewrite ?Hs1|..]); auto.
Qed.

(** ** The loops of a poll *)
Definition procs_ok (m : gmap Z ProcessSnapshot) : Prop := forall pid s, m !! pid = Some s -> snap_ok s /\ ps_PID s = pid.

Definition alive (current : gmap Z Sample) (pid : Z) (snap : ProcessSnapshot) : bool :=
  match current !! pid with Some p => sm_Start p =? start snap | None => false end.

(** The tracked process [pid], if the listing still has that very process. *)
Definition kept (current : gmap Z Sample) (m : gmap Z ProcessSnapshot) (pid : Z) : option ProcessSnapshot :=
  match m !! pid with Some s => if alive current pid s then Some s else None | None => None end.

Definition stop_events (c : Collector) (now : time) (current : gmap Z Sample) (m : gmap Z ProcessSnapshot) (pid : Z) : list pending :=
  match m !! pid with
  | Some s => if alive current pid s then []
              else if isNew s && MonitorLifecycle (c_cfg c) then [makeStopEvent (c_cfg c) s now] else []
  | None => []
  end.

Lemma exit_loop (c : Collector) (now : time) (current : gmap Z Sample) (order : list Z) (m : gmap Z ProcessSnapshot) (evs : list pending) :
  base.NoDup order ->
  let '(m', evs') := foldl (exit_step c now current) (m, evs) order in
  (forall pid, m' !! pid = if decide (pid ∈ order) then kept current m pid else m !! pid)
  /\ evs' = evs ++ concat (map (stop_events c now current m) order).
Proof.
  revert m evs. induction order as [|x order IH]; intros m evs Hnd; cbn [foldl map concat].
  - split; [|by rewrite app_nil_r]. intros pid. by rewrite decide_False by apply not_elem_of_nil.
  - apply NoDup_cons in Hnd as [Hx Hnd].
    assert (Hstep : exit_step c now current (m, evs) x =
      ((match m !! x with Some s => if alive current x s then m else delete x m | None => m end),
       evs ++ stop_events c now current m x)).
    { unfold exit_step, stop_events, alive. cbn [fst snd]. destruct (m !! x) as [s|]; [|by rewrite app_nil_r].
      destruct (match current !! x with Some p => _ | None => _ end); [by rewrite app_nil_r|done]. }
    rewrite Hstep. set (m1 := match m !! x with Some s => _ | None => m end).
    assert (Hm1 : forall pid, pid <> x -> m1 !! pid = m !! pid).
    { intros pid Hne. subst m1. destruct (m !! x); [|done]. case_match; [done|]. by rewrite lookup_delete_ne. }
    assert (Hmx : m1 !! x = kept current m x).
    { subst m1. unfold kept. destruct (m !! x) eqn:E; [|done]. case_match; [done|]. apply lookup_delete_eq. }
    specialize (IH m1 (evs ++ stop_events c now current m x) Hnd). destruct (foldl _ _ order) as [m' evs'].
    destruct IH as [IH1 IH2]. split.
    + intros pid. rewrite IH1. destruct (decide (pid = x)) as [->|Hne].
      * rewrite (decide_False (P := x ∈ order)), decide_True by (first [done|by left]). done.
      * unfold kept. rewrite Hm1 by done. repeat case_decide; set_solver.
    + rewrite IH2, <- app_assoc. do 2 f_equal. f_equal. apply map_ext_in. intros y Hy. unfold stop_events.
      rewrite Hm1; [done|]. intros ->. apply Hx. by apply list_elem_of_In.
Qed.

(** What the loop over the listing does for one process. *)
Definition one (c : Collector) (details : Z -> bytes * bytes) (memTotal : Z) (clockTicks : float64) (now : time)
    (m : gmap Z ProcessSnapshot) (p : Sample) : option (ProcessSnapshot * list pending) :=
  match m !! sm_PID p with
  | None => let snap := snapshotProcess details p true now in Some (snap, newProcessEvents c snap now)
  | Some snap => survive c memTotal clockTicks now snap p
  end.

Lemma process_loop_one c details memTotal clockTicks now (ps : list Sample) (m : gmap Z ProcessSnapshot) (evs : list pending) :
  base.NoDup (map sm_PID ps) -> (forall p, p ∈ ps -> is_Some (one c details memTotal clockTicks now m p)) ->
  exists m' evs', process_loop c details memTotal clockTicks now (m, evs) ps = Some (m', evs ++ evs')
    /\ (forall p, p ∈ ps -> exists s l, one c details memTotal clockTicks now m p = Some (s, l) /\ m' !! sm_PID p = Some s)
    /\ (forall pid, pid ∉ map sm_PID ps -> m' !! pid = m !! pid)
    /\ evs' = concat (map (fun p => match one c details memTotal clockTicks now m p with Some (_, l) => l | None => [] end) ps).
Proof.
  revert m evs. induction ps as [|p ps IH]; intros m evs Hnd Hone; cbn [process_loop map concat].
  - exists m, []. rewrite app_nil_r. split_and!; try done. by intros p ?%not_elem_of_nil.
  - apply NoDup_cons in Hnd as [Hp Hnd]. destruct (Hone p ltac:(by left)) as [[s l] Hs].
    assert (Hstep : process_step c details memTotal clockTicks now (m, evs) p = Some (<[sm_PID p := s]> m, evs ++ l)).
    { unfold process_step, one in *. cbn [fst snd]. destruct (m !! sm_PID p); [by rewrite Hs|by simplify_eq]. }
    rewrite Hstep. cbn [mbind option_bind].
    assert (Hsame : forall q, q ∈ ps -> one c details memTotal clockTicks now (<[sm_PID p := s]> m) q = one c details memTotal clockTicks now m q).
    { intros q Hq. unfold one. rewrite lookup_insert_ne; [done|]. intros Heq. apply Hp. rewrite Heq. apply list_elem_of_fmap. eauto. }
    destruct (IH (<[sm_PID p := s]> m) (evs ++ l)) as (m' & evs' & Hl & H1 & H2 & H3); [done| |].
    { intros q Hq. rewrite Hsame by done. apply Hone. by right. }
    exists m', (l ++ evs'). rewrite Hl, Hs, <- app_assoc. split_and!; [done| | |].
    + intros q [->|Hq]%elem_of_cons.
      * exists s, l. split; [done|]. rewrite H2 by done. apply lookup_insert_eq.
      * rewrite <- Hsame by done. auto.
    + intros pid Hpid. rewrite H2, lookup_insert_ne; set_solver.
    + f_equal. rewrite H3. f_equal. apply map_ext_in. intros q Hq%list_elem_of_In. by rewrite Hsame.
Qed.

(** ** Facts about a whole poll *)
Lemma current_map_lookup (ps : list Sample) (p : Sample) :
  base.NoDup (map sm_PID ps) -> p ∈ ps -> current_map ps !! sm_PID p = Some p.
Proof.
  unfold current_map. induction ps as [|q ps IH] using rev_ind; [by intros _ ?%not_elem_of_nil|].
  rewrite map_app, foldl_app. cbn. intros Hnd Hp. apply NoDup_app in Hnd as (H1 & H2 & _).
  apply elem_of_app in Hp as [Hp|Hp%list_elem_of_singleton]; [|subst; apply lookup_insert_eq].
  rewrite lookup_insert_ne; [by apply IH|]. intros Heq. apply (H2 (sm_PID p)); [apply list_elem_of_fmap; eauto|].
  rewrite Heq. by left.
Qed.

Lemma current_map_None (ps : list Sample) (pid : Z) : pid ∉ map sm_PID ps -> current_map ps !! pid = None.
Proof.
  unfold current_map. induction ps as [|q ps IH] using rev_ind; [intros _; apply lookup_empty|].
  rewrite map_app, foldl_app. cbn. rewrite elem_of_app. intros H. rewrite lookup_insert_ne; set_solver.
Qed.

Lemma snapshot_ok details (p : Sample) (b : bool) (now : time) :
  snap_ok (snapshotProcess details p b now) /\ ps_PID (snapshotProcess details p b now) = sm_PID p
  /\ start (snapshotProcess details p b now) = sm_Start p /\ isNew (snapshotProcess details p b now) = b.
Proof. unfold snapshotProcess. destruct (details (sm_PID p)). done. Qed.

Lemma newProcessEvents_pids (c : Collector) (snap : ProcessSnapshot) (now : time) :
  pids_of EventProcessStart (newProcessEvents c snap now) = (if MonitorLifecycle (c_cfg c) then [ps_PID snap] else [])
  /\ pids_of EventProcessStop (newProcessEvents c snap now) = []
  /\ pids_of EventProcessHighCPU (newProcessEvents c snap now) = []
  /\ pids_of EventProcessHighMemory (newProcessEvents c snap now) = [].
Proof.
  unfold newProcessEvents. rewrite !pids_of_app.
  destruct (MonitorLifecycle (c_cfg c)), (MonitorTmpPaths (c_cfg c) && isExecFromTmp (ps_Exe snap)),
    (isReverseShell c (ps_Cmdline snap)), (isSuspicious c (ps_Cmdline snap)); done.
Qed.

(** The map of tracked processes right after the first loop. *)
Definition kept_map (c : Collector) (now : time) (ps : list Sample) (order : list Z) : gmap Z ProcessSnapshot :=
  (foldl (exit_step c now (current_map ps)) (procs c, []) order).1.

Section PollFacts.
Context (c : Collector) (details : Z -> bytes * bytes) (memTotal : Z) (clockTicks : float64) (now : time).
Context (ps : list Sample) (order : list Z).
Hypothesis Hprocs : procs_ok (procs c).
Hypothesis Hps : base.NoDup (map sm_PID ps).
Hypothesis Hnd : base.NoDup order.
Hypothesis Horder : forall pid, pid ∈ order <-> is_Some (procs c !! pid).

Lemma kept_map_lookup (pid : Z) : kept_map c now ps order !! pid = kept (current_map ps) (procs c) pid.
Proof using Hnd Horder.
  unfold kept_map. pose proof (exit_loop c now (current_map ps) order (procs c) [] Hnd) as H.
  destruct (foldl _ _ order) as [m' evs']. destruct H as [H _]. cbn. rewrite H. case_decide as Hin; [done|].
  rewrite Horder, <- eq_None_not_Some in Hin. unfold kept. by rewrite Hin.
Qed.

Lemma one_ok (p : Sample) :
  exists s l, one c details memTotal clockTicks now (kept_map c now ps order) p = Some (s, l)
    /\ snap_ok s /\ ps_PID s = sm_PID p
    /\ (p ∈ ps -> start s = sm_Start p)
    /\ match kept_map c now ps order !! sm_PID p with
       | None => s = snapshotProcess details p true now /\ l = newProcessEvents c s now
       | Some snap => survives c now snap s l /\ procs c !! sm_PID p = Some snap
       end.
Proof using Hnd Horder Hprocs Hps.
  unfold one. destruct (kept_map c now ps order !! sm_PID p) as [snap|] eqn:Hm.
  - pose proof Hm as Hk. rewrite kept_map_lookup in Hk. unfold kept in Hk.
    destruct (procs c !! sm_PID p) as [s0|] eqn:Hs0; [|done].
    destruct (alive (current_map ps) (sm_PID p) s0) eqn:Ha; [|done]. simplify_eq.
    destruct (Hprocs _ _ Hs0) as [Hok Hpid].
    destruct (survive_ok c memTotal clockTicks now snap p Hok) as (s' & l & -> & Hsv).
    exists s', l. pose proof Hsv as [Hok' (Hp1 & Hp2 & Hp3) _ _ _]. split_and!; try done; [congruence|].
    intros Hin. unfold alive in Ha. rewrite (current_map_lookup ps p) in Ha by done. lia.
  - pose proof (snapshot_ok details p true now) as (H1 & H2 & H3 & _). eexists _, _. split; [done|]. by split_and!.
Qed.

Lemma poll_shape :
  exists m' evs', poll c details memTotal clockTicks now (Some ps) order = Some (with_procs c m', evs')
    /\ (forall p, p ∈ ps -> exists s l, one c details memTotal clockTicks now (kept_map c now ps order) p = Some (s, l)
          /\ m' !! sm_PID p = Some s)
    /\ (forall pid, pid ∉ map sm_PID ps -> m' !! pid = None)
    /\ evs' = concat (map (stop_events c now (current_map ps) (procs c)) order)
       ++ concat (map (fun p => match one c details memTotal clockTicks now (kept_map c now ps order) p with
                                | Some (_, l) => l | None => [] end) ps).
Proof using Hnd Horder Hprocs Hps.
  unfold poll. pose proof (exit_loop c now (current_map ps) order (procs c) [] Hnd) as H.
  pose proof kept_map_lookup as Hk. pose proof one_ok as Hone. unfold kept_map in Hk, Hone |- *.
  destruct (foldl _ _ order) as [m1 evs1]. destruct H as [_ H2]. cbn [fst app] in *.
  destruct (process_loop_one c details memTotal clockTicks now ps m1 evs1 Hps) as (m' & evs' & -> & Ha & Hb & Hc).
  { intros p _. destruct (Hone p) as (s & l & -> & _). eauto. }
  cbn [mbind option_bind]. exists m', (evs1 ++ evs'). split_and!; [done..| |by subst].
  intros pid Hpid. rewrite Hb by done. rewrite Hk. unfold kept, alive. rewrite current_map_None by done.
  by destruct (procs c !! pid).
Qed.

(** Process [p] of the listing was not tracked, or its PID was reused. *)
Definition fresh (p : Sample) : bool :=
  match procs c !! sm_PID p with Some s => negb (sm_Start p =? start s) | None => true end.

Lemma kept_fresh (p : Sample) : p ∈ ps ->
  kept_map c now ps order !! sm_PID p = if fresh p then None else procs c !! sm_PID p.
Proof using Hnd Horder Hprocs Hps.
  intros Hp. rewrite kept_map_lookup. unfold kept, fresh. destruct (procs c !! sm_PID p) as [s|]; [|done].
  unfold alive. rewrite current_map_lookup by done. by destruct (sm_Start p =? start s).
Qed.
End PollFacts.

(** A poll tracks the listing. *)
Lemma poll_tracked (c : Collector) (details : Z -> bytes * bytes) (memTotal : Z) (clockTicks : float64) (now : time)
    (ps : list Sample) (order : list Z) :
  procs_ok (procs c) -> base.NoDup (map sm_PID ps) -> base.NoDup order ->
  (forall pid, pid ∈ order <-> is_Some (procs c !! pid)) ->
  exists c' evs, poll c details memTotal clockTicks now (Some ps) order = Some (c', evs)
    /\ procs_ok (procs c')
    /\ (forall pid, start <$> procs c' !! pid = sm_Start <$> current_map ps !! pid)
    /\ (forall p, p ∈ ps -> fresh c p = true -> procs c' !! sm_PID p = Some (snapshotProcess details p true now)).
Proof.
  intros Hprocs Hps Hnd Horder.
  destruct (poll_shape c details memTotal clockTicks now ps order Hprocs Hps Hnd Horder) as (m' & evs & -> & H1 & H2 & _).
  exists (with_procs c m'), evs. cbn [procs with_procs]. split_and!; [done| | |].
  - intros pid s Hs. destruct (decide (pid ∈ map sm_PID ps)) as [(p & -> & Hp)%list_elem_of_fmap|Hn]; [|by rewrite H2 in Hs].
    destruct (H1 p Hp) as (s' & l & Ho & Hm).
    destruct (one_ok c details memTotal clockTicks now ps order Hprocs Hps Hnd Horder p) as (s2 & l2 & Ho2 & Hok & Hpid & _).
    simplify_eq. done.
  - intros pid. destruct (decide (pid ∈ map sm_PID ps)) as [(p & -> & Hp)%list_elem_of_fmap|Hn].
    + destruct (H1 p Hp) as (s' & l & Ho & ->). rewrite current_map_lookup by done.
      destruct (one_ok c details memTotal clockTicks now ps order Hprocs Hps Hnd Horder p) as (s2 & l2 & Ho2 & _ & _ & Hst & _).
      simplify_eq. cbn. f_equal. auto.
    + by rewrite H2, current_map_None.
  - intros p Hp Hf. destruct (H1 p Hp) as (s' & l & Ho & ->).
    destruct (one_ok c details memTotal clockTicks now ps order Hprocs Hps Hnd Horder p) as (s2 & l2 & Ho2 & _ & _ & _ & Hm).
    rewrite (kept_fresh c now ps order Hprocs Hps Hnd Horder p Hp), Hf in Hm. destruct Hm as [-> _]. by simplify_eq.
Qed.

(** The lifecycle events of a poll: the stops of the exit loop, then the
    starts of the listing loop. *)
Definition gone (c : Collector) (ps : list Sample) (pid : Z) : bool :=
  match procs c !! pid with Some s => negb (alive (current_map ps) pid s) && isNew s | None => false end.

Lemma pids_of_concat {A} (ty : EventType) (f : A -> list pending) (q : A -> list Z) (l : list A) :
  (forall x, x ∈ l -> pids_of ty (f x) = q x) -> pids_of ty (concat (map f l)) = concat (map q l).
Proof.
  induction l as [|x l IH]; intros H; cbn [map concat]; [done|]. rewrite pids_of_app, IH, H; [done|by left|].
  intros y Hy. apply H. by right.
Qed.

Lemma concat_if {A B} (t : A -> bool) (g : A -> B) (l : list A) :
  concat (map (fun x => if t x then [g x] else []) l) = map g (List.filter t l).
Proof. induction l as [|x l IH]; cbn; [done|]. rewrite IH. by destruct (t x). Qed.

Lemma concat_none {A B} (l : list A) : concat (map (fun _ => @nil B) l) = [].
Proof. by induction l. Qed.

Lemma stop_events_pids (c : Collector) (now : time) (ps : list Sample) (pid : Z) :
  procs_ok (procs c) -> MonitorLifecycle (c_cfg c) = true ->
  pids_of EventProcessStart (stop_events c now (current_map ps) (procs c) pid) = []
  /\ pids_of EventProcessStop (stop_events c now (current_map ps) (procs c) pid) = (if gone c ps pid then [pid] else []).
Proof.
  intros Hprocs Hml. unfold stop_events, gone. destruct (procs c !! pid) as [s|] eqn:Hs; [|done].
  destruct (alive _ _ _); [done|]. cbn. rewrite Hml, andb_true_r. destruct (Hprocs _ _ Hs) as [_ Hp].
  destruct (isNew s); cbn; by rewrite ?Hp.
Qed.

Lemma poll_parts (c : Collector) (details : Z -> bytes * bytes) (memTotal : Z) (clockTicks : float64) (now : time)
    (ps : list Sample) (order : list Z) :
  procs_ok (procs c) -> base.NoDup (map sm_PID ps) -> base.NoDup order ->
  (forall pid, pid ∈ order <-> is_Some (procs c !! pid)) -> MonitorLifecycle (c_cfg c) = true ->
  exists m' stops news, poll c details memTotal clockTicks now (Some ps) order = Some (with_procs c m', stops ++ news)
    /\ pids_of EventProcessStart stops = [] /\ pids_of EventProcessStop stops = List.filter (gone c ps) order
    /\ pids_of EventProcessStart news = map sm_PID (List.filter (fresh c) ps) /\ pids_of EventProcessStop news = []
    /\ (forall pid, pid ∉ map sm_PID ps -> m' !! pid = None)
    /\ (forall p, p ∈ ps -> exists s, m' !! sm_PID p = Some s /\ snap_ok s /\ ps_PID s = sm_PID p /\ start s = sm_Start p
          /\ isNew s = (if fresh c p then true else default true (isNew <$> procs c !! sm_PID p))).
Proof.
  intros Hprocs Hps Hnd Horder Hml.
  destruct (poll_shape c details memTotal clockTicks now ps order Hprocs Hps Hnd Horder) as (m' & evs & -> & H1 & H2 & ->).
  set (go := fun p => match one _ _ _ _ _ _ p with Some _ => _ | None => _ end).
  assert (Hgo : forall p, p ∈ ps -> pids_of EventProcessStart (go p) = (if fresh c p then [sm_PID p] else [])
      /\ pids_of EventProcessStop (go p) = []
      /\ exists s, m' !! sm_PID p = Some s /\ snap_ok s /\ ps_PID s = sm_PID p /\ start s = sm_Start p
          /\ isNew s = (if fresh c p then true else default true (isNew <$> procs c !! sm_PID p))).
  { intros p Hp. subst go. cbn beta. destruct (H1 p Hp) as (s0 & l0 & Ho & Hm0).
    destruct (one_ok c details memTotal clockTicks now ps order Hprocs Hps Hnd Horder p) as (s & l & Ho' & Hok & Hpid & Hst & Hm).
    rewrite Ho in Ho'. simplify_eq. rewrite Ho. specialize (Hst Hp).
    rewrite (kept_fresh c now ps order Hprocs Hps Hnd Horder p Hp) in Hm.
    destruct (fresh c p) eqn:Hf.
    - destruct Hm as [Hs ->]. destruct (newProcessEvents_pids c s now) as (-> & -> & _). rewrite Hml, Hpid.
      split_and!; try done. exists s. split_and!; try done. rewrite Hs. by apply snapshot_ok.
    - unfold fresh in Hf. destruct (procs c !! sm_PID p) as [s1|]; [|done].
      destruct Hm as [[_ (_ & _ & Hn) [-> ->] _ _] _]. split_and!; try done. exists s. by split_and!. }
  exists m', (concat (map (stop_events c now (current_map ps) (procs c)) order)), (concat (map go ps)).
  split; [done|]. split_and!.
  - rewrite (pids_of_concat _ _ (fun _ => [])); [apply concat_none|]. intros. by apply stop_events_pids.
  - rewrite (pids_of_concat _ _ (fun pid => if gone c ps pid then [pid] else [])).
    + rewrite concat_if. apply map_id.
    + intros. by apply stop_events_pids.
  - rewrite (pids_of_concat _ _ (fun p => if fresh c p then [sm_PID p] else [])); [apply concat_if|]. intros. by apply Hgo.
  - rewrite (pids_of_concat _ _ (fun _ => [])); [apply concat_none|]. intros. by apply Hgo.
  - done.
  - intros p Hp. by apply Hgo.
Qed.

(** ** Properties *)

(** a poll never panics, and afterwards exactly the listed processes are
    tracked, each under the start time the listing gave: a process that exited
    is forgotten, and a reused PID is tracked as the new process, with an
    empty history. *)
Theorem poll_tracks (c : Collector) (details : Z -> bytes * bytes) (memTotal : Z) (clockTicks : float64) (now : time)
    (ps : list Sample) (order : list Z) :
  procs_ok (procs c) -> base.NoDup (map sm_PID ps) -> base.NoDup order ->
  (forall pid, pid ∈ order <-> is_Some (procs c !! pid)) ->
  exists c' evs, poll c details memTotal clockTicks now (Some ps) order = Some (c', evs)
    /\ procs_ok (procs c')
    /\ (forall pid, start <$> procs c' !! pid = sm_Start <$> current_map ps !! pid)
    /\ (forall p, p ∈ ps -> fresh c p = true -> procs c' !! sm_PID p = Some (snapshotProcess details p true now)).
Proof. apply poll_tracked. Qed.

(** with lifecycle monitoring on, a poll reports a start for exactly the
    listed processes that were not tracked before (in listing order; a reused
    PID counts), and a stop for exactly the tracked processes that started
    after the agent and are gone or replaced. *)
Theorem poll_lifecycle (c : Collector) (details : Z -> bytes * bytes) (memTotal : Z) (clockTicks : float64) (now : time)
    (ps : list Sample) (order : list Z) :
  procs_ok (procs c) -> base.NoDup (map sm_PID ps) -> base.NoDup order ->
  (forall pid, pid ∈ order <-> is_Some (procs c !! pid)) -> MonitorLifecycle (c_cfg c) = true ->
  exists c' evs, poll c details memTotal clockTicks now (Some ps) order = Some (c', evs)
    /\ pids_of EventProcessStart evs = map sm_PID (List.filter (fresh c) ps)
    /\ pids_of EventProcessStop evs = List.filter (gone c ps) order.
Proof.
  intros Hprocs Hps Hnd Horder Hml.
  destruct (poll_parts c details memTotal clockTicks now ps order Hprocs Hps Hnd Horder Hml)
    as (m' & stops & news & -> & H1 & H2 & H3 & H4 & _).
  eexists _, _. split; [done|]. by rewrite !pids_of_app, H1, H2, H3, H4, app_nil_r.
Qed.

(** ** Sequences of polls *)

(** One entry per successful poll: its time, listing and events. *)
Definition poll_out : Type := time * list Sample * list pending.

Inductive polled : Collector -> list poll_out -> Collector -> Prop :=
  | polled_nil c : polled c [] c
  | polled_failed c details mt ck now order c' outs :
      polled (default c (fst <$> poll c details mt ck now None order)) outs c' -> polled c outs c'
  | polled_step c details mt ck now ps order c1 evs outs c' :
      base.NoDup (map sm_PID ps) -> base.NoDup order -> (forall pid, pid ∈ order <-> is_Some (procs c !! pid)) ->
      poll c details mt ck now (Some ps) order = Some (c1, evs) -> polled c1 outs c' ->
      polled c ((now, ps, evs) :: outs) c'.

(** The times at which a process got a high-CPU event, with multiplicity. *)
Definition cpu_alerts (pid : Z) (outs : list poll_out) : list time :=
  concat (map (fun '(now, _, evs) => map (fun _ => now)
    (List.filter (fun x => x =? pid) (pids_of EventProcessHighCPU evs))) outs).

(** Each time comes more than [cd] after the one before it. *)
Fixpoint spaced (cd : duration) (last : time) (ts : list time) : Prop :=
  match ts with
  | [] => True
  | t :: r => cd < time_sub t last /\ spaced cd t r
  end.

Lemma cpu_alerts_one (go : Sample -> list pending) (ps : list Sample) (p : Sample) :
  base.NoDup (map sm_PID ps) -> p ∈ ps ->
  (forall q, q ∈ ps -> pids_of EventProcessHighCPU (go q) = [] \/ pids_of EventProcessHighCPU (go q) = [sm_PID q]) ->
  List.filter (fun x => x =? sm_PID p) (pids_of EventProcessHighCPU (concat (map go ps)))
  = pids_of EventProcessHighCPU (go p).
Proof.
  induction ps as [|q ps IH]; [by intros _ ?%not_elem_of_nil|]. cbn [map concat]. intros Hnd Hp Hq.
  apply NoDup_cons in Hnd as [Hn Hnd]. rewrite pids_of_app, List.filter_app.
  destruct (decide (p = q)) as [->|Hne].
  - assert (List.filter (fun x => x =? sm_PID q) (pids_of EventProcessHighCPU (concat (map go ps))) = []) as ->.
    { clear IH Hp. induction ps as [|r ps IH]; [done|]. cbn [map concat]. rewrite pids_of_app, List.filter_app, IH, app_nil_r.
      - destruct (Hq r ltac:(set_solver)) as [->| ->]; [done|]. cbn [List.filter]. destruct (Z.eqb_spec (sm_PID r) (sm_PID q)); [|done].
        exfalso. apply Hn. cbn. rewrite e. by left.
      - intros Hin. apply Hn. cbn. by right.
      - by apply NoDup_cons in Hnd as [_ ?].
      - intros x Hx. apply Hq. set_solver. }
    rewrite app_nil_r. destruct (Hq q ltac:(by left)) as [->| ->]; [done|]. cbn [List.filter]. by rewrite Z.eqb_refl.
  - apply elem_of_cons in Hp as [?|Hp]; [done|].
    rewrite IH; [|done..|intros; apply Hq; by right].
    assert (sm_PID q <> sm_PID p) by (intros Heq; apply Hn; rewrite Heq; apply list_elem_of_fmap; eauto).
    destruct (Hq q ltac:(by left)) as [->| ->]; [done|]. cbn [List.filter]. by destruct (Z.eqb_spec (sm_PID q) (sm_PID p)).
Qed.

(** One poll, seen from a process it keeps tracking. *)
Lemma poll_step_alert c details mt ck now ps order c1 evs pid snap :
  procs_ok (procs c) -> base.NoDup (map sm_PID ps) -> base.NoDup order ->
  (forall pid, pid ∈ order <-> is_Some (procs c !! pid)) ->
  poll c details mt ck now (Some ps) order = Some (c1, evs) ->
  procs c !! pid = Some snap -> sm_Start <$> current_map ps !! pid = Some (start snap) ->
  c_cfg c1 = c_cfg c /\ procs_ok (procs c1) /\ exists snap1, procs c1 !! pid = Some snap1 /\ start snap1 = start snap
    /\ ((cpu_alerts pid [(now, ps, evs)] = [] /\ lastCPUAlertAt snap1 = lastCPUAlertAt snap)
        \/ (cpu_alerts pid [(now, ps, evs)] = [now] /\ lastCPUAlertAt snap1 = now
            /\ AlertCooldown (c_cfg c) < time_sub now (lastCPUAlertAt snap))).
Proof.
  intros Hprocs Hps Hnd Horder Hpoll Hsnap Hcur.
  destruct (decide (pid ∈ map sm_PID ps)) as [(p & -> & Hp)%list_elem_of_fmap|Hn]; [|by rewrite current_map_None in Hcur].
  rewrite current_map_lookup in Hcur by done. injection Hcur as Hst.
  destruct (poll_tracked c details mt ck now ps order Hprocs Hps Hnd Horder) as (c2 & e2 & Hp2 & Hok1 & Hstart & _).
  destruct (poll_shape c details mt ck now ps order Hprocs Hps Hnd Horder) as (m' & evs' & Hpoll' & H1 & _ & Hevs).
  rewrite Hpoll in Hpoll', Hp2. simplify_eq. cbn [c_cfg procs with_procs] in *.
  set (go := fun p => match one _ _ _ _ _ _ p with Some _ => _ | None => _ end) in *.
  assert (Hgo : forall q, q ∈ ps -> pids_of EventProcessHighCPU (go q) = [] \/ pids_of EventProcessHighCPU (go q) = [sm_PID q]).
  { intros q Hq. subst go. cbn beta.
    destruct (one_ok c details mt ck now ps order Hprocs Hps Hnd Horder q) as (s & l & -> & _ & Hpid & _ & Hm).
    destruct (kept_map c now ps order !! sm_PID q) as [s0|].
    - destruct Hm as [[_ (Hpid0 & _) _ [[H _]|[H _]] _] _]; [by left|right]. rewrite H. congruence.
    - destruct Hm as [_ ->]. left. by destruct (newProcessEvents_pids c s now) as (_ & _ & ? & _). }
  split_and!; [done..|].
  destruct (H1 p Hp) as (s1 & l & Hone & Hm1). exists s1.
  destruct (one_ok c details mt ck now ps order Hprocs Hps Hnd Horder p) as (s & l' & Hone' & _ & Hpid & Hss & Hm).
  rewrite Hone in Hone'. simplify_eq. split_and!; [done|by rewrite Hss|].
  rewrite (kept_fresh c now ps order Hprocs Hps Hnd Horder p Hp) in Hm. unfold fresh in Hm.
  rewrite Hsnap, Hst, Z.eqb_refl in Hm. cbn in Hm. destruct Hm as [[_ (Hp0 & _) _ Hcpu _] _].
  assert (Hal : cpu_alerts (sm_PID p) [(now, ps, concat (map (stop_events c now (current_map ps) (procs c)) order) ++ concat (map go ps))]
    = map (fun _ => now) (pids_of EventProcessHighCPU l')).
  { unfold cpu_alerts. cbn [map concat]. rewrite app_nil_r. f_equal. rewrite pids_of_app, List.filter_app.
    rewrite (cpu_alerts_one go ps p) by done.
    assert (pids_of EventProcessHighCPU (concat (map (stop_events c now (current_map ps) (procs c)) order)) = []) as ->.
    { clear. induction order as [|x o IH]; [done|]. cbn [map concat]. rewrite pids_of_app, IH, app_nil_r.
      unfold stop_events. repeat case_match; done. }
    cbn. subst go. cbn beta. by rewrite Hone. }
  rewrite Hal. destruct Hcpu as [[-> ?]|[-> [? ?]]]; [left|right]; done.
Qed.

(** over any sequence of polls during which a process stays alive (same
    PID and start time in every listing), its high-CPU events are each more
    than the cooldown after the previous one, and at most one comes per poll. *)
Theorem cpu_alerts_spaced (c c' : Collector) (outs : list poll_out) (pid : Z) (snap : ProcessSnapshot) :
  polled c outs c' -> procs_ok (procs c) -> procs c !! pid = Some snap ->
  Forall (fun '(_, ps, _) => sm_Start <$> current_map ps !! pid = Some (start snap)) outs ->
  spaced (AlertCooldown (c_cfg c)) (lastCPUAlertAt snap) (cpu_alerts pid outs).
Proof.
  intros H. revert snap. induction H as [c|c details mt ck now order c' outs _ IH|c details mt ck now ps order c1 evs outs c' Hps Hnd Hord Hpoll _ IH];
    intros snap Hok Hs Hall; [done|by apply IH|].
  apply Forall_cons in Hall as [Hh Ht].
  destruct (poll_step_alert c details mt ck now ps order c1 evs pid snap Hok Hps Hnd Hord Hpoll Hs Hh)
    as (Hcfg & Hok1 & snap1 & Hs1 & Hst & Hcase).
  change (cpu_alerts pid ((now, ps, evs) :: outs)) with (cpu_alerts pid ([(now, ps, evs)] ++ outs)).
  unfold cpu_alerts in *. rewrite map_app, concat_app. rewrite <- Hst in Ht. specialize (IH snap1 Hok1 Hs1 Ht). rewrite Hcfg in IH.
  destruct Hcase as [[-> Hl]|[-> [Hl Hlt]]]; rewrite Hl in IH; cbn; [done|]. by split.
Qed.

(** with the built-in patterns, every new process whose command line
    contains "/dev/tcp/" raises a reverse-shell event of critical severity and
    high confidence, and no process raises both a reverse-shell and a
    suspicious event. *)
Theorem reverse_shell_reported (cfg : Config) (snap : ProcessSnapshot) (now : time) (pre post : bytes) (c : Collector) (s : ProcessSnapshot) :
  ps_Cmdline snap = pre ++ B "/dev/tcp/" ++ post ->
  makeReverseShellEvent (c_cfg (NewCollector cfg)) snap now ∈ newProcessEvents (NewCollector cfg) snap now
  /\ (length (pids_of EventProcessReverseShell (newProcessEvents c s now))
      + length (pids_of EventProcessSuspicious (newProcessEvents c s now)) <= 1)%nat.
Proof.
  intros Hcmd. split.
  - assert (Hrs : isReverseShell (NewCollector cfg) (ps_Cmdline snap) = true).
    { unfold isReverseShell. apply existsb_exists. exists (lits (B "/dev/tcp/")). split.
      - cbn [reverseShells NewCollector]. apply list_elem_of_In, list_elem_of_omap. exists "/dev/tcp/".
        split; [apply elem_of_cons; right; by left|]. vm_compute. reflexivity.
      - rewrite Hcmd. apply MatchString_lits; [|done]. repeat (constructor; [by vm_compute|]). constructor. }
    unfold newProcessEvents. rewrite Hrs, !elem_of_app. right. right. by left.
  - unfold newProcessEvents. rewrite !pids_of_app, !length_app.
    destruct (MonitorLifecycle (c_cfg c)), (MonitorTmpPaths (c_cfg c) && isExecFromTmp (ps_Exe s)),
      (isReverseShell c (ps_Cmdline s)), (isSuspicious c (ps_Cmdline s));
      first [exact (le_n 1%nat)|exact (le_S _ _ (le_n 0%nat))].
Qed.

(** *** Witnesses *)
Definition demo_config : Config := {|
  PollInterval := 0; SuspiciousPatterns := []; CPUAlertThreshold := f64_zero; CPUAlertMultiplier := f64_zero;
  MemAlertThreshold := f32_zero; MemAlertMultiplier := f32_zero; AlertCooldown := 0; MonitorLifecycle := true;
  MonitorTmpPaths := true; cfg_Host := {| host_Hostname := "h"; host_IP := "10.0.0.1" |};
  cfg_Agent := {| agent_Name := "yomins-agent"; agent_Version := "1" |} |}.
Definition demo_c : Collector := NewCollector demo_config.
Definition demo_details (_ : Z) : bytes * bytes := (B "/tmp/x", B "bash -c cat</dev/tcp/1.2.3.4/9").
Definition sample (pid start_ cpu : Z) : Sample := {|
  sm_PID := pid; sm_PPID := 1; sm_Name := B "x"; sm_State := 83; sm_Start := start_; sm_CPU := cpu; sm_RSS := 0 |}.
Definition demo_c1 : Collector := with_procs demo_c {[7 := snapshotProcess demo_details (sample 7 100 0) true 5]}.

Lemma demo_c1_ok : procs_ok (procs demo_c1).
Proof. intros pid s H. cbn [demo_c1 with_procs procs] in H. by apply lookup_singleton_Some in H as [<- <-]. Qed.
Lemma demo_c1_order (pid : Z) : pid ∈ [7] <-> is_Some (procs demo_c1 !! pid).
Proof.
  rewrite list_elem_of_singleton. cbn [demo_c1 with_procs procs]. rewrite lookup_singleton_is_Some. naive_solver.
Qed.

Lemma poll_tracks_witness :
  exists c' evs, poll demo_c1 demo_details 0 (f64_of_Z 100) 10 (Some [sample 7 200 0]) [7] = Some (c', evs)
    /\ start <$> procs c' !! 7 = Some 200.
Proof.
  destruct (poll_tracks demo_c1 demo_details 0 (f64_of_Z 100) 10 [sample 7 200 0] [7] demo_c1_ok)
    as (c' & evs & H & _ & Hs & _); [apply NoDup_singleton|apply NoDup_singleton|exact demo_c1_order|].
  exists c', evs. split; [exact H|]. rewrite Hs. reflexivity.
Defined.

Lemma poll_lifecycle_witness :
  exists c' evs, poll demo_c1 demo_details 0 (f64_of_Z 100) 10 (Some [sample 7 200 0]) [7] = Some (c', evs)
    /\ pids_of EventProcessStart evs = [7] /\ pids_of EventProcessStop evs = [7].
Proof.
  destruct (poll_lifecycle demo_c1 demo_details 0 (f64_of_Z 100) 10 [sample 7 200 0] [7] demo_c1_ok)
    as (c' & evs & H & Hs & Ht); [apply NoDup_singleton|apply NoDup_singleton|exact demo_c1_order|reflexivity|].
  exists c', evs. split; [exact H|]. rewrite Hs, Ht. split; reflexivity.
Defined.

Lemma cpu_alerts_spaced_witness :
  exists outs c', polled demo_c1 outs c' /\ length outs = 1%nat /\ spaced (60 * second) time_zero (cpu_alerts 7 outs).
Proof.
  destruct (poll_tracked demo_c1 demo_details 0 (f64_of_Z 100) 10 [sample 7 100 50] [7] demo_c1_ok)
    as (c' & evs & H & _); [apply NoDup_singleton|apply NoDup_singleton|exact demo_c1_order|].
  assert (Hp : polled demo_c1 [(10, [sample 7 100 50], evs)] c').
  { eapply polled_step; [apply NoDup_singleton|apply NoDup_singleton|exact demo_c1_order|exact H|constructor]. }
  exists [(10, [sample 7 100 50], evs)], c'. split; [exact Hp|]. split; [reflexivity|].
  apply (cpu_alerts_spaced demo_c1 c' [(10, [sample 7 100 50], evs)] 7 (snapshotProcess demo_details (sample 7 100 0) true 5)
    Hp demo_c1_ok eq_refl). constructor; [reflexivity|constructor].
Defined.

Lemma reverse_shell_reported_witness :
  makeReverseShellEvent (c_cfg demo_c) (snapshotProcess demo_details (sample 7 100 0) true 5) 9
  ∈ newProcessEvents demo_c (snapshotProcess demo_details (sample 7 100 0) true 5) 9.
Proof.
  apply (reverse_shell_reported demo_config (snapshotProcess demo_details (sample 7 100 0) true 5) 9 (B "bash -c cat<")
    (B "1.2.3.4/9") demo_c (snapshotProcess demo_details (sample 7 100 0) true 5) eq_refl).
Defined.
