(* ===== verification/Loop.v ===== *)
(** * The polling loop of the event collectors

    The collectors of [src/internal/events] share one shape: a state, a
    ticker, and on every tick the events of one look at the host, sent one by
    one to the pipeline; a cancelled context ends the loop at the ticker or in
    the middle of the sends.  A [schedule] is what a run met: the ticks it
    finished and, if it ended inside a tick, that tick and how many of its
    events had been taken.  The same description covers a process that is
    killed there, which is why the theorems about restarts use it too. *)
From S2P Require Import Prelude.
Local Open Scope Z_scope.

Record schedule (I : Type) := { sc_ticks : list I; sc_cut : option (I * nat) }.
Arguments sc_ticks {I} _.
Arguments sc_cut {I} _.

Section Loop.
Context {St I E : Type}.
(** One tick: the state after it and its events; [None] is a panic. *)
Context (tick : St -> I -> option (St * list E)).
(** What a tick that did not finish leaves, from the states before and after. *)
Context (abandon : St -> St -> St).

Fixpoint run_ticks (s : St) (ins : list I) : option (St * list E) :=
  match ins with
  | [] => Some (s, [])
  | i :: rest =>
      '(s1, evs) ← tick s i;
      '(s2, evs') ← run_ticks s1 rest;
      Some (s2, evs ++ evs')
  end.

Definition loop (s : St) (sc : schedule I) : option (St * list E) :=
  '(s1, evs) ← run_ticks s (sc_ticks sc);
  match sc_cut sc with
  | None => Some (s1, evs)
  | Some (i, k) => '(s2, evs') ← tick s1 i; Some (abandon s1 s2, evs ++ take k evs')
  end.

(** ** Lemmas *)

Lemma run_ticks_app (s : St) (l k : list I) :
  run_ticks s (l ++ k) = ('(s1, evs) ← run_ticks s l; '(s2, evs') ← run_ticks s1 k; Some (s2, evs ++ evs')).
Proof.
  revert s. induction l as [|i l IH]; intros s; cbn.
  - by destruct (run_ticks s k) as [[]|].
  - destruct (tick s i) as [[s1 evs]|]; cbn; [|done]. rewrite IH.
    destruct (run_ticks s1 l) as [[s2 evs2]|]; cbn; [|done].
    destruct (run_ticks s2 k) as [[s3 evs3]|]; cbn; [|done]. by rewrite app_assoc.
Qed.

(** An invariant of the ticks, with the events so far. *)
Lemma run_ticks_inv (Inv : St -> list I -> list E -> Prop) (ok : I -> Prop) :
  (forall s seen evs i, Inv s seen evs -> ok i ->
     exists s' evs', tick s i = Some (s', evs') /\ Inv s' (seen ++ [i]) (evs ++ evs')) ->
  forall ins s seen evs, Inv s seen evs -> Forall ok ins ->
  exists s' evs', run_ticks s ins = Some (s', evs') /\ Inv s' (seen ++ ins) (evs ++ evs').
Proof.
  intros Hstep ins. induction ins as [|i ins IH]; intros s seen evs HI Hok; cbn.
  - exists s, []. by rewrite !app_nil_r.
  - inversion Hok as [|? ? Hi His]; subst. destruct (Hstep s seen evs i HI Hi) as (s1 & e1 & -> & H1).
    destruct (IH s1 _ _ H1 His) as (s2 & e2 & Hr & H2). cbn. rewrite Hr. cbn.
    exists s2, (e1 ++ e2). split; [done|]. by rewrite app_assoc, (cons_middle i), app_assoc.
Qed.

(** A run ends on a prefix of what its last tick would have reported. *)
Lemma loop_cut (s s1 s2 : St) (ins : list I) (i : I) (k : nat) (evs evs' : list E) :
  run_ticks s ins = Some (s1, evs) -> tick s1 i = Some (s2, evs') ->
  loop s {| sc_ticks := ins; sc_cut := Some (i, k) |} = Some (abandon s1 s2, evs ++ take k evs')
  /\ run_ticks s (ins ++ [i]) = Some (s2, evs ++ evs').
Proof.
  intros H1 H2. rewrite run_ticks_app. unfold loop. cbn. rewrite H1. cbn. rewrite H2. cbn.
  by rewrite app_nil_r.
Qed.
End Loop.

(** A loop whose unfinished tick leaves the state before it: an invariant that
    further events do not break holds wherever the run ends. *)
Lemma loop_inv {St I E} (tick : St -> I -> option (St * list E)) (Inv : St -> list I -> list E -> Prop) (ok : I -> Prop) :
  (forall s seen evs i, Inv s seen evs -> ok i ->
     exists s' evs', tick s i = Some (s', evs') /\ Inv s' (seen ++ [i]) (evs ++ evs')) ->
  (forall s seen evs more, Inv s seen evs -> Inv s seen (evs ++ more)) ->
  forall s evs sc, Inv s [] evs -> Forall ok (sc_ticks sc) -> (forall i k, sc_cut sc = Some (i, k) -> ok i) ->
  exists s' evs', loop tick (fun s _ => s) s sc = Some (s', evs') /\ Inv s' (sc_ticks sc) (evs ++ evs').
Proof.
  intros Hstep Hmore s evs [ins cut] H0 Hok Hcut. cbn [sc_ticks sc_cut] in *. unfold loop. cbn [sc_ticks sc_cut].
  destruct (run_ticks_inv tick Inv ok Hstep ins s [] evs H0 Hok) as (s1 & e1 & -> & H1). cbn [mbind option_bind].
  destruct cut as [[i k]|]; [|by eauto].
  destruct (Hstep s1 _ _ i H1 (Hcut _ _ eq_refl)) as (s2 & e2 & -> & _). cbn.
  eexists _, _. split; [done|]. rewrite app_assoc. by apply Hmore.
Qed.
