(* ===== verification/ProcessRun.v ===== *)
(** * The run of the process event collector

    [Run] of [src/internal/events/process/collector.go]: a baseline, then one
    poll per tick, its events sent in order until the context is cancelled.
    The theorem compares the whole stream of a run with an observer that keeps
    the set of running processes from the start and stop events alone. *)
From stdpp Require Import sets.
From S2P Require Import Prelude GoFloat GoStrings GoNum GoRegexp Events Procfs ProcessEvents Loop.
Local Open Scope Z_scope.

(** What one poll meets: the answers of the process source, the clock, and
    the order in which Go iterates over the map of tracked processes. *)
Record look := {
  lk_details : Z -> bytes * bytes; lk_memTotal : Z; lk_clockTicks : float64; lk_now : time;
  lk_listing : option (list Sample); lk_order : list Z -> list Z }.

Definition poll_tick (c : Collector) (l : look) : option (Collector * list pending) :=
  poll c (lk_details l) (lk_memTotal l) (lk_clockTicks l) (lk_now l) (lk_listing l)
    (lk_order l (map fst (map_to_list (procs c)))).

(** The tracked processes are updated before the events are sent. *)
Definition Run (c : Collector) (details : Z -> bytes * bytes) (listing : option (list Sample)) (now : time)
    (sc : schedule look) : option (Collector * list pending) :=
  loop poll_tick (fun _ c' => c') (buildBaseline c details listing now) sc.

(** ** The observer *)

(** A start of a running process and a stop of one that does not run are
    errors. *)
Definition observe (st : option (gset Z)) (mk : pending) : option (gset Z) :=
  running ← st;
  match pend_type mk, pend_pid mk with
  | EventProcessStart, Some pid => if decide (pid ∈ running) then None else Some ({[pid]} ∪ running)
  | EventProcessStop, Some pid => if decide (pid ∈ running) then Some (running ∖ {[pid]}) else None
  | _, _ => Some running
  end.
Definition replay (running : gset Z) (evs : list pending) : option (gset Z) := foldl observe (Some running) evs.

(** The listings a run has seen, the baseline first (empty when it failed). *)
Definition listings (b : option (list Sample)) (ls : list look) : list (list Sample) :=
  default [] b :: omap lk_listing ls.
Definition ident (p : Sample) : Z * Z := (sm_PID p, sm_Start p).
Definition persists (ls : list (list Sample)) (who : Z * Z) : Prop := Forall (fun ps => who ∈ map ident ps) ls.
Definition latest (ls : list (list Sample)) : list Sample := default [] (last ls).

Definition look_ok (l : look) : Prop :=
  (forall ps, lk_listing l = Some ps -> base.NoDup (map sm_PID ps)) /\ (forall o, lk_order l o ≡ₚ o).

(** ** Lemmas *)
Lemma observe_None (evs : list pending) : foldl observe None evs = None.
Proof. by induction evs. Qed.

Lemma replay_app (s : gset Z) (l k : list pending) : replay s (l ++ k) = (s' ← replay s l; replay s' k).
Proof.
  unfold replay. rewrite foldl_app. destruct (foldl observe (Some s) l); [done|]. apply observe_None.
Qed.

Lemma replay_take (s s' : gset Z) (evs : list pending) (k : nat) :
  replay s evs = Some s' -> is_Some (replay s (take k evs)).
Proof.
  rewrite <- (take_drop k evs) at 1. rewrite replay_app. destruct (replay s (take k evs)); cbn; [eauto|done].
Qed.

Lemma replay_stops (evs : list pending) (s : gset Z) :
  pids_of EventProcessStart evs = [] -> base.NoDup (pids_of EventProcessStop evs) ->
  (forall pid, pid ∈ pids_of EventProcessStop evs -> pid ∈ s) ->
  replay s evs = Some (s ∖ list_to_set (pids_of EventProcessStop evs)).
Proof.
  revert s. induction evs as [|mk evs IH]; intros s H1 H2 H3.
  - unfold replay. cbn. f_equal. set_solver.
  - unfold replay in *. cbn [foldl]. unfold pids_of in *. cbn [omap list_omap] in *. unfold observe at 2. cbn [mbind option_bind].
    destruct (pend_type mk) eqn:Ht; cbn -[list_to_set] in *; try by apply IH.
    + destruct (pend_pid mk) as [pid|]; [done|]. by apply IH.
    + destruct (pend_pid mk) as [pid|]; [|by apply IH]. rewrite decide_True by (apply H3; by left).
      inversion H2; subst. rewrite IH; [|done..|set_solver]. f_equal. set_solver.
Qed.

Lemma replay_starts (evs : list pending) (s : gset Z) :
  pids_of EventProcessStop evs = [] -> base.NoDup (pids_of EventProcessStart evs) ->
  (forall pid, pid ∈ pids_of EventProcessStart evs -> pid ∉ s) ->
  replay s evs = Some (list_to_set (pids_of EventProcessStart evs) ∪ s).
Proof.
  revert s. induction evs as [|mk evs IH]; intros s H1 H2 H3.
  - unfold replay. cbn. f_equal. set_solver.
  - unfold replay in *. cbn [foldl]. unfold pids_of in *. cbn [omap list_omap] in *. unfold observe at 2. cbn [mbind option_bind].
    destruct (pend_type mk) eqn:Ht; cbn -[list_to_set] in *; try by apply IH.
    + destruct (pend_pid mk) as [pid|]; [|by apply IH]. rewrite decide_False by (apply H3; by left).
      inversion H2; subst. rewrite IH; [|done..|set_solver]. f_equal. set_solver.
    + destruct (pend_pid mk) as [pid|]; [done|]. by apply IH.
Qed.

(** What is tracked is the latest listing, and what is tracked as new is
    what was not there in every listing since the baseline. *)
Record tracking (c : Collector) (ls : list (list Sample)) : Prop := {
  tr_ok : procs_ok (procs c);
  tr_lifecycle : MonitorLifecycle (c_cfg c) = true;
  tr_listed : forall pid s, procs c !! pid = Some s -> (pid, start s) ∈ map ident (latest ls);
  tr_tracked : forall p, p ∈ latest ls -> exists s, procs c !! sm_PID p = Some s /\ start s = sm_Start p;
  tr_new : forall pid s, procs c !! pid = Some s -> isNew s = false <-> persists ls (pid, start s) }.

Definition running_new (c : Collector) (s : gset Z) : Prop :=
  forall pid, pid ∈ s <-> exists snap, procs c !! pid = Some snap /\ isNew snap = true.

Lemma latest_snoc (ls : list (list Sample)) (ps : list Sample) : latest (ls ++ [ps]) = ps.
Proof. unfold latest. by rewrite last_snoc. Qed.

Lemma persists_latest (ls : list (list Sample)) (who : Z * Z) : ls <> [] -> persists ls who -> who ∈ map ident (latest ls).
Proof.
  intros Hne H. destruct ls as [|x ls] using rev_ind; [done|]. rewrite latest_snoc.
  apply Forall_app in H as [_ H]. by inversion H.
Qed.

Lemma fresh_not_persists (c : Collector) (ls : list (list Sample)) (p : Sample) :
  ls <> [] -> tracking c ls -> fresh c p = true -> ~ persists ls (ident p).
Proof.
  intros Hne [_ _ _ H _] Hf Hp. apply persists_latest in Hp; [|done].
  apply list_elem_of_fmap in Hp as (q & [= Hpid Hq] & Hin). destruct (H q Hin) as (s & Hs & Hst).
  unfold fresh in Hf. rewrite Hpid, Hs in Hf. lia.
Qed.

Lemma tracked_order (c : Collector) (l : look) :
  look_ok l -> let o := lk_order l (map fst (map_to_list (procs c))) in
  base.NoDup o /\ (forall pid, pid ∈ o <-> is_Some (procs c !! pid)).
Proof.
  intros [_ Ho] o. subst o. split.
  - rewrite Ho. apply NoDup_fst_map_to_list.
  - intros pid. rewrite Ho, list_elem_of_fmap. split.
    + intros ([k s] & -> & H%elem_of_map_to_list). by exists s.
    + intros [s Hs]. exists (pid, s). split; [done|]. by apply elem_of_map_to_list.
Qed.

Lemma NoDup_List_filter {A} (t : A -> bool) (l : list A) : base.NoDup l -> base.NoDup (List.filter t l).
Proof.
  induction 1 as [|x l Hx Hl IH]; cbn; [constructor|]. destruct (t x); [|done]. constructor; [|done].
  intros [H _]%list_elem_of_In%filter_In. by apply Hx, list_elem_of_In.
Qed.

Lemma NoDup_map_filter {A B} (f : A -> B) (t : A -> bool) (l : list A) : base.NoDup (map f l) -> base.NoDup (map f (List.filter t l)).
Proof.
  induction l as [|x l IH]; cbn; [done|]. intros [Hx Hl]%NoDup_cons. destruct (t x); [|by apply IH]. cbn. constructor; [|by apply IH].
  intros (y & Hy & [Hin _]%list_elem_of_In%filter_In)%list_elem_of_fmap. apply Hx. rewrite Hy. apply list_elem_of_fmap.
  exists y. by rewrite list_elem_of_In.
Qed.

Lemma NoDup_fmap_inj_on {A B} (f : A -> B) (l : list A) (x y : A) :
  base.NoDup (map f l) -> x ∈ l -> y ∈ l -> f x = f y -> x = y.
Proof.
  induction l as [|z l IH]; cbn; [by intros _ ?%not_elem_of_nil|]. intros [Hz Hl]%NoDup_cons [->|Hx]%elem_of_cons [->|Hy]%elem_of_cons Hf; [done| | |by apply IH].
  - destruct Hz. rewrite Hf. by apply list_elem_of_fmap_2.
  - destruct Hz. rewrite <- Hf. by apply list_elem_of_fmap_2.
Qed.

Lemma tracking_step (c : Collector) (m' : gmap Z ProcessSnapshot) (ls : list (list Sample)) (ps : list Sample) :
  ls <> [] -> tracking c ls ->
  (forall pid, pid ∉ map sm_PID ps -> m' !! pid = None) ->
  (forall p, p ∈ ps -> exists s, m' !! sm_PID p = Some s /\ snap_ok s /\ ps_PID s = sm_PID p /\ start s = sm_Start p
     /\ isNew s = (if fresh c p then true else default true (isNew <$> procs c !! sm_PID p))) ->
  tracking (with_procs c m') (ls ++ [ps]).
Proof.
  intros Hne Ht Hout Hin. pose proof (fun p => fresh_not_persists c ls p Hne Ht) as Hfresh.
  destruct Ht as [H1 H2 H3 H4 H5].
  assert (Hm : forall pid s, m' !! pid = Some s -> exists p, p ∈ ps /\ pid = sm_PID p /\ snap_ok s /\ ps_PID s = pid
      /\ start s = sm_Start p /\ isNew s = (if fresh c p then true else default true (isNew <$> procs c !! pid))).
  { intros pid s Hs. destruct (decide (pid ∈ map sm_PID ps)) as [(p & -> & Hp)%list_elem_of_fmap|Hn].
    - destruct (Hin p Hp) as (s' & Hs' & Hrest). simplify_eq. exists p. naive_solver.
    - by rewrite Hout in Hs. }
  constructor; cbn [procs with_procs c_cfg]; rewrite ?latest_snoc.
  - intros pid s (p & _ & _ & ? & ? & _)%Hm. done.
  - done.
  - intros pid s (p & Hp & -> & _ & _ & -> & _)%Hm. apply list_elem_of_fmap. by exists p.
  - intros p Hp. destruct (Hin p Hp) as (s & Hs & _ & _ & Hst & _). eauto.
  - intros pid s (p & Hp & -> & _ & _ & -> & ->)%Hm. unfold persists. rewrite Forall_app, Forall_singleton.
    assert (Hid : (sm_PID p, sm_Start p) ∈ map ident ps) by (apply list_elem_of_fmap; by exists p).
    destruct (fresh c p) eqn:Hf.
    + split; [done|]. intros [Hper _]. by destruct (Hfresh p Hf).
    + unfold fresh in Hf. destruct (procs c !! sm_PID p) as [s0|] eqn:Hs0; [|done]. cbn.
      apply negb_false_iff, Z.eqb_eq in Hf. rewrite (H5 _ _ Hs0), <- Hf. rewrite Hf in Hid |- *. tauto.
Qed.

Lemma observed_step (c : Collector) (m' : gmap Z ProcessSnapshot) (ps : list Sample) (order : list Z)
    (stops news : list pending) (s : gset Z) :
  running_new c s -> base.NoDup order -> base.NoDup (map sm_PID ps) ->
  (forall pid, pid ∈ order <-> is_Some (procs c !! pid)) ->
  pids_of EventProcessStart stops = [] -> pids_of EventProcessStop stops = List.filter (gone c ps) order ->
  pids_of EventProcessStart news = map sm_PID (List.filter (fresh c) ps) -> pids_of EventProcessStop news = [] ->
  (forall pid, pid ∉ map sm_PID ps -> m' !! pid = None) ->
  (forall p, p ∈ ps -> exists s, m' !! sm_PID p = Some s
     /\ isNew s = (if fresh c p then true else default true (isNew <$> procs c !! sm_PID p))) ->
  exists s', replay s (stops ++ news) = Some s' /\ running_new (with_procs c m') s'.
Proof.
  intros Hrun Hnd Hps Hord H1 H2 H3 H4 Hout Hin.
  assert (Hgone : forall pid, pid ∈ List.filter (gone c ps) order <-> gone c ps pid = true).
  { intros pid. rewrite list_elem_of_In, filter_In, <- list_elem_of_In, Hord. unfold gone.
    destruct (procs c !! pid); [naive_solver|]. split; [by intros [[? [=]] _]|done]. }
  assert (Hfr : forall pid, pid ∈ map sm_PID (List.filter (fresh c) ps) <-> exists p, p ∈ ps /\ pid = sm_PID p /\ fresh c p = true).
  { intros pid. rewrite list_elem_of_fmap. setoid_rewrite list_elem_of_In. setoid_rewrite filter_In. naive_solver. }
  rewrite replay_app, replay_stops; [|done|rewrite H2; by apply NoDup_List_filter|].
  2:{ intros pid. rewrite H2, Hgone, (Hrun pid). unfold gone. destruct (procs c !! pid) as [s0|]; [|done].
      intros [_ ?]%andb_true_iff. eauto. }
  cbn [mbind option_bind]. rewrite replay_starts; [|done| |].
  2:{ rewrite H3. by apply NoDup_map_filter. }
  2:{ intros pid. rewrite H2, H3, Hfr. intros (p & Hp & -> & Hf). rewrite elem_of_difference, elem_of_list_to_set, Hgone, (Hrun _).
      intros [(s0 & Hs0 & Hn) Hg]. apply Hg. unfold gone, alive, fresh in *. rewrite Hs0, Hn in *.
      rewrite (current_map_lookup ps p) by done. by rewrite Hf. }
  eexists. split; [done|]. intros pid. rewrite H2, H3, elem_of_union, elem_of_difference, !elem_of_list_to_set, Hfr, Hgone, (Hrun pid).
  cbn [procs with_procs]. destruct (decide (pid ∈ map sm_PID ps)) as [(p & -> & Hp)%list_elem_of_fmap|Hn].
  - destruct (Hin p Hp) as (s' & Hs' & Hnew). rewrite Hs'. unfold gone, alive in *. unfold fresh in Hnew.
    rewrite (current_map_lookup ps p) by done. split.
    + intros [(q & Hq & Hpq & Hf)|[(s0 & Hs0 & Hn0) Hg]].
      * assert (p = q) as <- by (by eapply NoDup_fmap_inj_on). unfold fresh in Hf. rewrite Hf in Hnew. eauto.
      * rewrite Hs0 in *. rewrite Hn0, andb_true_r in Hg. apply not_true_is_false in Hg. rewrite Hg in Hnew. cbn in Hnew.
        exists s'. by rewrite Hnew.
    + intros (s'' & [= <-] & Hn'). rewrite Hn' in Hnew. destruct (fresh c p) eqn:Hf; [left; by exists p|].
      right. unfold fresh in Hf. destruct (procs c !! sm_PID p) as [s0|]; [|done]. rewrite Hf in *. cbn in Hnew.
      split; [by exists s0|]. done.
  - rewrite Hout by done. split.
    + intros [(p & Hp & -> & _)|[(s0 & Hs0 & Hn0) Hg]].
      * destruct Hn. apply list_elem_of_fmap. by exists p.
      * destruct Hg. unfold gone, alive. by rewrite Hs0, current_map_None, Hn0.
    + by intros (? & ? & _).
Qed.

Lemma poll_tick_step (c : Collector) (l : look) (ls : list (list Sample)) (s : gset Z) :
  ls <> [] -> look_ok l -> tracking c ls -> running_new c s ->
  exists c' evs s', poll_tick c l = Some (c', evs) /\ tracking c' (ls ++ omap lk_listing [l])
    /\ replay s evs = Some s' /\ running_new c' s'.
Proof.
  intros Hne Hok Ht Hr. destruct (tracked_order c l Hok) as [Hnd Hord]. unfold poll_tick. cbn [omap list_omap].
  destruct (lk_listing l) as [ps|] eqn:Hl.
  - pose proof (proj1 Hok ps Hl) as Hps.
    destruct (poll_parts c (lk_details l) (lk_memTotal l) (lk_clockTicks l) (lk_now l) ps _ (tr_ok _ _ Ht) Hps Hnd Hord (tr_lifecycle _ _ Ht))
      as (m' & stops & news & -> & H1 & H2 & H3 & H4 & Hout & Hin).
    destruct (observed_step c m' ps _ stops news s Hr Hnd Hps Hord H1 H2 H3 H4 Hout) as (s' & Hs' & Hr').
    { intros p (s0 & ? & _ & _ & _ & ?)%Hin. eauto. }
    exists (with_procs c m'), (stops ++ news), s'. split_and!; [done|by apply tracking_step|done..].
  - exists c, [], s. rewrite app_nil_r. done.
Qed.

Lemma baseline_map (details : Z -> bytes * bytes) (now : time) (ps : list Sample) :
  base.NoDup (map sm_PID ps) ->
  let m := foldl (fun m p => <[sm_PID p := snapshotProcess details p false now]> m) (∅ : gmap Z ProcessSnapshot) ps in
  (forall p, p ∈ ps -> m !! sm_PID p = Some (snapshotProcess details p false now))
  /\ (forall pid, pid ∉ map sm_PID ps -> m !! pid = None).
Proof.
  cbn zeta. induction ps as [|p ps IH] using rev_ind.
  - split; [by intros p ?%not_elem_of_nil|done].
  - rewrite map_app, NoDup_app. intros (Hnd & Hd & _). destruct (IH Hnd) as [H1 H2]. rewrite foldl_app. cbn [foldl]. split.
    + intros q [Hq| ->%list_elem_of_singleton]%elem_of_app; [|by rewrite lookup_insert_eq].
      rewrite lookup_insert_ne; [by apply H1|]. intros He. apply (Hd (sm_PID q)); [by apply list_elem_of_fmap_2|].
      rewrite <- He. by left.
    + intros pid Hpid. rewrite lookup_insert_ne; [apply H2; set_solver|set_solver].
Qed.

Lemma baseline_tracking (cfg : Config) (details : Z -> bytes * bytes) (b : option (list Sample)) (now : time) :
  (forall ps, b = Some ps -> base.NoDup (map sm_PID ps)) -> MonitorLifecycle cfg = true ->
  let c := buildBaseline (NewCollector cfg) details b now in
  tracking c (listings b []) /\ running_new c ∅.
Proof.
  intros Hb Hml c. subst c. unfold listings. cbn [omap list_omap]. destruct b as [ps|]; cbn [default buildBaseline].
  - destruct (baseline_map details now ps (Hb ps eq_refl)) as [H1 H2].
    assert (Hm : forall pid s, procs (with_procs (NewCollector cfg) (foldl (fun m p => <[sm_PID p := snapshotProcess details p false now]> m)
        (procs (NewCollector cfg)) ps)) !! pid = Some s -> exists p, p ∈ ps /\ pid = sm_PID p /\ s = snapshotProcess details p false now).
    { cbn [procs with_procs NewCollector]. intros pid s Hs.
      destruct (decide (pid ∈ map sm_PID ps)) as [(p & -> & Hp)%list_elem_of_fmap|Hn]; [|by rewrite H2 in Hs].
      rewrite H1 in Hs by done. exists p. naive_solver. }
    split.
    + constructor; try done.
      * intros pid s (p & Hp & -> & ->)%Hm. pose proof (snapshot_ok details p false now). naive_solver.
      * intros pid s (p & Hp & -> & ->)%Hm. cbn. apply list_elem_of_fmap. exists p. split; [|done].
        unfold ident. f_equal. by apply snapshot_ok.
      * intros p Hp. eexists. split; [by apply H1|]. by apply snapshot_ok.
      * intros pid s (p & Hp & -> & ->)%Hm. pose proof (snapshot_ok details p false now) as (_ & _ & -> & ->).
        split; [|done]. intros _. constructor; [|constructor]. apply list_elem_of_fmap. by exists p.
    + intros pid. split; [set_solver|]. intros (s & (p & _ & _ & ->)%Hm & Hn).
      pose proof (snapshot_ok details p false now) as (_ & _ & _ & ?). congruence.
  - split.
    + constructor; try done. intros p Hp. by apply not_elem_of_nil in Hp.
    + intros pid. split; [set_solver|]. by intros (s & ? & _).
Qed.

Lemma run_tracking (cfg : Config) (details : Z -> bytes * bytes) (b : option (list Sample)) (now : time) (ls : list look) :
  (forall ps, b = Some ps -> base.NoDup (map sm_PID ps)) -> MonitorLifecycle cfg = true -> Forall look_ok ls ->
  exists c' evs s, run_ticks poll_tick (buildBaseline (NewCollector cfg) details b now) ls = Some (c', evs)
    /\ tracking c' (listings b ls) /\ replay ∅ evs = Some s /\ running_new c' s.
Proof.
  intros Hb Hml Hls. destruct (baseline_tracking cfg details b now Hb Hml) as [H1 H2].
  destruct (run_ticks_inv poll_tick (fun c seen evs => tracking c (listings b seen) /\ exists s, replay ∅ evs = Some s /\ running_new c s)
    look_ok) with (ins := ls) (s := buildBaseline (NewCollector cfg) details b now) (seen := @nil look) (evs := @nil pending)
    as (c' & evs & Hr & Ht & s & Hs); [|by eauto|done|].
  - intros c seen evs l [Ht (s & Hs & Hrn)] Hl.
    destruct (poll_tick_step c l (listings b seen) s) as (c' & evs' & s' & -> & Ht' & Hs' & Hrn'); [done..|].
    eexists _, _. split; [done|]. unfold listings in *. rewrite omap_app. split; [done|].
    exists s'. rewrite replay_app, Hs. done.
  - exists c', evs, s. done.
Qed.

(** ** Property *)

(** C16: the stream of start and stop events of a whole run is one an observer
    can follow: a run never panics, no process is reported as started while it
    is running by the stream or as stopped while it is not, wherever the run
    ends, also in the middle of sending.  When it ends between two polls the
    processes that run by the stream are exactly those of the latest listing
    that were not in every listing since the baseline (a PID that was reused
    counts as another process). *)
Theorem run_observable (cfg : Config) (details : Z -> bytes * bytes) (b : option (list Sample)) (now : time) (sc : schedule look) :
  (forall ps, b = Some ps -> base.NoDup (map sm_PID ps)) -> MonitorLifecycle cfg = true ->
  Forall look_ok (sc_ticks sc) -> (forall l k, sc_cut sc = Some (l, k) -> look_ok l) ->
  exists c' evs s, Run (NewCollector cfg) details b now sc = Some (c', evs) /\ replay ∅ evs = Some s
    /\ (sc_cut sc = None -> forall pid, pid ∈ s <-> exists p, p ∈ latest (listings b (sc_ticks sc)) /\ sm_PID p = pid
          /\ ~ persists (listings b (sc_ticks sc)) (ident p)).
Proof.
  intros Hb Hml Hls Hcut. destruct (run_tracking cfg details b now _ Hb Hml Hls) as (c1 & evs & s & Hr & Ht & Hs & Hn).
  unfold Run, loop. rewrite Hr. cbn [mbind option_bind]. destruct (sc_cut sc) as [[l k]|] eqn:Hc.
  - destruct (poll_tick_step c1 l (listings b (sc_ticks sc)) s) as (c2 & evs2 & s2 & -> & _ & Hs2 & _); [by eauto..|].
    cbn. destruct (replay_take _ _ _ k Hs2) as [s3 Hs3]. exists c2, (evs ++ take k evs2), s3.
    split; [done|]. rewrite replay_app, Hs. done.
  - exists c1, evs, s. split_and!; [done..|]. intros _ pid. rewrite (Hn pid). split.
    + intros (snap & Hsnap & Hnew). pose proof (tr_listed _ _ Ht _ _ Hsnap) as (p & Hp & Hin)%list_elem_of_fmap.
      exists p. unfold ident in *. injection Hp as -> Hst. split_and!; [done..|]. intros Hper.
      pose proof (proj2 (tr_new _ _ Ht _ _ Hsnap)) as H. rewrite Hst in H. rewrite H in Hnew; done.
    + intros (p & Hp & <- & Hper). destruct (tr_tracked _ _ Ht p Hp) as (snap & Hsnap & Hst). exists snap. split; [done|].
      apply not_false_is_true. intros Hf. apply Hper. unfold ident. rewrite <- Hst. by apply (tr_new _ _ Ht _ _ Hsnap).
Qed.

(** *** Witness *)

(** Process 7 is there from the start, 8 appears, 7 is replaced by another
    process of the same number, 8 ends. *)
Definition demo_look (l : option (list Sample)) : look := {|
  lk_details := demo_details; lk_memTotal := 1000; lk_clockTicks := f64_of_Z 100; lk_now := 9; lk_listing := l;
  lk_order := fun o => o |}.
Definition demo_run : schedule look := {|
  sc_ticks := [demo_look (Some [sample 7 100 0; sample 8 150 0]); demo_look None; demo_look (Some [sample 7 300 0])];
  sc_cut := None |}.

Lemma demo_look_ok (l : option (list Sample)) :
  bool_decide (base.NoDup (map sm_PID (default [] l))) = true -> look_ok (demo_look l).
Proof. intros H%bool_decide_eq_true. split; [|done]. cbn. by intros ps ->. Qed.

Example demo_run_events :
  map (fun mk => (pend_type mk, pend_pid mk))
    (List.filter (fun mk => bool_decide (pend_type mk = EventProcessStart) || bool_decide (pend_type mk = EventProcessStop))
      (default [] (snd <$> Run (NewCollector demo_config) demo_details (Some [sample 7 100 0]) 5 demo_run)))
  = [(EventProcessStart, Some 8); (EventProcessStop, Some 8); (EventProcessStart, Some 7)].
Proof. vm_compute. reflexivity. Qed.

Lemma run_observable_witness :
  exists c' evs s, Run (NewCollector demo_config) demo_details (Some [sample 7 100 0]) 5 demo_run = Some (c', evs)
    /\ replay ∅ evs = Some s /\ 7 ∈ s.
Proof.
  destruct (run_observable demo_config demo_details (Some [sample 7 100 0]) 5 demo_run) as (c' & evs & s & H1 & H2 & H3).
  - intros ps [= <-]. apply (bool_decide_eq_true_1 _). reflexivity.
  - reflexivity.
  - repeat constructor; (apply demo_look_ok; reflexivity).
  - intros l k [=].
  - exists c', evs, s. split; [exact H1|]. split; [exact H2|]. apply (H3 eq_refl). exists (sample 7 300 0).
    split; [by left|]. split; [reflexivity|]. intros Hp. apply Forall_inv in Hp.
    apply (bool_decide_eq_true_2 _) in Hp. vm_compute in Hp. discriminate Hp.
Defined.
