(* ===== verification/NetworkRun.v ===== *)
(** * The run of the network event collector

    [Run] of [src/internal/events/network/collector.go]: the first scan is
    the baseline, and if it fails the collector stops for good; then one poll
    per tick.  The theorem gives the listeners a whole run reports in terms of
    the scans alone. *)
From S2P Require Import Prelude GoFloat GoStrings GoNum Events NetworkEvents Loop.
Local Open Scope Z_scope.

Abbreviation scan := (file_error + (list listenEntry * Z))%type.

Record look := { lk_uuid : nat -> string; lk_now : time; lk_scan : scan }.

Definition poll_tick (c : Collector) (l : look) : option (Collector * list Event) :=
  Some (poll (lk_uuid l) (lk_now l) c (lk_scan l)).

Definition Run (c : Collector) (first : scan) (sc : schedule look) : option (Collector * list Event) :=
  match baseline c first with
  | None => Some (c, [])
  | Some c1 => loop poll_tick (fun _ c' => c') c1 sc
  end.

(** ** The reference: what appeared from one scan to the next *)
Definition scanned (s : scan) : option (list listenEntry) := match s with inl _ => None | inr (ls, _) => Some ls end.
Definition appears (prev cur : list listenEntry) : list listenEntry :=
  List.filter (fun l => negb (bool_decide (key l ∈ map key prev))) cur.
Fixpoint appeared (prev : list listenEntry) (scans : list (list listenEntry)) : list listenEntry :=
  match scans with
  | [] => []
  | cur :: rest => appears prev cur ++ appeared cur rest
  end.

Definition reported (ty : EventType) (evs : list Event) : list (option NetworkDetail) :=
  map ev_Network (List.filter (of_type ty) evs).
Definition details (ls : list listenEntry) : list (option NetworkDetail) := map (fun l => Some (listen_detail l)) ls.

(** ** Lemmas *)
Definition knows (c : Collector) (prev : list listenEntry) : Prop :=
  forall k, is_Some (prevListen c !! k) <-> k ∈ map key prev.

Lemma reported_app (ty : EventType) (l k : list Event) : reported ty (l ++ k) = reported ty l ++ reported ty k.
Proof. unfold reported. by rewrite List.filter_app, map_app. Qed.

Lemma reported_take (ty : EventType) (evs : list Event) (k : nat) : reported ty (take k evs) `prefix_of` reported ty evs.
Proof. exists (reported ty (drop k evs)). by rewrite <- reported_app, take_drop. Qed.

Lemma unseen_appears (c : Collector) (prev cur : list listenEntry) : knows c prev -> List.filter (unseen c) cur = appears prev cur.
Proof.
  intros H. apply filter_ext. intros l. unfold unseen. specialize (H (key l)).
  destruct (prevListen c !! key l); case_bool_decide; cbn; case_bool_decide; naive_solver.
Qed.

Lemma poll_knows (uuid : nat -> string) (now : time) (c : Collector) (prev : list listenEntry) (s : scan) :
  knows c prev ->
  let '(c', evs) := poll uuid now c s in
  knows c' (default prev (scanned s))
  /\ (forall ty, ty = EventNetworkConnectionOpen \/ ty = EventNetworkSuspiciousPort ->
      reported ty evs = details (default [] (appears prev <$> scanned s))).
Proof.
  intros Hk. destruct s as [e|[ls total]]; [done|]. cbn [poll scanned default fmap option_fmap option_map].
  pose proof (poll_listeners uuid now c ls) as H. destruct (foldl _ _ ls) as [cur evs]. destruct H as (H1 & H2 & H3 & _).
  split; [exact H1|]. intros ty Hty. unfold details. cbn. rewrite <- (unseen_appears c) by done.
  assert (Hscan : reported ty [makeScanDetectedEvent (c_cfg c) (uuid (length evs)) now] = []) by (by destruct Hty as [-> | ->]).
  destruct (burst c total); [rewrite reported_app, Hscan, app_nil_r|]; by destruct Hty as [-> | ->].
Qed.

Lemma baseline_knows (c c1 : Collector) (first : scan) (ls0 : list listenEntry) :
  prevListen c = ∅ -> scanned first = Some ls0 -> baseline c first = Some c1 -> knows c1 ls0.
Proof.
  destruct first as [e|[ls total]]; [done|]. cbn. intros Hc [= ->] [= <-]. unfold knows. cbn. rewrite Hc.
  induction ls0 as [|l ls IH] using rev_ind; intros k; cbn.
  - rewrite lookup_empty. split; [by intros []|by intros ?%not_elem_of_nil].
  - rewrite foldl_app, map_app, elem_of_app, <- IH. cbn. rewrite lookup_insert, list_elem_of_singleton.
    case_decide; naive_solver.
Qed.

Lemma appeared_step (prev : list listenEntry) (scans : list (list listenEntry)) (s : option (list listenEntry)) :
  appeared prev (scans ++ option_list s)
  = appeared prev scans ++ default [] (appears (default prev (last scans)) <$> s).
Proof.
  destruct s as [cur|]; cbn; [|by rewrite !app_nil_r].
  revert prev. induction scans as [|x scans IH]; intros prev; cbn [appeared app]; [by rewrite app_nil_r|].
  rewrite IH, app_assoc, last_cons. by destruct (last scans).
Qed.

Lemma run_appeared (c1 : Collector) (ls0 : list listenEntry) (ls : list look) :
  knows c1 ls0 ->
  exists c' evs, run_ticks poll_tick c1 ls = Some (c', evs)
    /\ knows c' (default ls0 (last (omap (scanned ∘ lk_scan) ls)))
    /\ (forall ty, ty = EventNetworkConnectionOpen \/ ty = EventNetworkSuspiciousPort ->
        reported ty evs = details (appeared ls0 (omap (scanned ∘ lk_scan) ls))).
Proof.
  intros Hk.
  destruct (run_ticks_inv poll_tick (fun c seen evs => knows c (default ls0 (last (omap (scanned ∘ lk_scan) seen)))
      /\ (forall ty, ty = EventNetworkConnectionOpen \/ ty = EventNetworkSuspiciousPort ->
          reported ty evs = details (appeared ls0 (omap (scanned ∘ lk_scan) seen)))) (fun _ => True))
    with (ins := ls) (s := c1) (seen := @nil look) (evs := @nil Event) as (c' & evs & Hr & Hi).
  - intros c seen evs l [Hkn Hrep] _. unfold poll_tick.
    pose proof (poll_knows (lk_uuid l) (lk_now l) c _ (lk_scan l) Hkn) as H.
    destruct (poll _ _ c (lk_scan l)) as [c' evs']. destruct H as [Hkn' Hrep']. eexists _, _. split; [done|].
    assert (He : omap (scanned ∘ lk_scan) (seen ++ [l]) = omap (scanned ∘ lk_scan) seen ++ option_list (scanned (lk_scan l))).
    { rewrite omap_app. cbn. by destruct (scanned (lk_scan l)). }
    rewrite He. split.
    + destruct (scanned (lk_scan l)); cbn in *; [by rewrite last_snoc|by rewrite app_nil_r].
    + intros ty Hty. rewrite reported_app, Hrep, Hrep', appeared_step by done. unfold details. by rewrite map_app.
  - split; [done|]. intros ty _. done.
  - by apply Forall_true.
  - exists c', evs. done.
Qed.

(** ** Property *)

(** C20: a whole run reports a listening socket exactly when it appears: the
    connection-open events of a run that ends between two polls name, in
    order, the listeners of each successful scan that the successful scan
    before it did not have, the first scan being the silent baseline; the
    suspicious-port events name the same.  A run that ends while sending has
    reported a prefix of them, a failed scan changes nothing, and when the
    first scan fails nothing is ever reported. *)
Theorem run_reports_appearances (cfg : Config) (first : scan) (sc : schedule look) (ty : EventType) :
  ty = EventNetworkConnectionOpen \/ ty = EventNetworkSuspiciousPort ->
  exists c' evs, Run (NewCollector cfg) first sc = Some (c', evs)
    /\ match scanned first with
       | None => evs = []
       | Some ls0 =>
           let scans := omap (scanned ∘ lk_scan) (sc_ticks sc) in
           match sc_cut sc with
           | None => reported ty evs = details (appeared ls0 scans)
           | Some (l, _) => details (appeared ls0 scans) `prefix_of` reported ty evs
               /\ reported ty evs `prefix_of` details (appeared ls0 (scans ++ option_list (scanned (lk_scan l))))
           end
       end.
Proof.
  intros Hty. unfold Run. destruct (baseline (NewCollector cfg) first) as [c1|] eqn:Hb.
  - destruct (scanned first) as [ls0|] eqn:Hs; [|by destruct first as [|[]]].
    pose proof (baseline_knows (NewCollector cfg) _ _ _ eq_refl Hs Hb) as Hk.
    destruct (run_appeared c1 ls0 (sc_ticks sc) Hk) as (c' & evs & Hr & Hk' & Hrep). unfold loop. rewrite Hr. cbn [mbind option_bind].
    destruct (sc_cut sc) as [[l k]|].
    + unfold poll_tick. pose proof (poll_knows (lk_uuid l) (lk_now l) c' _ (lk_scan l) Hk') as H.
      destruct (poll _ _ c' (lk_scan l)) as [c2 evs2]. destruct H as [_ Hrep2]. cbn. eexists _, _. split; [done|].
      rewrite reported_app, Hrep by done. split; [by apply prefix_app_r|].
      rewrite appeared_step. unfold details at 2. rewrite map_app. apply prefix_app.
      specialize (Hrep2 ty Hty). unfold details in Hrep2. rewrite <- Hrep2. apply reported_take.
    + eexists _, _. split; [done|]. by apply Hrep.
  - eexists _, _. split; [done|]. by destruct first as [|[]].
Qed.

(** *** Witness *)
Definition port80 : listenEntry := {| le_Proto := B "tcp6"; le_LocalIP := B "::"; le_LocalPort := 80 |}.
Definition demo_look (s : scan) : look := {| lk_uuid := demo_uuid; lk_now := 9; lk_scan := s |}.

(** Port 80 opens, closes and opens again: two reports. *)
Lemma run_reports_appearances_witness :
  exists c' evs, Run (NewCollector demo_config) (inr ([port22], 1))
      {| sc_ticks := [demo_look (inr ([port22; port80], 2)); demo_look (inl NotExist); demo_look (inr ([port22], 1));
                      demo_look (inr ([port80; port22], 2))]; sc_cut := None |} = Some (c', evs)
    /\ reported EventNetworkConnectionOpen evs = details [port80; port80].
Proof.
  destruct (run_reports_appearances demo_config (inr ([port22], 1))
      {| sc_ticks := [demo_look (inr ([port22; port80], 2)); demo_look (inl NotExist); demo_look (inr ([port22], 1));
                      demo_look (inr ([port80; port22], 2))]; sc_cut := None |} EventNetworkConnectionOpen)
    as (c' & evs & H1 & H2); [left; reflexivity|].
  exists c', evs. split; [exact H1|]. cbn [scanned sc_cut] in H2. rewrite H2. vm_compute. reflexivity.
Defined.
