(* ===== verification/SystemEvents.v ===== *)
(** * The system event collector

    [src/internal/events/system/kmsg.go] and [collector.go]: reboots, OOM
    kills, changes of the user database and of watched files.  The state
    files are part of the state: a JSON file is what decoding it gives
    ([json_file]), so that the decoder and encoder are the identity on maps
    with keys in UTF-8 (Go's encoder replaces the invalid bytes of a key, so a
    user name that is not UTF-8 comes back changed);
    the hash function of file contents is an argument.  [None] from an
    operation is a panic (assignment to a nil map). *)
From S2P Require Import Prelude GoFloat GoStrings GoNum GoRegexp Events.
Local Open Scope Z_scope.

Record Config := { StateDir : string; MonitorConfigFiles : bool; cfg_Host : HostInfo; cfg_Agent : AgentInfo }.

Definition system_event (cfg : Config) (ty : EventType) (ts : time) (cat : Category) (sev : Severity) (conf : Confidence)
    (actor : option ActorInfo) (ctx : option ContextInfo) (proc : option ProcessDetail) (tags : list string) (id : string) : Event := {|
  ev_ID := id; ev_Timestamp := ts; ev_Type := ty; ev_Category := cat; ev_Severity := sev; ev_Confidence := conf;
  ev_Host := cfg_Host cfg; ev_Agent := cfg_Agent cfg; ev_Actor := actor; ev_Context := ctx; ev_Tags := tags;
  ev_Process := proc; ev_Network := None |}.

Definition reason (r : string) : ContextInfo := {|
  ctx_SessionID := ""; ctx_TTY := ""; ctx_RemoteIP := ""; ctx_Reason := r; ctx_Service := "" |}.

(** ** Reboot detection

    The file holds the boot time of the last start; [None] is an unreadable
    file.  [write_ok] says whether the write succeeds. *)
Definition loadBootTime (file : option bytes) : option Z :=
  match file with
  | None => None
  | Some data => match ParseUint (TrimSpace data) 10 64 with (v, None) => Some v | (_, Some _) => None end
  end.

Definition saveBootTime (file : option bytes) (write_ok : bool) (t : Z) : option bytes :=
  if write_ok then Some (FormatUint t) else file.

Definition checkReboot (cfg : Config) (bootTime : option Z) (file : option bytes) (write_ok : bool)
    : option pending * option bytes :=
  match bootTime with
  | None => (None, file)
  | Some bt =>
      let prev := loadBootTime file in
      let file' := saveBootTime file write_ok bt in
      match prev with
      | None => (None, file')
      | Some prevBootTime =>
          if prevBootTime <? bt
          then (Some (system_event cfg EventSystemReboot (time_unix (wrap_i64 bt) 0) CategorySystemCheck SeverityWarning
                        ConfidenceNone None None None ["system"; "reboot"]), file')
          else (None, file')
      end
  end.

(** ** OOM killer *)
Definition reOOMKiller : re := MustCompile "Killed process (\d+) \(([^)]+)\) total-vm:(\d+)kB, anon-rss:(\d+)kB".

Record oomKilledEvent := { oom_PID : bytes; oom_ProcessName : bytes; TotalVMKB : bytes; AnonRSSKB : bytes; RawLine : bytes }.

Definition parseOOMLine (line : bytes) : option oomKilledEvent :=
  match FindStringSubmatch reOOMKiller 4 line with
  | Some [_; m1; m2; m3; m4] =>
      Some {| oom_PID := m1; oom_ProcessName := m2; TotalVMKB := m3; AnonRSSKB := m4; RawLine := line |}
  | _ => None
  end.

Definition parseOOM (cfg : Config) (now : time) (line : bytes) : option pending :=
  (fun parsed => system_event cfg EventSystemOOMKiller now CategorySystemCheck SeverityWarning ConfidenceNone None
     (Some (reason "oom_killed"))
     (Some {| pd_Name := S (oom_ProcessName parsed); pd_PID := 0; pd_PPID := 0; pd_Cmdline := ""; pd_Exe := "";
              pd_CPUPercent := f64_zero; pd_MemoryPercent := f32_zero |}) ["system"; "oom"]) <$> parseOOMLine line.

(** ** User changes *)
Abbreviation users := (gmap bytes Z).

(** A JSON state file: absent or unreadable, not valid JSON for the type, the
    JSON value [null], or a map (of users by name or of watched files by path,
    the names in valid UTF-8). *)
Inductive json_file (A : Type) := NoFile | BadJSON | JSONNull | JSONMap (m : A).
Arguments NoFile {A}.
Arguments BadJSON {A}.
Arguments JSONNull {A}.
Arguments JSONMap {A} m.

(** A line of [/etc/passwd]. *)
Definition passwd_line (m : users) (line : bytes) : users :=
  match line with
  | [] => m
  | _ =>
      if HasPrefix line (B "#") then m
      else match SplitN line ":"%char 4 with
           | name :: _ :: f2 :: _ => match Atoi f2 with (uid, None) => <[name := uid]> m | (_, Some _) => m end
           | _ => m
           end
  end.

(** [None] is a nil map: the file could not be read. *)
Definition currentPasswdUsers (file : option bytes) : option users :=
  (fun data => foldl passwd_line ∅ (ScanLines data).1) <$> file.

(** [b[k]] of a missing key is 0. *)
Definition passwdEqual (a b : users) : bool :=
  (size a =? size b)%nat && forallb (fun kv => default 0 (b !! kv.1) =? kv.2) (map_to_list a).

(** The first component is the map, nil or not; [None] is an error. *)
Definition loadPasswdSnapshot (file : json_file users) : option (option users) :=
  match file with
  | NoFile | BadJSON => None
  | JSONNull => Some None
  | JSONMap m => Some (Some m)
  end.

(** Written to a temporary file and renamed; any failure leaves the old file. *)
Definition savePasswdSnapshot (file : json_file users) (write_ok : bool) (m : option users) : json_file users :=
  match m with
  | None => file
  | Some u => if write_ok then JSONMap u else file
  end.

(** The start of [pollPasswd]: the snapshot and the file. *)
Definition passwd_start (file : json_file users) (write_ok : bool) (passwd : option bytes) : option users * json_file users :=
  match loadPasswdSnapshot file with
  | Some snapshot => (snapshot, file)
  | None => let snapshot := currentPasswdUsers passwd in (snapshot, savePasswdSnapshot file write_ok snapshot)
  end.

Definition user_actor (username : bytes) (uid : Z) : ActorInfo := {|
  actor_User := S username; actor_UID := uid; actor_IP := ""; actor_Method := ""; actor_TargetUser := ""; actor_Command := "" |}.

Definition makeUserCreated (cfg : Config) (now : time) (kv : bytes * Z) : pending :=
  system_event cfg EventSystemUserCreated now CategoryThreatActivity SeverityCritical ConfidenceHigh
    (Some (user_actor kv.1 kv.2)) None None ["system"; "user_created"].
Definition makeUserDeleted (cfg : Config) (now : time) (kv : bytes * Z) : pending :=
  system_event cfg EventSystemUserDeleted now CategoryThreatActivity SeverityWarning ConfidenceMedium
    (Some (user_actor kv.1 kv.2)) None None ["system"; "user_deleted"].

(** The entries of [m] whose name is not in [other], in the order [order] of
    the iteration over [m]. *)
Definition missing_from (other : users) (order : list (bytes * Z)) : list (bytes * Z) :=
  List.filter (fun kv => bool_decide (other !! kv.1 = None)) order.

(** One tick; [ord_cur] and [ord_snap] are the orders of the two iterations.
    A nil snapshot reads as an empty map. *)
Definition passwd_tick (cfg : Config) (now : time) (snapshot : option users) (file : json_file users) (write_ok : bool)
    (passwd : option bytes) (ord_cur ord_snap : list (bytes * Z)) : option users * json_file users * list pending :=
  match currentPasswdUsers passwd with
  | None => (snapshot, file, [])
  | Some current =>
      let snap := default ∅ snapshot in
      let evs := map (makeUserCreated cfg now) (missing_from snap ord_cur)
                 ++ map (makeUserDeleted cfg now) (missing_from current ord_snap) in
      if negb (passwdEqual snap current)
      then (Some current, savePasswdSnapshot file write_ok (Some current), evs)
      else (snapshot, file, evs)
  end.

(** ** Watched files *)
Definition defaultMonitoredFiles : list string :=
  ["/etc/passwd"; "/etc/shadow"; "/etc/group"; "/etc/sudoers"; "/etc/ssh/sshd_config"].

Record fileState := { fs_Hash : string; fs_ModTime : Z; fs_Size : Z }.
#[export] Instance fileState_eq_dec : EqDecision fileState.
Proof. solve_decision. Defined.

(** A readable file: contents and modification time. *)
Definition hashFile (sha256 : bytes -> string) (file : option (bytes * Z)) : option fileState :=
  (fun '(data, mtime) => {| fs_Hash := sha256 data; fs_ModTime := mtime; fs_Size := len data |}) <$> file.

Abbreviation file_states := (gmap string fileState).

(** [None] is a nil map. *)
Definition loadFileState (file : json_file file_states) : option file_states :=
  match file with
  | NoFile | BadJSON => Some ∅
  | JSONNull => None
  | JSONMap m => Some m
  end.

(** Encoding a nil map writes [null]. *)
Definition saveFileState (file : json_file file_states) (write_ok : bool) (m : option file_states) : json_file file_states :=
  if write_ok then match m with Some s => JSONMap s | None => JSONNull end else file.

(** [state[path] = fs]: a panic on a nil map. *)
Definition set_state (state : option file_states) (path : string) (fs : fileState) : option (option file_states) :=
  match state with Some m => Some (Some (<[path := fs]> m)) | None => None end.

Definition get_state (state : option file_states) (path : string) : option fileState :=
  match state with Some m => m !! path | None => None end.

(** [files path] is what reading [path] gives. *)
Definition baseline_file (sha256 : bytes -> string) (files : string -> option (bytes * Z))
    (st : option (option file_states)) (path : string) : option (option file_states) :=
  state ← st;
  match get_state state path with
  | Some _ => Some state
  | None => match hashFile sha256 (files path) with
            | Some fs => set_state state path fs
            | None => Some state
            end
  end.

Definition file_baseline (sha256 : bytes -> string) (files : string -> option (bytes * Z)) (file : json_file file_states)
    (write_ok : bool) : option (option file_states * json_file file_states) :=
  state ← foldl (baseline_file sha256 files) (Some (loadFileState file)) defaultMonitoredFiles;
  Some (state, saveFileState file write_ok state).

Definition makeConfigModified (cfg : Config) (now : time) (path : string) : pending :=
  system_event cfg EventSystemConfigModified now CategoryThreatActivity SeverityCritical ConfidenceHigh None
    (Some (reason path)) None ["system"; "config_modified"].

(** The state of the loop over the watched files: the map, which files were
    reported unreadable, whether something changed, and the events. *)
Record tick_state := { ts_state : option file_states; ts_warned : gmap string bool; ts_changed : bool; ts_evs : list pending }.

Definition tick_file (cfg : Config) (sha256 : bytes -> string) (files : string -> option (bytes * Z)) (now : time)
    (st : option tick_state) (path : string) : option tick_state :=
  st ← st;
  match hashFile sha256 (files path) with
  | None => Some {| ts_state := ts_state st; ts_warned := <[path := true]> (ts_warned st); ts_changed := ts_changed st; ts_evs := ts_evs st |}
  | Some current =>
      let prev := get_state (ts_state st) path in
      let differs := match prev with Some p => negb (bool_decide (fs_Hash p = fs_Hash current)) | None => false end in
      let known := match prev with Some _ => true | None => false end in
      let evs := ts_evs st ++ (if known && differs then [makeConfigModified cfg now path] else []) in
      let warned := <[path := false]> (ts_warned st) in
      if negb known || differs
      then state' ← set_state (ts_state st) path current;
           Some {| ts_state := state'; ts_warned := warned; ts_changed := true; ts_evs := evs |}
      else Some {| ts_state := ts_state st; ts_warned := warned; ts_changed := ts_changed st; ts_evs := evs |}
  end.

Definition file_tick (cfg : Config) (sha256 : bytes -> string) (files : string -> option (bytes * Z)) (now : time)
    (state : option file_states) (warned : gmap string bool) (file : json_file file_states) (write_ok : bool)
    : option (tick_state * json_file file_states) :=
  st ← foldl (tick_file cfg sha256 files now)
         (Some {| ts_state := state; ts_warned := warned; ts_changed := false; ts_evs := [] |}) defaultMonitoredFiles;
  Some (st, if ts_changed st then saveFileState file write_ok (ts_state st) else file).

(** ** Lemmas *)
Lemma loadBootTime_saved (file : option bytes) (t : Z) : 0 <= t < 2 ^ 64 -> loadBootTime (saveBootTime file true t) = Some t.
Proof.
  intros Ht. unfold loadBootTime, saveBootTime. rewrite TrimSpace_FormatUint, ParseUint_FormatUint; [done|lia|done].
Qed.

Lemma checkReboot_file (cfg : Config) (bt : Z) (file : option bytes) (ok : bool) :
  (checkReboot cfg (Some bt) file ok).2 = saveBootTime file ok bt.
Proof. unfold checkReboot. destruct (loadBootTime file) as [p|]; [|done]. by destruct (p <? bt). Qed.

(** The users an event list names, by type. *)
Definition actors_of (ty : EventType) (evs : list pending) : list string :=
  omap (fun mk => if bool_decide (ev_Type (mk "") = ty) then actor_User <$> ev_Actor (mk "") else None) evs.

Lemma actors_of_app (ty : EventType) (l k : list pending) : actors_of ty (l ++ k) = actors_of ty l ++ actors_of ty k.
Proof. apply omap_app. Qed.

Lemma actors_created (cfg : Config) (now : time) (l : list (bytes * Z)) :
  actors_of EventSystemUserCreated (map (makeUserCreated cfg now) l) = map (fun kv => S kv.1) l
  /\ actors_of EventSystemUserDeleted (map (makeUserCreated cfg now) l) = [].
Proof. split; induction l as [|kv l IH]; try done; first [exact (f_equal (cons (S kv.1)) IH)|exact IH]. Qed.

Lemma actors_deleted (cfg : Config) (now : time) (l : list (bytes * Z)) :
  actors_of EventSystemUserDeleted (map (makeUserDeleted cfg now) l) = map (fun kv => S kv.1) l
  /\ actors_of EventSystemUserCreated (map (makeUserDeleted cfg now) l) = [].
Proof. split; induction l as [|kv l IH]; try done; first [exact (f_equal (cons (S kv.1)) IH)|exact IH]. Qed.

#[export] Instance S_inj : Inj (=) (=) S.
Proof. intros x y H. rewrite <- (B_S x), <- (B_S y). by rewrite H. Qed.

(** The names an iteration over [m] finds missing from [other]. *)
Lemma missing_names (m other : users) (order : list (bytes * Z)) (name : bytes) :
  order ≡ₚ map_to_list m ->
  S name ∈ map (fun kv => S kv.1) (missing_from other order) <-> is_Some (m !! name) /\ other !! name = None.
Proof.
  intros Hord. unfold missing_from. rewrite list_elem_of_fmap. split.
  - intros ([k v] & Hk%(inj S) & Hin). cbn in Hk. subst k. apply list_elem_of_In, filter_In in Hin as [Hin Hn].
    apply list_elem_of_In in Hin. rewrite Hord, elem_of_map_to_list in Hin. cbn in Hn. apply bool_decide_eq_true in Hn. eauto.
  - intros [[v Hv] Hn]. exists (name, v). split; [done|]. apply list_elem_of_In, filter_In. split.
    + apply list_elem_of_In. rewrite Hord. by apply elem_of_map_to_list.
    + by apply bool_decide_eq_true.
Qed.

Lemma missing_from_self (m : users) (order : list (bytes * Z)) : order ≡ₚ map_to_list m -> missing_from m order = [].
Proof.
  intros Hord. destruct (missing_from m order) as [|[k v] l] eqn:E; [done|].
  assert (Hin : S k ∈ map (fun kv => S kv.1) (missing_from m order)) by (rewrite E; by left).
  apply (missing_names m) in Hin as [[v' H1] H2]; [congruence|done].
Qed.

Lemma passwd_actors (cfg : Config) (now : time) (snap current : users) (ord_cur ord_snap : list (bytes * Z)) :
  ord_cur ≡ₚ map_to_list current -> ord_snap ≡ₚ map_to_list snap ->
  let evs := map (makeUserCreated cfg now) (missing_from snap ord_cur)
             ++ map (makeUserDeleted cfg now) (missing_from current ord_snap) in
  (forall name, S name ∈ actors_of EventSystemUserCreated evs <-> is_Some (current !! name) /\ snap !! name = None)
  /\ (forall name, S name ∈ actors_of EventSystemUserDeleted evs <-> is_Some (snap !! name) /\ current !! name = None).
Proof.
  intros Hc Hs evs. subst evs. rewrite !actors_of_app.
  destruct (actors_created cfg now (missing_from snap ord_cur)) as [H1 H2], (actors_deleted cfg now (missing_from current ord_snap)) as [H3 H4].
  rewrite H1, H2, H3, H4, app_nil_r. cbn [app].
  split; intros name; by apply missing_names.
Qed.

(** ** Properties *)

(** a start reports a reboot exactly when the boot time is later than the
    one the previous start recorded, and a further start within the same boot
    reports nothing. *)
Theorem reboot_reported_once (cfg : Config) (b0 b1 : Z) (file : option bytes) (ok : bool) :
  0 <= b0 < 2 ^ 64 -> 0 <= b1 < 2 ^ 64 ->
  let f1 := (checkReboot cfg (Some b0) file true).2 in
  let '(e, f2) := checkReboot cfg (Some b1) f1 true in
  (is_Some e <-> b0 < b1) /\ (forall mk, e = Some mk -> ev_Type (mk "") = EventSystemReboot)
  /\ (checkReboot cfg (Some b1) f2 ok).1 = None.
Proof.
  intros H0 H1. cbv zeta. rewrite checkReboot_file.
  destruct (checkReboot cfg (Some b1) (saveBootTime file true b0) true) as [e f2] eqn:E.
  assert (Hf2 : f2 = saveBootTime (saveBootTime file true b0) true b1).
  { rewrite <- (checkReboot_file cfg). by rewrite E. }
  unfold checkReboot in E. rewrite loadBootTime_saved in E by done.
  split_and!.
  - destruct (Z.ltb_spec b0 b1); simplify_eq; (split; [try (by intros []); done|intros ?; first [lia|eauto]]).
  - intros mk ->. destruct (b0 <? b1); by simplify_eq.
  - subst f2. unfold checkReboot. rewrite loadBootTime_saved by done. by rewrite Z.ltb_irrefl.
Qed.

(** a tick that can read the user database reports exactly the users that
    are in it and not in the snapshot as created and exactly those that are in
    the snapshot and not in it as deleted; when the comparison notices the
    difference the database becomes the snapshot (also on disk), and the next
    tick over the same database reports nothing. *)
Theorem passwd_events (cfg : Config) (now now' : time) (snap current : users) (file : json_file users) (passwd : bytes)
    (ord_cur ord_snap : list (bytes * Z)) :
  currentPasswdUsers (Some passwd) = Some current ->
  ord_cur ≡ₚ map_to_list current -> ord_snap ≡ₚ map_to_list snap ->
  let '(snap', file', evs) := passwd_tick cfg now (Some snap) file true (Some passwd) ord_cur ord_snap in
  (forall name, S name ∈ actors_of EventSystemUserCreated evs <-> is_Some (current !! name) /\ snap !! name = None)
  /\ (forall name, S name ∈ actors_of EventSystemUserDeleted evs <-> is_Some (snap !! name) /\ current !! name = None)
  /\ (passwdEqual snap current = false -> file' = JSONMap current
      /\ passwd_tick cfg now' snap' file' true (Some passwd) ord_cur ord_cur = (Some current, JSONMap current, [])).
Proof.
  intros Hcur Hc Hs. unfold passwd_tick. rewrite Hcur. cbn [default from_option id].
  set (evs := map (makeUserCreated cfg now) (missing_from snap ord_cur)
              ++ map (makeUserDeleted cfg now) (missing_from current ord_snap)).
  pose proof (passwd_actors cfg now snap current ord_cur ord_snap Hc Hs) as Hev. fold evs in Hev.
  destruct Hev as [Hev1 Hev2]. destruct (passwdEqual snap current) eqn:He; cbn [negb];
    (split; [exact Hev1|]; split; [exact Hev2|]); [done|].
  intros _. split; [done|]. cbn [default from_option id].
  assert (Hself : passwdEqual current current = true).
  { unfold passwdEqual. rewrite Nat.eqb_refl. cbn. apply forallb_forall. intros [k v] Hin%list_elem_of_In%elem_of_map_to_list.
    cbn. rewrite Hin. cbn. lia. }
  rewrite Hself, !missing_from_self by done. done.
Qed.

(** A difference the comparison does not notice (a user with uid 0 renamed to
    another name: a missing name reads as uid 0) is reported, but the snapshot
    stays, so every later tick reports it again. *)
Lemma passwd_stuck (cfg : Config) (now : time) (snap current : users) (file : json_file users) (passwd : bytes)
    (ord_cur ord_snap : list (bytes * Z)) :
  currentPasswdUsers (Some passwd) = Some current -> passwdEqual snap current = true ->
  (passwd_tick cfg now (Some snap) file true (Some passwd) ord_cur ord_snap).1 = (Some snap, file).
Proof. intros Hc He. unfold passwd_tick. rewrite Hc. cbn [default from_option id]. by rewrite He. Qed.

Lemma passwdEqual_blind (a b : bytes) : passwdEqual {[a := 0]} {[b := 0]} = true.
Proof.
  unfold passwdEqual. rewrite !map_size_singleton, map_to_list_singleton. cbn.
  destruct (decide (b = a)) as [->|Hne]; [by rewrite lookup_singleton_eq|by rewrite lookup_singleton_ne].
Qed.

(** A state file holding JSON [null] decodes to a nil map, and recording the
    first readable file in it panics. *)
Lemma file_nil_panics (sha256 : bytes -> string) (files : string -> option (bytes * Z)) (write_ok : bool) :
  is_Some (files "/etc/passwd") -> file_baseline sha256 files JSONNull write_ok = None.
Proof.
  intros [[d mt] H]. unfold file_baseline, defaultMonitoredFiles, loadFileState. cbn [foldl].
  assert (H0 : baseline_file sha256 files (Some None) "/etc/passwd" = None).
  { unfold baseline_file. cbn. by rewrite H. }
  rewrite H0. done.
Qed.

Definition reasons (evs : list pending) : list string := omap (fun mk => ctx_Reason <$> ev_Context (mk "")) evs.

Section FileTick.
Context (cfg : Config) (sha256 : bytes -> string) (files : string -> option (bytes * Z)) (now : time).

(** The file is known with another hash. *)
Definition modified (m : file_states) (path : string) : bool :=
  match m !! path, hashFile sha256 (files path) with
  | Some p, Some cur => negb (bool_decide (fs_Hash p = fs_Hash cur))
  | _, _ => false
  end.

(** What the map holds after a look at the file. *)
Definition after_look (m : file_states) (path : string) : option fileState :=
  match hashFile sha256 (files path), m !! path with
  | Some cur, Some p => if bool_decide (fs_Hash p = fs_Hash cur) then Some p else Some cur
  | Some cur, None => Some cur
  | None, o => o
  end.

Lemma tick_loop (paths : list string) (m : file_states) (warned : gmap string bool) (ch : bool) (evs : list pending) :
  base.NoDup paths ->
  exists m' warned' ch',
    foldl (tick_file cfg sha256 files now)
      (Some {| ts_state := Some m; ts_warned := warned; ts_changed := ch; ts_evs := evs |}) paths
    = Some {| ts_state := Some m'; ts_warned := warned'; ts_changed := ch';
              ts_evs := evs ++ map (makeConfigModified cfg now) (List.filter (modified m) paths) |}
    /\ (forall p, m' !! p = if decide (p ∈ paths) then after_look m p else m !! p)
    /\ (ch' = false -> m' = m) /\ (ch = true -> ch' = true).
Proof.
  revert m warned ch evs. induction paths as [|q paths IH]; intros m warned ch evs Hnd; cbn [foldl].
  - exists m, warned, ch. cbn. rewrite app_nil_r. by split_and!.
  - apply NoDup_cons in Hnd as [Hq Hnd].
    assert (exists m1 w1 c1, tick_file cfg sha256 files now
        (Some {| ts_state := Some m; ts_warned := warned; ts_changed := ch; ts_evs := evs |}) q
      = Some {| ts_state := Some m1; ts_warned := w1; ts_changed := c1;
                ts_evs := evs ++ (if modified m q then [makeConfigModified cfg now q] else []) |}
      /\ m1 !! q = after_look m q /\ (forall p, p <> q -> m1 !! p = m !! p) /\ (c1 = false -> m1 = m) /\ (ch = true -> c1 = true))
      as (m1 & w1 & c1 & -> & Hm1 & Hm2 & Hm3 & Hm4).
    { unfold tick_file, modified, after_look. cbn [mbind option_bind get_state ts_state ts_evs ts_warned ts_changed].
      destruct (hashFile sha256 (files q)) as [cur|]; [|destruct (m !! q) eqn:?; eexists _, _, _; rewrite ?app_nil_r; by split_and!].
      destruct (m !! q) as [p|] eqn:Hp; cbn [negb orb andb set_state mbind option_bind].
      - case_bool_decide; cbn [negb orb andb set_state mbind option_bind].
        + eexists _, _, _. rewrite ?app_nil_r. by split_and!.
        + eexists _, _, _. split_and!; [done|apply lookup_insert_eq| |done|done]. intros r Hr. by rewrite lookup_insert_ne.
      - eexists _, _, _. split_and!; [done|apply lookup_insert_eq| |done|done]. intros r Hr. by rewrite lookup_insert_ne. }
    destruct (IH m1 w1 c1 (evs ++ (if modified m q then [makeConfigModified cfg now q] else [])) Hnd) as (m' & w' & c' & -> & Ha & Hb & Hc).
    exists m', w', c'. split_and!.
    + f_equal. f_equal. rewrite <- app_assoc. f_equal. cbn [List.filter].
      assert (List.filter (modified m1) paths = List.filter (modified m) paths) as ->.
      { apply List.filter_ext_in. intros p Hp%list_elem_of_In. unfold modified. rewrite Hm2; [done|]. by intros ->. }
      by destruct (modified m q).
    + intros p. rewrite Ha. destruct (decide (p = q)) as [->|Hne].
      * rewrite (decide_False (P := q ∈ paths)), decide_True by (first [done|by left]). done.
      * unfold after_look. rewrite Hm2 by done. repeat case_decide; set_solver.
    + intros Hf. rewrite Hb by done. apply Hm3. destruct c1; [|done]. by rewrite Hc in Hf.
    + auto.
Qed.
End FileTick.

Lemma monitored_NoDup : base.NoDup defaultMonitoredFiles.
Proof. apply NoDup_ListNoDup. unfold defaultMonitoredFiles. repeat constructor; cbn; intuition discriminate. Qed.

Lemma file_tick_shape (cfg : Config) (sha256 : bytes -> string) (files : string -> option (bytes * Z)) (now : time)
    (m : file_states) (warned : gmap string bool) (file : json_file file_states) (ok : bool) :
  exists m' warned' ch',
    file_tick cfg sha256 files now (Some m) warned file ok
    = Some ({| ts_state := Some m'; ts_warned := warned'; ts_changed := ch';
               ts_evs := map (makeConfigModified cfg now) (List.filter (modified sha256 files m) defaultMonitoredFiles) |},
            if ch' then saveFileState file ok (Some m') else file)
    /\ (forall p, m' !! p = if decide (p ∈ defaultMonitoredFiles) then after_look sha256 files m p else m !! p)
    /\ (ch' = false -> m' = m).
Proof.
  destruct (tick_loop cfg sha256 files now defaultMonitoredFiles m warned false [] monitored_NoDup) as (m' & w' & c' & H & Ha & Hb & _).
  exists m', w', c'. unfold file_tick. rewrite H. by split_and!.
Qed.

(** a tick of the file watcher (with a decoded state) does not panic and
    reports a modification for exactly the watched files, in order, that can
    be read and whose hash differs from the recorded one; the state on disk is
    what is recorded in memory, and a next tick over unchanged files reports
    nothing. *)
Theorem file_watch (cfg : Config) (sha256 : bytes -> string) (files : string -> option (bytes * Z)) (now now' : time)
    (m : file_states) (warned : gmap string bool) :
  exists st file', file_tick cfg sha256 files now (Some m) warned (JSONMap m) true = Some (st, file')
    /\ reasons (ts_evs st) = List.filter (modified sha256 files m) defaultMonitoredFiles
    /\ loadFileState file' = ts_state st
    /\ (ts_evs <$> (fst <$> file_tick cfg sha256 files now' (ts_state st) (ts_warned st) file' true)) = Some [].
Proof.
  destruct (file_tick_shape cfg sha256 files now m warned (JSONMap m) true) as (m' & w' & c' & -> & Ha & Hb).
  eexists _, _. split; [done|]. cbn [ts_evs ts_state ts_warned]. split_and!.
  - induction (List.filter _ defaultMonitoredFiles) as [|x l IH]; [done|]. exact (f_equal (cons x) IH).
  - destruct c'; [done|]. by rewrite Hb.
  - destruct (file_tick_shape cfg sha256 files now' m' w' (if c' then saveFileState (JSONMap m) true (Some m') else JSONMap m) true)
      as (m2 & w2 & c2 & -> & _ & _).
    change (Some (map (makeConfigModified cfg now') (List.filter (modified sha256 files m') defaultMonitoredFiles)) = Some []).
    assert (List.filter (modified sha256 files m') defaultMonitoredFiles = []) as ->; [|done].
    destruct (List.filter _ defaultMonitoredFiles) as [|x l] eqn:E; [done|].
    assert (Hx : In x (List.filter (modified sha256 files m') defaultMonitoredFiles)) by (rewrite E; by left).
    apply filter_In in Hx as [Hin Hmod]. apply list_elem_of_In in Hin. unfold modified in Hmod.
    rewrite Ha, decide_True in Hmod by done. unfold after_look in Hmod.
    destruct (hashFile sha256 (files x)) as [cur|]; [|by destruct (m !! x)].
    destruct (m !! x) as [p|]; [|by rewrite bool_decide_eq_true_2 in Hmod].
    case_bool_decide as Hh; [by rewrite bool_decide_eq_true_2 in Hmod|by rewrite bool_decide_eq_true_2 in Hmod].
Qed.

(** *** Witnesses and checks *)
Definition demo_config : Config := {|
  StateDir := "/var/lib/yomins-agent"; MonitorConfigFiles := true;
  cfg_Host := {| host_Hostname := "h"; host_IP := "10.0.0.1" |};
  cfg_Agent := {| agent_Name := "yomins-agent"; agent_Version := "1" |} |}.

Lemma reboot_reported_once_witness :
  (checkReboot demo_config (Some 1700000500) (checkReboot demo_config (Some 1700000000) None true).2 true).1 <> None.
Proof.
  pose proof (reboot_reported_once demo_config 1700000000 1700000500 None true ltac:(lia) ltac:(lia)) as H.
  cbv zeta in H. destruct (checkReboot _ (Some 1700000500) _ true) as [e f2]. destruct H as [H _].
  cbn. destruct H as [_ [mk H]]; [lia|]. intros Hn. congruence.
Defined.

Definition demo_passwd : bytes := B "root:x:0:0:root" ++ [newline] ++ B "eve:x:1000:1000::" ++ [newline].
Definition demo_users : users := {[B "eve" := 1000; B "root" := 0]}.

Lemma passwd_events_witness :
  passwd_tick demo_config 5 (Some {[B "root" := 0]}) (JSONMap {[B "root" := 0]}) true (Some demo_passwd)
    (map_to_list demo_users) [(B "root", 0)]
  = (Some demo_users, JSONMap demo_users, [makeUserCreated demo_config 5 (B "eve", 1000)])
  /\ passwd_tick demo_config 9 (Some demo_users) (JSONMap demo_users) true (Some demo_passwd)
       (map_to_list demo_users) (map_to_list demo_users) = (Some demo_users, JSONMap demo_users, []).
Proof.
  assert (E : passwd_tick demo_config 5 (Some {[B "root" := 0]}) (JSONMap {[B "root" := 0]}) true (Some demo_passwd)
    (map_to_list demo_users) [(B "root", 0)]
    = (Some demo_users, JSONMap demo_users, [makeUserCreated demo_config 5 (B "eve", 1000)])) by (vm_compute; reflexivity).
  split; [exact E|].
  pose proof (passwd_events demo_config 5 9 {[B "root" := 0]} demo_users (JSONMap {[B "root" := 0]}) demo_passwd
    (map_to_list demo_users) [(B "root", 0)] ltac:(vm_compute; reflexivity) ltac:(reflexivity) ltac:(by rewrite map_to_list_singleton)) as H.
  rewrite E in H. destruct H as (_ & _ & H). apply H. vm_compute. reflexivity.
Defined.

Example parseOOM_check :
  oom_ProcessName <$> parseOOMLine (B "Out of memory: Killed process 1234 (my app) total-vm:204800kB, anon-rss:8192kB, file") = Some (B "my app").
Proof. vm_compute. reflexivity. Qed.
