(* ===== verification/SystemRun.v ===== *)
(** * The run of the system event collector

    [Run] and the three watchers of [src/internal/events/system/collector.go]:
    the kernel log, the user database and the watched files.  The theorems are
    about any number of runs of the agent over the same state directory, each
    ending anywhere: a change of a watched file or of the users cannot pass
    unreported. *)
From S2P Require Import Prelude GoFloat GoStrings GoNum GoRegexp Events SystemEvents Loop.
Local Open Scope Z_scope.

(** ** The start of a run *)
Inductive watcher := WatchOOM | WatchPasswd | WatchFiles.

Definition watchers (cfg : Config) : list watcher :=
  [WatchOOM; WatchPasswd] ++ (if MonitorConfigFiles cfg then [WatchFiles] else []).

(** The event sent, the boot-time file and the watchers started; [taken] is
    false when the context is cancelled before the event is received. *)
Definition Run (cfg : Config) (bootTime : option Z) (file : option bytes) (write_ok taken : bool)
    : list pending * option bytes * list watcher :=
  let '(e, file') := checkReboot cfg bootTime file write_ok in
  match e with
  | Some ev => if taken then ([ev], file', watchers cfg) else ([], file', [])
  | None => ([], file', watchers cfg)
  end.

(** ** The kernel log *)

(** Whether [/dev/kmsg] opens, can be positioned at its end, and opens again. *)
Record kmsg := { km_open : bool; km_seek : bool; km_reopen : bool }.

Definition oom_tick (cfg : Config) (_ : unit) (l : time * bytes) : option (unit * list pending) :=
  Some (tt, match parseOOM cfg l.1 l.2 with Some ev => [ev] | None => [] end).

(** [old] are the records from before the start, with the time at which they
    are read if they are; a reopened device is read from its first record. *)
Definition runOOMWatcher (cfg : Config) (km : kmsg) (old : list (time * bytes)) (sc : schedule (time * bytes)) : list pending :=
  if negb (km_open km) then []
  else if negb (km_seek km) && negb (km_reopen km) then []
  else
    let first := if km_seek km then [] else old in
    match loop (oom_tick cfg) (fun s _ => s) tt {| sc_ticks := first ++ sc_ticks sc; sc_cut := sc_cut sc |} with
    | Some (_, evs) => evs
    | None => []
    end.

(** ** The user database *)
Record users_state := { us_snapshot : option users; us_file : json_file users }.

(** What a tick meets; the orders are those of the iterations over the two
    maps. *)
Record users_look := {
  ul_now : time; ul_passwd : option bytes; ul_write_ok : bool;
  ul_current : list (bytes * Z) -> list (bytes * Z); ul_snapshot : list (bytes * Z) -> list (bytes * Z) }.

Definition users_tick (cfg : Config) (s : users_state) (l : users_look) : option (users_state * list pending) :=
  let '(snap, file, evs) := passwd_tick cfg (ul_now l) (us_snapshot s) (us_file s) (ul_write_ok l) (ul_passwd l)
    (ul_current l (map_to_list (default ∅ (currentPasswdUsers (ul_passwd l)))))
    (ul_snapshot l (map_to_list (default ∅ (us_snapshot s)))) in
  Some ({| us_snapshot := snap; us_file := file |}, evs).

Record users_run := { ur_passwd : option bytes; ur_write_ok : bool; ur_sched : schedule users_look }.

(** A run leaves its snapshot file, which a tick writes after its events. *)
Definition pollPasswd (cfg : Config) (file : json_file users) (r : users_run) : option (json_file users * list pending) :=
  let '(snapshot, file') := passwd_start file (ur_write_ok r) (ur_passwd r) in
  '(s, evs) ← loop (users_tick cfg) (fun s _ => s) {| us_snapshot := snapshot; us_file := file' |} (ur_sched r);
  Some (us_file s, evs).

(** ** The watched files *)
Section Files.
Context (cfg : Config) (sha256 : bytes -> string).

Record files_state := { fs_map : option file_states; fs_unreadable : gmap string bool; fs_file : json_file file_states }.
Record files_look := { fl_now : time; fl_files : string -> option (bytes * Z); fl_write_ok : bool }.

Definition files_tick (s : files_state) (l : files_look) : option (files_state * list pending) :=
  '(ts, file) ← file_tick cfg sha256 (fl_files l) (fl_now l) (fs_map s) (fs_unreadable s) (fs_file s) (fl_write_ok l);
  Some ({| fs_map := ts_state ts; fs_unreadable := ts_warned ts; fs_file := file |}, ts_evs ts).

Record files_run := { fr_files : string -> option (bytes * Z); fr_write_ok : bool; fr_sched : schedule files_look }.

Definition pollFileState (file : json_file file_states) (r : files_run) : option (json_file file_states * list pending) :=
  '(state, file') ← file_baseline sha256 (fr_files r) file (fr_write_ok r);
  '(s, evs) ← loop files_tick (fun s _ => s) {| fs_map := state; fs_unreadable := ∅; fs_file := file' |} (fr_sched r);
  Some (fs_file s, evs).

(** ** Lemmas on the watched files *)
Definition hash_in (m : file_states) (path : string) : option string := fs_Hash <$> m !! path.
Definition sees (path h : string) (l : files_look) : Prop := forall data mt, fl_files l path = Some (data, mt) -> sha256 data = h.

Lemma reasons_app (l k : list pending) : reasons (l ++ k) = reasons l ++ reasons k.
Proof. apply omap_app. Qed.

Lemma reasons_modified (now : time) (l : list string) : reasons (map (makeConfigModified cfg now) l) = l.
Proof. induction l as [|x l IH]; [done|]. exact (f_equal (cons x) IH). Qed.

Lemma unmodified_look (files : string -> option (bytes * Z)) (m : file_states) (path h : string) :
  hash_in m path = Some h -> modified sha256 files m path = false ->
  fs_Hash <$> after_look sha256 files m path = Some h /\ (forall data mt, files path = Some (data, mt) -> sha256 data = h).
Proof.
  unfold hash_in, modified, after_look, hashFile. destruct (m !! path) as [p|]; cbn; [|done]. intros [= <-].
  destruct (files path) as [[d t]|]; cbn; [|done]. case_bool_decide as Hh; cbn in *; [|done].
  intros _. split; [done|]. by intros ? ? [= <- <-].
Qed.

(** A state of the watcher that would notice a change of [path], unless it
    has been reported. *)
Definition watching (path h : string) (s : files_state) (seen : list files_look) (evs : list pending) : Prop :=
  exists m mf, fs_map s = Some m /\ fs_file s = JSONMap mf
  /\ (path ∉ reasons evs -> hash_in m path = Some h /\ hash_in mf path = Some h /\ Forall (sees path h) seen).

Lemma files_tick_watching (path h : string) (s : files_state) (seen : list files_look) (evs : list pending) (l : files_look) :
  path ∈ defaultMonitoredFiles -> watching path h s seen evs ->
  exists s' evs', files_tick s l = Some (s', evs') /\ watching path h s' (seen ++ [l]) (evs ++ evs').
Proof.
  intros Hpath (m & mf & Hm & Hf & Hw). unfold files_tick. rewrite Hm.
  destruct (file_tick_shape cfg sha256 (fl_files l) (fl_now l) m (fs_unreadable s) (fs_file s) (fl_write_ok l))
    as (m' & w' & ch & -> & Ha & Hb). cbn [mbind option_bind].
  eexists _, _. split; [done|]. unfold watching. cbn [fs_map fs_file ts_state ts_evs].
  assert (exists mf', (if ch then saveFileState (fs_file s) (fl_write_ok l) (Some m') else fs_file s) = JSONMap mf'
    /\ (mf' = m' \/ mf' = mf)) as (mf' & Hmf & Hor).
  { rewrite Hf. unfold saveFileState. destruct ch, (fl_write_ok l); eauto. }
  exists m', mf'. split_and!; [done..|]. rewrite reasons_app, reasons_modified, elem_of_app. intros Hno.
  destruct Hw as (H1 & H2 & H3); [tauto|].
  assert (Hmod : modified sha256 (fl_files l) m path = false).
  { apply not_true_is_false. intros He. apply Hno. right. apply list_elem_of_In, filter_In. by rewrite <- list_elem_of_In. }
  destruct (unmodified_look _ _ _ _ H1 Hmod) as [H4 H5].
  assert (H6 : hash_in m' path = Some h) by (unfold hash_in; by rewrite Ha, decide_True).
  split_and!; [done|by destruct Hor as [-> | ->]|]. apply Forall_app. split; [done|]. by constructor.
Qed.

Lemma baseline_keeps (files : string -> option (bytes * Z)) (paths : list string) (m : file_states) :
  exists m', foldl (baseline_file sha256 files) (Some (Some m)) paths = Some (Some m')
    /\ forall path, is_Some (m !! path) -> m' !! path = m !! path.
Proof.
  revert m. induction paths as [|p paths IH]; intros m; cbn [foldl]; [by eauto|].
  unfold baseline_file at 2. cbn [mbind option_bind get_state]. destruct (m !! p) eqn:Hp; [apply IH|].
  destruct (hashFile sha256 (files p)) as [fs|]; [|apply IH]. cbn [set_state].
  destruct (IH (<[p := fs]> m)) as (m' & -> & H). exists m'. split; [done|]. intros path Hs.
  assert (p <> path) by (intros ->; rewrite Hp in Hs; by destruct Hs).
  rewrite H; rewrite lookup_insert_ne by done; done.
Qed.

(** Only a state file that holds [null] leaves the watcher with a nil map, or
    makes it panic. *)
Lemma baseline_known (files : string -> option (bytes * Z)) (file : json_file file_states) (ok : bool) :
  file <> JSONNull -> exists m f, file_baseline sha256 files file ok = Some (Some m, f).
Proof.
  intros Hf. unfold file_baseline. destruct (loadFileState file) as [m|] eqn:Hl; [|by destruct file].
  destruct (baseline_keeps files defaultMonitoredFiles m) as (m' & -> & _). by eexists _, _.
Qed.

Lemma files_tick_known (s : files_state) (l : files_look) (m : file_states) :
  fs_map s = Some m -> exists s' evs m', files_tick s l = Some (s', evs) /\ fs_map s' = Some m'.
Proof.
  intros Hm. unfold files_tick. rewrite Hm.
  destruct (file_tick_shape cfg sha256 (fl_files l) (fl_now l) m (fs_unreadable s) (fs_file s) (fl_write_ok l)) as (m' & w' & ch & -> & _).
  cbn [mbind option_bind]. by eexists _, _, _.
Qed.

(** One run, from a state file that has the file with hash [h] unless the
    change was reported before. *)
Lemma pollFileState_watching (path h : string) (mf : file_states) (prior : list pending) (r : files_run) :
  path ∈ defaultMonitoredFiles -> (path ∉ reasons prior -> hash_in mf path = Some h) ->
  exists mf' evs, pollFileState (JSONMap mf) r = Some (JSONMap mf', evs)
    /\ (path ∉ reasons (prior ++ evs) -> hash_in mf' path = Some h /\ Forall (sees path h) (sc_ticks (fr_sched r))).
Proof.
  intros Hpath Hprior. unfold pollFileState, file_baseline. cbn [loadFileState].
  destruct (baseline_keeps (fr_files r) defaultMonitoredFiles mf) as (m0 & -> & Hkeep). cbn [mbind option_bind].
  set (f0 := saveFileState _ _ _). assert (exists mf0, f0 = JSONMap mf0 /\ (mf0 = m0 \/ mf0 = mf)) as (mf0 & Hf0 & Hor).
  { subst f0. unfold saveFileState. destruct (fr_write_ok r); eauto. }
  destruct (loop_inv files_tick (watching path h) (fun _ => True)) with
    (s := {| fs_map := Some m0; fs_unreadable := ∅; fs_file := f0 |}) (evs := prior) (sc := fr_sched r)
    as (s' & evs & -> & (m & mf' & _ & Hf & Hw)).
  - intros s seen evs l H _. by apply files_tick_watching.
  - intros s seen evs more (m & mf1 & H1 & H2 & H3). exists m, mf1. split_and!; [done..|].
    rewrite reasons_app, elem_of_app. tauto.
  - exists m0, mf0. split_and!; [done..|]. intros Hno. specialize (Hprior Hno). unfold hash_in in *.
    assert (Hs : is_Some (mf !! path)) by (destruct (mf !! path); [eauto|done]).
    split_and!; [by rewrite Hkeep|destruct Hor as [-> | ->]; [by rewrite Hkeep|done]|done].
  - by apply Forall_true.
  - done.
  - cbn. rewrite Hf. exists mf', evs. split; [done|]. intros Hno. by apply Hw in Hno as (_ & ? & ?).
Qed.
End Files.

(** ** Lemmas on the users *)
Definition present (u : users) (name : bytes) : bool := bool_decide (is_Some (u !! name)).
Definition named (name : bytes) (evs : list pending) : Prop :=
  S name ∈ actors_of EventSystemUserCreated evs \/ S name ∈ actors_of EventSystemUserDeleted evs.
Definition lists_user (name : bytes) (b : bool) (l : users_look) : Prop :=
  forall current, currentPasswdUsers (ul_passwd l) = Some current -> present current name = b.
Definition users_look_ok (l : users_look) : Prop := (forall o, ul_current l o ≡ₚ o) /\ (forall o, ul_snapshot l o ≡ₚ o).

Lemma named_app (name : bytes) (l k : list pending) : named name (l ++ k) <-> named name l \/ named name k.
Proof. unfold named. rewrite !actors_of_app, !elem_of_app. tauto. Qed.

Definition guarding (name : bytes) (b : bool) (s : users_state) (seen : list users_look) (evs : list pending) : Prop :=
  exists u uf, us_snapshot s = Some u /\ us_file s = JSONMap uf
  /\ (~ named name evs -> present u name = b /\ present uf name = b /\ Forall (lists_user name b) seen).

Lemma unnamed_present (cfg : Config) (now : time) (name : bytes) (snap current : users) (ord_cur ord_snap : list (bytes * Z)) :
  ord_cur ≡ₚ map_to_list current -> ord_snap ≡ₚ map_to_list snap ->
  ~ named name (map (makeUserCreated cfg now) (missing_from snap ord_cur)
                ++ map (makeUserDeleted cfg now) (missing_from current ord_snap)) ->
  present current name = present snap name.
Proof.
  intros Hc Hs. destruct (passwd_actors cfg now snap current ord_cur ord_snap Hc Hs) as [H1 H2]. unfold named.
  rewrite H1, H2. intros Hno. apply bool_decide_ext. rewrite <- !not_eq_None_Some in *.
  destruct (current !! name), (snap !! name); naive_solver.
Qed.

Lemma users_tick_guarding (cfg : Config) (name : bytes) (b : bool) (s : users_state) (seen : list users_look)
    (evs : list pending) (l : users_look) :
  users_look_ok l -> guarding name b s seen evs ->
  exists s' evs', users_tick cfg s l = Some (s', evs') /\ guarding name b s' (seen ++ [l]) (evs ++ evs').
Proof.
  intros [Hoc Hos] (u & uf & Hu & Hf & Hw). unfold users_tick, passwd_tick. rewrite Hu, Hf. cbn [default from_option id].
  destruct (currentPasswdUsers (ul_passwd l)) as [current|] eqn:Hcur; cbn [default from_option id].
  - set (new := map _ _ ++ map _ _).
    assert (Hnew : ~ named name new -> present current name = present u name).
    { apply unnamed_present; by rewrite ?Hoc, ?Hos. }
    assert (Hsee : present u name = b -> present current name = present u name -> lists_user name b l).
    { intros ? ? c Hc. rewrite Hcur in Hc. injection Hc as <-. congruence. }
    destruct (negb (passwdEqual u current)); (eexists _, _; split; [done|]); unfold guarding; cbn [us_snapshot us_file savePasswdSnapshot].
    + exists current, (if ul_write_ok l then current else uf). split; [done|]. split; [by destruct (ul_write_ok l)|].
      rewrite named_app. intros Hno. destruct Hw as (H1 & H2 & H3); [tauto|]. rewrite Hnew by tauto.
      split_and!; [done|destruct (ul_write_ok l); [|done]; rewrite Hnew by tauto; done|].
      apply Forall_app. split; [done|]. constructor; [|done]. apply Hsee; [done|]. tauto.
    + exists u, uf. split_and!; [done..|]. rewrite named_app. intros Hno. destruct Hw as (H1 & H2 & H3); [tauto|].
      split_and!; [done..|]. apply Forall_app. split; [done|]. constructor; [|done]. apply Hsee; [done|]. tauto.
  - eexists _, _. split; [done|]. rewrite app_nil_r. exists u, uf. split_and!; [done..|]. intros Hno.
    destruct Hw as (H1 & H2 & H3); [done|]. split_and!; [done..|]. apply Forall_app. split; [done|]. constructor; [|done].
    intros c Hc. congruence.
Qed.

Lemma pollPasswd_guarding (cfg : Config) (name : bytes) (b : bool) (uf : users) (prior : list pending) (r : users_run) :
  Forall users_look_ok (sc_ticks (ur_sched r)) -> (forall l k, sc_cut (ur_sched r) = Some (l, k) -> users_look_ok l) ->
  (~ named name prior -> present uf name = b) ->
  exists uf' evs, pollPasswd cfg (JSONMap uf) r = Some (JSONMap uf', evs)
    /\ (~ named name (prior ++ evs) -> present uf' name = b /\ Forall (lists_user name b) (sc_ticks (ur_sched r))).
Proof.
  intros Hok Hcut Hprior. unfold pollPasswd, passwd_start. cbn [loadPasswdSnapshot].
  destruct (loop_inv (users_tick cfg) (guarding name b) users_look_ok) with
    (s := {| us_snapshot := Some uf; us_file := JSONMap uf |}) (evs := prior) (sc := ur_sched r)
    as (s' & evs & -> & (u & uf' & _ & Hf & Hw)); try done.
  - intros s seen evs l H Hl. by apply users_tick_guarding.
  - intros s seen evs more (u & uf1 & H1 & H2 & H3). exists u, uf1. split_and!; [done..|]. rewrite named_app. tauto.
  - exists uf, uf. split_and!; [done..|]. intros Hno. specialize (Hprior Hno). done.
  - cbn. rewrite Hf. exists uf', evs. split; [done|]. intros Hno. by apply Hw in Hno as (_ & ? & ?).
Qed.

(** ** Properties *)

(** C18: no change of a watched file passes silently, over any number of runs
    of the agent that start from a state file with the file's hash, each
    ending or killed anywhere, also between the sending of an event and the
    saving of the state, with any of the writes failing: as long as no
    modification of the file has been reported, the state file still has the
    first hash, and every finished look that could read the file found that
    hash.  No run panics. *)
Theorem file_change_reported (cfg : Config) (sha256 : bytes -> string) (path h : string) (m0 : file_states) (runs : list files_run) :
  path ∈ defaultMonitoredFiles -> hash_in m0 path = Some h ->
  exists m evs, run_ticks (pollFileState cfg sha256) (JSONMap m0) runs = Some (JSONMap m, evs)
    /\ (path ∉ reasons evs ->
        hash_in m path = Some h /\ Forall (fun r => Forall (sees sha256 path h) (sc_ticks (fr_sched r))) runs).
Proof.
  intros Hpath Hh.
  destruct (run_ticks_inv (pollFileState cfg sha256) (fun file seen evs => exists m, file = JSONMap m /\ (path ∉ reasons evs ->
      hash_in m path = Some h /\ Forall (fun r => Forall (sees sha256 path h) (sc_ticks (fr_sched r))) seen)) (fun _ => True))
    with (ins := runs) (s := JSONMap m0) (seen := @nil files_run) (evs := @nil pending) as (f & evs & Hr & m & -> & Hm).
  - intros f seen evs r (m & -> & Hm) _.
    destruct (pollFileState_watching cfg sha256 path h m evs r Hpath) as (m' & evs' & -> & H); [by intros [? _]%Hm|].
    eexists _, _. split; [done|]. exists m'. split; [done|]. intros Hno. destruct (H Hno) as [? ?].
    split; [done|]. apply Forall_app. rewrite reasons_app, elem_of_app in Hno. split; [apply Hm; tauto|by constructor].
  - by exists m0.
  - by apply Forall_true.
  - by exists m, evs.
Qed.

(** C19: no account appears in or disappears from the user database silently:
    over any number of runs of the agent that start from a saved snapshot,
    each ending anywhere and with any of the writes failing, as long as no
    creation and no deletion of a user has been reported, the saved snapshot
    and every finished look at the database agree with the first snapshot on
    whether the user exists. *)
Theorem user_change_reported (cfg : Config) (name : bytes) (u0 : users) (runs : list users_run) :
  Forall (fun r => Forall users_look_ok (sc_ticks (ur_sched r))
                   /\ (forall l k, sc_cut (ur_sched r) = Some (l, k) -> users_look_ok l)) runs ->
  exists u evs, run_ticks (pollPasswd cfg) (JSONMap u0) runs = Some (JSONMap u, evs)
    /\ (~ named name evs ->
        present u name = present u0 name
        /\ Forall (fun r => Forall (lists_user name (present u0 name)) (sc_ticks (ur_sched r))) runs).
Proof.
  intros Hok.
  destruct (run_ticks_inv (pollPasswd cfg) (fun file seen evs => exists u, file = JSONMap u /\ (~ named name evs ->
      present u name = present u0 name /\ Forall (fun r => Forall (lists_user name (present u0 name)) (sc_ticks (ur_sched r))) seen))
      (fun r => Forall users_look_ok (sc_ticks (ur_sched r)) /\ (forall l k, sc_cut (ur_sched r) = Some (l, k) -> users_look_ok l)))
    with (ins := runs) (s := JSONMap u0) (seen := @nil users_run) (evs := @nil pending) as (f & evs & Hr & u & -> & Hu).
  - intros f seen evs r (u & -> & Hu) [Hr1 Hr2].
    destruct (pollPasswd_guarding cfg name (present u0 name) u evs r Hr1 Hr2) as (u' & evs' & -> & H); [by intros [? _]%Hu|].
    eexists _, _. split; [done|]. exists u'. split; [done|]. intros Hno. destruct (H Hno) as [? ?].
    split; [done|]. apply Forall_app. rewrite named_app in Hno. split; [apply Hu; tauto|by constructor].
  - by exists u0.
  - done.
  - by exists u, evs.
Qed.

(** When the kernel log cannot be positioned at its end it is drained and
    opened again, and the records that were drained are read once more. *)
Lemma drained_records_reported (cfg : Config) (old : list (time * bytes)) (sc : schedule (time * bytes)) :
  runOOMWatcher cfg {| km_open := true; km_seek := false; km_reopen := true |} old sc
  = runOOMWatcher cfg {| km_open := true; km_seek := true; km_reopen := true |} []
      {| sc_ticks := old ++ sc_ticks sc; sc_cut := sc_cut sc |}.
Proof. done. Qed.

(** The boot time is recorded before the event is sent: a run that is
    cancelled there never reports the reboot, and neither does the next. *)
Lemma reboot_lost (cfg : Config) (b0 b1 : Z) (ok taken : bool) :
  0 <= b0 < b1 -> b1 < 2 ^ 64 ->
  let '(sent, file, started) := Run cfg (Some b1) (saveBootTime None true b0) true false in
  sent = [] /\ started = [] /\ (Run cfg (Some b1) file ok taken).1.1 = [].
Proof.
  intros H0 H1. unfold Run, checkReboot at 1. rewrite loadBootTime_saved by lia.
  rewrite (proj2 (Z.ltb_lt b0 b1)) by lia. split_and!; [done..|].
  unfold checkReboot. rewrite loadBootTime_saved by lia. by rewrite Z.ltb_irrefl.
Qed.

(** *** Witnesses *)
Definition demo_sha (b : bytes) : string := S b.
Definition demo_files (text : string) (path : string) : option (bytes * Z) :=
  if bool_decide (path = "/etc/sudoers") then Some (B text, 5) else None.
Definition demo_state : file_states := {["/etc/sudoers" := {| fs_Hash := "a"; fs_ModTime := 0; fs_Size := 1 |}]}.
(** The first run is killed after the event and before the state is saved. *)
Definition demo_runs : list files_run := [
  {| fr_files := demo_files "a"; fr_write_ok := true;
     fr_sched := {| sc_ticks := [{| fl_now := 1; fl_files := demo_files "a"; fl_write_ok := true |}];
                    sc_cut := Some ({| fl_now := 2; fl_files := demo_files "b"; fl_write_ok := true |}, 0%nat) |} |};
  {| fr_files := demo_files "b"; fr_write_ok := true;
     fr_sched := {| sc_ticks := [{| fl_now := 3; fl_files := demo_files "b"; fl_write_ok := true |}]; sc_cut := None |} |}].

Lemma file_change_reported_witness :
  exists m evs, run_ticks (pollFileState demo_config demo_sha) (JSONMap demo_state) demo_runs = Some (JSONMap m, evs)
    /\ "/etc/sudoers" ∈ reasons evs.
Proof.
  destruct (file_change_reported demo_config demo_sha "/etc/sudoers" "a" demo_state demo_runs) as (m & evs & H1 & H2).
  - apply (bool_decide_eq_true_1 _). reflexivity.
  - reflexivity.
  - exists m, evs. split; [exact H1|]. destruct (decide ("/etc/sudoers" ∈ reasons evs)) as [H|H]; [exact H|exfalso].
    apply H2 in H as [_ H]. apply Forall_cons in H as [_ H]. apply Forall_inv in H. apply Forall_inv in H.
    specialize (H (B "b") 5 eq_refl). discriminate H.
Defined.

Definition demo_users_run : users_run := {|
  ur_passwd := Some demo_passwd; ur_write_ok := true;
  ur_sched := {| sc_ticks := [{| ul_now := 3; ul_passwd := Some demo_passwd; ul_write_ok := false;
                                 ul_current := fun o => o; ul_snapshot := fun o => o |}]; sc_cut := None |} |}.

Lemma user_change_reported_witness :
  exists u evs, run_ticks (pollPasswd demo_config) (JSONMap {[B "root" := 0]}) [demo_users_run] = Some (JSONMap u, evs)
    /\ ~ ~ named (B "eve") evs.
Proof.
  destruct (user_change_reported demo_config (B "eve") {[B "root" := 0]} [demo_users_run]) as (u & evs & H1 & H2).
  - constructor; [|constructor]. split; [|intros l k [=]]. constructor; [|constructor]. split; intros o; reflexivity.
  - exists u, evs. split; [exact H1|]. intros H. apply H2 in H as [_ H]. apply Forall_inv in H. apply Forall_inv in H.
    specialize (H demo_users). assert (Hc : currentPasswdUsers (Some demo_passwd) = Some demo_users) by (vm_compute; reflexivity).
    apply H in Hc. vm_compute in Hc. discriminate Hc.
Defined.
