(* ===== verification/AuthEvents.v ===== *)
(** * The authentication event collector

    [src/internal/events/auth/wtmp.go], [collector.go] and
    [journal_linux.go]: login records, failed logins and sudo calls, the
    brute-force detector and the new-address check.  The clock, the contents
    of the watched files and the decoding of JSON are arguments. *)
From S2P Require Import Prelude GoFloat GoStrings GoNum GoRegexp Events.
Local Open Scope Z_scope.

(** ** [wtmp.go] *)
Definition utUserProcess : Z := 7.
Definition utDeadProcess : Z := 8.
Definition utmpRecordSize : Z := 384.
Definition minValidSec : Z := 1577836800.

Record parsedRecord := { pr_Type : Z; pr_PID : Z; pr_TTY : bytes; pr_User : bytes; pr_Host : bytes; pr_Timestamp : time }.

(** Little-endian integers. *)
Fixpoint le_uint (l : bytes) : Z := match l with [] => 0 | c :: t => byteval c + 256 * le_uint t end.
Definition wrap_i16 (z : Z) : Z := (z + 2 ^ 15) mod 2 ^ 16 - 2 ^ 15.

Definition nullTerminated (b : bytes) : bytes :=
  match IndexByte b "000"%char with Some idx => take idx b | None => b end.

Definition field (data : bytes) (off size : nat) : bytes := take size (drop off data).

Definition parseRecord (now : time) (data : bytes) : option parsedRecord :=
  if negb (len data =? utmpRecordSize) then None
  else
    let sec := wrap_i32 (le_uint (field data 340 4)) in
    let usec := wrap_i32 (le_uint (field data 344 4)) in
    Some {|
      pr_Type := wrap_i16 (le_uint (field data 0 2));
      pr_PID := wrap_i32 (le_uint (field data 4 4));
      pr_TTY := nullTerminated (field data 8 32);
      pr_User := nullTerminated (field data 44 32);
      pr_Host := nullTerminated (field data 76 256);
      pr_Timestamp := if minValidSec <=? sec then time_unix sec (usec * 1000) else now |}.

(** ** Configuration and state *)
Record Config := {
  WtmpPath : string; AuthLogPath : string; StateDir : string; BruteforceThreshold : Z; BruteforceWindow : duration;
  BruteforceSuppression : duration; IgnorePrivateIP : bool; cfg_Host : HostInfo; cfg_Agent : AgentInfo }.

Record bruteforceEntry := { attempts : list time; suppressedUntil : time }.
(** Keys are the remote address and the user. *)
Abbreviation bf_tracker := (gmap (bytes * bytes) bruteforceEntry).

(** [lastIPByUser] is [None] when it is a nil map. *)
Record Collector := { c_cfg : Config; bfTracker : bf_tracker; lastIPByUser : option (gmap bytes bytes) }.

(** [stat path]: [Some true] when the file exists, [Some false] when it does
    not, [None] on another error. *)
Definition not_exist (stat : string -> option bool) (path : string) : bool := bool_decide (stat path = Some false).
Definition exists_ (stat : string -> option bool) (path : string) : bool := bool_decide (stat path = Some true).

Definition NewCollector (cfg : Config) (stat : string -> option bool) (saved : option (gmap bytes bytes)) : Collector :=
  let wtmp0 := if bool_decide (WtmpPath cfg = "") then "/var/log/wtmp" else WtmpPath cfg in
  let wtmp := if not_exist stat wtmp0 && exists_ stat "/var/log/wtmp.db" then "/var/log/wtmp.db" else wtmp0 in
  let log0 := if bool_decide (AuthLogPath cfg = "") then "/var/log/auth.log" else AuthLogPath cfg in
  let log := if not_exist stat log0 && exists_ stat "/var/log/secure" then "/var/log/secure" else log0 in
  {| c_cfg := {|
       WtmpPath := wtmp; AuthLogPath := log; StateDir := StateDir cfg;
       BruteforceThreshold := if BruteforceThreshold cfg =? 0 then 5 else BruteforceThreshold cfg;
       BruteforceWindow := if BruteforceWindow cfg =? 0 then 30 * second else BruteforceWindow cfg;
       BruteforceSuppression := if BruteforceSuppression cfg =? 0 then 2 * minute else BruteforceSuppression cfg;
       IgnorePrivateIP := IgnorePrivateIP cfg; cfg_Host := cfg_Host cfg; cfg_Agent := cfg_Agent cfg |};
     bfTracker := ∅; lastIPByUser := saved |}.

(** What decoding the state file gives: an absent or undecodable file is an
    empty map, JSON [null] a nil one. *)
Inductive ip_file := IPNone | IPBad | IPNull | IPMap (m : gmap bytes bytes).
Definition loadLastIPByUser (file : ip_file) : option (gmap bytes bytes) :=
  match file with IPNone | IPBad => Some ∅ | IPNull => None | IPMap m => Some m end.
Definition saveLastIPByUser (stateDir : string) (write_ok : bool) (file : ip_file) (m : gmap bytes bytes) : ip_file :=
  if bool_decide (stateDir = "") || negb write_ok then file else IPMap m.

(** ** Event constructors *)
Definition auth_event (cfg : Config) (ty : EventType) (ts : time) (cat : Category) (sev : Severity) (conf : Confidence)
    (actor : ActorInfo) (ctx : option ContextInfo) (tags : list string) (id : string) : Event := {|
  ev_ID := id; ev_Timestamp := ts; ev_Type := ty; ev_Category := cat; ev_Severity := sev; ev_Confidence := conf;
  ev_Host := cfg_Host cfg; ev_Agent := cfg_Agent cfg; ev_Actor := Some actor; ev_Context := ctx; ev_Tags := tags;
  ev_Process := None; ev_Network := None |}.

Definition actor (user ip method target command : bytes) : ActorInfo := {|
  actor_User := S user; actor_UID := 0; actor_IP := S ip; actor_Method := S method; actor_TargetUser := S target;
  actor_Command := S command |}.
Definition context (tty remote reason service : bytes) : ContextInfo := {|
  ctx_SessionID := ""; ctx_TTY := S tty; ctx_RemoteIP := S remote; ctx_Reason := S reason; ctx_Service := S service |}.

Definition makeLoginEvent (cfg : Config) (rec : parsedRecord) : pending :=
  auth_event cfg EventAuthLoginSuccess (pr_Timestamp rec) CategoryAccessEvent SeverityInfo ConfidenceNone
    (actor (pr_User rec) [] [] [] []) (Some (context (pr_TTY rec) (pr_Host rec) [] [])) ["auth"; "login"].
Definition makeLogoutEvent (cfg : Config) (rec : parsedRecord) : pending :=
  auth_event cfg EventAuthLogout (pr_Timestamp rec) CategoryAccessEvent SeverityInfo ConfidenceNone
    (actor (pr_User rec) [] [] [] []) (Some (context (pr_TTY rec) [] [] [])) ["auth"; "logout"].

(** ** Private addresses *)

(** One step of [parseIPv4]'s loop: fields so far, value and digits of the
    current one. *)
Fixpoint parse_v4 (l : bytes) (prev_dot : bool) (fields : list Z) (val : Z) (digLen : nat) : option (list Z) :=
  match l with
  | [] => if prev_dot then None else if (length fields =? 3)%nat then Some (fields ++ [val]) else None
  | c :: t =>
      match digit_val 10 c with
      | Some d =>
          if (digLen =? 1)%nat && (val =? 0) then None
          else if 255 <? val * 10 + d then None else parse_v4 t false fields (val * 10 + d) (Datatypes.S digLen)
      | None =>
          if bool_decide (c = "."%char) then
            if prev_dot || (length fields =? 3)%nat then None else parse_v4 t true (fields ++ [val]) 0 0
          else None
      end
  end.
(** A dot may be neither first nor last. *)
Definition parseIPv4 (l : bytes) : option (list Z) := parse_v4 l true [] 0 0.

(** The hexadecimal digits at the front, at most four. *)
Fixpoint hex_group (l : bytes) (off : nat) (acc : Z) : option (nat * Z * bytes) :=
  match l with
  | c :: t =>
      match digit_val 16 c with
      | Some d => if (3 <? off)%nat then None else hex_group t (Datatypes.S off) (acc * 16 + d)
      | None => Some (off, acc, l)
      end
  | [] => Some (off, acc, [])
  end.

(** The group loop of [parseIPv6]: [ip] the bytes so far, [ell] where the
    double colon stood; at most 8 groups. *)
Fixpoint parse_v6_groups (fuel : nat) (s : bytes) (ip : list Z) (ell : option nat) : option (list Z * option nat * bytes) :=
  match fuel with
  | O => Some (ip, ell, s)
  | Datatypes.S f =>
      match hex_group s 0 0 with
      | None | Some (O, _, _) => None
      | Some (_, acc, rest) =>
          match rest with
          | "."%char :: _ =>
              if (match ell with None => negb (length ip =? 12)%nat | Some _ => false end) || (12 <? length ip)%nat then None
              else match parseIPv4 s with Some v4 => Some (ip ++ v4, ell, []) | None => None end
          | _ =>
              let ip := ip ++ [acc / 256; acc mod 256] in
              match rest with
              | [] => Some (ip, ell, [])
              | ":"%char :: [] => None
              | ":"%char :: ":"%char :: s' =>
                  match ell with
                  | Some _ => None
                  | None => match s' with
                            | [] => Some (ip, Some (length ip), [])
                            | _ => parse_v6_groups f s' ip (Some (length ip))
                            end
                  end
              | ":"%char :: s' => parse_v6_groups f s' ip ell
              | _ => None
              end
          end
      end
  end.

Definition parseIPv6 (s : bytes) : option (list Z) :=
  let '(ell, s) := match s with ":"%char :: ":"%char :: t => (Some 0%nat, t) | _ => (None, s) end in
  match ell, s with
  | Some _, [] => Some (replicate 16 0)
  | _, _ =>
      match parse_v6_groups 8 s [] ell with
      | Some (ip, ell, []) =>
          if (length ip <? 16)%nat then
            match ell with
            | None => None
            | Some e => Some (take e ip ++ replicate (16 - length ip) 0 ++ drop e ip)
            end
          else match ell with None => Some ip | Some _ => None end
      | _ => None
      end
  end.

(** The first dot or colon decides the family; an address with a zone is
    refused. *)
Fixpoint ip_family (s : bytes) : option bool :=
  match s with
  | [] => None
  | "."%char :: _ => Some false
  | ":"%char :: _ => Some true
  | "%"%char :: _ => None
  | _ :: t => ip_family t
  end.

Definition v4_prefix : list Z := replicate 10 0 ++ [255; 255].

(** [net.ParseIP]: the 16-byte form. *)
Definition ParseIP (s : bytes) : option (list Z) :=
  match ip_family s with
  | Some false => (fun v4 => v4_prefix ++ v4) <$> parseIPv4 s
  | Some true => if bool_decide ("%"%char ∈ s) then None else parseIPv6 s
  | None => None
  end.

Definition To4 (ip : list Z) : option (list Z) :=
  if bool_decide (take 12 ip = v4_prefix) then Some (drop 12 ip) else None.

Definition isPrivateIP (ip : bytes) : bool :=
  match ParseIP ip with
  | None => false
  | Some parsed =>
      match To4 parsed with
      | Some (a :: b :: _) =>
          (a =? 127) || (a =? 10) || ((a =? 172) && (Z.land b 240 =? 16)) || ((a =? 192) && (b =? 168))
      | Some _ => false
      | None => bool_decide (parsed = replicate 15 0 ++ [1])
      end
  end.

Example private_checks :
  map (fun s => isPrivateIP (B s)) ["10.1.2.3"; "172.31.0.1"; "172.32.0.1"; "192.168.1.1"; "127.9.9.9"; "::1"; "::ffff:10.0.0.1";
    "8.8.8.8"; "2001:db8::1"; "010.0.0.1"; "example.org"; "fe80::1%eth0"; "1.2.3"]
  = [true; true; false; true; true; true; true; false; false; false; false; false; false].
Proof. vm_compute. reflexivity. Qed.

(** ** Brute-force detection *)
Definition with_tracker (c : Collector) (t : bf_tracker) : Collector :=
  {| c_cfg := c_cfg c; bfTracker := t; lastIPByUser := lastIPByUser c |}.

Definition cutoff_of (cfg : Config) (now : time) : time := time_add now (wrap_i64 (- BruteforceWindow cfg)).

(** The in-place loop that keeps the attempts after the cutoff. *)
Definition prune (cutoff : time) (l : list time) : list time := List.filter (fun t => time_after t cutoff) l.

Definition makeBruteforceEvent (cfg : Config) (user remoteIP : bytes) (now : time) : pending :=
  auth_event cfg EventAuthBruteforceDetected now CategoryThreatActivity SeverityCritical ConfidenceHigh
    (actor user remoteIP [] [] []) (Some (context [] [] (B "bruteforce") [])) ["auth"; "bruteforce"].

Definition checkBruteforce (c : Collector) (user remoteIP : bytes) (now : time) : Collector * option pending :=
  match remoteIP with
  | [] => (c, None)
  | _ =>
      let key := (remoteIP, user) in
      let entry := default {| attempts := []; suppressedUntil := time_zero |} (bfTracker c !! key) in
      let atts := prune (cutoff_of (c_cfg c) now) (attempts entry) ++ [now] in
      if (BruteforceThreshold (c_cfg c) <=? len atts) && time_after now (suppressedUntil entry)
      then (with_tracker c (<[key := {| attempts := atts; suppressedUntil := time_add now (BruteforceSuppression (c_cfg c)) |}]> (bfTracker c)),
            Some (makeBruteforceEvent (c_cfg c) user remoteIP now))
      else (with_tracker c (<[key := {| attempts := atts; suppressedUntil := suppressedUntil entry |}]> (bfTracker c)), None)
  end.

(** Each entry is pruned, and dropped when nothing is left and it no longer
    suppresses. *)
Definition gc_entry (cfg : Config) (now : time) (e : bruteforceEntry) : option bruteforceEntry :=
  let atts := prune (cutoff_of cfg now) (attempts e) in
  if (len atts =? 0) && time_after now (suppressedUntil e) then None
  else Some {| attempts := atts; suppressedUntil := suppressedUntil e |}.
Definition gcBruteforceTracker (c : Collector) (now : time) : Collector :=
  with_tracker c (omap (gc_entry (c_cfg c) now) (bfTracker c)).

(** ** New addresses *)
Definition makeNewIPEvent (cfg : Config) (user ip prev : bytes) (now : time) : pending :=
  auth_event cfg EventAuthLoginNewIP now CategoryThreatActivity SeverityWarning ConfidenceMedium
    (actor user ip [] [] []) (Some (context [] prev (B "new_ip") [])) ["auth"; "new_ip"].

(** [None] is a panic: assignment to a nil map. *)
Definition checkNewIP (c : Collector) (file : ip_file) (write_ok : bool) (rec : parsedRecord) (now : time)
    : option (Collector * ip_file * option pending) :=
  let ip := pr_Host rec in
  if bool_decide (ip = []) then Some (c, file, None)
  else if IgnorePrivateIP (c_cfg c) && isPrivateIP ip then Some (c, file, None)
  else
    let prev := match lastIPByUser c with Some m => m !! pr_User rec | None => None end in
    match lastIPByUser c with
    | None => None
    | Some m =>
        let m' := <[pr_User rec := ip]> m in
        let c' := {| c_cfg := c_cfg c; bfTracker := bfTracker c; lastIPByUser := Some m' |} in
        let file' := saveLastIPByUser (StateDir (c_cfg c)) write_ok file m' in
        match prev with
        | Some p => if bool_decide (p = ip) then Some (c', file', None)
                    else Some (c', file', Some (makeNewIPEvent (c_cfg c) (pr_User rec) ip p now))
        | None => Some (c', file', None)
        end
    end.

(** ** The wtmp watcher *)
Record wtmp_state := { w_c : Collector; w_ipfile : ip_file; w_pos : nat; w_cursor : Z }.

(** What one complete record does: the events, in order. *)
Definition handle_record (write_ok : bool) (st : wtmp_state) (now : time) (data : bytes) : option (wtmp_state * list pending) :=
  match parseRecord now data with
  | None => Some (st, [])
  | Some rec =>
      if pr_Type rec =? utUserProcess then
        if bool_decide (pr_User rec = []) then Some (st, [])
        else '(c', f', nip) ← checkNewIP (w_c st) (w_ipfile st) write_ok rec now;
             Some ({| w_c := c'; w_ipfile := f'; w_pos := w_pos st; w_cursor := w_cursor st |},
                   makeLoginEvent (c_cfg (w_c st)) rec :: match nip with Some e => [e] | None => [] end)
      else if pr_Type rec =? utDeadProcess then
        if bool_decide (pr_TTY rec = []) then Some (st, []) else Some (st, [makeLogoutEvent (c_cfg (w_c st)) rec])
      else Some (st, [])
  end.

(** The inner loop of a tick on the contents [file] of the open file:
    [io.ReadFull] of one record at the file position.  Fewer bytes than a
    record are consumed too, but not counted by the cursor.  The file has at
    most [length file / 384] records, which bounds the loop. *)
Fixpoint wtmp_loop (write_ok : bool) (fuel : nat) (file : bytes) (now : time) (st : wtmp_state) : option (wtmp_state * list pending) :=
  match fuel with
  | O => Some (st, [])
  | Datatypes.S f =>
      let rest := drop (w_pos st) file in
      if (Z.to_nat utmpRecordSize <=? length rest)%nat then
        let data := take (Z.to_nat utmpRecordSize) rest in
        '(st1, evs) ← handle_record write_ok {| w_c := w_c st; w_ipfile := w_ipfile st;
          w_pos := (w_pos st + Z.to_nat utmpRecordSize)%nat; w_cursor := w_cursor st +i utmpRecordSize |} now data;
        '(st2, evs') ← wtmp_loop write_ok f file now st1; Some (st2, evs ++ evs')
      else Some ({| w_c := w_c st; w_ipfile := w_ipfile st; w_pos := (w_pos st + length rest)%nat; w_cursor := w_cursor st |}, [])
  end.

(** A tick: on rotation ([rotated]) the new file is read from its start.  The
    last component is the cursor file. *)
Definition wtmp_tick (write_ok : bool) (file : bytes) (rotated : bool) (now : time) (st : wtmp_state) : option (wtmp_state * list pending * bytes) :=
  let st := if rotated then {| w_c := w_c st; w_ipfile := w_ipfile st; w_pos := 0%nat; w_cursor := 0 |} else st in
  '(st', evs) ← wtmp_loop write_ok (Datatypes.S (length file)) file now st; Some (st', evs, FormatInt (w_cursor st')).

Definition loadWtmpCursor (file : option bytes) : option Z :=
  match file with
  | None => None
  | Some data => match ParseInt (TrimSpace data) 10 64 with (v, None) => Some v | (_, Some _) => None end
  end.
Definition saveWtmpCursor (offset : Z) : bytes := FormatInt offset.

(** Where reading starts: the saved cursor, or the end of the file; a seek
    to a negative position fails and ends at the end too. *)
Definition wtmp_start (c : Collector) (ipfile : ip_file) (cursor_file : option bytes) (file : bytes) : wtmp_state :=
  let cursor := match loadWtmpCursor cursor_file with Some v => if v =? 0 then len file else v | None => len file end in
  {| w_c := c; w_ipfile := ipfile; w_pos := if cursor <? 0 then length file else Z.to_nat cursor; w_cursor := cursor |}.

(** ** The auth.log watcher *)
Definition reLoginFailed : re := MustCompile "Failed (\S+) for (?:invalid user )?(\S+) from ([\d.]+) port \d+".
Definition reInvalidUser : re := MustCompile "Invalid user (\S+) from ([\d.]+) port \d+".
Definition reSudo : re := MustCompile "sudo:\s+(\S+)\s*:.*?COMMAND=(.+)$".

(** The event a line describes and, for a failed login, its user and address. *)
Definition parseAuthLogLine (cfg : Config) (now : time) (line : bytes) : option (pending * option (bytes * bytes)) :=
  match FindStringSubmatch reLoginFailed 3 line with
  | Some [_; method; user; ip] =>
      Some (auth_event cfg EventAuthLoginFailed now CategoryAccessEvent SeverityWarning ConfidenceNone (actor user ip method [] [])
              (Some (context [] [] (B "invalid_password") (B "sshd"))) ["auth"; "failed_login"], Some (user, ip))
  | _ =>
      match FindStringSubmatch reInvalidUser 2 line with
      | Some [_; user; ip] =>
          Some (auth_event cfg EventAuthLoginFailed now CategoryAccessEvent SeverityWarning ConfidenceNone
                  (actor user ip (B "preauth") [] []) (Some (context [] [] (B "invalid_user") (B "sshd"))) ["auth"; "failed_login"],
                Some (user, ip))
      | _ =>
          match FindStringSubmatch reSudo 2 line with
          | Some [_; m1; m2] =>
              Some (auth_event cfg EventAuthSudo now CategoryAccessEvent SeverityWarning ConfidenceNone
                      (actor (TrimSpace m1) [] [] (B "root") (TrimSpace m2)) None ["auth"; "sudo"], None)
          | _ => None
          end
      end
  end.

(** What a line does: its event, then a brute-force event. *)
Definition auth_line (c : Collector) (now : time) (line : bytes) : Collector * list pending :=
  match parseAuthLogLine (c_cfg c) now line with
  | None => (c, [])
  | Some (ev, None) => (c, [ev])
  | Some (ev, Some (user, ip)) =>
      let '(c', bf) := checkBruteforce c user ip now in
      (c', ev :: match bf with Some e => [e] | None => [] end)
  end.

(** The reading loop of a tick: the unread part of the file, split after each
    newline; a last part without newline is taken as a line as well. *)
Fixpoint auth_lines (c : Collector) (now : time) (segs : list bytes) : Collector * list pending :=
  match segs with
  | [] | [[]] => (c, [])
  | seg :: rest =>
      let '(c1, evs) := auth_line c now (TrimRight seg (["013"%char; newline])) in
      let '(c2, evs') := auth_lines c1 now rest in (c2, evs ++ evs')
  end.
Definition authlog_tick (c : Collector) (now : time) (unread : bytes) : Collector * list pending :=
  auth_lines c now (Split unread newline).

(** A journal line, decoded: [None] when it is not a JSON object of strings. *)
Record journalEntry := { je_Message : bytes; je_Comm : bytes }.
Definition parseJournalLine (cfg : Config) (now : time) (entry : option journalEntry) : option (pending * option (bytes * bytes)) :=
  match entry with
  | None => None
  | Some e => parseAuthLogLine cfg now (if bool_decide (je_Comm e = B "sudo") then B "sudo: " ++ je_Message e else je_Message e)
  end.

Example auth_failed :
  snd <$> parseAuthLogLine {| WtmpPath := ""; AuthLogPath := ""; StateDir := ""; BruteforceThreshold := 5; BruteforceWindow := 1;
    BruteforceSuppression := 1; IgnorePrivateIP := true; cfg_Host := {| host_Hostname := ""; host_IP := "" |};
    cfg_Agent := {| agent_Name := ""; agent_Version := "" |} |} 0
    (B "sshd[1]: Failed password for invalid user alice from 1.2.3.4 port 22 ssh2") = Some (Some (B "alice", B "1.2.3.4")).
Proof. vm_compute. reflexivity. Qed.

(** ** The brute-force detector against its specification *)
Inductive bf_op := BAttempt (user ip : bytes) (now : time) | BGC (now : time).
Definition op_time (o : bf_op) : time := match o with BAttempt _ _ t | BGC t => t end.

(** The decisions the program takes for the attempts of [key]. *)
Fixpoint bf_run (c : Collector) (key : bytes * bytes) (ops : list bf_op) : list bool :=
  match ops with
  | [] => []
  | BGC now :: t => bf_run (gcBruteforceTracker c now) key t
  | BAttempt user ip now :: t =>
      let '(c', ev) := checkBruteforce c user ip now in
      if bool_decide ((ip, user) = key) then bool_decide (is_Some ev) :: bf_run c' key t else bf_run c' key t
  end.

(** The specification keeps every attempt of the key: an attempt raises an
    alert when at least the threshold of them, itself included, lie in the
    window that ends with it and the last alert is no longer suppressing. *)
Fixpoint bf_spec (cfg : Config) (key : bytes * bytes) (ops : list bf_op) (hist : list time) (supp : time) : list bool :=
  match ops with
  | [] => []
  | BGC _ :: t => bf_spec cfg key t hist supp
  | BAttempt user ip now :: t =>
      if bool_decide ((ip, user) = key) then
        let hist' := hist ++ [now] in
        let alert := (BruteforceThreshold cfg <=? Z.of_nat (countb (fun x => now - BruteforceWindow cfg <? x) hist'))
                     && (supp <? now) in
        alert :: bf_spec cfg key t hist' (if alert then now + BruteforceSuppression cfg else supp)
      else bf_spec cfg key t hist supp
  end.

(** Clock readings do not go back. *)
Fixpoint times_from (from : time) (ops : list bf_op) : Prop :=
  match ops with [] => True | o :: t => from <= op_time o /\ 0 < op_time o /\ times_from (op_time o) t end.

Definition empty_entry : bruteforceEntry := {| attempts := []; suppressedUntil := time_zero |}.
Definition entry_of (c : Collector) (key : bytes * bytes) : bruteforceEntry := default empty_entry (bfTracker c !! key).

(** From time [T] on, the tracker entry decides like the full history. *)
Definition bf_rel (w : duration) (e : bruteforceEntry) (T : time) (hist : list time) (supp : time) : Prop :=
  (forall now, T <= now -> prune (now - w) (attempts e) = prune (now - w) hist)
  /\ (forall now, T <= now -> 0 < now -> time_after now (suppressedUntil e) = (supp <? now)).

Lemma prune_app (cut : time) (l k : list time) : prune cut (l ++ k) = prune cut l ++ prune cut k.
Proof. apply List.filter_app. Qed.

Lemma prune_prune (a b : time) (l : list time) : a <= b -> prune b (prune a l) = prune b l.
Proof.
  intros Hab. unfold prune, time_after. induction l as [|x l IH]; [done|]. cbn [List.filter].
  destruct (Z.ltb_spec a x); cbn [List.filter]; [by rewrite IH|]. destruct (Z.ltb_spec b x); [lia|done].
Qed.

Lemma bf_rel_later (w : duration) e T T' hist supp : T <= T' -> bf_rel w e T hist supp -> bf_rel w e T' hist supp.
Proof. intros H [H1 H2]. split; intros; [apply H1|apply H2]; lia. Qed.

Lemma cutoff_of_window (cfg : Config) (now : time) :
  0 < BruteforceWindow cfg <= max_i64 -> cutoff_of cfg now = now - BruteforceWindow cfg.
Proof. intros H. unfold cutoff_of, time_add. rewrite wrap_i64_id by go_lia. lia. Qed.

Lemma bf_rel_attempt (cfg : Config) e T hist supp now s' supp' :
  0 < BruteforceWindow cfg <= max_i64 -> T <= now -> bf_rel (BruteforceWindow cfg) e T hist supp ->
  (forall t, now <= t -> 0 < t -> time_after t s' = (supp' <? t)) ->
  bf_rel (BruteforceWindow cfg) {| attempts := prune (cutoff_of cfg now) (attempts e) ++ [now]; suppressedUntil := s' |} now (hist ++ [now]) supp'.
Proof.
  intros Hw HT [H1 _] Hs. split; [|exact Hs]. intros t Ht. cbn [attempts].
  rewrite cutoff_of_window, H1, !prune_app, prune_prune by (done || lia). done.
Qed.

Lemma attempt_count (w : duration) (now : time) (hist : list time) :
  0 < w -> len (prune (now - w) hist ++ [now]) = Z.of_nat (countb (fun x => now - w <? x) (hist ++ [now])).
Proof.
  intros Hw. unfold len. rewrite countb_app, length_app. unfold countb, prune, time_after. cbn.
  destruct (Z.ltb_spec (now - w) now); [|lia]. done.
Qed.

Lemma gc_rel (cfg : Config) c key T hist supp now :
  c_cfg c = cfg -> 0 < BruteforceWindow cfg <= max_i64 -> T <= now -> 0 < now ->
  bf_rel (BruteforceWindow cfg) (entry_of c key) T hist supp ->
  bf_rel (BruteforceWindow cfg) (entry_of (gcBruteforceTracker c now) key) now hist supp.
Proof.
  intros <- Hw HT Hpos Hrel. pose proof (bf_rel_later _ _ _ _ _ _ HT Hrel) as [H1 H2].
  unfold entry_of in *. unfold gcBruteforceTracker. cbn [bfTracker with_tracker]. rewrite lookup_omap.
  destruct (bfTracker c !! key) as [e|]; cbn [default from_option id option_bind mbind] in *; [|by split].
  unfold gc_entry. destruct ((len _ =? 0) && _) eqn:Hg; cbn [default from_option id].
  - apply andb_true_iff in Hg as [Hl Ha]. split.
    + intros t Ht. rewrite <- H1 by done. rewrite <- (prune_prune (cutoff_of (c_cfg c) now) _ (attempts e)) by (rewrite cutoff_of_window; lia).
      destruct (prune (cutoff_of (c_cfg c) now) (attempts e)); [done|]. apply Z.eqb_eq in Hl. unfold len in Hl. cbn [length] in Hl. lia.
    + intros t Ht Hp. rewrite <- H2 by done. unfold time_after, time_zero in *. cbn [suppressedUntil empty_entry].
      unfold time_zero. lia.
  - split; [|done]. intros t Ht. cbn [attempts]. rewrite prune_prune by (rewrite cutoff_of_window; lia). auto.
Qed.

Lemma checkBruteforce_other (c : Collector) (user ip : bytes) (now : time) (key : bytes * bytes) :
  (ip, user) <> key -> entry_of (checkBruteforce c user ip now).1 key = entry_of c key
  /\ c_cfg (checkBruteforce c user ip now).1 = c_cfg c.
Proof.
  intros Hne. unfold checkBruteforce. destruct ip as [|ch ip]; [done|]. unfold entry_of.
  destruct (_ && _); cbn [fst with_tracker bfTracker c_cfg]; by rewrite lookup_insert_ne.
Qed.

Lemma bf_run_spec (cfg : Config) (key : bytes * bytes) (ops : list bf_op) :
  0 < BruteforceWindow cfg <= max_i64 -> key.1 <> [] ->
  forall c T hist supp, c_cfg c = cfg -> times_from T ops ->
  bf_rel (BruteforceWindow cfg) (entry_of c key) T hist supp -> bf_run c key ops = bf_spec cfg key ops hist supp.
Proof.
  intros Hw Hip. induction ops as [|[user ip now|now] ops IH]; intros c T hist supp Hc Ht Hrel; [done| |].
  - destruct Ht as (HT & Hpos & Ht). cbn [op_time] in *. cbn [bf_run bf_spec].
    case_bool_decide as Hk.
    + subst key. destruct ip as [|ch ip]; [done|].
      pose proof Hrel as [Hr1 Hr2]. unfold checkBruteforce. fold empty_entry. fold (entry_of c (ch :: ip, user)).
      set (e := entry_of c (ch :: ip, user)) in *. rewrite Hc.
      assert (Hcnt : len (prune (cutoff_of cfg now) (attempts e) ++ [now])
        = Z.of_nat (countb (fun x => now - BruteforceWindow cfg <? x) (hist ++ [now]))).
      { rewrite cutoff_of_window, Hr1 by done. apply attempt_count. lia. }
      rewrite Hcnt, Hr2 by done.
      destruct ((BruteforceThreshold cfg <=? _) && (supp <? now)) eqn:Ha; cbn [bool_decide]; f_equal;
        (apply (IH _ now); [exact Hc|done|]); unfold entry_of; cbn [with_tracker bfTracker]; rewrite lookup_insert_eq;
        cbn [default from_option id]; apply (bf_rel_attempt cfg e T hist supp); auto.
      intros t Ht' Hp. apply Hr2; lia.
    + destruct (checkBruteforce_other c user ip now key Hk) as [He Hcfg]. destruct (checkBruteforce c user ip now) as [c' ev].
      cbn [fst] in *. apply (IH _ now); [congruence|done|]. rewrite He. by eapply bf_rel_later.
  - destruct Ht as (HT & Hpos & Ht). cbn [bf_run bf_spec]. apply (IH _ now); [exact Hc|done|]. by apply (gc_rel cfg c key T).
Qed.

(** ** Properties *)

(** under any sequence of failed logins (of any users and addresses) and
    clean-ups of the tracker, with a clock that does not go back, the detector
    decides for each key exactly as a detector that never forgets: an alert
    when the number of attempts in the window reaches the threshold and the
    last alert is older than the suppression time. *)
Theorem bruteforce_refines (c : Collector) (key : bytes * bytes) (ops : list bf_op) :
  bfTracker c = ∅ -> 0 < BruteforceWindow (c_cfg c) <= max_i64 -> key.1 <> [] -> times_from 0 ops ->
  bf_run c key ops = bf_spec (c_cfg c) key ops [] 0.
Proof.
  intros He Hw Hk Ht. apply (bf_run_spec (c_cfg c) key ops Hw Hk c 0); [done|done|].
  unfold entry_of. rewrite He, lookup_empty. by split.
Qed.

(** ** Records as the C library writes them *)
Fixpoint le_bytes (n : nat) (z : Z) : bytes := match n with O => [] | Datatypes.S n' => byte_of_Z z :: le_bytes n' (z / 256) end.
Definition padded (n : nat) (s : bytes) : bytes := s ++ replicate (n - length s) "000"%char.

Record utmp := {
  u_type : Z; u_pid : Z; u_line : bytes; u_id : bytes; u_user : bytes; u_host : bytes; u_exit : bytes; u_session : Z;
  u_sec : Z; u_usec : Z; u_addr : bytes; u_pad1 : bytes; u_unused : bytes }.

Definition c_string (n : nat) (s : bytes) : Prop := (length s <= n)%nat /\ "000"%char ∉ s.
Definition i32 (z : Z) : Prop := - 2 ^ 31 <= z < 2 ^ 31.
Definition utmp_ok (u : utmp) : Prop :=
  - 2 ^ 15 <= u_type u < 2 ^ 15 /\ i32 (u_pid u) /\ i32 (u_sec u) /\ i32 (u_usec u)
  /\ c_string 32 (u_line u) /\ c_string 32 (u_user u) /\ c_string 256 (u_host u)
  /\ length (u_id u) = 4%nat /\ length (u_exit u) = 4%nat /\ length (u_addr u) = 16%nat
  /\ length (u_pad1 u) = 2%nat /\ length (u_unused u) = 20%nat.

Definition utmp_fields (u : utmp) : list bytes :=
  [le_bytes 2 (u_type u); u_pad1 u; le_bytes 4 (u_pid u); padded 32 (u_line u); u_id u; padded 32 (u_user u);
   padded 256 (u_host u); u_exit u; le_bytes 4 (u_session u); le_bytes 4 (u_sec u); le_bytes 4 (u_usec u); u_addr u; u_unused u].
Definition utmp_bytes (u : utmp) : bytes := concat (utmp_fields u).

Lemma length_le_bytes (n : nat) (z : Z) : length (le_bytes n z) = n.
Proof. revert z. induction n as [|n IH]; intros z; [done|]. cbn. by rewrite IH. Qed.

Lemma le_uint_bytes (n : nat) (z : Z) : le_uint (le_bytes n z) = z mod 256 ^ Z.of_nat n.
Proof.
  revert z. induction n as [|n IH]; intros z; [by rewrite Z.mod_1_r|].
  cbn [le_bytes le_uint]. rewrite IH, byteval_of_Z. rewrite Nat2Z.inj_succ, Z.pow_succ_r by lia.
  rewrite Z.rem_mul_r by lia. lia.
Qed.

Lemma length_padded (n : nat) (s : bytes) : (length s <= n)%nat -> length (padded n s) = n.
Proof. intros H. unfold padded. rewrite length_app, length_replicate. lia. Qed.

Lemma nullTerminated_padded (n : nat) (s : bytes) : c_string n s -> nullTerminated (padded n s) = s.
Proof.
  intros [Hl Hn]. unfold nullTerminated, padded. destruct (n - length s)%nat as [|k]; cbn [replicate].
  - rewrite app_nil_r. by rewrite (proj2 (IndexByte_None s _)).
  - rewrite IndexByte_app by done. apply take_app_length.
Qed.

Lemma field_concat (fs : list bytes) (i : nat) (f : bytes) (off size : nat) :
  fs !! i = Some f -> length (concat (take i fs)) = off -> length f = size -> field (concat fs) off size = f.
Proof.
  intros Hi <- <-. unfold field. rewrite <- (take_drop_middle fs i f Hi) at 2. rewrite concat_app. cbn [concat].
  rewrite drop_app_length, take_app_length. done.
Qed.

(** decoding a login record written with the C library's layout gives back
    its type, process, terminal, user, host and time (the present time instead
    of one before 2020). *)
Theorem parseRecord_utmp (u : utmp) (now : time) :
  utmp_ok u ->
  parseRecord now (utmp_bytes u) = Some {|
    pr_Type := u_type u; pr_PID := u_pid u; pr_TTY := u_line u; pr_User := u_user u; pr_Host := u_host u;
    pr_Timestamp := if minValidSec <=? u_sec u then time_unix (u_sec u) (u_usec u * 1000) else now |}.
Proof.
  intros (Ht & Hp & Hs & Hus & Hl & Hu & Hh & Hid & Hex & Ha & Hp1 & Hun).
  pose proof (length_padded 32 _ (proj1 Hl)) as Ll. pose proof (length_padded 32 _ (proj1 Hu)) as Lu.
  pose proof (length_padded 256 _ (proj1 Hh)) as Lh.
  assert (Hlen : length (utmp_bytes u) = 384%nat).
  { unfold utmp_bytes, utmp_fields. cbn [concat]. rewrite !length_app, !length_le_bytes, Ll, Lu, Lh, Hid, Hex, Ha, Hp1, Hun. done. }
  unfold parseRecord. unfold len. rewrite Hlen. cbn [negb Z.of_nat Z.eqb utmpRecordSize].
  change (negb (Z.of_nat 384 =? utmpRecordSize)) with false. cbn match.
  unfold utmp_bytes.
  assert (Hf : forall i f off size, utmp_fields u !! i = Some f -> length (concat (take i (utmp_fields u))) = off -> length f = size ->
    field (concat (utmp_fields u)) off size = f) by (intros; by eapply field_concat).
  assert (Ho : forall i, length (concat (take i (utmp_fields u)))
    = foldr Nat.add 0%nat (take i [2; 2; 4; 32; 4; 32; 256; 4; 4; 4; 4; 16; 20]%nat)).
  { intros i. unfold utmp_fields. do 13 (destruct i as [|i]; [cbn [take concat foldr];
      rewrite ?length_app, ?length_le_bytes, ?Ll, ?Lu, ?Lh, ?Hid, ?Hex, ?Ha, ?Hp1, ?Hun; done|]).
    destruct i; cbn [take concat foldr];
      rewrite ?length_app, ?length_le_bytes, ?Ll, ?Lu, ?Lh, ?Hid, ?Hex, ?Ha, ?Hp1, ?Hun; done. }
  rewrite (Hf 0%nat (le_bytes 2 (u_type u))) by (rewrite ?Ho, ?length_le_bytes; done).
  rewrite (Hf 2%nat (le_bytes 4 (u_pid u))) by (rewrite ?Ho, ?length_le_bytes; done).
  rewrite (Hf 3%nat (padded 32 (u_line u))) by (rewrite ?Ho; done).
  rewrite (Hf 5%nat (padded 32 (u_user u))) by (rewrite ?Ho; done).
  rewrite (Hf 6%nat (padded 256 (u_host u))) by (rewrite ?Ho; done).
  rewrite (Hf 9%nat (le_bytes 4 (u_sec u))) by (rewrite ?Ho, ?length_le_bytes; done).
  rewrite (Hf 10%nat (le_bytes 4 (u_usec u))) by (rewrite ?Ho, ?length_le_bytes; done).
  rewrite !le_uint_bytes, !nullTerminated_padded by done.
  assert (H32 : forall z, i32 z -> wrap_i32 (z mod 256 ^ Z.of_nat 4) = z).
  { intros z Hz. unfold wrap_i32, i32 in *. change (256 ^ Z.of_nat 4) with (2 ^ 32).
    rewrite Zplus_mod_idemp_l, Z.mod_small; lia. }
  assert (H16 : wrap_i16 (u_type u mod 256 ^ Z.of_nat 2) = u_type u).
  { unfold wrap_i16. change (256 ^ Z.of_nat 2) with (2 ^ 16). rewrite Zplus_mod_idemp_l, Z.mod_small; lia. }
  by rewrite !H32, H16 by done.
Qed.

(** ** The wtmp watcher *)

(** Handling a sequence of records. *)
Fixpoint handle_all (write_ok : bool) (st : wtmp_state) (now : time) (recs : list bytes) : option (wtmp_state * list pending) :=
  match recs with
  | [] => Some (st, [])
  | r :: t =>
      '(st1, evs) ← handle_record write_ok {| w_c := w_c st; w_ipfile := w_ipfile st;
          w_pos := (w_pos st + Z.to_nat utmpRecordSize)%nat; w_cursor := w_cursor st +i utmpRecordSize |} now r;
      '(st2, evs') ← handle_all write_ok st1 now t; Some (st2, evs ++ evs')
  end.

Lemma handle_record_pos (ok : bool) (st st' : wtmp_state) (now : time) (d : bytes) evs :
  handle_record ok st now d = Some (st', evs) -> w_pos st' = w_pos st /\ w_cursor st' = w_cursor st.
Proof.
  unfold handle_record. destruct (parseRecord now d) as [rec|]; [|intros; by simplify_eq].
  destruct (pr_Type rec =? utUserProcess).
  - case_bool_decide; [intros; by simplify_eq|]. destruct (checkNewIP _ _ _ _ _) as [[[c' f'] nip]|]; [|done]. cbn. intros; by simplify_eq.
  - destruct (pr_Type rec =? utDeadProcess); [case_bool_decide|]; intros; by simplify_eq.
Qed.

Lemma wtmp_loop_records (ok : bool) (now : time) (recs : list bytes) (tail : bytes) (file : bytes) (fuel : nat) (st : wtmp_state) :
  Forall (fun r => length r = 384%nat) recs -> (length tail < 384)%nat -> (length recs < fuel)%nat ->
  drop (w_pos st) file = concat recs ++ tail ->
  wtmp_loop ok fuel file now st =
  '(st', evs) ← handle_all ok st now recs;
  Some ({| w_c := w_c st'; w_ipfile := w_ipfile st'; w_pos := (w_pos st' + length tail)%nat; w_cursor := w_cursor st' |}, evs).
Proof.
  intros Hrecs Htail. revert fuel st. induction Hrecs as [|r recs Hr Hrecs IH]; intros [|fuel] st Hf Hd; try lia; cbn [wtmp_loop handle_all].
  - rewrite Hd. cbn [concat app]. change (Z.to_nat utmpRecordSize) with 384%nat.
    rewrite (proj2 (Nat.leb_gt _ _)) by done. done.
  - rewrite Hd. cbn [concat]. change (Z.to_nat utmpRecordSize) with 384%nat.
    rewrite (proj2 (Nat.leb_le _ _)) by (rewrite !length_app; lia).
    rewrite <- app_assoc. rewrite take_app_length' by done.
    destruct (handle_record _ _ now r) as [[st1 e1]|] eqn:Hh; [|done]. cbn [mbind option_bind].
    apply handle_record_pos in Hh as [Hpos _]. cbn [w_pos] in Hpos.
    rewrite (IH fuel st1); [|cbn [length] in Hf; lia|].
    2:{ rewrite Hpos, <- drop_drop, Hd. cbn [concat]. rewrite <- app_assoc. by apply drop_app_length'. }
    destruct (handle_all ok st1 now recs) as [[st2 e2]|]; done.
Qed.

Lemma concat_record_length (recs : list bytes) : Forall (fun r => length r = 384%nat) recs -> length (concat recs) = (384 * length recs)%nat.
Proof. induction 1 as [|r recs Hr _ IH]; [done|]. cbn [concat length]. rewrite length_app, Hr, IH. lia. Qed.

(** A tick over complete records handles each once, in order. *)
Lemma wtmp_tick_complete (ok : bool) (now : time) (recs : list bytes) (file : bytes) (st : wtmp_state) :
  Forall (fun r => length r = 384%nat) recs -> drop (w_pos st) file = concat recs ->
  wtmp_tick ok file false now st = '(st', evs) ← handle_all ok st now recs; Some (st', evs, saveWtmpCursor (w_cursor st')).
Proof.
  intros Hrecs Hd. unfold wtmp_tick. cbv zeta.
  rewrite (wtmp_loop_records ok now recs []); [|done|cbn; lia| |by rewrite app_nil_r].
  - destruct (handle_all ok st now recs) as [[st' evs]|]; [|done]. cbn. rewrite Nat.add_0_r. by destruct st'.
  - pose proof (concat_record_length recs Hrecs) as Hl. rewrite <- Hd, length_drop in Hl. lia.
Qed.

(** A record still being written when the tick runs is consumed without being
    handled: the file position moves past the partial record while the cursor
    does not, so the next tick reads from the middle of it. *)
Lemma wtmp_partial_lost (ok : bool) (now : time) (file tail : bytes) (st : wtmp_state) :
  drop (w_pos st) file = tail -> (0 < length tail < 384)%nat -> Z.of_nat (w_pos st) = w_cursor st ->
  exists st', wtmp_tick ok file false now st = Some (st', [], saveWtmpCursor (w_cursor st))
    /\ w_cursor st' = w_cursor st /\ Z.of_nat (w_pos st') = w_cursor st' + len tail.
Proof.
  intros Hd Ht Hp. unfold wtmp_tick. cbv zeta. rewrite (wtmp_loop_records ok now [] tail); [|constructor|lia|cbn; lia|done].
  cbn [handle_all mbind option_bind]. eexists. split; [done|]. cbn [w_cursor w_pos]. unfold len. lia.
Qed.

(** The new-address check compares with the last address only: a user who
    goes back to an earlier address is reported although it was seen before. *)
Lemma newIP_return_reported (c : Collector) (file : ip_file) (rec : parsedRecord) (m : gmap bytes bytes) (a : bytes) (now : time) :
  lastIPByUser c = Some m -> m !! pr_User rec = Some a -> pr_Host rec <> [] -> pr_Host rec <> a ->
  IgnorePrivateIP (c_cfg c) && isPrivateIP (pr_Host rec) = false ->
  exists c' f', checkNewIP c file true rec now = Some (c', f', Some (makeNewIPEvent (c_cfg c) (pr_User rec) (pr_Host rec) a now)).
Proof.
  intros Hl Hm Hh Ha Hp. unfold checkNewIP. rewrite bool_decide_eq_false_2, Hp, Hl, Hm by done.
  rewrite bool_decide_eq_false_2 by congruence. eauto.
Qed.

(** A state file holding JSON [null] makes the first remote login panic. *)
Lemma newIP_nil_panics (c : Collector) (file : ip_file) (rec : parsedRecord) (ok : bool) (now : time) :
  lastIPByUser c = loadLastIPByUser IPNull -> pr_Host rec <> [] ->
  IgnorePrivateIP (c_cfg c) && isPrivateIP (pr_Host rec) = false -> checkNewIP c file ok rec now = None.
Proof. intros Hl Hh Hp. unfold checkNewIP. by rewrite bool_decide_eq_false_2, Hp, Hl by done. Qed.

(** *** Witnesses *)
Definition demo_config : Config := {|
  WtmpPath := ""; AuthLogPath := ""; StateDir := "/var/lib/yomins-agent"; BruteforceThreshold := 2; BruteforceWindow := 10;
  BruteforceSuppression := 100; IgnorePrivateIP := true; cfg_Host := {| host_Hostname := "h"; host_IP := "10.0.0.1" |};
  cfg_Agent := {| agent_Name := "yomins-agent"; agent_Version := "1" |} |}.
Definition demo_c : Collector := {| c_cfg := demo_config; bfTracker := ∅; lastIPByUser := Some ∅ |}.

Lemma bruteforce_refines_witness :
  bf_run demo_c (B "1.2.3.4", B "eve") [BAttempt (B "eve") (B "1.2.3.4") 5; BGC 6; BAttempt (B "eve") (B "1.2.3.4") 9;
    BAttempt (B "eve") (B "1.2.3.4") 10; BGC 200; BAttempt (B "eve") (B "1.2.3.4") 300] = [false; true; false; false].
Proof.
  rewrite (bruteforce_refines demo_c (B "1.2.3.4", B "eve")); [reflexivity|reflexivity|cbn; go_lia|discriminate|].
  cbn. lia.
Defined.

Definition demo_utmp : utmp := {|
  u_type := 7; u_pid := 4242; u_line := B "pts/0"; u_id := B "ts/0"; u_user := B "eve"; u_host := B "203.0.113.7";
  u_exit := replicate 4 "000"%char; u_session := 0; u_sec := 1700000000; u_usec := 5; u_addr := replicate 16 "000"%char;
  u_pad1 := replicate 2 "000"%char; u_unused := replicate 20 "000"%char |}.

Ltac c_string_tac := split; [cbn; lia|apply (bool_decide_unpack _); vm_compute; exact I].

Lemma parseRecord_utmp_witness : pr_User <$> parseRecord 0 (utmp_bytes demo_utmp) = Some (B "eve").
Proof.
  rewrite (parseRecord_utmp demo_utmp 0); [reflexivity|]. unfold utmp_ok, i32.
  split_and!; try reflexivity; try (cbn; lia); c_string_tac.
Defined.
