(* ===== verification/AuthRun.v ===== *)
(** * The run of the auth event collector

    [Run] and the watchers of [src/internal/events/auth/collector.go] and
    [journal_linux.go].  Two watchers, of wtmp and of the auth log or the
    journal, put their events on one channel that [Run] forwards, and [Run]
    cleans the brute-force tracker every minute.  An [act] is what one of the
    three does next: a run is any interleaving of acts. *)
From S2P Require Import Prelude GoFloat GoStrings GoNum GoRegexp Events AuthEvents Loop.
Local Open Scope Z_scope.

(** ** The acts of the goroutines *)
Inductive act :=
  | ARecord (now : time) (write_ok : bool) (data : bytes)    (* a wtmp record *)
  | ALine (now : time) (line : bytes)                        (* a line of the auth log *)
  | AJournal (now : time) (entry : option journalEntry)      (* a line of journalctl *)
  | AGC (now : time).                                        (* a tick of the clean-up *)

Definition parsed (cfg : Config) (a : act) : option (pending * option (bytes * bytes)) :=
  match a with
  | ALine now line => parseAuthLogLine cfg now line
  | AJournal now entry => parseJournalLine cfg now entry
  | _ => None
  end.

(** The event of a line, then that of the brute-force check. *)
Definition parsed_line (c : Collector) (now : time) (p : option (pending * option (bytes * bytes))) : Collector * list pending :=
  match p with
  | None => (c, [])
  | Some (ev, None) => (c, [ev])
  | Some (ev, Some (user, ip)) =>
      let '(c', bf) := checkBruteforce c user ip now in
      (c', ev :: match bf with Some e => [e] | None => [] end)
  end.

(** The body of the loop of [runJournalLog]. *)
Definition journal_line (c : Collector) (now : time) (entry : option journalEntry) : Collector * list pending :=
  parsed_line c now (parseJournalLine (c_cfg c) now entry).

Record shared := { sh_c : Collector; sh_ipfile : ip_file }.

Definition act_step (s : shared) (a : act) : option (shared * list pending) :=
  match a with
  | ARecord now ok data =>
      '(w, evs) ← handle_record ok {| w_c := sh_c s; w_ipfile := sh_ipfile s; w_pos := 0; w_cursor := 0 |} now data;
      Some ({| sh_c := w_c w; sh_ipfile := w_ipfile w |}, evs)
  | ALine now line => let '(c, evs) := auth_line (sh_c s) now line in Some ({| sh_c := c; sh_ipfile := sh_ipfile s |}, evs)
  | AJournal now entry => let '(c, evs) := journal_line (sh_c s) now entry in Some ({| sh_c := c; sh_ipfile := sh_ipfile s |}, evs)
  | AGC now => Some ({| sh_c := gcBruteforceTracker (sh_c s) now; sh_ipfile := sh_ipfile s |}, [])
  end.

(** Which watcher [Run] starts beside the wtmp one. *)
Inductive line_source := FromFile | FromJournal.
Definition source_of (c : Collector) (stat : string -> option bool) : line_source :=
  if exists_ stat (AuthLogPath (c_cfg c)) then FromFile else FromJournal.
Definition allowed (src : line_source) (a : act) : bool :=
  match a, src with ALine _ _, FromJournal => false | AJournal _ _, FromFile => false | _, _ => true end.

(** A run: the acts of the goroutines in the order of their sends, of whose
    events the first [forwarded] had been passed on when the context was
    cancelled. *)
Definition Run (c : Collector) (ipfile : ip_file) (acts : list act) (forwarded : nat) : option (shared * list pending) :=
  '(s, evs) ← run_ticks act_step {| sh_c := c; sh_ipfile := ipfile |} acts; Some (s, take forwarded evs).

(** ** The attempts and the alerts of a run *)
Definition act_time (a : act) : time := match a with ARecord t _ _ | ALine t _ | AJournal t _ | AGC t => t end.

(** What an act is to the brute-force detector. *)
Definition ops_of (cfg : Config) (a : act) : list bf_op :=
  match a with
  | AGC now => [BGC now]
  | _ => match parsed cfg a with Some (_, Some (user, ip)) => [BAttempt user ip (act_time a)] | _ => [] end
  end.

(** The times of the brute-force events of a key. *)
Definition alert_time (key : bytes * bytes) (mk : pending) : option time :=
  match ev_Type (mk ""), ev_Actor (mk "") with
  | EventAuthBruteforceDetected, Some a =>
      if bool_decide ((actor_IP a, actor_User a) = (S key.1, S key.2)) then Some (ev_Timestamp (mk "")) else None
  | _, _ => None
  end.
Definition attempt_time (key : bytes * bytes) (o : bf_op) : option time :=
  match o with BAttempt user ip t => if bool_decide ((ip, user) = key) then Some t else None | BGC _ => None end.
Definition select {A} (l : list A) (bs : list bool) : list A := omap (fun p : A * bool => if p.2 then Some p.1 else None) (zip l bs).

(** ** Lemmas *)
Lemma S_eq (x y : bytes) : S x = S y -> x = y.
Proof. intros H. rewrite <- (B_S x), <- (B_S y). by rewrite H. Qed.

Lemma parse_type (cfg : Config) (now : time) (line : bytes) (ev : pending) (o : option (bytes * bytes)) :
  parseAuthLogLine cfg now line = Some (ev, o) -> forall key, alert_time key ev = None.
Proof.
  unfold parseAuthLogLine. intros H key. repeat case_match; simplify_eq; reflexivity.
Qed.

Lemma parsed_alert (cfg : Config) (a : act) (ev : pending) (o : option (bytes * bytes)) :
  parsed cfg a = Some (ev, o) -> forall key, alert_time key ev = None.
Proof.
  destruct a as [| |now [e|]|]; cbn; try done; intros H; by eapply parse_type.
Qed.

Lemma checkBruteforce_alert (c : Collector) (user ip : bytes) (now : time) (key : bytes * bytes) :
  omap (alert_time key) (match (checkBruteforce c user ip now).2 with Some e => [e] | None => [] end)
  = (if bool_decide ((ip, user) = key) && bool_decide (is_Some (checkBruteforce c user ip now).2) then [now] else []).
Proof.
  assert (Hk : forall cfg, alert_time key (makeBruteforceEvent cfg user ip now) = if bool_decide ((ip, user) = key) then Some now else None).
  { intros cfg. unfold alert_time. cbn. destruct key as [i u]. cbn.
    case_bool_decide as H1; case_bool_decide as H2; try done.
    - destruct H2. injection H1 as H1a H1b. by rewrite (S_eq _ _ H1a), (S_eq _ _ H1b).
    - destruct H1. injection H2 as -> ->. done. }
  unfold checkBruteforce. destruct ip as [|ch ip]; [cbn; by rewrite andb_false_r|].
  destruct ((_ <=? _) && _); cbn [snd]; [|cbn; by rewrite andb_false_r].
  unfold omap; cbn [list_omap]; rewrite Hk.
  rewrite (bool_decide_eq_true_2 (is_Some _)) by eauto. rewrite andb_true_r. by case_bool_decide.
Qed.

(** The detector looks only at the tracker and the configuration. *)
Lemma bf_run_ext (key : bytes * bytes) (ops : list bf_op) (c c' : Collector) :
  c_cfg c = c_cfg c' -> bfTracker c = bfTracker c' -> bf_run c key ops = bf_run c' key ops.
Proof.
  revert c c'. induction ops as [|[user ip now|now] ops IH]; intros c c' H1 H2; cbn [bf_run]; [done| |].
  - assert (He : c_cfg (checkBruteforce c user ip now).1 = c_cfg (checkBruteforce c' user ip now).1
      /\ bfTracker (checkBruteforce c user ip now).1 = bfTracker (checkBruteforce c' user ip now).1
      /\ (checkBruteforce c user ip now).2 = (checkBruteforce c' user ip now).2).
    { unfold checkBruteforce. destruct ip; [done|]. rewrite H1, H2. by destruct ((_ <=? _) && _). }
    destruct (checkBruteforce c user ip now), (checkBruteforce c' user ip now). destruct He as (He1 & He2 & He3). cbn in He1, He2, He3.
    subst. rewrite (IH _ _ He1 He2). done.
  - apply IH; cbn; congruence.
Qed.

Lemma handle_record_quiet (ok : bool) (s : shared) (now : time) (data : bytes) (m : gmap bytes bytes) :
  lastIPByUser (sh_c s) = Some m ->
  exists w evs m', handle_record ok {| w_c := sh_c s; w_ipfile := sh_ipfile s; w_pos := 0; w_cursor := 0 |} now data = Some (w, evs)
    /\ c_cfg (w_c w) = c_cfg (sh_c s) /\ bfTracker (w_c w) = bfTracker (sh_c s) /\ lastIPByUser (w_c w) = Some m'
    /\ forall key, omap (alert_time key) evs = [].
Proof.
  intros Hm. unfold handle_record, checkNewIP. cbn [w_c w_ipfile]. rewrite Hm.
  repeat case_match; simplify_eq; cbn [mbind option_bind]; eexists _, _, _; split_and!; try done.
Qed.

Lemma omap_list_cons {A B} (f : A -> option B) (x : A) (l : list A) :
  omap f (x :: l) = match f x with Some y => y :: omap f l | None => omap f l end.
Proof. done. Qed.

(** Acts and operations of the detector step by step. *)
Definition tracks (key : bytes * bytes) (s s' : shared) (ops : list bf_op) (evs : list pending) : Prop :=
  (exists m', lastIPByUser (sh_c s') = Some m') /\ c_cfg (sh_c s') = c_cfg (sh_c s)
  /\ forall rest, omap (alert_time key) evs ++ select (omap (attempt_time key) rest) (bf_run (sh_c s') key rest)
       = select (omap (attempt_time key) (ops ++ rest)) (bf_run (sh_c s) key (ops ++ rest)).

Lemma parsed_line_tracks (key : bytes * bytes) (s : shared) (a : act) (m : gmap bytes bytes) :
  lastIPByUser (sh_c s) = Some m -> (forall now, a <> AGC now) ->
  let '(c', evs) := parsed_line (sh_c s) (act_time a) (parsed (c_cfg (sh_c s)) a) in
  tracks key s {| sh_c := c'; sh_ipfile := sh_ipfile s |} (ops_of (c_cfg (sh_c s)) a) evs.
Proof.
  intros Hm Hgc. assert (Hops : ops_of (c_cfg (sh_c s)) a = match parsed (c_cfg (sh_c s)) a with
    Some (_, Some (user, ip)) => [BAttempt user ip (act_time a)] | _ => [] end).
  { destruct a as [| | |now]; try done. by destruct (Hgc now). }
  rewrite Hops. unfold parsed_line. destruct (parsed (c_cfg (sh_c s)) a) as [[ev [[user ip]|]]|] eqn:Hp.
  - pose proof (checkBruteforce_alert (sh_c s) user ip (act_time a) key) as Ha.
    pose proof (checkBruteforce_other (sh_c s) user ip (act_time a)) as Ho.
    assert (Hl : lastIPByUser (checkBruteforce (sh_c s) user ip (act_time a)).1 = Some m
      /\ c_cfg (checkBruteforce (sh_c s) user ip (act_time a)).1 = c_cfg (sh_c s)).
    { unfold checkBruteforce. destruct ip; [done|]. by destruct ((_ <=? _) && _). }
    pose proof (parsed_alert _ _ _ _ Hp key) as Hev.
    destruct (checkBruteforce (sh_c s) user ip (act_time a)) as [c' bf] eqn:Hcb. cbn [fst snd] in *.
    split; [exists m; apply Hl|]. split; [apply Hl|]. intros rest. cbn [app bf_run sh_c].
    rewrite !omap_list_cons, Hev, Ha, Hcb. cbn [attempt_time].
    destruct (bool_decide ((ip, user) = key)); cbn [andb]; [|done].
    unfold select. cbn [zip_with]. rewrite omap_list_cons. cbn [fst snd].
    by destruct (bool_decide (is_Some bf)).
  - pose proof (parsed_alert _ _ _ _ Hp key) as Hev. split; [by exists m|]. split; [done|]. intros rest.
    by rewrite omap_list_cons, Hev.
  - split; [by exists m|]. by split.
Qed.

Lemma act_step_tracks (key : bytes * bytes) (s : shared) (a : act) (m : gmap bytes bytes) :
  lastIPByUser (sh_c s) = Some m ->
  exists s' evs, act_step s a = Some (s', evs) /\ tracks key s s' (ops_of (c_cfg (sh_c s)) a) evs.
Proof.
  intros Hm. destruct a as [now ok data|now line|now entry|now].
  - destruct (handle_record_quiet ok s now data m Hm) as (w & evs & m' & Hh & H1 & H2 & H3 & H4). cbn [act_step]. rewrite Hh.
    cbn [mbind option_bind]. eexists _, _. split; [done|]. split; [by exists m'|]. split; [done|]. intros rest.
    rewrite H4. cbn [app ops_of parsed sh_c]. by rewrite (bf_run_ext key rest (w_c w) (sh_c s)).
  - pose proof (parsed_line_tracks key s (ALine now line) m Hm ltac:(done)) as H. cbn [act_step]. cbn [parsed act_time] in H.
    change (auth_line (sh_c s) now line) with (parsed_line (sh_c s) now (parseAuthLogLine (c_cfg (sh_c s)) now line)).
    destruct (parsed_line _ _ _) as [c evs]. eauto.
  - pose proof (parsed_line_tracks key s (AJournal now entry) m Hm ltac:(done)) as H. cbn [act_step]. cbn [parsed act_time] in H.
    unfold journal_line. destruct (parsed_line _ _ _) as [c evs]. eauto.
  - eexists _, _. split; [done|]. split; [by exists m|]. by split.
Qed.

(** The only panic: a login from another host, when the map of known addresses
    is nil. *)
Definition remote_login (now : time) (data : bytes) : Prop :=
  exists rec, parseRecord now data = Some rec /\ pr_Type rec = utUserProcess /\ pr_User rec <> [] /\ pr_Host rec <> [].

Lemma act_panics (s : shared) (a : act) : act_step s a = None ->
  lastIPByUser (sh_c s) = None /\ exists now ok data, a = ARecord now ok data /\ remote_login now data.
Proof.
  intros H. destruct (lastIPByUser (sh_c s)) as [m|] eqn:Hm.
  { destruct (act_step_tracks ([], []) s a m Hm) as (s' & evs & Hs & _). congruence. }
  split; [done|]. destruct a as [now ok data|now line|now entry|now]; cbn [act_step] in H;
    [|by destruct (auth_line _ _ _)|by destruct (journal_line _ _ _)|done].
  exists now, ok, data. split; [done|]. unfold handle_record in H. destruct (parseRecord now data) as [rec|] eqn:Hrec; [|done]. exists rec.
  destruct (Z.eqb_spec (pr_Type rec) utUserProcess) as [Ht|]; [|by destruct (pr_Type rec =? utDeadProcess); [case_bool_decide|]].
  case_bool_decide as Hu; [done|]. split; [done|]. split; [exact Ht|]. split; [exact Hu|]. intros Hh. unfold checkNewIP in H. by rewrite bool_decide_eq_true_2 in H.
Qed.

Lemma act_step_known (s s' : shared) (a : act) (evs : list pending) :
  act_step s a = Some (s', evs) -> lastIPByUser (sh_c s') = None -> lastIPByUser (sh_c s) = None.
Proof.
  intros H Hn. destruct (lastIPByUser (sh_c s)) as [m|] eqn:Hm; [|done].
  destruct (act_step_tracks ([], []) s a m Hm) as (s1 & e1 & Hs & (m1 & Hm1) & _). congruence.
Qed.

Lemma run_alerts (key : bytes * bytes) (acts : list act) (s : shared) (m : gmap bytes bytes) :
  lastIPByUser (sh_c s) = Some m ->
  exists s' evs, run_ticks act_step s acts = Some (s', evs)
    /\ let ops := concat (map (ops_of (c_cfg (sh_c s))) acts) in
       omap (alert_time key) evs = select (omap (attempt_time key) ops) (bf_run (sh_c s) key ops).
Proof.
  revert s m. induction acts as [|a acts IH]; intros s m Hm; cbn [run_ticks map concat]; [by eexists _, _|].
  destruct (act_step_tracks key s a m Hm) as (s1 & e1 & -> & (m1 & Hm1) & Hc & Ht). cbn [mbind option_bind].
  destruct (IH s1 m1 Hm1) as (s2 & e2 & -> & H). cbn [mbind option_bind]. eexists _, _. split; [done|].
  rewrite omap_app, H, Hc. apply Ht.
Qed.

(** ** The watchers of the files *)

(** What a tick meets: the inode at the path ([None]: the stat failed), the
    file a new open gives, and the contents of the files by inode. *)
Record disk_look := {
  dl_now : time; dl_stat : option Z; dl_open : option Z; dl_contents : Z -> bytes; dl_write_ok : bool }.

Definition rotated (prev : Z) (l : disk_look) : bool := match dl_stat l with Some ino => negb (ino =? prev) | None => false end.

Record wtmp_watch := { ww_state : wtmp_state; ww_file : Z; ww_prev : Z; ww_cursor : option bytes; ww_stopped : bool }.

(** The start of [runWtmp]: [None] when the file cannot be opened. *)
Definition wtmp_begin (c : Collector) (ipfile : ip_file) (cursor : option bytes) (opened : option Z) (contents : Z -> bytes)
    : option wtmp_watch :=
  ino ← opened;
  Some {| ww_state := wtmp_start c ipfile cursor (contents ino); ww_file := ino; ww_prev := ino; ww_cursor := cursor; ww_stopped := false |}.

Definition wtmp_watch_tick (s : wtmp_watch) (l : disk_look) : option (wtmp_watch * list pending) :=
  if ww_stopped s then Some (s, [])
  else if rotated (ww_prev s) l then
    match dl_open l with
    | None => Some ({| ww_state := ww_state s; ww_file := ww_file s; ww_prev := ww_prev s; ww_cursor := ww_cursor s; ww_stopped := true |}, [])
    | Some ino =>
        '(w, evs, cur) ← wtmp_tick (dl_write_ok l) (dl_contents l ino) true (dl_now l) (ww_state s);
        Some ({| ww_state := w; ww_file := ino; ww_prev := default 0 (dl_stat l);
                 ww_cursor := if dl_write_ok l then Some cur else ww_cursor s; ww_stopped := false |}, evs)
    end
  else
    '(w, evs, cur) ← wtmp_tick (dl_write_ok l) (dl_contents l (ww_file s)) false (dl_now l) (ww_state s);
    Some ({| ww_state := w; ww_file := ww_file s; ww_prev := ww_prev s;
             ww_cursor := if dl_write_ok l then Some cur else ww_cursor s; ww_stopped := false |}, evs).

Record log_watch := { lw_c : Collector; lw_file : Z; lw_prev : Z; lw_pos : nat; lw_stopped : bool }.

(** The start of [runAuthLog], at the end of the file. *)
Definition authlog_begin (c : Collector) (opened : option Z) (contents : Z -> bytes) : option log_watch :=
  ino ← opened;
  Some {| lw_c := c; lw_file := ino; lw_prev := ino; lw_pos := length (contents ino); lw_stopped := false |}.

(** Reading from [pos] of the open file to its end. *)
Definition read_log (s : log_watch) (l : disk_look) (ino prev : Z) (pos : nat) : log_watch * list pending :=
  let unread := drop pos (dl_contents l ino) in
  let '(c, evs) := authlog_tick (lw_c s) (dl_now l) unread in
  ({| lw_c := c; lw_file := ino; lw_prev := prev; lw_pos := (pos + length unread)%nat; lw_stopped := false |}, evs).

Definition authlog_watch_tick (s : log_watch) (l : disk_look) : option (log_watch * list pending) :=
  if lw_stopped s then Some (s, [])
  else if rotated (lw_prev s) l then
    match dl_open l with
    | None => Some ({| lw_c := lw_c s; lw_file := lw_file s; lw_prev := lw_prev s; lw_pos := lw_pos s; lw_stopped := true |}, [])
    | Some ino => Some (read_log s l ino (default 0 (dl_stat l)) 0)
    end
  else Some (read_log s l (lw_file s) (lw_prev s) (lw_pos s)).

(** [runJournalLog]: nothing without journalctl, else its lines until it ends
    or the context is cancelled. *)
Definition runJournalLog (c : Collector) (found started : bool) (sc : schedule (time * option journalEntry))
    : option (Collector * list pending) :=
  if negb found || negb started then Some (c, [])
  else loop (fun c l => Some (journal_line c l.1 l.2)) (fun _ c' => c') c sc.

(** ** Lemmas on the auth log *)
Definition unlines (lines : list bytes) : bytes := concat (map (fun l => l ++ [newline]) lines).

Lemma Split_cons_sep (l : bytes) (rest : bytes) (ch : ascii) : ch ∉ l -> Split (l ++ ch :: rest) ch = l :: Split rest ch.
Proof.
  induction l as [|x l IH]; intros Hl; cbn; [by rewrite bool_decide_eq_true_2|].
  rewrite bool_decide_eq_false_2 by set_solver. rewrite IH by set_solver. done.
Qed.

Lemma Split_unlines (lines : list bytes) : Forall (fun l => newline ∉ l) lines -> Split (unlines lines) newline = lines ++ [[]].
Proof.
  induction 1 as [|l lines Hl _ IH]; [done|]. unfold unlines in *. cbn [map concat]. rewrite <- app_assoc. cbn [app].
  by rewrite Split_cons_sep, IH.
Qed.

Definition line_act (now : time) (line : bytes) : act := ALine now (TrimRight line ["013"%char; newline]).

Lemma auth_lines_acts (now : time) (lines : list bytes) (c : Collector) (f : ip_file) :
  Forall (fun l => newline ∉ l) lines ->
  let '(c', evs) := auth_lines c now (lines ++ [[]]) in
  run_ticks act_step {| sh_c := c; sh_ipfile := f |} (map (line_act now) lines) = Some ({| sh_c := c'; sh_ipfile := f |}, evs).
Proof.
  intros H. revert c. induction H as [|l lines _ _ IH]; intros c; [done|].
  assert (He : forall c, auth_lines c now ((l :: lines) ++ [[]]) =
    (let '(c1, evs) := auth_line c now (TrimRight l ["013"%char; newline]) in
     let '(c2, evs') := auth_lines c1 now (lines ++ [[]]) in (c2, evs ++ evs'))).
  { intros c0. cbn [app]. destruct l; [|done]. destruct lines; done. }
  rewrite He. cbn [map run_ticks line_act act_step sh_c sh_ipfile].
  destruct (auth_line c now _) as [c1 e1]. cbn [mbind option_bind]. specialize (IH c1).
  destruct (auth_lines c1 now (lines ++ [[]])) as [c2 e2]. by rewrite IH.
Qed.

(** A file that is appended to: the time of each tick and the whole lines
    that were added before it. *)
Fixpoint grows (ino : Z) (text : bytes) (ls : list (time * list bytes)) : list disk_look :=
  match ls with
  | [] => []
  | (now, lines) :: rest =>
      {| dl_now := now; dl_stat := Some ino; dl_open := None; dl_contents := fun _ => text ++ unlines lines; dl_write_ok := true |}
      :: grows ino (text ++ unlines lines) rest
  end.
Definition line_acts (ls : list (time * list bytes)) : list act := concat (map (fun p => map (line_act p.1) p.2) ls).

Lemma authlog_same_file (s : log_watch) (l : disk_look) :
  lw_stopped s = false -> dl_stat l = Some (lw_prev s) ->
  authlog_watch_tick s l = Some (read_log s l (lw_file s) (lw_prev s) (lw_pos s)).
Proof. intros H1 H2. unfold authlog_watch_tick, rotated. by rewrite H1, H2, Z.eqb_refl. Qed.

Lemma authlog_follow (ino : Z) (f : ip_file) (ls : list (time * list bytes)) (c : Collector) (text : bytes) :
  Forall (fun p => Forall (fun l => newline ∉ l) p.2) ls ->
  exists w evs,
    run_ticks authlog_watch_tick {| lw_c := c; lw_file := ino; lw_prev := ino; lw_pos := length text; lw_stopped := false |} (grows ino text ls)
      = Some (w, evs)
    /\ run_ticks act_step {| sh_c := c; sh_ipfile := f |} (line_acts ls) = Some ({| sh_c := lw_c w; sh_ipfile := f |}, evs).
Proof.
  intros H. revert c text. induction H as [|[now lines] ls Hl _ IH]; intros c text; [by eexists _, _|].
  cbn [grows run_ticks]. rewrite authlog_same_file by done. unfold read_log. cbn [dl_contents lw_pos lw_c dl_now lw_file lw_prev]. rewrite drop_app_length. unfold authlog_tick.
  rewrite Split_unlines by done. pose proof (auth_lines_acts now lines c f Hl) as Ha.
  destruct (auth_lines c now (lines ++ [[]])) as [c1 e1]. cbn [mbind option_bind].
  rewrite <- length_app. destruct (IH c1 (text ++ unlines lines)) as (w & e2 & -> & Hr). cbn [mbind option_bind].
  eexists _, _. split; [done|]. unfold line_acts in *. cbn [map concat fst snd]. rewrite run_ticks_app, Ha. cbn [mbind option_bind].
  by rewrite Hr.
Qed.

(** ** Properties *)

(** C6: whatever the watchers interleave, the brute-force events of a run for
    an address and a user come at exactly the failed logins the specification
    names: those parsed from the lines of the auth log or the journal at which
    the attempts in the window reach the threshold and the last alert no
    longer suppresses, counted as if nothing were ever forgotten, although
    the tracker is pruned and cleaned up.  A run that ends early has passed on
    a prefix of them; no record, line or clean-up makes it panic. *)
Theorem alerts_of_run (c : Collector) (f : ip_file) (m : gmap bytes bytes) (key : bytes * bytes) (acts : list act) (n : nat) :
  let ops := concat (map (ops_of (c_cfg c)) acts) in
  let expected := select (omap (attempt_time key) ops) (bf_spec (c_cfg c) key ops [] 0) in
  lastIPByUser c = Some m -> bfTracker c = ∅ -> 0 < BruteforceWindow (c_cfg c) <= max_i64 -> key.1 <> [] -> times_from 0 ops ->
  exists s out, Run c f acts n = Some (s, out)
    /\ omap (alert_time key) out `prefix_of` expected
    /\ ((length out < n)%nat -> omap (alert_time key) out = expected).
Proof.
  intros ops expected Hm Hbf Hw Hk Ht.
  destruct (run_alerts key acts {| sh_c := c; sh_ipfile := f |} m Hm) as (s & evs & Hr & Ha). cbn [sh_c] in Ha. fold ops in Ha.
  assert (He : omap (alert_time key) evs = expected).
  { rewrite Ha. subst expected. f_equal. apply (bf_run_spec (c_cfg c) key ops Hw Hk c 0); [done|done|].
    unfold entry_of. rewrite Hbf, lookup_empty. by split. }
  unfold Run. rewrite Hr. cbn. eexists _, _. split; [done|]. rewrite <- He. split.
  - rewrite <- (take_drop n evs) at 2. rewrite omap_app. by apply prefix_app_r.
  - rewrite length_take. intros Hn. by rewrite take_ge by lia.
Qed.

(** the watcher of the auth log starts at the end of the file and then
    handles every whole line that is appended exactly once and in order,
    however the lines are spread over the ticks: its events are those of the
    lines one by one. *)
Theorem authlog_follows (ino : Z) (c : Collector) (f : ip_file) (text : bytes) (ls : list (time * list bytes)) :
  Forall (fun p => Forall (fun l => newline ∉ l) p.2) ls ->
  exists w0 w evs, authlog_begin c (Some ino) (fun _ => text) = Some w0
    /\ run_ticks authlog_watch_tick w0 (grows ino text ls) = Some (w, evs)
    /\ run_ticks act_step {| sh_c := c; sh_ipfile := f |} (line_acts ls) = Some ({| sh_c := lw_c w; sh_ipfile := f |}, evs).
Proof.
  intros H. destruct (authlog_follow ino f ls c text H) as (w & evs & H1 & H2). eexists _, w, evs. split; [done|]. by split.
Qed.

(** On a rotation the new file is read from its start, and what had been
    appended to the old one since the last tick is not looked at: two disks
    that differ in the old file only give the same events. *)
Lemma rotation_skips_rest (s : log_watch) (l : disk_look) (ino : Z) (contents' : Z -> bytes) :
  rotated (lw_prev s) l = true -> dl_open l = Some ino -> contents' ino = dl_contents l ino ->
  authlog_watch_tick s {| dl_now := dl_now l; dl_stat := dl_stat l; dl_open := dl_open l; dl_contents := contents'; dl_write_ok := dl_write_ok l |}
  = authlog_watch_tick s l.
Proof.
  intros H1 H2 H3. unfold authlog_watch_tick, rotated in *. cbn [dl_stat dl_open]. rewrite H1, H2. unfold read_log. cbn. by rewrite H3.
Qed.

Lemma wtmp_rotation_skips_rest (s : wtmp_watch) (l : disk_look) (ino : Z) (contents' : Z -> bytes) :
  rotated (ww_prev s) l = true -> dl_open l = Some ino -> contents' ino = dl_contents l ino ->
  wtmp_watch_tick s {| dl_now := dl_now l; dl_stat := dl_stat l; dl_open := dl_open l; dl_contents := contents'; dl_write_ok := dl_write_ok l |}
  = wtmp_watch_tick s l.
Proof.
  intros H1 H2 H3. unfold wtmp_watch_tick, rotated in *. cbn [dl_stat dl_open dl_write_ok dl_contents dl_now]. by rewrite H1, H2, H3.
Qed.

Lemma loadWtmpCursor_saved (n : Z) : 0 < n <= max_i64 -> loadWtmpCursor (Some (saveWtmpCursor n)) = Some n.
Proof.
  intros H. assert (saveWtmpCursor n = FormatUint n) as He by (destruct n; [lia|reflexivity|lia]).
  unfold loadWtmpCursor. rewrite He, TrimSpace_FormatUint. change (ParseInt (FormatUint n) 10 64) with (Atoi (FormatUint n)).
  rewrite Atoi_FormatUint by lia. done.
Qed.

(** The saved cursor belongs to the file it was taken from, which nothing
    records: when the file was rotated while the agent was not running, the
    records of the new file are skipped up to the old offset. *)
Lemma stale_cursor_silent (c : Collector) (f : ip_file) (cursor : Z) (ino : Z) (now : time) (old new_ : bytes) :
  0 < cursor <= max_i64 -> len new_ <= cursor ->
  exists w w', wtmp_begin c f (Some (saveWtmpCursor cursor)) (Some ino) (fun _ => old) = Some w
    /\ wtmp_watch_tick w {| dl_now := now; dl_stat := Some ino; dl_open := None; dl_contents := fun _ => new_; dl_write_ok := true |}
       = Some (w', []).
Proof.
  intros Hc Hlen. unfold wtmp_begin. cbn [mbind option_bind]. eexists _, _. split; [done|].
  unfold wtmp_watch_tick, rotated. cbn [ww_stopped dl_stat ww_prev]. rewrite Z.eqb_refl. cbn [negb].
  unfold wtmp_tick, wtmp_start. cbn [dl_contents ww_state ww_file dl_now dl_write_ok ww_cursor ww_prev]. rewrite loadWtmpCursor_saved by done.
  rewrite (proj2 (Z.eqb_neq cursor 0)), (proj2 (Z.ltb_ge cursor 0)) by lia.
  rewrite (wtmp_loop_records true now [] []); [|constructor|cbn; lia|cbn; lia|].
  - cbn [handle_all mbind option_bind]. reflexivity.
  - cbn [w_pos concat app]. apply drop_ge. unfold len in Hlen. lia.
Qed.

(** A line that is still being written when the tick reads is handled as two
    lines: the failed login in it is not noticed. *)
Definition split_line : bytes := B "Failed password for root from 203.0.113.9 port 22".
Lemma split_line_missed :
  (authlog_tick demo_c 5 (split_line ++ [newline])).2 <> []
  /\ exists a b, split_line = a ++ b /\ (authlog_tick demo_c 5 a).2 = [] /\ (authlog_tick demo_c 10 (b ++ [newline])).2 = [].
Proof.
  split; [vm_compute; discriminate|]. exists (take 20 split_line), (drop 20 split_line).
  split; [by rewrite take_drop|]. split; vm_compute; reflexivity.
Qed.

(** *** Witnesses *)
Definition demo_line (ip : string) : bytes := B "sshd[1]: Failed password for eve from " ++ B ip ++ B " port 22 ssh2".
Definition demo_acts : list act := [
  ALine 5 (demo_line "1.2.3.4"); ARecord 6 true (B "x"); AGC 7; ALine 8 (demo_line "9.9.9.9"); ALine 9 (demo_line "1.2.3.4");
  ALine 10 (demo_line "1.2.3.4")].

Lemma alerts_of_run_witness :
  exists s out, Run demo_c IPNone demo_acts 100 = Some (s, out)
    /\ omap (alert_time (B "1.2.3.4", B "eve")) out `prefix_of` [9].
Proof.
  destruct (alerts_of_run demo_c IPNone ∅ (B "1.2.3.4", B "eve") demo_acts 100) as (s & out & H1 & H2 & _).
  - reflexivity.
  - reflexivity.
  - cbn; go_lia.
  - discriminate.
  - vm_compute. intuition discriminate.
  - exists s, out. split; [exact H1|]. etrans; [exact H2|]. vm_compute. exists []. reflexivity.
Defined.

Lemma authlog_follows_witness :
  exists w0 w evs, authlog_begin demo_c (Some 3) (fun _ => B "old" ++ [newline]) = Some w0
    /\ run_ticks authlog_watch_tick w0 (grows 3 (B "old" ++ [newline]) [(5, [demo_line "1.2.3.4"]); (9, [])]) = Some (w, evs).
Proof.
  destruct (authlog_follows 3 demo_c IPNone (B "old" ++ [newline]) [(5, [demo_line "1.2.3.4"]); (9, [])]) as (w0 & w & evs & H1 & H2 & _).
  - constructor; [|repeat constructor]. constructor; [|constructor]. apply (bool_decide_eq_true_1 _). vm_compute. reflexivity.
  - exists w0, w, evs. split; [exact H1|exact H2].
Defined.
