(* ===== verification/Upgrade.v ===== *)
(** * Self-upgrade

    [src/internal/upgrade] (version comparison, download, staging and the
    markers) together with [src/systemd/apply-upgrade.sh], which installs or
    rolls back a staged binary at service start.  The disk is a map from
    paths to contents; the network and the hash function are arguments.  The
    script is a sequence of file operations; it can be killed between any two
    of them and inside a copy, which then leaves a truncated file. *)
From S2P Require Import Prelude GoStrings GoNum.
Local Open Scope Z_scope.

(** ** [semver.go] *)
Definition version : Type := Z * Z * Z.

Definition component (p : bytes) : option Z :=
  match Atoi p with
  | (n, None) => if n <? 0 then None else Some n
  | (_, Some _) => None
  end.

Definition parseVersion (v : bytes) : option version :=
  let v := TrimPrefix v (B "v") in
  if existsb (fun c => bool_decide (c = "-"%char) || bool_decide (c = "+"%char)) v then None
  else match SplitN v "."%char 3 with
       | [p0; p1; p2] =>
           match component p0, component p1, component p2 with
           | Some a, Some b, Some c => Some (a, b, c)
           | _, _, _ => None
           end
       | _ => None
       end.

Definition version_gt (n c : version) : bool :=
  let '(n0, n1, n2) := n in let '(c0, c1, c2) := c in
  if c0 <? n0 then true else if n0 <? c0 then false
  else if c1 <? n1 then true else if n1 <? c1 then false
  else if c2 <? n2 then true else if n2 <? c2 then false else false.

(** [None] is an error. *)
Definition isNewer (current candidate : bytes) : option bool :=
  c ← parseVersion current; n ← parseVersion candidate; Some (version_gt n c).

(** ** [checker.go] *)

(** An answer of the releases API: a failure, or a status and the decoded tag
    ([None] when the body is not the expected JSON). *)
Inductive api_answer := ApiError | ApiResponse (status : Z) (tag : option bytes).

Definition latestRelease (a : api_answer) : option bytes :=
  match a with
  | ApiError => None
  | ApiResponse status tag =>
      if negb (status =? 200) then None
      else match tag with
           | None | Some [] => None
           | Some t => Some t
           end
  end.

(** ** [downloader.go] *)
Abbreviation disk := (gmap string bytes).

Definition githubDownloadBase : string := "https://github.com/yominsops/yomins-agent/releases/download".

Definition platformAsset (goos goarch : string) : option string :=
  if negb (bool_decide (goos = "linux")) then None
  else if bool_decide (goarch = "amd64") || bool_decide (goarch = "arm64") then Some ("yomins-agent-linux-" +:+ goarch)
  else None.

(** A download: no response or a refusal leaves no file; a transfer that
    breaks leaves what had arrived. *)
Inductive download := DlRefused | DlBroken (partial : bytes) | DlOk (body : bytes).

Definition downloadFile (d : disk) (dl : download) (dest : string) : disk * bool :=
  match dl with
  | DlRefused => (d, false)
  | DlBroken p => (<[dest := p]> d, false)
  | DlOk b => (<[dest := b]> d, true)
  end.

Inductive outcome (A : Type) := Done (a : A) | Failed | Panic.
Arguments Done {A} a.
Arguments Failed {A}.
Arguments Panic {A}.

(** [verifyChecksum]: indexing the fields of an empty checksum file panics. *)
Definition verifyChecksum (sha256hex : bytes -> bytes) (d : disk) (binaryFile checksumFile : string) : outcome unit :=
  match d !! checksumFile with
  | None => Failed
  | Some raw =>
      match Fields raw with
      | [] => Panic
      | f :: _ =>
          let expected := TrimSpace f in
          if negb (len expected =? 64) then Failed
          else match d !! binaryFile with
               | None => Failed
               | Some b => if bool_decide (sha256hex b = expected) then Done tt else Failed
               end
      end
  end.

Definition newPath : string := "upgrade/new".
Definition tmpPath : string := "upgrade/new.tmp".
Definition checksumPath : string := "upgrade/new.sha256".
Definition pendingPath : string := "upgrade/pending".
Definition appliedPath : string := "upgrade/applied".
Definition committedPath : string := "upgrade/committed".

(** What the world does during one staging: the platform, the two downloads
    and whether creating the directory and renaming succeed. *)
Record world := {
  goos : string; goarch : string; mkdir_ok : bool; dl_binary : download; dl_checksum : download; rename_ok : bool;
  write_pending_ok : bool; api : api_answer }.

Definition stageUpgrade (sha256hex : bytes -> bytes) (w : world) (d : disk) : disk * outcome unit :=
  match platformAsset (goos w) (goarch w) with
  | None => (d, Failed)
  | Some _ =>
      if negb (mkdir_ok w) then (d, Failed)
      else
        let '(d1, ok) := downloadFile d (dl_binary w) tmpPath in
        if negb ok then (delete tmpPath d1, Failed)
        else
          let '(d2, ok) := downloadFile d1 (dl_checksum w) checksumPath in
          if negb ok then (delete checksumPath (delete tmpPath d2), Failed)
          else match verifyChecksum sha256hex d2 tmpPath checksumPath with
               | Panic => (d2, Panic)
               | Failed => (delete checksumPath (delete tmpPath d2), Failed)
               | Done _ =>
                   let d3 := delete checksumPath d2 in
                   if rename_ok w then
                     match d3 !! tmpPath with
                     | Some b => (<[newPath := b]> (delete tmpPath d3), Done tt)
                     | None => (d3, Failed)
                     end
                   else (delete tmpPath d3, Failed)
               end
  end.

(** ** [upgrade.go] *)
Record Config := { CurrentVersion : bytes; Interval : duration; Disabled : bool }.

(** How [RunOnce] ends: it returns, exits the process, or panics. *)
Inductive run_end := RReturn | RExit | RPanic.

Definition RunOnce (sha256hex : bytes -> bytes) (cfg : Config) (w : world) (d : disk) : disk * run_end :=
  if Disabled cfg then (d, RReturn)
  else if bool_decide (CurrentVersion cfg = B "dev") then (d, RReturn)
  else match latestRelease (api w) with
       | None => (d, RReturn)
       | Some latest =>
           match isNewer (CurrentVersion cfg) latest with
           | None | Some false => (d, RReturn)
           | Some true =>
               match stageUpgrade sha256hex w d with
               | (d', Failed) => (d', RReturn)
               | (d', Panic) => (d', RPanic)
               | (d', Done _) =>
                   if write_pending_ok w then (<[pendingPath := latest ++ [newline]]> d', RExit)
                   else (delete newPath d', RReturn)
               end
           end
       end.

(** [RunPeriodic]: a check at each tick, unless it is off; a check that stages
    an upgrade ends the process. *)
Definition periodic_on (cfg : Config) : bool := negb (Disabled cfg || (Interval cfg <=? 0)).
Fixpoint check_ticks (sha256hex : bytes -> bytes) (cfg : Config) (ws : list world) (d : disk) : disk * run_end :=
  match ws with
  | [] => (d, RReturn)
  | w :: rest => match RunOnce sha256hex cfg w d with
                 | (d', RReturn) => check_ticks sha256hex cfg rest d'
                 | e => e
                 end
  end.
Definition RunPeriodic (sha256hex : bytes -> bytes) (cfg : Config) (ws : list world) (d : disk) : disk * run_end :=
  if periodic_on cfg then check_ticks sha256hex cfg ws d else (d, RReturn).

Definition Commit (write_ok : bool) (d : disk) : disk * bool :=
  match d !! appliedPath with
  | None => (d, true)
  | Some _ => if write_ok then (<[committedPath := B "ok" ++ [newline]]> d, true) else (d, false)
  end.

(** ** [apply-upgrade.sh] *)
Definition BINARY : string := "/usr/local/bin/yomins-agent".
Definition BINARY_new : string := "/usr/local/bin/yomins-agent.new".
Definition BINARY_rollback : string := "/usr/local/bin/yomins-agent.rollback".
Definition backupPath : string := "upgrade/backup".

Inductive file_op := Cp (src dst : string) | Mv (src dst : string) | Rm (p : string) | Touch (p : string).

(** [None]: the command fails and [set -e] ends the script. *)
Definition do_op (d : disk) (o : file_op) : option disk :=
  match o with
  | Cp src dst => b ← d !! src; Some (<[dst := b]> d)
  | Mv src dst => b ← d !! src; Some (<[dst := b]> (delete src d))
  | Rm p => Some (delete p d)
  | Touch p => Some (<[p := default [] (d !! p)]> d)
  end.

(** An operation that is killed half way, or a disk that fills up: a copy
    leaves the first [k] bytes at its destination; a rename, a removal and a
    [touch] happen or do not. *)
Definition cut_op (k : nat) (d : disk) (o : file_op) : disk :=
  match o with
  | Cp src dst => match d !! src with Some b => <[dst := take k b]> d | None => d end
  | _ => d
  end.

(** The first [n] operations, stopping at a failure; then, with [cut], a part
    of the next one. *)
Fixpoint do_ops (n : nat) (cut : option nat) (ops : list file_op) (d : disk) {struct ops} : disk :=
  match ops, n with
  | [], _ => d
  | o :: _, O => match cut with Some k => cut_op k d o | None => d end
  | o :: t, Datatypes.S n' => match do_op d o with Some d' => do_ops n' cut t d' | None => d end
  end.

Definition has (d : disk) (p : string) : bool := match d !! p with Some _ => true | None => false end.

(** The operations of one run; [unit_changed] is what [refresh_unit] returns. *)
Definition script (unit_changed : bool) (d : disk) : list file_op :=
  if negb (has d pendingPath) && negb (has d appliedPath) && negb (has d committedPath) then []
  else if has d appliedPath && negb (has d committedPath) then
    (if has d backupPath then [Cp backupPath BINARY_rollback; Mv BINARY_rollback BINARY] else [])
    ++ [Rm appliedPath; Rm pendingPath; Rm newPath; Rm backupPath]
  else
    (if has d committedPath then [Rm appliedPath; Rm committedPath; Rm backupPath] else [])
    ++ (if has d pendingPath then
          if negb (has d newPath) then [Rm pendingPath]
          else if unit_changed then []
          else [Cp BINARY backupPath; Cp newPath BINARY_new; Mv BINARY_new BINARY; Rm pendingPath; Rm newPath; Touch appliedPath]
        else []).

(** A run that is killed after [n] operations and a part of the next one, and
    a run to the end. *)
Definition apply_upgrade (unit_changed : bool) (n : nat) (cut : option nat) (d : disk) : disk :=
  do_ops n cut (script unit_changed d) d.
Definition apply_complete (unit_changed : bool) (d : disk) : disk :=
  apply_upgrade unit_changed (length (script unit_changed d)) None d.

(** The disks at which a check can be killed before its end: while a download
    is written ([k] bytes of it so far), between the downloads, after the
    verification, and around the write of the marker. *)
Definition cut_file (d : disk) (dl : download) (dest : string) (k : nat) : disk :=
  match dl with DlRefused => d | DlBroken p | DlOk p => <[dest := take k p]> d end.

Definition check_cuts (sha256hex : bytes -> bytes) (cfg : Config) (w : world) (d : disk) (k : nat) : list disk :=
  if Disabled cfg || bool_decide (CurrentVersion cfg = B "dev") then [d]
  else match latestRelease (api w) with
       | None => [d]
       | Some latest =>
           match isNewer (CurrentVersion cfg) latest with
           | None | Some false => [d]
           | Some true =>
               let d1 := (downloadFile d (dl_binary w) tmpPath).1 in
               let d2 := (downloadFile d1 (dl_checksum w) checksumPath).1 in
               [d; cut_file d (dl_binary w) tmpPath k; d1; cut_file d1 (dl_checksum w) checksumPath k; d2;
                delete tmpPath d2; delete checksumPath d2]
               ++ match stageUpgrade sha256hex w d with
                  | (d', Done _) => [d'; <[pendingPath := take k (latest ++ [newline])]> d']
                  | _ => []
                  end
           end
       end.

(** ** The whole system

    Steps of the agent (a check for upgrades, whole or killed, the commit
    after the first push) and of the script (whole or killed), in any order
    and with any network; a history of the checks made so far goes along. *)
Inductive step (sha256hex : bytes -> bytes) : list (Config * world) * disk -> list (Config * world) * disk -> Prop :=
  | S_run h cfg w d : step sha256hex (h, d) ((cfg, w) :: h, (RunOnce sha256hex cfg w d).1)
  | S_killed h cfg w k d d' : d' ∈ check_cuts sha256hex cfg w d k -> step sha256hex (h, d) ((cfg, w) :: h, d')
  | S_commit h ok d : step sha256hex (h, d) (h, (Commit ok d).1)
  | S_apply h u n cut d : step sha256hex (h, d) (h, apply_upgrade u n cut d).

Inductive reach (sha256hex : bytes -> bytes) (d0 : disk) : list (Config * world) * disk -> Prop :=
  | R_start : reach sha256hex d0 ([], d0)
  | R_step s s' : reach sha256hex d0 s -> step sha256hex s s' -> reach sha256hex d0 s'.

(** A check that found a newer release and served the binary [b] with a
    checksum file whose first word is the hash of [b]. *)
Definition verified_by (sha256hex : bytes -> bytes) (b : bytes) (cw : Config * world) : Prop :=
  let '(cfg, w) := cw in
  (exists tag, latestRelease (api w) = Some tag /\ isNewer (CurrentVersion cfg) tag = Some true)
  /\ dl_binary w = DlOk b
  /\ exists raw f rest, dl_checksum w = DlOk raw /\ Fields raw = f :: rest /\ TrimSpace f = sha256hex b
     /\ len (sha256hex b) = 64.

(** *** The invariant of the disk *)
Definition good_at (good : bytes -> Prop) (d : disk) (p : string) : Prop := forall b, d !! p = Some b -> good b.

(** There is a binary to start, it and the staged one are good, and so is the
    backup as long as a rollback may install it. *)
Definition disk_ok (good : bytes -> Prop) (d : disk) : Prop :=
  is_Some (d !! BINARY) /\ good_at good d BINARY /\ good_at good d newPath
  /\ (is_Some (d !! appliedPath) -> good_at good d backupPath).

(** The files the invariant reads. *)
Definition watched : list string := [BINARY; newPath; appliedPath; backupPath].

Lemma disk_ok_frame (good : bytes -> Prop) (d d' : disk) :
  (forall p, p ∈ watched -> d' !! p = d !! p) -> disk_ok good d -> disk_ok good d'.
Proof.
  intros Hf. unfold disk_ok, good_at.
  rewrite !Hf by (unfold watched; rewrite ?elem_of_cons; auto). done.
Qed.

Lemma disk_ok_weaken (g g' : bytes -> Prop) (d : disk) : (forall b, g b -> g' b) -> disk_ok g d -> disk_ok g' d.
Proof. unfold disk_ok, good_at. intros Hg (? & ? & ? & ?). split_and!; eauto. Qed.

(** *** Safe scripts

    A check of a list of operations against what is known of the files: those
    in [F] are good, and the marker is absent unless [ap].  Only known files
    are copied or moved, a copy never goes to a file the invariant needs, and
    the marker is set only over a good backup. *)
Fixpoint safe_ops (F : list string) (ap : bool) (ops : list file_op) : bool :=
  match ops with
  | [] => true
  | Cp src dst :: t =>
      bool_decide (src ∈ F) && bool_decide (dst ∉ [BINARY; newPath; appliedPath])
      && negb (ap && bool_decide (dst = backupPath)) && safe_ops (dst :: F) ap t
  | Mv src dst :: t =>
      bool_decide (src ∈ F) && bool_decide (src <> BINARY) && bool_decide (dst <> appliedPath) && safe_ops (dst :: F) ap t
  | Rm p :: t => bool_decide (p <> BINARY) && safe_ops F (if bool_decide (p = appliedPath) then false else ap) t
  | Touch p :: t => bool_decide (p = appliedPath) && bool_decide (backupPath ∈ F) && safe_ops F true t
  end.

Definition known (good : bytes -> Prop) (F : list string) (ap : bool) (d : disk) : Prop :=
  is_Some (d !! BINARY) /\ (BINARY ∈ F /\ newPath ∈ F /\ appliedPath ∉ F) /\ (forall p, p ∈ F -> good_at good d p)
  /\ (if ap then backupPath ∈ F else d !! appliedPath = None).

Lemma known_ok (good : bytes -> Prop) (F : list string) (ap : bool) (d : disk) : known good F ap d -> disk_ok good d.
Proof.
  intros (Hb & (HB & HN & _) & HF & Hap). split_and!; auto. intros Ha. destruct ap; [by apply HF|].
  rewrite Hap in Ha. by destruct Ha.
Qed.

Lemma known_copy (good : bytes -> Prop) (F : list string) (ap : bool) (d : disk) (dst : string) (b : bytes) :
  known good F ap d -> good b -> dst <> appliedPath -> known good (dst :: F) ap (<[dst := b]> d).
Proof.
  intros (Hb & (HB & HN & HA) & HF & Hap) Hg Hd. unfold known. split_and!.
  - rewrite lookup_insert. by case_decide.
  - by right.
  - by right.
  - by apply not_elem_of_cons.
  - intros p Hp x. rewrite lookup_insert. case_decide as He; [by intros [= <-]|].
    apply elem_of_cons in Hp as [->|Hp]; [done|by apply HF].
  - destruct ap; [by right|]. by rewrite lookup_insert_ne.
Qed.

Lemma known_delete (good : bytes -> Prop) (F : list string) (ap : bool) (d : disk) (p : string) :
  known good F ap d -> p <> BINARY ->
  known good F (if bool_decide (p = appliedPath) then false else ap) (delete p d).
Proof.
  intros (Hb & HFs & HF & Hap) Hp. unfold known. split_and!; [|apply HFs..| |].
  - by rewrite lookup_delete_ne.
  - intros q Hq x Hx. apply lookup_delete_Some in Hx as [_ Hx]. exact (HF q Hq x Hx).
  - case_bool_decide as He; [subst p; by rewrite lookup_delete_eq|]. destruct ap; [done|].
    by rewrite lookup_delete_ne.
Qed.

(** An operation that is killed half way leaves a disk the invariant holds
    of, a whole one what the check knows afterwards. *)
Lemma safe_op_cut (good : bytes -> Prop) (F : list string) (ap : bool) (o : file_op) (t : list file_op) (k : nat) (d : disk) :
  safe_ops F ap (o :: t) = true -> known good F ap d -> disk_ok good (cut_op k d o).
Proof.
  intros Hs Hk. pose proof (known_ok _ _ _ _ Hk) as Hok. destruct o as [src dst|src dst|p|p]; try done. cbn in Hs |- *.
  destruct (d !! src) as [b|]; [|done].
  rewrite !andb_true_iff, !bool_decide_eq_true, negb_true_iff in Hs. destruct Hs as (((_ & Hd) & Hbk) & _).
  rewrite !not_elem_of_cons in Hd. destruct Hd as (Hd1 & Hd2 & Hd3 & _).
  destruct (decide (dst = backupPath)) as [->|Hne].
  - rewrite bool_decide_eq_true_2, andb_true_r in Hbk by done. subst ap. destruct Hk as (_ & _ & _ & Hap).
    destruct Hok as (? & ? & ? & _). unfold disk_ok, good_at. rewrite !(lookup_insert_ne _ backupPath) by done.
    split_and!; try done. rewrite Hap. by intros [? ?].
  - apply (disk_ok_frame good d); [|done]. intros p Hp. rewrite lookup_insert_ne; [done|]. intros <-.
    unfold watched in Hp. set_solver.
Qed.

Lemma safe_op_step (good : bytes -> Prop) (F : list string) (ap : bool) (o : file_op) (t : list file_op) (d d' : disk) :
  safe_ops F ap (o :: t) = true -> known good F ap d -> do_op d o = Some d' ->
  exists F' ap', safe_ops F' ap' t = true /\ known good F' ap' d'.
Proof.
  intros Hs Hk Hd. pose proof Hk as (Hb & (HB & HN & HA) & HF & Hap).
  destruct o as [src dst|src dst|p|p]; cbn in Hs, Hd; rewrite !andb_true_iff, ?bool_decide_eq_true in Hs.
  - destruct (d !! src) as [b|] eqn:Hsrc; [|done]. injection Hd as <-. destruct Hs as (((Hs1 & Hs2) & _) & Hs).
    exists (dst :: F), ap. split; [done|]. apply known_copy; [done|exact (HF src Hs1 b Hsrc)|]. set_solver.
  - destruct (d !! src) as [b|] eqn:Hsrc; [|done]. injection Hd as <-. destruct Hs as (((Hs1 & Hs2) & Hs3) & Hs).
    exists (dst :: F), ap. split; [done|]. apply known_copy; [|exact (HF src Hs1 b Hsrc)|done].
    pose proof (known_delete _ _ _ _ src Hk Hs2) as Hk'. rewrite bool_decide_eq_false_2 in Hk' by congruence. done.
  - injection Hd as <-. destruct Hs as (Hp & Hs). eexists _, _. split; [exact Hs|]. by apply known_delete.
  - injection Hd as <-. destruct Hs as ((-> & Hbk) & Hs). exists F, true. split; [done|]. unfold known. split_and!; try done.
    + by rewrite lookup_insert_ne.
    + intros q Hq x. rewrite lookup_insert. case_decide as He; [congruence|]. exact (HF q Hq x).
Qed.

Lemma do_ops_ok (good : bytes -> Prop) (ops : list file_op) (n : nat) (cut : option nat) (F : list string) (ap : bool) (d : disk) :
  safe_ops F ap ops = true -> known good F ap d -> disk_ok good (do_ops n cut ops d).
Proof.
  revert n F ap d. induction ops as [|o t IH]; intros n F ap d Hs Hk; [by eapply known_ok|]. destruct n as [|n]; cbn [do_ops].
  - destruct cut as [k|]; [by eapply safe_op_cut|by eapply known_ok].
  - destruct (do_op d o) as [d'|] eqn:E; [|by eapply known_ok].
    destruct (safe_op_step good F ap o t d d' Hs Hk E) as (F' & ap' & Hs' & Hk'). by eapply IH.
Qed.

(** The script passes the check from whatever disk it finds. *)
Lemma script_safe (u : bool) (d : disk) :
  safe_ops (BINARY :: newPath :: (if has d appliedPath then [backupPath] else [])) (has d appliedPath) (script u d) = true.
Proof.
  unfold script. destruct (has d pendingPath), (has d appliedPath), (has d committedPath), (has d backupPath), (has d newPath), u;
    vm_compute; reflexivity.
Qed.

Lemma apply_ok (good : bytes -> Prop) (u : bool) (n : nat) (cut : option nat) (d : disk) :
  disk_ok good d -> disk_ok good (apply_upgrade u n cut d).
Proof.
  intros (Hb & HB & HN & Hap). eapply do_ops_ok; [apply script_safe|]. unfold known, has. split_and!; try done.
  - left.
  - right. left.
  - destruct (d !! appliedPath); apply (bool_decide_eq_true_1 _); vm_compute; reflexivity.
  - intros p Hp. destruct (d !! appliedPath); rewrite ?elem_of_cons, ?elem_of_nil in Hp; naive_solver.
  - destruct (d !! appliedPath); [|done]. right. right. left.
Qed.

Ltac path_dec := apply (bool_decide_unpack _); vm_compute; exact I.

(** Files the invariant does not read. *)
Lemma ok_other (good : bytes -> Prop) (d : disk) (p : string) (b : bytes) :
  p ∉ watched -> disk_ok good d -> disk_ok good (<[p := b]> d).
Proof. intros Hp. apply disk_ok_frame. intros q Hq. apply lookup_insert_ne. by intros ->. Qed.

Lemma ok_rm (good : bytes -> Prop) (d : disk) (p : string) : p <> BINARY -> disk_ok good d -> disk_ok good (delete p d).
Proof.
  intros Hp (Hb & HB & HN & Hap). unfold disk_ok, good_at. split_and!.
  - by rewrite lookup_delete_ne.
  - intros b [_ H]%lookup_delete_Some. eauto.
  - intros b [_ H]%lookup_delete_Some. eauto.
  - intros [x [_ Hx]%lookup_delete_Some] b [_ H]%lookup_delete_Some. eapply Hap; eauto.
Qed.

Lemma ok_stage_new (good : bytes -> Prop) (d : disk) (b : bytes) : good b -> disk_ok good d -> disk_ok good (<[newPath := b]> d).
Proof.
  intros Hg (Hb & HB & HN & Hap). unfold disk_ok, good_at. rewrite lookup_insert_eq, !lookup_insert_ne by done.
  split_and!; try done. by intros x [= <-].
Qed.

Lemma download_ok (good : bytes -> Prop) (d : disk) (dl : download) (dest : string) (k : nat) :
  dest ∉ watched -> disk_ok good d -> disk_ok good (downloadFile d dl dest).1 /\ disk_ok good (cut_file d dl dest k).
Proof. intros Hp Hd. destruct dl; cbn; split; auto using ok_other. Qed.

Ltac disk_tac := repeat first [done | apply ok_rm; [done|] | apply ok_other; [path_dec|] | apply ok_stage_new].

Lemma stage_ok (sha256hex : bytes -> bytes) (good : bytes -> Prop) (w : world) (d : disk) :
  (forall b raw f rest, dl_binary w = DlOk b -> dl_checksum w = DlOk raw -> Fields raw = f :: rest ->
     TrimSpace f = sha256hex b -> len (sha256hex b) = 64 -> good b) ->
  disk_ok good d -> disk_ok good (stageUpgrade sha256hex w d).1.
Proof.
  intros Hg Hd. unfold stageUpgrade. destruct (platformAsset _ _); [|done]. destruct (negb (mkdir_ok w)); [done|].
  destruct (dl_binary w) as [|p|b] eqn:Hb; cbn [downloadFile negb]; [disk_tac..|].
  destruct (dl_checksum w) as [|p|raw] eqn:Hc; cbn [downloadFile negb]; [disk_tac..|].
  unfold verifyChecksum. rewrite lookup_insert_eq. destruct (Fields raw) as [|f rest] eqn:Hf; [cbn [fst]; disk_tac|].
  destruct (negb (len (TrimSpace f) =? 64)) eqn:Hl; [cbn [fst]; disk_tac|].
  rewrite lookup_insert_ne, lookup_insert_eq by done. case_bool_decide as Hh; [|cbn [fst]; disk_tac].
  destruct (rename_ok w); [|cbn [fst]; disk_tac].
  rewrite lookup_delete_ne, lookup_insert_ne, lookup_insert_eq by done. cbn [fst]. disk_tac.
  apply (Hg b raw f rest); auto. rewrite Hh. apply negb_false_iff in Hl. lia.
Qed.

Lemma step_ok (sha256hex : bytes -> bytes) (b0 : bytes) (h h' : list (Config * world)) (d d' : disk) :
  let good h b := b = b0 \/ Exists (verified_by sha256hex b) h in
  step sha256hex (h, d) (h', d') -> disk_ok (good h) d -> disk_ok (good h') d'.
Proof.
  intros good Hs Hd.
  assert (Hw : forall c, disk_ok (good (c :: h)) d).
  { intros c. eapply disk_ok_weaken; [|exact Hd]. intros b [->|Hb]; [by left|right]. by apply Exists_cons_tl. }
  assert (Hst : forall cfg w tag, latestRelease (api w) = Some tag -> isNewer (CurrentVersion cfg) tag = Some true ->
            disk_ok (good ((cfg, w) :: h)) (stageUpgrade sha256hex w d).1).
  { intros cfg w tag Ht Hn. apply stage_ok; [|done]. intros b raw f rest H1 H2 H3 H4 H5. right. apply Exists_cons_hd.
    cbn. split_and!; eauto 10. }
  inversion Hs as [? cfg w ?|? cfg w k ? ? Hin| |]; subst.
  - unfold RunOnce. destruct (Disabled cfg); [done|]. case_bool_decide; [done|].
    destruct (latestRelease (api w)) as [tag|] eqn:Ht; [|done].
    destruct (isNewer (CurrentVersion cfg) tag) as [[]|] eqn:Hn; [|done..]. specialize (Hst cfg w tag Ht Hn).
    destruct (stageUpgrade sha256hex w d) as [d1 [[]| |]]; cbn [fst] in *; [|done..].
    destruct (write_pending_ok w); cbn [fst]; disk_tac.
  - specialize (Hw (cfg, w)). set (g := good ((cfg, w) :: h)) in *.
    enough (Forall (disk_ok g) (check_cuts sha256hex cfg w d k)) as Hall by (rewrite Forall_forall in Hall; auto).
    unfold check_cuts. destruct (Disabled cfg || _); [by apply Forall_singleton|].
    destruct (latestRelease (api w)) as [tag|] eqn:Ht; [|by apply Forall_singleton].
    destruct (isNewer (CurrentVersion cfg) tag) as [[]|] eqn:Hn; [|by apply Forall_singleton..]. specialize (Hst cfg w tag Ht Hn).
    destruct (download_ok g d (dl_binary w) tmpPath k) as [H1 H1']; [path_dec|done|]. set (d1 := (downloadFile d _ _).1) in *.
    destruct (download_ok g d1 (dl_checksum w) checksumPath k) as [H2 H2']; [path_dec|done|].
    apply Forall_app. split; [repeat (constructor; [disk_tac|]); constructor|].
    destruct (stageUpgrade sha256hex w d) as [d2 [[]| |]]; cbn [fst] in *; [|constructor..].
    repeat (constructor; [disk_tac|]); constructor.
  - unfold Commit. destruct (d !! appliedPath); [|done]. destruct ok; [|done]. cbn [fst]. disk_tac.
  - by apply apply_ok.
Qed.

(** What a complete run of the script does to a staged upgrade. *)
Lemma apply_installs (d : disk) (old new_ pend : bytes) :
  d !! BINARY = Some old -> d !! newPath = Some new_ -> d !! pendingPath = Some pend ->
  d !! appliedPath = None -> d !! committedPath = None ->
  apply_complete false d = <[appliedPath := []]> (delete newPath (delete pendingPath
      (<[BINARY := new_]> (delete BINARY_new (<[BINARY_new := new_]> (<[backupPath := old]> d)))))).
Proof.
  intros Hb Hn Hp Ha Hc. unfold apply_complete, apply_upgrade, script, has. rewrite Hp, Ha, Hc, Hn. cbn [negb andb orb app length].
  cbn [do_ops do_op]. rewrite Hb. cbn [mbind option_bind]. rewrite lookup_insert_ne, Hn by done. cbn [mbind option_bind].
  rewrite lookup_insert_eq. cbn [mbind option_bind]. f_equal.
  rewrite !lookup_delete_ne, lookup_insert_ne, lookup_delete_ne, !lookup_insert_ne, Ha by done. done.
Qed.

(** A binary waits to be installed, and no rollback is due. *)
Definition staged (old b : bytes) (d : disk) : Prop :=
  d !! BINARY = Some old /\ d !! newPath = Some b /\ is_Some (d !! pendingPath)
  /\ (d !! appliedPath = None \/ is_Some (d !! committedPath)).

(** The script first forgets an upgrade that was committed. *)
Definition cleaned (d : disk) : disk := delete backupPath (delete committedPath (delete appliedPath d)).

Lemma housekeeping (u : bool) (old b : bytes) (d : disk) :
  staged old b d -> exists d', staged old b d' /\ d' !! appliedPath = None /\ d' !! committedPath = None
    /\ apply_complete u d = apply_complete u d'.
Proof.
  intros (Hb & Hn & [pend Hp] & Hac). destruct (d !! committedPath) as [c|] eqn:Hc.
  - exists (cleaned d). unfold staged, cleaned.
    assert (L : forall p, p <> appliedPath -> p <> committedPath -> p <> backupPath ->
      delete backupPath (delete committedPath (delete appliedPath d)) !! p = d !! p) by (intros; by rewrite !lookup_delete_ne).
    rewrite !(L BINARY), !(L newPath), !(L pendingPath) by done.
    split_and!; [by eauto..|left; by simplify_map_eq|by simplify_map_eq|by simplify_map_eq|].
    unfold apply_complete, apply_upgrade, script, has. simplify_map_eq. cbn. rewrite !andb_false_r. cbn. by destruct u.
  - destruct Hac as [Ha|[? ?]]; [|done]. exists d. unfold staged. eauto 10.
Qed.

(** A start that installs a new service unit leaves the upgrade staged. *)
Lemma unit_first (old b : bytes) (d : disk) : staged old b d -> staged old b (apply_complete true d).
Proof.
  intros Hs. destruct (housekeeping true old b d Hs) as (d' & Hs' & Ha & Hc & ->).
  pose proof Hs' as (_ & Hn & [pend Hp] & _). unfold apply_complete, apply_upgrade, script, has. by rewrite Hp, Ha, Hc, Hn.
Qed.

Lemma staged_installs (old b : bytes) (d : disk) :
  staged old b d ->
  apply_complete false d !! BINARY = Some b /\ apply_complete false d !! backupPath = Some old
  /\ is_Some (apply_complete false d !! appliedPath).
Proof.
  intros Hs. destruct (housekeeping false old b d Hs) as (d' & (Hb & Hn & [pend Hp] & _) & Ha & Hc & ->).
  rewrite (apply_installs d' old b pend) by done. split_and!; [by simplify_map_eq..|]. exists []. by simplify_map_eq.
Qed.

(** A world in which a newer release can be staged. *)
Definition serves (sha256hex : bytes -> bytes) (cfg : Config) (w : world) (tag b : bytes) : Prop :=
  latestRelease (api w) = Some tag /\ verified_by sha256hex b (cfg, w)
  /\ is_Some (platformAsset (goos w) (goarch w)) /\ mkdir_ok w = true /\ rename_ok w = true /\ write_pending_ok w = true.

Lemma RunOnce_stages (sha256hex : bytes -> bytes) (cfg : Config) (w : world) (tag b : bytes) (d : disk) :
  Disabled cfg = false -> CurrentVersion cfg <> B "dev" -> serves sha256hex cfg w tag b ->
  RunOnce sha256hex cfg w d
  = (<[pendingPath := tag ++ [newline]]> (<[newPath := b]> (delete tmpPath (delete checksumPath
       (<[checksumPath := match dl_checksum w with DlOk raw => raw | _ => [] end]> (<[tmpPath := b]> d))))), RExit).
Proof.
  intros Hd Hv (Ht & ((tag' & Ht' & Hn) & Hb & raw & f & rest & Hc & Hf & Htr & Hl) & [asset Ha] & Hm & Hr & Hw).
  rewrite Ht in Ht'. injection Ht' as <-. unfold RunOnce. rewrite Hd, bool_decide_eq_false_2, Ht, Hn by done.
  unfold stageUpgrade. rewrite Ha, Hm, Hb, Hc. cbn [negb downloadFile]. unfold verifyChecksum.
  rewrite lookup_insert_eq, Hf, Htr, Hl, lookup_insert_ne, lookup_insert_eq by done. cbn [negb Z.eqb Pos.eqb].
  rewrite bool_decide_eq_true_2, Hr by done.
  rewrite lookup_delete_ne, lookup_insert_ne, lookup_insert_eq by done. by rewrite Hw.
Qed.

Lemma check_ticks_skip (sha256hex : bytes -> bytes) (cfg : Config) (ws ws' : list world) (d : disk) :
  Forall (fun w => forall tag, latestRelease (api w) = Some tag -> isNewer (CurrentVersion cfg) tag <> Some true) ws ->
  check_ticks sha256hex cfg (ws ++ ws') d = check_ticks sha256hex cfg ws' d.
Proof.
  induction 1 as [|w ws Hw _ IH]; [done|]. cbn [app check_ticks].
  assert (RunOnce sha256hex cfg w d = (d, RReturn)) as ->; [|done].
  unfold RunOnce. destruct (Disabled cfg); [done|]. case_bool_decide; [done|].
  destruct (latestRelease (api w)) as [tag|]; [|done]. specialize (Hw tag eq_refl).
  by destruct (isNewer (CurrentVersion cfg) tag) as [[]|].
Qed.

(** ** Properties *)

(** C4: whatever the network serves, however often the agent checks, commits
    and restarts, and wherever the agent's check or the script is killed
    (between two operations or inside a copy, which then leaves a truncated
    file), there is a binary to start, and it is the original one or one that
    was downloaded completely for a strictly newer release and whose hash was
    the one of its checksum file.  The same holds for a staged binary, and for
    the backup as long as a rollback could install it. *)
Theorem installed_verified (sha256hex : bytes -> bytes) (d0 d : disk) (b0 : bytes) (h : list (Config * world)) :
  d0 !! BINARY = Some b0 -> d0 !! newPath = None -> d0 !! appliedPath = None ->
  reach sha256hex d0 (h, d) ->
  let good b := b = b0 \/ Exists (verified_by sha256hex b) h in
  (exists b, d !! BINARY = Some b /\ good b)
  /\ (forall b, d !! newPath = Some b -> good b)
  /\ (forall b, is_Some (d !! appliedPath) -> d !! backupPath = Some b -> good b).
Proof.
  intros Hb0 Hn0 Ha0 Hr good. enough (disk_ok good d) as ([b Hb] & HB & HN & Hap).
  { split_and!; [exists b; split; [done|]; by apply HB|exact HN|]. intros x Hx. by apply Hap. }
  unfold good. clear good. remember (h, d) as s eqn:Hs. revert h d Hs.
  induction Hr as [|[h1 d1] s' Hr IH Hstep]; intros h d Hs; simplify_eq; [|by eapply step_ok; [|apply IH]].
  unfold disk_ok, good_at. rewrite Hb0, Hn0, Ha0. split_and!; [done| |done|by intros [? ?]]. intros b [= <-]. by left.
Qed.

(** C21: a published release reaches the host.  The periodic check is on, the
    agent is not a development build, and no upgrade waits for its first push
    (an applied one is committed).  When the first tick that sees a newer
    release is served its binary and checksum, the process exits with the old
    binary in place and the new one staged.  Then a start that finds the
    service unit current, be it the next one or one after any number of starts
    that each installed a new unit first, runs the new binary, with the old
    one kept for the rollback. *)
Theorem upgrade_applied (sha256hex : bytes -> bytes) (cfg : Config) (ws later : list world) (w : world) (tag b old : bytes) (d : disk) (units : nat) :
  periodic_on cfg = true -> CurrentVersion cfg <> B "dev" ->
  Forall (fun w => forall tag, latestRelease (api w) = Some tag -> isNewer (CurrentVersion cfg) tag <> Some true) ws ->
  serves sha256hex cfg w tag b ->
  d !! BINARY = Some old -> d !! appliedPath = None \/ is_Some (d !! committedPath) ->
  let '(d1, e) := RunPeriodic sha256hex cfg (ws ++ w :: later) d in
  let d2 := Nat.iter units (apply_complete true) d1 in
  e = RExit /\ d2 !! BINARY = Some old /\ apply_complete false d2 !! BINARY = Some b
  /\ apply_complete false d2 !! backupPath = Some old /\ is_Some (apply_complete false d2 !! appliedPath).
Proof.
  intros Hon Hv Hws Hserve Hb Hac. unfold RunPeriodic. rewrite Hon, check_ticks_skip by done. cbn [check_ticks].
  assert (Hdis : Disabled cfg = false) by (unfold periodic_on in Hon; by destruct (Disabled cfg)).
  rewrite (RunOnce_stages sha256hex cfg w tag b d Hdis Hv Hserve). set (d1 := <[pendingPath := _]> _).
  assert (Hs : staged old b (Nat.iter units (apply_complete true) d1)).
  { induction units as [|n IH]; [|by apply unit_first]. subst d1. cbn. unfold staged. by simplify_map_eq. }
  split; [done|]. split; [by apply Hs|]. by apply staged_installs.
Qed.

(** With an applied upgrade that is not committed, the next start rolls back
    and drops the staged release; the agent will find it again at a later
    check. *)
Lemma uncommitted_drops_staged (d : disk) (old b bk mark : bytes) (u : bool) :
  d !! BINARY = Some old -> d !! newPath = Some b -> d !! backupPath = Some bk ->
  d !! appliedPath = Some mark -> d !! committedPath = None ->
  let d' := apply_complete u d in
  d' !! BINARY = Some bk /\ d' !! newPath = None /\ d' !! pendingPath = None.
Proof.
  intros Hb Hn Hk Ha Hc. unfold apply_complete, apply_upgrade, script, has. rewrite Ha, Hc, Hk, andb_false_r.
  cbn [negb andb app length do_ops do_op]. rewrite Hk. cbn [mbind option_bind]. rewrite lookup_insert_eq. cbn [mbind option_bind].
  split_and!; by simplify_map_eq.
Qed.

(** C35: an applied upgrade that is not committed is rolled back to exactly the
    binary it replaced at the next start, and one that is committed stays; in
    both cases no marker and no staged binary is left. *)
Theorem rollback_or_keep (d : disk) (old new_ pend : bytes) (u : bool) :
  d !! BINARY = Some old -> d !! newPath = Some new_ -> d !! pendingPath = Some pend ->
  d !! appliedPath = None -> d !! committedPath = None ->
  let d1 := apply_complete false d in
  d1 !! BINARY = Some new_ /\ d1 !! backupPath = Some old
  /\ (let d2 := apply_complete u d1 in
      d2 !! BINARY = Some old /\ Forall (fun p => d2 !! p = None) [appliedPath; pendingPath; newPath; backupPath; committedPath])
  /\ (let d2 := apply_complete u (Commit true d1).1 in
      d2 !! BINARY = Some new_ /\ Forall (fun p => d2 !! p = None) [appliedPath; pendingPath; newPath; backupPath; committedPath]).
Proof.
  intros Hb Hn Hp Ha Hc. cbv zeta.
  rewrite (apply_installs d old new_ pend) by done. set (d1 := <[appliedPath := []]> _).
  assert (Hl : d1 !! BINARY = Some new_ /\ d1 !! backupPath = Some old /\ d1 !! appliedPath = Some [] /\ d1 !! committedPath = None
    /\ d1 !! pendingPath = None /\ d1 !! newPath = None).
  { subst d1. split_and!; by simplify_map_eq. }
  clearbody d1. clear Hb Hn Hp Ha Hc d. destruct Hl as (L1 & L2 & L3 & L4 & L5 & L6).
  split; [done|]. split; [done|]. split.
  - unfold apply_complete, apply_upgrade, script, has. rewrite L2, L3, L4, L5. cbn [negb andb orb app length do_ops do_op].
    rewrite L2. cbn [mbind option_bind]. rewrite lookup_insert_eq. cbn [mbind option_bind].
    split; [by simplify_map_eq|]. repeat (constructor; [by simplify_map_eq|]). constructor.
  - unfold Commit. rewrite L3. cbn [fst]. set (d2 := <[committedPath := _]> d1).
    assert (M : d2 !! appliedPath = Some [] /\ d2 !! committedPath = Some (B "ok" ++ [newline]) /\ d2 !! pendingPath = None /\ d2 !! newPath = None
      /\ d2 !! BINARY = Some new_) by (subst d2; split_and!; by simplify_map_eq).
    clearbody d2. destruct M as (M1 & M2 & M3 & M4 & M5).
    unfold apply_complete, apply_upgrade, script, has. rewrite M1, M2, M3. cbn [negb andb orb app length do_ops do_op].
    split; [by simplify_map_eq|]. repeat (constructor; [by simplify_map_eq|]). constructor.
Qed.

(** ** Versions *)
Definition format_version (v : version) : bytes :=
  let '(a, b, c) := v in B "v" ++ FormatUint a ++ "."%char :: FormatUint b ++ "."%char :: FormatUint c.
Definition version_ok (v : version) : Prop :=
  let '(a, b, c) := v in 0 <= a <= max_i64 /\ 0 <= b <= max_i64 /\ 0 <= c <= max_i64.
(** Lexicographic order. *)
Definition version_lt (x y : version) : Prop :=
  let '(a, b, c) := x in let '(a', b', c') := y in a < a' \/ (a = a' /\ (b < b' \/ (b = b' /\ c < c'))).

Lemma digits_not (n : Z) (c : ascii) : (48 <=? byteval c) && (byteval c <=? 57) = false -> c ∉ FormatUint n.
Proof.
  intros Hc Hin. pose proof (FormatUint_digits n) as Hd. rewrite Forall_forall in Hd. specialize (Hd _ Hin).
  unfold is_digit in Hd. lia.
Qed.

Lemma component_format (n : Z) : 0 <= n <= max_i64 -> component (FormatUint n) = Some n.
Proof. intros H. unfold component. rewrite Atoi_FormatUint by done. destruct (Z.ltb_spec n 0); [lia|done]. Qed.

Lemma parseVersion_format (v : version) : version_ok v -> parseVersion (format_version v) = Some v.
Proof.
  destruct v as [[a b] c]. intros (Ha & Hb & Hc). unfold parseVersion, format_version.
  unfold TrimPrefix. rewrite HasPrefix_app. change (drop (length (B "v")) (B "v" ++ ?x)) with x.
  set (body := FormatUint a ++ _).
  assert (Hpm : existsb (fun c => bool_decide (c = "-"%char) || bool_decide (c = "+"%char)) body = false).
  { apply not_true_is_false. intros (x & Hx & Hor)%existsb_exists. apply list_elem_of_In in Hx. subst body.
    rewrite !elem_of_app, !elem_of_cons, !elem_of_app, !elem_of_cons in Hx.
    apply orb_true_iff in Hor as [Hd|Hd]; apply bool_decide_eq_true in Hd; subst x;
      (destruct Hx as [H|[H|[H|[H|H]]]]; [by apply digits_not in H|done|by apply digits_not in H|done|by apply digits_not in H]). }
  rewrite Hpm. subst body. unfold SplitN. rewrite Cut_app by by apply digits_not. rewrite Cut_app by by apply digits_not.
  by rewrite !component_format.
Qed.

Lemma version_gt_spec (x y : version) : version_gt y x = true <-> version_lt x y.
Proof.
  destruct x as [[a b] c], y as [[a' b'] c']. unfold version_gt, version_lt.
  destruct (Z.ltb_spec a a'), (Z.ltb_spec a' a), (Z.ltb_spec b b'), (Z.ltb_spec b' b), (Z.ltb_spec c c'), (Z.ltb_spec c' c);
    split; intros; try done; try lia.
Qed.

(** C36: the upgrade check follows the order of versions: for any two release
    versions the comparison succeeds and says whether the second is
    lexicographically later, so a version is never newer than itself and two
    versions are never each newer than the other; a tag with a pre-release or
    build suffix is refused. *)
Theorem isNewer_order (x y : version) (tag : bytes) :
  version_ok x -> version_ok y -> ("-"%char ∈ tag \/ "+"%char ∈ tag) ->
  (exists r, isNewer (format_version x) (format_version y) = Some r /\ (r = true <-> version_lt x y))
  /\ isNewer (format_version x) (format_version x) = Some false
  /\ (isNewer (format_version x) (format_version y) = Some true -> isNewer (format_version y) (format_version x) = Some false)
  /\ isNewer (format_version x) tag = None.
Proof.
  intros Hx Hy Htag. unfold isNewer. rewrite !parseVersion_format by done. cbn [mbind option_bind].
  assert (Hirr : forall v, ~ version_lt v v) by (intros [[a b] c]; cbn; lia).
  assert (Hasym : forall v w, version_lt v w -> ~ version_lt w v) by (intros [[a b] c] [[a' b'] c']; cbn; lia).
  assert (Hf : forall v w, ~ version_lt v w -> version_gt w v = false).
  { intros v w H. apply not_true_is_false. by rewrite version_gt_spec. }
  split_and!.
  - exists (version_gt y x). split; [done|]. apply version_gt_spec.
  - f_equal. apply Hf, Hirr.
  - intros H. f_equal. apply Hf, Hasym, version_gt_spec. congruence.
  - unfold parseVersion. rewrite (proj2 (existsb_exists _ _)); [done|].
    assert (Hsub : forall c, c <> "v"%char -> c ∈ tag -> c ∈ TrimPrefix tag (B "v")).
    { intros c Hc Hin. unfold TrimPrefix. destruct (HasPrefix tag (B "v")) eqn:E; [|done].
      apply HasPrefix_spec in E as [t ->]. apply elem_of_app in Hin as [Hin|Hin]; [|done].
      apply list_elem_of_singleton in Hin. congruence. }
    destruct Htag as [H|H]; [exists "-"%char|exists "+"%char]; (split; [apply list_elem_of_In; by apply Hsub|done]).
Qed.

(** An empty checksum file makes the check panic, in the agent's own process. *)
Lemma empty_checksum_panics (sha256hex : bytes -> bytes) (d : disk) (bin sum raw : bytes) :
  Fields raw = [] -> verifyChecksum sha256hex (<[checksumPath := raw]> d) tmpPath checksumPath = Panic.
Proof. intros H. unfold verifyChecksum. by rewrite lookup_insert_eq, H. Qed.

(** A crash between installing the binary and removing the pending marker
    loses the old binary: the next start backs up the new binary over it, and
    a rollback installs the new binary again. *)
Lemma crash_loses_backup (d : disk) (old new_ pend : bytes) (u : bool) :
  d !! BINARY = Some old -> d !! newPath = Some new_ -> d !! pendingPath = Some pend ->
  d !! appliedPath = None -> d !! committedPath = None ->
  apply_complete u (apply_complete false (apply_upgrade false 3 None d)) !! BINARY = Some new_.
Proof.
  intros Hb Hn Hp Ha Hc.
  assert (H1 : apply_upgrade false 3 None d = <[BINARY := new_]> (delete BINARY_new (<[BINARY_new := new_]> (<[backupPath := old]> d)))).
  { unfold apply_upgrade, script, has. rewrite Hp, Ha, Hc, Hn. cbn [negb andb orb app do_ops do_op]. rewrite Hb.
    cbn [mbind option_bind]. rewrite lookup_insert_ne, Hn by done. cbn [mbind option_bind]. by rewrite lookup_insert_eq. }
  rewrite H1. set (d1 := <[BINARY := new_]> _).
  assert (M : d1 !! BINARY = Some new_ /\ d1 !! newPath = Some new_ /\ d1 !! pendingPath = Some pend
    /\ d1 !! appliedPath = None /\ d1 !! committedPath = None) by (subst d1; split_and!; by simplify_map_eq).
  clearbody d1. destruct M as (M1 & M2 & M3 & M4 & M5).
  set (d2 := apply_complete false d1).
  assert (N : d2 !! appliedPath = Some [] /\ d2 !! committedPath = None /\ d2 !! backupPath = Some new_).
  { subst d2. rewrite (apply_installs d1 new_ new_ pend) by done.
    split_and!; by simplify_map_eq. }
  clearbody d2. destruct N as (N1 & N2 & N3).
  unfold apply_complete, apply_upgrade, script, has. rewrite N1, N2, N3, andb_false_r. cbn [negb andb orb app length do_ops do_op].
  rewrite N3. cbn [mbind option_bind]. rewrite lookup_insert_eq. cbn [mbind option_bind]. by simplify_map_eq.
Qed.

(** *** Witnesses *)
Definition demo_hash (b : bytes) : bytes := replicate 64 (match b with c :: _ => c | [] => "0"%char end).
Definition demo_cfg : Config := {| CurrentVersion := B "v1.2.3"; Interval := 0; Disabled := false |}.
Definition demo_world : world := {|
  goos := "linux"; goarch := "amd64"; mkdir_ok := true; dl_binary := DlOk (B "new"); dl_checksum := DlOk (demo_hash (B "new"));
  rename_ok := true; write_pending_ok := true; api := ApiResponse 200 (Some (B "v1.10.0")) |}.
Definition demo_disk : disk := {[BINARY := B "old"]}.

(** The installer is killed while it copies the new binary, and started again. *)
Definition killed_disk : disk := apply_upgrade false 1 (Some 2%nat) (RunOnce demo_hash demo_cfg demo_world demo_disk).1.
Example killed_truncated : killed_disk !! BINARY_new = Some (B "ne").
Proof. vm_compute. reflexivity. Qed.

Lemma installed_verified_witness :
  apply_complete false killed_disk !! BINARY = Some (B "new")
  /\ exists b, apply_complete false killed_disk !! BINARY = Some b
      /\ (b = B "old" \/ Exists (verified_by demo_hash b) [(demo_cfg, demo_world)]).
Proof.
  split; [vm_compute; reflexivity|].
  apply (installed_verified demo_hash demo_disk (apply_complete false killed_disk) (B "old") [(demo_cfg, demo_world)]);
    [reflexivity|reflexivity|reflexivity|].
  eapply R_step; [eapply R_step; [eapply R_step; [apply R_start|apply (S_run demo_hash [] demo_cfg demo_world)]|]|].
  - apply (S_apply _ _ false 1 (Some 2%nat)).
  - apply S_apply.
Defined.

Definition staged_disk : disk := {[BINARY := B "old"; newPath := B "new"; pendingPath := B "v1.10.0"]}.
Lemma rollback_or_keep_witness :
  apply_complete false (apply_complete false staged_disk) !! BINARY = Some (B "old").
Proof.
  apply (rollback_or_keep staged_disk (B "old") (B "new") (B "v1.10.0") false); vm_compute; reflexivity.
Defined.

Lemma isNewer_order_witness : isNewer (B "v1.9.0") (B "v1.10.0") = Some true.
Proof.
  destruct (isNewer_order (1, 9, 0) (1, 10, 0) (B "v2.0.0-rc1")) as [(r & Hr & Hlt) _]; [cbn; go_lia|cbn; go_lia|left; path_dec|].
  assert (r = true) as -> by (apply Hlt; cbn; lia). exact Hr.
Defined.

Definition demo_hourly : Config := {| CurrentVersion := B "v1.2.3"; Interval := 3600 * second; Disabled := false |}.
Definition demo_offline : world := {|
  goos := "linux"; goarch := "amd64"; mkdir_ok := true; dl_binary := DlRefused; dl_checksum := DlRefused;
  rename_ok := true; write_pending_ok := true; api := ApiError |}.
Lemma upgrade_applied_witness :
  apply_complete false (apply_complete true
    (RunPeriodic demo_hash demo_hourly ([demo_offline] ++ demo_world :: []) demo_disk).1) !! BINARY = Some (B "new").
Proof.
  pose proof (upgrade_applied demo_hash demo_hourly [demo_offline] [] demo_world (B "v1.10.0") (B "new") (B "old") demo_disk 1) as H.
  destruct (RunPeriodic _ _ _ _) as [d1 e]. apply H.
  - reflexivity.
  - discriminate.
  - constructor; [|constructor]. intros tag Ht. discriminate Ht.
  - split; [reflexivity|]. split; [|split; [eexists; reflexivity|split; [reflexivity|split; reflexivity]]].
    split; [exists (B "v1.10.0"); split; vm_compute; reflexivity|]. split; [reflexivity|].
    exists (demo_hash (B "new")), (demo_hash (B "new")), []. split; [reflexivity|]. split; [vm_compute; reflexivity|].
    split; vm_compute; reflexivity.
  - reflexivity.
  - left. reflexivity.
Defined.
