(* ===== verification/LogTail.v ===== *)
(** * Log files: positions and tailing

    [src/internal/logs/entry.go], [positions.go] and [tail.go].  A followed
    file is an open handle: the contents it shows at a round are an argument,
    as are the clock and the results of system calls.  An acknowledgement
    ([ack]) is the position it will record.  Warnings are not modelled. *)
From S2P Require Import Prelude GoStrings.
Local Open Scope Z_scope.

(** ** [entry.go] *)
Record Position := { Inode : Z; Offset : Z }.
#[export] Instance Position_eq_dec : EqDecision Position.
Proof. solve_decision. Defined.

(** The closures the sources put in an entry. *)
Inductive ack_action := AckFile (path : bytes) (pos : Position) | AckJournal (cursor : bytes).

Record Entry := {
  e_Time : time; e_Msg : bytes; e_Source : bytes; e_Path : bytes; e_Unit : bytes; e_Level : bytes;
  e_Fields : gmap bytes bytes; e_ack : option ack_action }.

(** ** [positions.go] *)
Record Positions := { p_path : bytes; Files : gmap bytes Position; Journal : bytes; dirty : bool }.

(** The state file as decoding it gives: unreadable, undecodable, or the two
    fields ([None]: a null map). *)
Inductive positions_file := PNone | PBad | PSaved (files : option (gmap bytes Position)) (journal : bytes).

Definition positionsName : bytes := B "/log_positions.json".

Definition LoadPositions (stateDir : bytes) (file : positions_file) : Positions :=
  match stateDir with
  | [] => {| p_path := []; Files := ∅; Journal := []; dirty := false |}
  | _ =>
      let path := stateDir ++ positionsName in
      match file with
      | PNone | PBad => {| p_path := path; Files := ∅; Journal := []; dirty := false |}
      | PSaved f j => {| p_path := path; Files := default ∅ f; Journal := j; dirty := false |}
      end
  end.

Definition File_ (p : Positions) (path : bytes) : option Position := Files p !! path.

(** A missing path reads as the zero position. *)
Definition SetFile (p : Positions) (path : bytes) (pos : Position) : Positions :=
  if bool_decide (default {| Inode := 0; Offset := 0 |} (Files p !! path) = pos) then p
  else {| p_path := p_path p; Files := <[path := pos]> (Files p); Journal := Journal p; dirty := true |}.

Definition Forget (p : Positions) (path : bytes) : Positions :=
  match Files p !! path with
  | Some _ => {| p_path := p_path p; Files := delete path (Files p); Journal := Journal p; dirty := true |}
  | None => p
  end.

Definition SetJournalCursor (p : Positions) (c : bytes) : Positions :=
  if bool_decide (Journal p = c) then p
  else {| p_path := p_path p; Files := Files p; Journal := c; dirty := true |}.

(** [Save]: the positions and the file afterwards. *)
Definition Save (p : Positions) (file : positions_file) (write_ok : bool) : Positions * positions_file :=
  if negb (dirty p) || bool_decide (p_path p = []) then (p, file)
  else ({| p_path := p_path p; Files := Files p; Journal := Journal p; dirty := false |},
        if write_ok then PSaved (Some (Files p)) (Journal p) else file).

Definition do_ack (p : Positions) (a : ack_action) : Positions :=
  match a with AckFile path pos => SetFile p path pos | AckJournal c => SetJournalCursor p c end.

(** ** [tail.go] *)
Definition MaxLineBytes : Z := 65536.
Definition readChunk : Z := 262144.
Definition maxFiles : Z := 500.
Definition partialFlush : duration := 5 * second.
Definition discoverEvery : duration := 10 * second.

Record FileSpec := { sp_Source : bytes; Globs : list bytes; Exclude : list bytes; sp_Parser : bytes; Container : bytes }.

(** [tf_fpos] is the read position of the open file. *)
Record tailedFile := {
  tf_path : bytes; tf_spec : FileSpec; tf_parse : bytes -> Entry; tf_inode : Z; tf_fpos : nat; tf_offset : Z;
  tf_partial : bytes; tf_partAt : time; tf_gone : bool; tf_ctr : bytes; tf_image : bytes }.

Definition with_read (tf : tailedFile) (fpos : nat) (offset : Z) (partial : bytes) (partAt : time) : tailedFile := {|
  tf_path := tf_path tf; tf_spec := tf_spec tf; tf_parse := tf_parse tf; tf_inode := tf_inode tf; tf_fpos := fpos;
  tf_offset := offset; tf_partial := partial; tf_partAt := partAt; tf_gone := tf_gone tf; tf_ctr := tf_ctr tf; tf_image := tf_image tf |}.
Definition with_gone (tf : tailedFile) : tailedFile := {|
  tf_path := tf_path tf; tf_spec := tf_spec tf; tf_parse := tf_parse tf; tf_inode := tf_inode tf; tf_fpos := tf_fpos tf;
  tf_offset := tf_offset tf; tf_partial := tf_partial tf; tf_partAt := tf_partAt tf; tf_gone := true; tf_ctr := tf_ctr tf; tf_image := tf_image tf |}.

Definition truncated_mark : bytes := map byte_of_Z [226; 128; 166] ++ B "[truncated]".
Definition CR : ascii := "013"%char.

(** The message of a line: [None] when it is blank. *)
Definition line_msg (line : bytes) : option bytes :=
  let line := TrimRight line [CR] in
  match TrimSpace line with
  | [] => None
  | _ => Some (if MaxLineBytes <? len line then take (Z.to_nat MaxLineBytes) line ++ truncated_mark else line)
  end.

(** [emit] of one line ending at [offset]: the entry sent, if any. *)
Definition emit (tf : tailedFile) (line : bytes) (offset : Z) : option Entry :=
  (fun msg =>
     let e := tf_parse tf msg in
     let fields := match tf_ctr tf with
                   | [] => e_Fields e
                   | _ => let f := <[B "container" := tf_ctr tf]> (e_Fields e) in
                          match tf_image tf with [] => f | _ => <[B "image" := tf_image tf]> f end
                   end in
     {| e_Time := e_Time e; e_Msg := e_Msg e; e_Source := sp_Source (tf_spec tf); e_Path := tf_path tf; e_Unit := e_Unit e;
        e_Level := e_Level e; e_Fields := fields;
        e_ack := Some (AckFile (tf_path tf) {| Inode := tf_inode tf; Offset := offset |}) |}) <$> line_msg line.

(** The newline loop: the lines with their terminators' positions, and the
    rest; each turn takes at least one byte. *)
Fixpoint cut_lines (fuel : nat) (data : bytes) : list bytes * bytes :=
  match fuel with
  | O => ([], data)
  | Datatypes.S f =>
      match IndexByte data newline with
      | None => ([], data)
      | Some i => let '(ls, rest) := cut_lines f (drop (Datatypes.S i) data) in (take i data :: ls, rest)
      end
  end.

(** Emitting segments one after the other: each is a line and the number of
    bytes it consumes. *)
Fixpoint emit_all (tf : tailedFile) (offset : Z) (segs : list (bytes * Z)) : list Entry :=
  match segs with
  | [] => []
  | (line, consumed) :: t =>
      let offset' := offset + consumed in
      match emit tf line offset' with Some e => e :: emit_all tf offset' t | None => emit_all tf offset' t end
  end.

Definition consumed_all (segs : list (bytes * Z)) : Z := foldr Z.add 0 (map snd segs).

(** What the last switch does with the rest: it is flushed as a line, or kept. *)
Definition flush_rest (tf : tailedFile) (now : time) (rest : bytes) : bool :=
  (MaxLineBytes <=? len rest)
  || ((0 <? len rest) && (tf_gone tf || (negb (IsZero (tf_partAt tf)) && (partialFlush <? time_sub now (tf_partAt tf))))).

Definition next_partAt (tf : tailedFile) (now : time) (rest : bytes) : time :=
  if MaxLineBytes <=? len rest then tf_partAt tf
  else if flush_rest tf now rest then time_zero
  else if 0 <? len rest then (if IsZero (tf_partAt tf) then now else tf_partAt tf)
  else time_zero.

(** One round over the contents [content] of the open file, without a failing
    system call: the file afterwards, the entries sent in order, and whether
    it is closed (drained after it vanished).  When the context ends in the
    middle of the sends the source stops for good; the entries sent until then
    are a prefix of these. *)
Definition read_round (content : bytes) (now : time) (tf : tailedFile) : tailedFile * list Entry * bool :=
  let truncated := len content <? tf_offset tf + len (tf_partial tf) in
  let offset := if truncated then 0 else tf_offset tf in
  let partial := if truncated then [] else tf_partial tf in
  let fpos := if truncated then 0%nat else tf_fpos tf in
  let fresh := take (Z.to_nat readChunk) (drop fpos content) in
  let data := partial ++ fresh in
  let '(lines, rest) := cut_lines (length data) data in
  let segs := map (fun l => (l, len l + 1)) lines ++ (if flush_rest tf now rest then [(rest, len rest)] else []) in
  let partial' := if flush_rest tf now rest then [] else rest in
  (with_read tf (fpos + length fresh)%nat (offset + consumed_all segs) partial' (next_partAt tf now rest),
   emit_all tf offset segs,
   tf_gone tf && (len fresh <? readChunk) && (len partial' =? 0)).

(** ** Opening, scanning and discovering *)

(** What the file system shows: [stat] gives inode, size and whether the file
    is regular; [open_] fails with or without a permission error. *)
Inductive open_result := Opened (inode size : Z) | OpenDenied | OpenFailed.
Record filesystem := {
  fs_stat : bytes -> option (Z * Z * bool); fs_open : bytes -> open_result; fs_glob : bytes -> list bytes;
  fs_match : bytes -> bytes -> bool; fs_allowed : bytes -> bool }.

Record FileSource := {
  s_specs : list FileSpec; s_positions : Positions; s_interval : duration; s_discovery : duration; s_lastFound : time;
  s_files : gmap bytes tailedFile; s_started : time; s_denied : Z; s_outside : Z }.

Definition isDigits (s : bytes) : bool :=
  forallb (fun r : Z * bytes => (48 <=? r.1) && (r.1 <=? 57)) (runes s) && negb (bool_decide (s = [])).

(** [filepath.Base] and [filepath.Ext] on the paths globs give. *)
Definition slash : ascii := "/"%char.
Definition Base (p : bytes) : bytes :=
  match p with
  | [] => B "."
  | _ => let q := TrimRight p [slash] in
         match q with
         | [] => B "/"
         | _ => match LastIndexByte q slash with Some i => drop (Datatypes.S i) q | None => q end
         end
  end.
Definition Ext (base : bytes) : bytes :=
  match LastIndexByte base "."%char with Some i => drop i base | None => [] end.

Definition rotated_exts : list string := [".gz"; ".xz"; ".bz2"; ".zst"; ".zip"; ".old"; ".bak"].

Definition isRotatedName (p : bytes) : bool :=
  let base := Base p in
  if existsb (fun ext => HasSuffix base (B ext)) rotated_exts then true
  else
    let ext := Ext base in
    if (1 <? len ext) && isDigits (drop 1 ext) then true
    else match LastIndexByte base "-"%char with
         | Some i => (len base - Z.of_nat i - 1 =? 8) && isDigits (drop (Datatypes.S i) base)
         | None => false
         end.

Example rotated_names : map (fun s => isRotatedName (B s)) ["/var/log/x.log.1"; "/var/log/x.gz"; "/var/log/x.log-20261018"; "/var/log/x.log"; "/var/log/a-b.log"]
  = [true; true; true; false; false].
Proof. vm_compute. reflexivity. Qed.

Inductive verdict := verdictRead | verdictSkip | verdictOutside.

Definition wanted (fs : filesystem) (p : bytes) (spec : FileSpec) : verdict :=
  if isRotatedName p then verdictSkip
  else if existsb (fun ex => fs_match fs ex p) (Exclude spec) then verdictSkip
  else match fs_stat fs p with
       | Some (_, _, true) => if fs_allowed fs p then verdictRead else verdictOutside
       | _ => verdictSkip
       end.

(** Where to start reading a file that is opened. *)
Definition start_offset (s : FileSource) (now : time) (p : bytes) (inode size : Z) : Z :=
  match File_ (s_positions s) p with
  | Some pos =>
      if (Inode pos =? inode) && (Offset pos <=? size) then Offset pos else 0
  | None => if 2 * s_interval s <? time_sub now (s_started s) then 0 else size
  end.

(** [parser] is [parserForFile] and [container] the lookup of a container log;
    a negative recorded position makes the seek fail. *)
Definition open_file (fs : filesystem) (parser : bytes -> bytes -> bytes -> Entry) (container : bytes -> bytes -> option (bytes * bytes))
    (s : FileSource) (now : time) (p : bytes) (spec : FileSpec) : open_result * option (tailedFile * Positions) :=
  match fs_open fs p with
  | Opened inode size =>
      let off := start_offset s now p inode size in
      let '(ctr, image) := match container (sp_Parser spec) p with Some ci => ci | None => (Container spec, []) end in
      if off <? 0 then (OpenFailed, None)
      else
        (Opened inode size,
         Some ({| tf_path := p; tf_spec := spec; tf_parse := parser (sp_Parser spec) p; tf_inode := inode; tf_fpos := Z.to_nat off;
                  tf_offset := off; tf_partial := []; tf_partAt := time_zero; tf_gone := false; tf_ctr := ctr; tf_image := image |},
               SetFile (s_positions s) p {| Inode := inode; Offset := off |}))
  | r => (r, None)
  end.

Record disc_state := { d_s : FileSource; d_seen : gset bytes; d_denied : Z; d_outside : Z }.

Definition with_files (s : FileSource) (m : gmap bytes tailedFile) (p : Positions) : FileSource := {|
  s_specs := s_specs s; s_positions := p; s_interval := s_interval s; s_discovery := s_discovery s; s_lastFound := s_lastFound s;
  s_files := m; s_started := s_started s; s_denied := s_denied s; s_outside := s_outside s |}.

(** The body of the loop over the matches of a glob. *)
Definition discover_path (fs : filesystem) parser container (now : time) (spec : FileSpec) (st : disc_state) (p : bytes) : disc_state :=
  if bool_decide (p ∈ d_seen st) then st
  else match s_files (d_s st) !! p with
       | Some _ => {| d_s := d_s st; d_seen := {[p]} ∪ d_seen st; d_denied := d_denied st; d_outside := d_outside st |}
       | None =>
           match wanted fs p spec with
           | verdictSkip => st
           | verdictOutside => {| d_s := d_s st; d_seen := d_seen st; d_denied := d_denied st; d_outside := d_outside st + 1 |}
           | verdictRead =>
               let seen := {[p]} ∪ d_seen st in
               if maxFiles <=? Z.of_nat (size (s_files (d_s st)))
               then {| d_s := d_s st; d_seen := seen; d_denied := d_denied st; d_outside := d_outside st |}
               else match open_file fs parser container (d_s st) now p spec with
                    | (_, Some (tf, pos)) =>
                        {| d_s := with_files (d_s st) (<[p := tf]> (s_files (d_s st))) pos; d_seen := seen;
                           d_denied := d_denied st; d_outside := d_outside st |}
                    | (OpenDenied, None) => {| d_s := d_s st; d_seen := seen; d_denied := d_denied st + 1; d_outside := d_outside st |}
                    | (_, None) => {| d_s := d_s st; d_seen := seen; d_denied := d_denied st; d_outside := d_outside st |}
                    end
           end
       end.

Definition discover (fs : filesystem) parser container (now : time) (s : FileSource) : FileSource :=
  let st := foldl (fun st spec => foldl (fun st g => foldl (discover_path fs parser container now spec) st (fs_glob fs g)) st (Globs spec))
              {| d_s := s; d_seen := ∅; d_denied := 0; d_outside := 0 |} (s_specs s) in
  let s' := d_s st in
  {| s_specs := s_specs s'; s_positions := s_positions s'; s_interval := s_interval s'; s_discovery := s_discovery s';
     s_lastFound := s_lastFound s';
     s_files := map_imap (fun p tf => Some (if bool_decide (p ∈ d_seen st) then tf else with_gone tf)) (s_files s');
     s_started := s_started s'; s_denied := d_denied st; s_outside := d_outside st |}.

Definition scan (fs : filesystem) parser container (now : time) (s : FileSource) : FileSource :=
  let s := if s_discovery s <=? time_sub now (s_lastFound s)
           then discover fs parser container now
                  {| s_specs := s_specs s; s_positions := s_positions s; s_interval := s_interval s; s_discovery := s_discovery s;
                     s_lastFound := now; s_files := s_files s; s_started := s_started s; s_denied := s_denied s; s_outside := s_outside s |}
           else s in
  with_files s (map_imap (fun p tf => Some (match fs_stat fs p with
                                            | None => with_gone tf
                                            | Some (inode, _, _) => if inode =? tf_inode tf then tf else with_gone tf
                                            end)) (s_files s)) (s_positions s).

(** [read] of one followed file within the source. *)
Definition read_file (fs : filesystem) (content : bytes) (now : time) (s : FileSource) (p : bytes) : FileSource * list Entry :=
  match s_files s !! p with
  | None => (s, [])
  | Some tf =>
      let '(tf', es, closed) := read_round content now tf in
      if closed then
        let pos := match fs_stat fs p with None => Forget (s_positions s) p | Some _ => s_positions s end in
        ({| s_specs := s_specs s; s_positions := pos; s_interval := s_interval s; s_discovery := s_discovery s; s_lastFound := time_zero;
            s_files := delete p (s_files s); s_started := s_started s; s_denied := s_denied s; s_outside := s_outside s |}, es)
      else (with_files s (<[p := tf']> (s_files s)) (s_positions s), es)
  end.

(** ** Lemmas on a round *)

(** The bytes a segment stands for. *)
Definition seg_raw (s : bytes * Z) : bytes := if s.2 =? len s.1 + 1 then s.1 ++ [newline] else s.1.
Definition raws (segs : list (bytes * Z)) : bytes := concat (map seg_raw segs).

Lemma cut_lines_spec (fuel : nat) (data : bytes) :
  (length data <= fuel)%nat ->
  let '(ls, rest) := cut_lines fuel data in
  concat (map (fun l => l ++ [newline]) ls) ++ rest = data /\ newline ∉ rest /\ Forall (fun l => newline ∉ l) ls.
Proof.
  revert data. induction fuel as [|f IH]; intros data Hl; cbn [cut_lines].
  - destruct data; [|cbn in Hl; lia]. split_and!; [done|apply not_elem_of_nil|constructor].
  - destruct (IndexByte data newline) as [i|] eqn:Hi.
    + apply IndexByte_Some in Hi as (Hlt & Heq & Hn).
      specialize (IH (drop (Datatypes.S i) data) ltac:(rewrite length_drop; lia)).
      destruct (cut_lines f (drop (Datatypes.S i) data)) as [ls rest]. destruct IH as (H1 & H2 & H3).
      split_and!; [|done|by constructor]. cbn [map concat]. rewrite <- !app_assoc, H1. cbn [app]. done.
    + apply IndexByte_None in Hi. by split_and!.
Qed.

Lemma consumed_app (a b : list (bytes * Z)) : consumed_all (a ++ b) = consumed_all a + consumed_all b.
Proof. unfold consumed_all. rewrite map_app. induction (map snd a) as [|x l IH]; cbn; lia. Qed.

Lemma raws_app (a b : list (bytes * Z)) : raws (a ++ b) = raws a ++ raws b.
Proof. unfold raws. by rewrite map_app, concat_app. Qed.

(** Segments consume as many bytes as they stand for. *)
Definition seg_ok (s : bytes * Z) : Prop := s.2 = len s.1 + 1 \/ s.2 = len s.1.

Lemma consumed_raws (segs : list (bytes * Z)) : Forall seg_ok segs -> consumed_all segs = len (raws segs).
Proof.
  induction 1 as [|[l c] segs Hs _ IH]; [done|]. change (consumed_all ((l, c) :: segs)) with (c + consumed_all segs).
  change (raws ((l, c) :: segs)) with (seg_raw (l, c) ++ raws segs). unfold len in *. rewrite length_app, IH.
  unfold seg_raw. cbn [fst snd] in *. unfold seg_ok, len in Hs. cbn in Hs. unfold len.
  destruct (Z.eqb_spec c (Z.of_nat (length l) + 1)); rewrite ?length_app; cbn; lia.
Qed.

(** The template of a followed file: what a round does not change. *)
Definition same_file (a b : tailedFile) : Prop :=
  tf_path a = tf_path b /\ tf_spec a = tf_spec b /\ tf_parse a = tf_parse b /\ tf_inode a = tf_inode b
  /\ tf_ctr a = tf_ctr b /\ tf_image a = tf_image b /\ tf_gone a = tf_gone b.

Lemma emit_same (a b : tailedFile) (line : bytes) (off : Z) : same_file a b -> emit a line off = emit b line off.
Proof. intros (H1 & H2 & H3 & H4 & H5 & H6 & _). unfold emit. by rewrite H1, H2, H3, H4, H5, H6. Qed.

Lemma emit_all_same (a b : tailedFile) (off : Z) (segs : list (bytes * Z)) : same_file a b -> emit_all a off segs = emit_all b off segs.
Proof.
  intros Hs. revert off. induction segs as [|[l c] segs IH]; intros off; [done|]. cbn. rewrite (emit_same a b) by done.
  destruct (emit b l (off + c)); by rewrite IH.
Qed.

Lemma emit_all_app (tf : tailedFile) (off : Z) (a b : list (bytes * Z)) :
  emit_all tf off (a ++ b) = emit_all tf off a ++ emit_all tf (off + consumed_all a) b.
Proof.
  revert off. induction a as [|[l c] a IH]; intros off; cbn [app emit_all].
  - change (consumed_all []) with 0. by rewrite Z.add_0_r.
  - change (consumed_all ((l, c) :: a)) with (c + consumed_all a). rewrite IH, Z.add_assoc. by destruct (emit tf l (off + c)).
Qed.

(** The handle has read the file up to [tf_fpos]; the partial line is its
    unreported end. *)
Definition tail_ok (content : bytes) (tf : tailedFile) : Prop :=
  0 <= tf_offset tf /\ Z.of_nat (tf_fpos tf) = tf_offset tf + len (tf_partial tf) /\ (tf_fpos tf <= length content)%nat
  /\ tf_partial tf = take (tf_fpos tf - Z.to_nat (tf_offset tf)) (drop (Z.to_nat (tf_offset tf)) content).

(** The bytes of a file from one position to another. *)
Definition range (content : bytes) (lo hi : Z) : bytes := take (Z.to_nat hi - Z.to_nat lo) (drop (Z.to_nat lo) content).

Lemma take_short (k : Z) (l : bytes) : len (take (Z.to_nat k) l) < k -> length (take (Z.to_nat k) l) = length l.
Proof. unfold len. rewrite length_take. lia. Qed.

(** One round over a file that was not truncated reports every byte it read
    exactly once: the segments it emits and the new partial line are, in order,
    the old partial line and the bytes read. *)
Lemma read_round_exact (content : bytes) (now : time) (tf : tailedFile) :
  tail_ok content tf ->
  exists segs tf' closed, read_round content now tf = (tf', emit_all tf (tf_offset tf) segs, closed)
    /\ same_file tf' tf /\ Forall seg_ok segs
    /\ tf_offset tf' = tf_offset tf + consumed_all segs
    /\ raws segs ++ tf_partial tf' = tf_partial tf ++ take (Z.to_nat readChunk) (drop (tf_fpos tf) content)
    /\ raws segs = range content (tf_offset tf) (tf_offset tf')
    /\ tail_ok content tf' /\ (tf_fpos tf <= tf_fpos tf')%nat
    /\ len (tf_partial tf') < MaxLineBytes
    /\ (closed = true -> tf_gone tf = true /\ tf_partial tf' = [] /\ tf_offset tf' = len content).
Proof.
  intros (Hpos & Hf & Hle & Hpart). unfold read_round.
  assert (Htr : (len content <? tf_offset tf + len (tf_partial tf)) = false) by (unfold len in *; lia).
  rewrite Htr. set (fresh := take (Z.to_nat readChunk) (drop (tf_fpos tf) content)).
  pose proof (cut_lines_spec (length (tf_partial tf ++ fresh)) (tf_partial tf ++ fresh) (le_n _)) as Hcut.
  destruct (cut_lines _ _) as [ls rest]. destruct Hcut as (Hdata & Hrest & Hls).
  set (fl := flush_rest tf now rest). set (segs := map (fun l => (l, len l + 1)) ls ++ (if fl then [(rest, len rest)] else [])).
  assert (Hsegs : Forall seg_ok segs).
  { subst segs. apply Forall_app. split; [apply Forall_map, Forall_true; intros l; by left|]. destruct fl; [|done].
    constructor; [by right|constructor]. }
  assert (Hraw : raws segs ++ (if fl then [] else rest) = tf_partial tf ++ fresh).
  { rewrite <- Hdata. subst segs. rewrite raws_app, <- app_assoc. f_equal.
    - unfold raws. rewrite map_map. f_equal. apply map_ext. intros l. unfold seg_raw. cbn [fst snd]. by rewrite Z.eqb_refl.
    - destruct fl; [|done]. unfold raws, seg_raw. cbn. destruct (Z.eqb_spec (len rest) (len rest + 1)); [lia|]. by rewrite !app_nil_r. }
  exists segs. eexists _, _. split; [done|]. cbn [with_read tf_offset tf_partial tf_fpos].
  pose proof (consumed_raws segs Hsegs) as Hc. apply (f_equal length) in Hraw as Hlen. rewrite !length_app in Hlen.
  assert (Hfresh : (length fresh <= length content - tf_fpos tf)%nat) by (subst fresh; rewrite length_take, length_drop; lia).
  assert (Hall : raws segs ++ (if fl then [] else rest)
    = take (tf_fpos tf + length fresh - Z.to_nat (tf_offset tf)) (drop (Z.to_nat (tf_offset tf)) content)).
  { rewrite Hraw, Hpart. assert (Hfr : fresh = take (length fresh) (drop (tf_fpos tf) content)).
    { subst fresh. rewrite length_take, <- take_take, (take_ge _ (length (drop (tf_fpos tf) content))) by lia. done. }
    rewrite Hfr at 1. unfold len in *. replace (tf_fpos tf + length fresh - Z.to_nat (tf_offset tf))%nat
      with ((tf_fpos tf - Z.to_nat (tf_offset tf)) + length fresh)%nat by lia.
    replace (drop (tf_fpos tf) content) with (drop (tf_fpos tf - Z.to_nat (tf_offset tf)) (drop (Z.to_nat (tf_offset tf)) content))
      by (rewrite drop_drop; f_equal; lia).
    apply take_take_drop. }
  split; [done|]. split; [done|]. split; [done|]. split; [done|]. split; [|split; [|split; [lia|split]]].
  - apply (f_equal (take (length (raws segs)))) in Hall. rewrite take_app_length, take_take in Hall.
    rewrite Hall. unfold range, len in *. f_equal. lia.
  - unfold tail_ok. cbn [with_read tf_offset tf_partial tf_fpos]. unfold len in *. split_and!; [lia|lia|lia|].
    replace (Z.to_nat (tf_offset tf + consumed_all segs)) with (Z.to_nat (tf_offset tf) + length (raws segs))%nat by lia.
    rewrite <- drop_drop. apply (f_equal (drop (length (raws segs)))) in Hall. rewrite drop_app_length in Hall.
    rewrite Hall, skipn_firstn_comm. f_equal. lia.
  - destruct fl eqn:Hfl; [done|]. subst fl. unfold flush_rest in Hfl. apply orb_false_iff in Hfl as [Hfl _]. lia.
  - intros [[Hg Hn%Z.ltb_lt]%andb_true_iff Hp%Z.eqb_eq]%andb_true_iff. split; [done|]. unfold len in Hp, Hf, Hc, Hlen |- *.
    assert (Hnil : (if fl then [] else rest) = []) by (apply length_zero_iff_nil; lia). split; [done|].
    rewrite Hnil in Hlen. cbn in Hlen. enough (length fresh = (length content - tf_fpos tf)%nat) by lia.
    rewrite <- length_drop. by apply take_short.
Qed.

(** ** A followed file over restarts

    One path, whose file only grows.  The state holds the file, the running
    source's handle, the entries emitted and not yet acknowledged (in the
    channel or in the shipper's batch), the positions in memory and on disk,
    and the entries acknowledged so far.  A crash loses everything but the
    file and the state file. *)
Record system := {
  y_content : bytes; y_src : option tailedFile; y_queue : list Entry; y_pos : Positions; y_saved : positions_file;
  y_done : list Entry }.

Section Restarts.
Context (stateDir path : bytes) (inode : Z) (spec : FileSpec).
Context (parser : bytes -> bytes -> bytes -> Entry) (container : bytes -> bytes -> option (bytes * bytes)).
Context (fs : bytes -> filesystem) (mk : Positions -> FileSource).
Hypothesis HstateDir : stateDir <> [].
(** The file system opens the file with its inode and present size, and the
    source built at start carries the positions it was given. *)
Hypothesis Hfs : forall content, fs_open (fs content) path = Opened inode (len content).
Hypothesis Hmk : forall p, s_positions (mk p) = p.

Inductive sys_step : system -> system -> Prop :=
  | Y_append y bs : sys_step y {| y_content := y_content y ++ bs; y_src := y_src y; y_queue := y_queue y; y_pos := y_pos y;
                                  y_saved := y_saved y; y_done := y_done y |}
  | Y_read y tf now tf' es closed :
      y_src y = Some tf -> read_round (y_content y) now tf = (tf', es, closed) ->
      sys_step y {| y_content := y_content y; y_src := Some tf'; y_queue := y_queue y ++ es; y_pos := y_pos y;
                    y_saved := y_saved y; y_done := y_done y |}
  | Y_ack y e rest a :
      y_queue y = e :: rest -> e_ack e = Some a ->
      sys_step y {| y_content := y_content y; y_src := y_src y; y_queue := rest; y_pos := do_ack (y_pos y) a;
                    y_saved := y_saved y; y_done := y_done y ++ [e] |}
  | Y_save y ok :
      sys_step y {| y_content := y_content y; y_src := y_src y; y_queue := y_queue y; y_pos := (Save (y_pos y) (y_saved y) ok).1;
                    y_saved := (Save (y_pos y) (y_saved y) ok).2; y_done := y_done y |}
  | Y_crash y :
      sys_step y {| y_content := y_content y; y_src := None; y_queue := []; y_pos := LoadPositions stateDir (y_saved y);
                    y_saved := y_saved y; y_done := y_done y |}
  | Y_start y now tf pos r :
      y_src y = None -> open_file (fs (y_content y)) parser container (mk (y_pos y)) now path spec = (r, Some (tf, pos)) ->
      sys_step y {| y_content := y_content y; y_src := Some tf; y_queue := y_queue y; y_pos := pos;
                    y_saved := y_saved y; y_done := y_done y |}.

Inductive sys_reach (y0 : system) : system -> Prop :=
  | Y_refl : sys_reach y0 y0
  | Y_trans y y' : sys_reach y0 y -> sys_step y y' -> sys_reach y0 y'.

(** The handle every start of the source builds, up to its position. *)
Definition template : tailedFile :=
  let '(ctr, image) := match container (sp_Parser spec) path with Some ci => ci | None => (Container spec, []) end in
  {| tf_path := path; tf_spec := spec; tf_parse := parser (sp_Parser spec) path; tf_inode := inode; tf_fpos := 0%nat;
     tf_offset := 0; tf_partial := []; tf_partAt := time_zero; tf_gone := false; tf_ctr := ctr; tf_image := image |}.

(** The bytes from [o0] to [hi] are accounted for: they are, in order, the
    bytes of segments every entry of which was acknowledged (a blank line has
    no entry). *)
Definition covered (o0 : Z) (content : bytes) (done : list Entry) (hi : Z) (segs : list (bytes * Z)) : Prop :=
  Forall seg_ok segs /\ raws segs = range content o0 hi /\ hi = o0 + consumed_all segs /\ Forall (fun e => e ∈ done) (emit_all template o0 segs)
  /\ hi <= len content.

Definition pos_of (p : Positions) : option Position := Files p !! path.
Definition saved_of (f : positions_file) : option Position := match f with PSaved (Some m) _ => m !! path | _ => None end.

Record sys_inv (o0 : Z) (y : system) : Prop := {
  yi_o0 : 0 <= o0;
  yi_saved : exists hi segs, saved_of (y_saved y) = Some {| Inode := inode; Offset := hi |} /\ covered o0 (y_content y) (y_done y) hi segs;
  yi_path : p_path (y_pos y) <> [];
  yi_pos : exists hi segs, pos_of (y_pos y) = Some {| Inode := inode; Offset := hi |} /\ covered o0 (y_content y) (y_done y) hi segs
    /\ match y_src y with
       | None => y_queue y = []
       | Some tf => same_file tf template /\ tail_ok (y_content y) tf
           /\ exists rest, Forall seg_ok rest /\ y_queue y = emit_all template hi rest
              /\ raws rest = range (y_content y) hi (tf_offset tf) /\ tf_offset tf = hi + consumed_all rest
       end }.

Lemma range_app (content bs : bytes) (lo hi : Z) : hi <= len content -> range (content ++ bs) lo hi = range content lo hi.
Proof.
  intros H. unfold range, len in *. destruct (decide (lo <= hi)).
  - rewrite drop_app_le by lia. rewrite take_app_le; [done|]. rewrite length_drop. lia.
  - by replace (Z.to_nat hi - Z.to_nat lo)%nat with 0%nat by lia.
Qed.

Lemma range_split (content : bytes) (a b c : Z) : 0 <= a <= b -> b <= c -> c <= len content -> range content a c = range content a b ++ range content b c.
Proof.
  intros Ha Hb Hc. unfold range, len in *.
  replace (drop (Z.to_nat b) content) with (drop (Z.to_nat b - Z.to_nat a) (drop (Z.to_nat a) content)) by (rewrite drop_drop; f_equal; lia).
  replace (Z.to_nat c - Z.to_nat a)%nat with ((Z.to_nat b - Z.to_nat a) + (Z.to_nat c - Z.to_nat b))%nat by lia.
  symmetry. apply take_take_drop.
Qed.

Lemma covered_append (o0 : Z) (content bs : bytes) done hi segs : covered o0 content done hi segs -> covered o0 (content ++ bs) done hi segs.
Proof. intros (H1 & H2 & H3 & H4 & H5). unfold covered. rewrite range_app by done. split_and!; try done. unfold len in *. rewrite length_app. lia. Qed.

Lemma covered_more (o0 : Z) content done done' hi segs : (forall e, e ∈ done -> e ∈ done') -> covered o0 content done hi segs -> covered o0 content done' hi segs.
Proof.
  intros Hd (H1 & H2 & H3 & H4 & H5). split_and!; try done. by eapply Forall_impl; [exact H4|].
Qed.

(** The next entry of the queue is the first segment that is not blank. *)
Lemma emit_all_next (off : Z) (segs : list (bytes * Z)) (e : Entry) (es : list Entry) :
  emit_all template off segs = e :: es ->
  exists blank l c rest, segs = blank ++ (l, c) :: rest
    /\ emit template l (off + consumed_all (blank ++ [(l, c)])) = Some e
    /\ emit_all template off (blank ++ [(l, c)]) = [e]
    /\ es = emit_all template (off + consumed_all (blank ++ [(l, c)])) rest.
Proof.
  revert off. induction segs as [|[l c] segs IH]; intros off H; [done|]. cbn in H.
  destruct (emit template l (off + c)) as [e'|] eqn:E.
  - simplify_eq. exists [], l, c, segs. cbn [app emit_all]. change (consumed_all [(l, c)]) with (c + 0). rewrite Z.add_0_r, E. done.
  - apply IH in H as (blank & l' & c' & rest & -> & He & Hb & Hes). exists ((l, c) :: blank), l', c', rest.
    change (consumed_all (((l, c) :: blank) ++ [(l', c')])) with (c + consumed_all (blank ++ [(l', c')])). rewrite Z.add_assoc.
    split_and!; try done. cbn [app emit_all]. by rewrite E.
Qed.

Lemma emit_ack (l : bytes) (off : Z) (e : Entry) : emit template l off = Some e -> e_ack e = Some (AckFile path {| Inode := inode; Offset := off |}).
Proof.
  unfold emit, template. destruct (line_msg l); [|done]. cbn. destruct (match container _ _ with Some _ => _ | None => _ end) as [ctr image].
  intros; by simplify_eq.
Qed.

Lemma SetFile_lookup (p : Positions) (pos : Position) : is_Some (pos_of p) -> pos_of (SetFile p path pos) = Some pos.
Proof.
  intros [q Hq]. unfold pos_of, SetFile in *. rewrite Hq. cbn [default from_option id]. case_bool_decide; [congruence|]. apply lookup_insert_eq.
Qed.

Lemma consumed_nonneg (segs : list (bytes * Z)) : Forall seg_ok segs -> 0 <= consumed_all segs.
Proof. intros H. rewrite (consumed_raws _ H). unfold len. lia. Qed.

(** Acknowledging the first entry of the queue extends what is covered. *)
Lemma covered_ack (o0 hi c : Z) (content l : bytes) (done : list Entry) (segs blank rest : list (bytes * Z)) (e : Entry) (top : Z) :
  0 <= o0 -> covered o0 content done hi segs -> Forall seg_ok (blank ++ (l, c) :: rest) ->
  emit_all template hi (blank ++ [(l, c)]) = [e] ->
  raws (blank ++ (l, c) :: rest) = range content hi top -> top = hi + consumed_all (blank ++ (l, c) :: rest) -> top <= len content ->
  let mid := hi + consumed_all (blank ++ [(l, c)]) in
  covered o0 content (done ++ [e]) mid (segs ++ blank ++ [(l, c)])
  /\ Forall seg_ok rest /\ raws rest = range content mid top /\ top = mid + consumed_all rest.
Proof.
  intros H0 (Hs & Hr & Hhi & Hd & Hle) Hok He Hraw Htop Htl mid.
  replace (blank ++ (l, c) :: rest) with ((blank ++ [(l, c)]) ++ rest) in * by (by rewrite <- app_assoc).
  apply Forall_app in Hok as [Hb Hrest]. rewrite raws_app in Hraw. rewrite consumed_app in Htop.
  pose proof (consumed_nonneg _ Hs). pose proof (consumed_nonneg _ Hb) as Hbn. pose proof (consumed_nonneg _ Hrest).
  rewrite (range_split content hi mid top) in Hraw by (subst mid; lia).
  apply app_inj_1 in Hraw as [Hraw1 Hraw2].
  2:{ pose proof (consumed_raws _ Hb) as Hcb. unfold range. rewrite length_take, length_drop. unfold len in *. subst mid. lia. }
  split_and!; try done; [|subst mid; lia]. split_and!.
  - by apply Forall_app.
  - rewrite raws_app, Hr, Hraw1. symmetry. apply range_split; subst mid; lia.
  - rewrite consumed_app. subst mid. lia.
  - rewrite emit_all_app, <- Hhi, He. apply Forall_app. split.
    + eapply Forall_impl; [exact Hd|]. intros x Hx. apply elem_of_app. by left.
    + constructor; [|done]. apply elem_of_app. right. by constructor.
  - subst mid. lia.
Qed.

Lemma tail_ok_append (content bs : bytes) (tf : tailedFile) : tail_ok content tf -> tail_ok (content ++ bs) tf.
Proof.
  intros (H1 & H2 & H3 & H4). unfold tail_ok, len in *. rewrite length_app. split_and!; [done|done|lia|].
  rewrite drop_app_le by lia. rewrite take_app_le by (rewrite length_drop; lia). done.
Qed.

Lemma tail_ok_offset (content : bytes) (tf : tailedFile) : tail_ok content tf -> 0 <= tf_offset tf <= len content.
Proof. intros (H1 & H2 & H3 & _). unfold len in *. lia. Qed.

Lemma inv_append (o0 : Z) (y : system) (bs : bytes) : sys_inv o0 y ->
  sys_inv o0 {| y_content := y_content y ++ bs; y_src := y_src y; y_queue := y_queue y; y_pos := y_pos y; y_saved := y_saved y; y_done := y_done y |}.
Proof.
  intros [H0 (h & sg & Hs & Hc) Hp (hi & segs & Hpos & Hcov & Hsrc)]. constructor; cbn.
  - done.
  - exists h, sg. split; [done|]. by apply covered_append.
  - done.
  - exists hi, segs. split_and!; [done|by apply covered_append|]. destruct (y_src y) as [tf|]; [|done].
    destruct Hsrc as (Hsame & Hok & rest & Hr & Hq & Hraw & Ho). split_and!; [done|by apply tail_ok_append|].
    exists rest. split_and!; try done. rewrite range_app; [done|]. apply tail_ok_offset in Hok. lia.
Qed.

Lemma inv_read (o0 : Z) (y : system) (tf tf' : tailedFile) (now : time) (es : list Entry) (closed : bool) :
  sys_inv o0 y -> y_src y = Some tf -> read_round (y_content y) now tf = (tf', es, closed) ->
  sys_inv o0 {| y_content := y_content y; y_src := Some tf'; y_queue := y_queue y ++ es; y_pos := y_pos y; y_saved := y_saved y; y_done := y_done y |}.
Proof.
  intros [H0 Hsv Hp (hi & segs & Hpos & Hcov & Hsrc)] Hy Hrd. constructor; cbn; [done..|].
  exists hi, segs. split; [done|]. split; [done|]. rewrite Hy in Hsrc. destruct Hsrc as (Hsame & Hok & rest & Hr & Hq & Hraw & Ho).
  destruct (read_round_exact _ now _ Hok) as (new & tf1 & cl & E & Hsame1 & Hnew & Hoff & _ & Hbytes & Hok1 & _).
  rewrite E in Hrd. simplify_eq. split_and!; [|done|].
  { unfold same_file in *. destruct Hsame as (? & ? & ? & ? & ? & ? & ?), Hsame1 as (? & ? & ? & ? & ? & ? & ?). split_and!; congruence. }
  exists (rest ++ new). split_and!; [by apply Forall_app| |  |rewrite consumed_app; lia].
  - rewrite Hq, emit_all_app, <- Ho. f_equal. by apply emit_all_same.
  - pose proof (consumed_nonneg _ Hr). pose proof (consumed_nonneg _ Hnew). pose proof (tail_ok_offset _ _ Hok1).
    destruct Hcov as (Hcs & _ & Hchi & _). pose proof (consumed_nonneg _ Hcs).
    rewrite raws_app, Hraw, (range_split (y_content y) hi (tf_offset tf) (tf_offset tf')) by lia. f_equal.
    done.
Qed.

Lemma inv_ack (o0 : Z) (y : system) (e : Entry) (q : list Entry) (a : ack_action) :
  sys_inv o0 y -> y_queue y = e :: q -> e_ack e = Some a ->
  sys_inv o0 {| y_content := y_content y; y_src := y_src y; y_queue := q; y_pos := do_ack (y_pos y) a; y_saved := y_saved y; y_done := y_done y ++ [e] |}.
Proof.
  intros [H0 (h & sg & Hs & Hc) Hp (hi & segs & Hpos & Hcov & Hsrc)] Hq Ha.
  destruct (y_src y) as [tf|] eqn:Hy; [|congruence]. destruct Hsrc as (Hsame & Hok & rest & Hr & Hqe & Hraw & Ho).
  rewrite Hqe in Hq. apply emit_all_next in Hq as (blank & l & c & rest' & -> & He & Hone & ->).
  rewrite (emit_ack _ _ _ He) in Ha. simplify_eq.
  pose proof (tail_ok_offset _ _ Hok) as Hoff.
  destruct (covered_ack o0 hi c (y_content y) l (y_done y) segs blank rest' e (tf_offset tf) H0 Hcov Hr Hone Hraw Ho (proj2 Hoff)) as (Hcov' & Hr' & Hraw' & Ho').
  constructor; cbn [y_content y_src y_queue y_pos y_saved y_done do_ack].
  - done.
  - exists h, sg. split; [done|]. eapply covered_more; [|exact Hc]. intros x Hx. apply elem_of_app. by left.
  - unfold SetFile. case_bool_decide; done.
  - eexists _, _. split; [apply SetFile_lookup; by eexists|]. split; [exact Hcov'|]. split; [done|]. split; [done|]. by exists rest'.
Qed.

Lemma inv_save (o0 : Z) (y : system) (ok : bool) : sys_inv o0 y ->
  sys_inv o0 {| y_content := y_content y; y_src := y_src y; y_queue := y_queue y; y_pos := (Save (y_pos y) (y_saved y) ok).1;
                y_saved := (Save (y_pos y) (y_saved y) ok).2; y_done := y_done y |}.
Proof.
  intros [H0 Hsv Hp Hpos]. unfold Save. destruct (negb (dirty (y_pos y)) || _); [by constructor|]. constructor; cbn; try done.
  destruct ok; [|done]. destruct Hpos as (hi & segs & Hpos & Hcov & _). by exists hi, segs.
Qed.

Lemma load_pos (f : positions_file) : pos_of (LoadPositions stateDir f) = saved_of f /\ p_path (LoadPositions stateDir f) <> [].
Proof.
  unfold LoadPositions. destruct stateDir as [|c d]; [done|]. destruct f as [| |[m|] j]; split; done.
Qed.

Lemma inv_crash (o0 : Z) (y : system) : sys_inv o0 y ->
  sys_inv o0 {| y_content := y_content y; y_src := None; y_queue := []; y_pos := LoadPositions stateDir (y_saved y); y_saved := y_saved y; y_done := y_done y |}.
Proof.
  intros [H0 Hsv Hp _]. destruct (load_pos (y_saved y)) as [Hl Hl']. constructor; cbn; [done..|].
  destruct Hsv as (hi & segs & Hs & Hc). exists hi, segs. by rewrite Hl.
Qed.

Lemma inv_start (o0 : Z) (y : system) (now : time) (tf : tailedFile) (pos : Positions) (r : open_result) :
  sys_inv o0 y -> y_src y = None -> open_file (fs (y_content y)) parser container (mk (y_pos y)) now path spec = (r, Some (tf, pos)) ->
  sys_inv o0 {| y_content := y_content y; y_src := Some tf; y_queue := y_queue y; y_pos := pos; y_saved := y_saved y; y_done := y_done y |}.
Proof.
  intros [H0 Hsv Hp (hi & segs & Hpos & Hcov & Hsrc)] Hy Hopen. rewrite Hy in Hsrc.
  pose proof Hcov as (Hcs & _ & Hhi & _ & Hle). pose proof (consumed_nonneg _ Hcs). assert (Hn : 0 <= hi) by lia. clear Hhi.
  unfold open_file in Hopen. rewrite Hfs in Hopen. unfold start_offset, File_ in Hopen. rewrite Hmk in Hopen.
  unfold pos_of in Hpos. rewrite Hpos in Hopen. cbn [Inode Offset] in Hopen.
  rewrite Z.eqb_refl in Hopen. rewrite (proj2 (Z.leb_le hi (len (y_content y)))) in Hopen by done. cbn [andb] in Hopen.
  destruct (match container _ _ with Some _ => _ | None => _ end) as [ctr image] eqn:Hct.
  rewrite (proj2 (Z.ltb_ge hi 0)) in Hopen by lia. simplify_eq.
  constructor; cbn [y_content y_src y_queue y_pos y_saved y_done]; [done|done|unfold SetFile; by case_bool_decide|].
  exists hi, segs. split; [apply SetFile_lookup; by eexists|]. split; [done|].
  split; [unfold same_file, template; by rewrite Hct|]. split.
  - unfold tail_ok. cbn. unfold len in *. cbn. split_and!; [lia..|]. by rewrite Nat.sub_diag.
  - exists []. cbn. split_and!; [done|done| |unfold consumed_all; cbn; lia]. unfold range. by rewrite Nat.sub_diag.
Qed.

Lemma sys_step_inv (o0 : Z) (y y' : system) : sys_step y y' -> sys_inv o0 y -> sys_inv o0 y'.
Proof. destruct 1; intros Hi; eauto using inv_append, inv_read, inv_ack, inv_save, inv_crash, inv_start. Qed.

(** C1: a file that only grows is delivered at least once, over any number of
    crashes: whatever the order of appends, reads, acknowledgements, saves
    (failing ones too), crashes and restarts, the position in the state file
    only ever moves past bytes that are cut, without a gap, into lines each of
    which is blank or whose entry was acknowledged; so the restart that reads
    from it skips no unacknowledged line. *)
Theorem at_least_once (o0 : Z) (y0 y : system) :
  y_src y0 = None -> y_queue y0 = [] -> y_pos y0 = LoadPositions stateDir (y_saved y0) ->
  saved_of (y_saved y0) = Some {| Inode := inode; Offset := o0 |} -> 0 <= o0 <= len (y_content y0) ->
  sys_reach y0 y ->
  exists hi segs, saved_of (y_saved y) = Some {| Inode := inode; Offset := hi |} /\ o0 <= hi
    /\ covered o0 (y_content y) (y_done y) hi segs.
Proof.
  intros Hsrc Hq Hpos Hsv H0 Hr.
  assert (Hinv : sys_inv o0 y).
  { induction Hr as [|y y' _ IH Hstep]; [|by eapply sys_step_inv]. destruct (load_pos (y_saved y0)) as [Hl Hl'].
    assert (Hcov : covered o0 (y_content y0) (y_done y0) o0 []).
    { split_and!; [done| |unfold consumed_all; cbn; lia|done|lia]. unfold range. by rewrite Nat.sub_diag. }
    constructor; [lia|by exists o0, []|by rewrite Hpos|]. exists o0, []. rewrite Hpos, Hl, Hsrc. done. }
  destruct (yi_saved _ _ Hinv) as (hi & segs & Hs & Hc). exists hi, segs. split; [done|]. split; [|done].
  destruct Hc as (Hok & _ & -> & _). pose proof (consumed_nonneg _ Hok). lia.
Qed.
End Restarts.

(** ** Concrete runs *)
Definition demo_parse (_ _ msg : bytes) : Entry := {|
  e_Time := 0; e_Msg := msg; e_Source := []; e_Path := []; e_Unit := []; e_Level := []; e_Fields := ∅; e_ack := None |}.
Definition demo_spec : FileSpec := {| sp_Source := B "app"; Globs := [B "/var/log/app.log"]; Exclude := []; sp_Parser := B "text"; Container := [] |}.
Definition demo_path : bytes := B "/var/log/app.log".
Definition demo_fs (content : bytes) : filesystem := {|
  fs_stat := fun _ => Some (7, len content, true); fs_open := fun _ => Opened 7 (len content); fs_glob := fun g => [g];
  fs_match := fun _ _ => false; fs_allowed := fun _ => true |}.
Definition demo_src (p : Positions) : FileSource := {|
  s_specs := [demo_spec]; s_positions := p; s_interval := second; s_discovery := discoverEvery; s_lastFound := 0; s_files := ∅;
  s_started := 0; s_denied := 0; s_outside := 0 |}.
Definition demo_start : system := {|
  y_content := B "first" ++ [newline] ++ B "second" ++ [newline] ++ B "thi"; y_src := None; y_queue := [];
  y_pos := LoadPositions (B "/var/lib/yomins") (PSaved (Some {[demo_path := {| Inode := 7; Offset := 0 |}]}) []);
  y_saved := PSaved (Some {[demo_path := {| Inode := 7; Offset := 0 |}]}) []; y_done := [] |}.

Lemma reach_eq stateDir path spec parser container fs mk (y0 y y' y'' : system) :
  sys_reach stateDir path spec parser container fs mk y0 y -> sys_step stateDir path spec parser container fs mk y y' -> y' = y'' ->
  sys_reach stateDir path spec parser container fs mk y0 y''.
Proof. intros Hr Hs <-. by eapply Y_trans. Qed.

(** The source starts, reads two lines, one is acknowledged and saved, and the
    agent crashes with the other still in the queue. *)
Lemma at_least_once_witness :
  exists y, sys_reach (B "/var/lib/yomins") demo_path demo_spec demo_parse (fun _ _ => None) demo_fs demo_src demo_start y
    /\ saved_of demo_path (y_saved y) = Some {| Inode := 7; Offset := 6 |} /\ length (y_done y) = 1%nat /\ y_queue y = []
    /\ exists hi segs, saved_of demo_path (y_saved y) = Some {| Inode := 7; Offset := hi |} /\ 0 <= hi
       /\ covered demo_path 7 demo_spec demo_parse (fun _ _ => None) 0 (y_content y) (y_done y) hi segs.
Proof.
  assert (Hr : exists y, sys_reach (B "/var/lib/yomins") demo_path demo_spec demo_parse (fun _ _ => None) demo_fs demo_src demo_start y
    /\ saved_of demo_path (y_saved y) = Some {| Inode := 7; Offset := 6 |} /\ length (y_done y) = 1%nat /\ y_queue y = []).
  { eexists. split.
    - eapply reach_eq; [eapply reach_eq; [eapply reach_eq; [eapply reach_eq; [eapply reach_eq; [apply Y_refl|..]|..]|..]|..]|..].
      + eapply (Y_start _ _ _ _ _ _ _ demo_start (5 * second)); [reflexivity|vm_compute; reflexivity].
      + vm_compute; reflexivity.
      + eapply (Y_read _ _ _ _ _ _ _ _ _ (6 * second)); [reflexivity|vm_compute; reflexivity].
      + vm_compute; reflexivity.
      + eapply Y_ack; [reflexivity|reflexivity].
      + vm_compute; reflexivity.
      + eapply (Y_save _ _ _ _ _ _ _ _ true).
      + vm_compute; reflexivity.
      + eapply Y_crash.
      + vm_compute; reflexivity.
    - split_and!; [vm_compute; reflexivity..]. }
  destruct Hr as (y & Hr & H1 & H2 & H3). exists y. split_and!; try done.
  eapply (at_least_once (B "/var/lib/yomins") demo_path 7 demo_spec demo_parse (fun _ _ => None) demo_fs demo_src); [..|exact Hr];
    first [done|vm_compute; done].
Defined.

(** one round over a file that was not truncated.  The lines it sends and
    the unterminated end it keeps are, in order and each once, the end kept
    before and the bytes read now, at most 256 KiB of them; every entry's
    acknowledgement is the position just behind its line; the kept end is
    shorter than 64 KiB; and the handle is closed only when the path is gone
    and every byte of the file was sent. *)
Theorem read_round_complete (content : bytes) (now : time) (tf : tailedFile) :
  tail_ok content tf ->
  exists segs tf' closed, read_round content now tf = (tf', emit_all tf (tf_offset tf) segs, closed)
    /\ raws segs = range content (tf_offset tf) (tf_offset tf')
    /\ raws segs ++ tf_partial tf' = tf_partial tf ++ take (Z.to_nat readChunk) (drop (tf_fpos tf) content)
    /\ len (tf_partial tf') < MaxLineBytes
    /\ tail_ok content tf'
    /\ (closed = true -> tf_gone tf = true /\ tf_partial tf' = [] /\ tf_offset tf' = len content).
Proof.
  intros Hok. destruct (read_round_exact content now tf Hok) as (segs & tf' & closed & E & _ & _ & _ & Hb & Hr & Hok' & _ & Hlen & Hc).
  exists segs, tf', closed. by split_and!.
Qed.

(** A handle in the middle of a line, and a file that grew by one line and an
    unterminated one. *)
Lemma read_round_complete_witness :
  exists segs tf' closed,
    read_round (B "a" ++ [newline] ++ B "bc" ++ [newline] ++ B "d") (9 * second)
      (with_read (template demo_path 7 demo_spec demo_parse (fun _ _ => None)) 3 2 (B "b") (8 * second)) = (tf', segs, closed)
    /\ map e_Msg segs = [B "bc"] /\ tf_partial tf' = B "d" /\ len (tf_partial tf') < MaxLineBytes.
Proof.
  destruct (read_round_complete (B "a" ++ [newline] ++ B "bc" ++ [newline] ++ B "d") (9 * second)
    (with_read (template demo_path 7 demo_spec demo_parse (fun _ _ => None)) 3 2 (B "b") (8 * second)))
    as (segs & tf' & closed & E & _ & _ & Hl & _).
  { split_and!; vm_compute; [congruence|reflexivity|lia|reflexivity]. }
  eexists _, tf', closed. split; [exact E|].
  assert (Hm : (fun r : tailedFile * list Entry * bool => (map e_Msg r.1.2, tf_partial r.1.1))
    (read_round (B "a" ++ [newline] ++ B "bc" ++ [newline] ++ B "d") (9 * second)
      (with_read (template demo_path 7 demo_spec demo_parse (fun _ _ => None)) 3 2 (B "b") (8 * second))) = ([B "bc"], B "d"))
    by (vm_compute; reflexivity).
  rewrite E in Hm. assert (H1 := f_equal fst Hm). assert (H2 := f_equal snd Hm). cbn [fst snd] in H1, H2. split_and!; [exact H1|exact H2|exact Hl].
Defined.

(** The clock of an unterminated line keeps running when its newline arrives
    together with the start of another one: the new start, here [b], is sent
    as a line at once instead of waiting for its own newline. *)
Lemma fresh_partial_flushed :
  let tf := with_read (template demo_path 7 demo_spec demo_parse (fun _ _ => None)) 1 0 (B "a") (100 * second) in
  map e_Msg (read_round (B "a" ++ [newline] ++ B "b") (106 * second) tf).1.2 = [B "a"; B "b"].
Proof. vm_compute. reflexivity. Qed.
