(* ===== verification/TailRun.v ===== *)
(** * The run of the log file source

    [NewFileSource], [Run] and [sorted] of [src/internal/logs/tail.go]: every
    interval the source scans for rotated, vanished and new files and then
    reads each followed file once, in the order of the paths.  The theorem
    follows a file through a rotation. *)
From stdpp Require Import sorting.
From S2P Require Import Prelude GoStrings GoNum LogTail Loop.
Local Open Scope Z_scope.

Definition NewFileSource (specs : list FileSpec) (positions : Positions) : FileSource := {|
  s_specs := specs; s_positions := positions; s_interval := second; s_discovery := discoverEvery; s_lastFound := time_zero;
  s_files := ∅; s_started := time_zero; s_denied := 0; s_outside := 0 |}.

Definition path_le (p q : bytes) : Prop := String.le (S p) (S q).
#[export] Instance path_le_dec : RelDecision path_le.
Proof. intros p q. unfold path_le. apply _. Defined.

(** The followed files in the order of their paths. *)
Definition sorted (s : FileSource) : list bytes := merge_sort path_le (map fst (map_to_list (s_files s))).

(** Counts for the agent's own metrics. *)
Definition Watched (s : FileSource) : Z := Z.of_nat (size (s_files s)).
Definition Denied (s : FileSource) : Z := s_denied s.
Definition Outside (s : FileSource) : Z := s_outside s.

Section Run.
Context (parser : bytes -> bytes -> bytes -> Entry) (container : bytes -> bytes -> option (bytes * bytes)).

(** What a round meets: the directory tree, the contents of the open files by
    inode, and the clock. *)
Record tail_look := { tl_fs : filesystem; tl_contents : Z -> bytes; tl_now : time }.

Definition read_step (l : tail_look) (st : FileSource * list Entry) (p : bytes) : FileSource * list Entry :=
  match s_files st.1 !! p with
  | None => st
  | Some tf => let '(s', es) := read_file (tl_fs l) (tl_contents l (tf_inode tf)) (tl_now l) st.1 p in (s', st.2 ++ es)
  end.

Definition round (s : FileSource) (l : tail_look) : option (FileSource * list Entry) :=
  let s1 := scan (tl_fs l) parser container (tl_now l) s in
  Some (foldl (read_step l) (s1, []) (sorted s1)).

Definition started (s : FileSource) (now : time) : FileSource := {|
  s_specs := s_specs s; s_positions := s_positions s; s_interval := s_interval s; s_discovery := s_discovery s;
  s_lastFound := s_lastFound s; s_files := s_files s; s_started := now; s_denied := s_denied s; s_outside := s_outside s |}.

(** When the context ends inside a round, a prefix of its entries was sent;
    the handles are closed. *)
Definition Run (s : FileSource) (now : time) (sc : schedule tail_look) : option (FileSource * list Entry) :=
  loop round (fun _ s' => s') (started s now) sc.
End Run.

(** ** Lemmas *)

Lemma sorted_one (s : FileSource) (path : bytes) (tf : tailedFile) : s_files s = {[path := tf]} -> sorted s = [path].
Proof. intros H. unfold sorted. rewrite H, map_to_list_singleton. reflexivity. Qed.

Lemma imap_one (f : bytes -> tailedFile -> tailedFile) (path : bytes) (tf : tailedFile) :
  map_imap (fun p t => Some (f p t)) ({[path := tf]} : gmap bytes tailedFile) = {[path := f path tf]}.
Proof.
  apply map_eq. intros p. rewrite map_lookup_imap. destruct (decide (path = p)) as [<-|Hne].
  - by rewrite !lookup_singleton_eq.
  - by rewrite !lookup_singleton_ne by done.
Qed.

(** A handle whose path is gone is closed by the round that reaches its end. *)
Lemma gone_closes (content : bytes) (now : time) (tf : tailedFile) :
  tail_ok content tf -> tf_gone tf = true -> len content - Z.of_nat (tf_fpos tf) < readChunk ->
  (read_round content now tf).2 = true.
Proof.
  intros (Hpos & Hf & Hle & _) Hg Hn. unfold read_round.
  assert (Htr : (len content <? tf_offset tf + len (tf_partial tf)) = false) by (unfold len in *; lia). rewrite Htr.
  destruct (cut_lines _ _) as [ls rest]. cbn [snd]. unfold flush_rest. rewrite Hg. cbn [orb andb].
  apply andb_true_iff. split.
  - apply Z.ltb_lt. unfold len. rewrite length_take, length_drop. unfold len in Hn. lia.
  - rewrite andb_true_r. destruct (Z.ltb_spec 0 (len rest)) as [H|H]; [by rewrite orb_true_r|]. rewrite orb_false_r.
    assert (Hz : len rest = 0) by (unfold len in *; lia). rewrite Hz. by rewrite (proj2 (Z.leb_gt MaxLineBytes 0)), Hz.
Qed.

Lemma emit_all_gone (tf : tailedFile) (off : Z) (segs : list (bytes * Z)) : emit_all (with_gone tf) off segs = emit_all tf off segs.
Proof.
  revert off. induction segs as [|[l c] segs IH]; intros off; [done|]. cbn [emit_all].
  change (emit (with_gone tf)) with (emit tf). rewrite IH. done.
Qed.

(** *** Lines

    A text as its terminated lines and what follows the last terminator, and
    the segments that are sent for them: a line with its terminator each, and
    the rest, if any, without one. *)
Definition text_lines (text : bytes) (lines : list bytes) (rest : bytes) : Prop :=
  text = concat (map (fun l => l ++ [newline]) lines) ++ rest /\ Forall (fun l => newline ∉ l) lines /\ newline ∉ rest.
Definition line_segs (lines : list bytes) (rest : bytes) : list (bytes * Z) :=
  map (fun l => (l, len l + 1)) lines ++ match rest with [] => [] | _ => [(rest, len rest)] end.

(** A round sends the lines of the text it has, and keeps or flushes the rest. *)
Lemma read_round_lines (content : bytes) (now : time) (tf : tailedFile) :
  tail_ok content tf ->
  exists lines rest, text_lines (tf_partial tf ++ take (Z.to_nat readChunk) (drop (tf_fpos tf) content)) lines rest
    /\ (read_round content now tf).1.2 = emit_all tf (tf_offset tf) (line_segs lines (if flush_rest tf now rest then rest else []))
    /\ tf_partial (read_round content now tf).1.1 = (if flush_rest tf now rest then [] else rest).
Proof.
  intros (Hpos & Hf & Hle & _). unfold read_round.
  assert (Htr : (len content <? tf_offset tf + len (tf_partial tf)) = false) by (unfold len in *; lia). rewrite Htr.
  set (data := tf_partial tf ++ _). pose proof (cut_lines_spec (length data) data (le_n _)) as Hcut.
  destruct (cut_lines (length data) data) as [ls rest]. destruct Hcut as (Hdata & Hrest & Hls). exists ls, rest.
  split; [by split_and!|]. cbn [fst snd]. split; [|done]. f_equal. unfold line_segs. f_equal.
  destruct (flush_rest tf now rest) eqn:Hfl; [|done]. destruct rest; [|done]. unfold flush_rest, len in Hfl. cbn in Hfl. done.
Qed.

(** The part of the file from the position on. *)
Lemma unread_text (content : bytes) (tf : tailedFile) :
  tail_ok content tf -> tf_partial tf ++ drop (tf_fpos tf) content = drop (Z.to_nat (tf_offset tf)) content.
Proof.
  intros (Hpos & Hf & Hle & Hpart). rewrite Hpart at 1. unfold len in Hf.
  rewrite <-(take_drop (tf_fpos tf - Z.to_nat (tf_offset tf)) (drop (Z.to_nat (tf_offset tf)) content)) at 2.
  f_equal. rewrite drop_drop. f_equal. lia.
Qed.

(** A rotated file of which a round could not read all: the line at the end of
    the chunk is sent as if it were complete, though the rest of it is still
    in the file. *)
Lemma rotated_line_split (content : bytes) (now : time) (tf : tailedFile) :
  tail_ok content tf -> tf_gone tf = true -> tf_partial (read_round content now tf).1.1 = [].
Proof.
  intros Hok Hg. destruct (read_round_lines content now tf Hok) as (lines & rest & _ & _ & ->).
  unfold flush_rest. rewrite Hg. cbn [orb]. rewrite andb_true_r. destruct rest as [|c rest]; [by destruct (_ || _)|].
  rewrite (proj2 (Z.ltb_lt 0 (len (c :: rest)))) by (unfold len; cbn [length]; lia). by rewrite orb_true_r.
Qed.

Section Rotation.
Context (parser : bytes -> bytes -> bytes -> Entry) (container : bytes -> bytes -> option (bytes * bytes)).
Context (path g : bytes) (spec : FileSpec).
(** One specification whose glob finds the path. *)
Hypothesis Hglobs : Globs spec = [g].

Definition follows (s : FileSource) (tf : tailedFile) : Prop := s_specs s = [spec] /\ s_files s = {[path := tf]}.

(** A scan that finds another file at the path. *)
Lemma scan_rotated (fs : filesystem) (now : time) (s : FileSource) (tf : tailedFile) (inode sz : Z) (reg : bool) :
  fs_glob fs g = [path] -> fs_stat fs path = Some (inode, sz, reg) -> inode <> tf_inode tf -> follows s tf ->
  let s1 := scan fs parser container now s in
  s_files s1 = {[path := with_gone tf]} /\ s_specs s1 = [spec] /\ s_positions s1 = s_positions s
  /\ s_interval s1 = s_interval s /\ s_discovery s1 = s_discovery s /\ s_started s1 = s_started s.
Proof.
  intros Hg Hstat Hne [Hsp Hfiles]. cbn zeta. unfold scan.
  assert (Hgone : forall m : gmap bytes tailedFile, m = {[path := tf]} -> map_imap (fun p tf => Some (match fs_stat fs p with
      | None => with_gone tf | Some (inode, _, _) => if inode =? tf_inode tf then tf else with_gone tf end)) m = {[path := with_gone tf]}).
  { intros m ->. rewrite imap_one, Hstat. by rewrite (proj2 (Z.eqb_neq inode (tf_inode tf))). }
  destruct (s_discovery s <=? time_sub now (s_lastFound s)); [|cbn; split_and!; auto].
  unfold discover. cbn [s_specs]. rewrite Hsp. cbn [foldl]. rewrite Hglobs. cbn [foldl]. rewrite Hg. cbn [foldl].
  unfold discover_path. cbn [d_seen d_s s_files]. rewrite bool_decide_eq_false_2 by set_solver. rewrite Hfiles, lookup_singleton_eq.
  cbn [d_s d_seen with_files s_files s_specs s_positions s_interval s_discovery s_started]. split_and!; try done.
  apply Hgone. rewrite imap_one, bool_decide_eq_true_2 by set_solver. done.
Qed.

(** The handle of a file that is opened from its start. *)
Definition from_start (inode : Z) : tailedFile := template path inode spec parser container.

Lemma scan_opens (fs : filesystem) (now : time) (s : FileSource) (inode size : Z) (pos : Position) :
  fs_glob fs g = [path] -> fs_stat fs path = Some (inode, size, true) -> fs_open fs path = Opened inode size ->
  wanted fs path spec = verdictRead -> s_specs s = [spec] -> s_files s = ∅ ->
  s_discovery s <= time_sub now (s_lastFound s) -> Files (s_positions s) !! path = Some pos -> Inode pos <> inode ->
  s_files (scan fs parser container now s) = {[path := from_start inode]}.
Proof.
  intros Hg Hstat Hopen Hw Hsp Hfiles Hdue Hp Hne. unfold scan. rewrite (proj2 (Z.leb_le _ _) Hdue).
  unfold discover. cbn [s_specs]. rewrite Hsp. cbn [foldl]. rewrite Hglobs. cbn [foldl]. rewrite Hg. cbn [foldl].
  unfold discover_path. cbn [d_seen d_s s_files]. rewrite bool_decide_eq_false_2 by set_solver. rewrite Hfiles, lookup_empty, Hw.
  change (Z.of_nat (base.size ∅)) with 0. cbn [Z.leb Z.compare maxFiles]. unfold open_file. rewrite Hopen.
  unfold start_offset, File_. cbn [s_positions]. rewrite Hp, (proj2 (Z.eqb_neq _ _) Hne). cbn [andb Z.ltb Z.compare].
  unfold from_start, template. destruct (match container (sp_Parser spec) path with Some ci => ci | None => (Container spec, []) end) as [ctr image].
  cbn [d_s d_seen with_files s_files s_specs s_positions s_interval s_discovery s_started insert_empty].
  rewrite insert_empty, !imap_one, Hstat, bool_decide_eq_true_2 by set_solver. cbn [tf_inode]. by rewrite Z.eqb_refl.
Qed.

Lemma read_one (s : FileSource) (tf : tailedFile) (l : tail_look) :
  s_files s = {[path := tf]} ->
  foldl (read_step l) (s, []) (sorted s) = read_file (tl_fs l) (tl_contents l (tf_inode tf)) (tl_now l) s path.
Proof.
  intros H. rewrite (sorted_one s path tf H). cbn [foldl]. unfold read_step. cbn [fst snd]. rewrite H, lookup_singleton_eq.
  by destruct (read_file _ _ _ _ _) as [s' es].
Qed.

Lemma from_start_ok (content : bytes) (inode : Z) : tail_ok content (from_start inode) /\ tf_offset (from_start inode) = 0
  /\ tf_partial (from_start inode) = [] /\ tf_fpos (from_start inode) = 0%nat /\ tf_gone (from_start inode) = false
  /\ tf_partAt (from_start inode) = time_zero.
Proof.
  unfold from_start, template. destruct (match container _ _ with Some ci => ci | None => _ end) as [ctr image].
  cbn [tf_offset tf_partial tf_fpos tf_gone tf_partAt]. split_and!; [|done..]. unfold tail_ok. cbn. split_and!; [lia|done|lia|done].
Qed.

(** The round after the rotation sends the rest of the old file. *)
Lemma round_drains (s : FileSource) (tf : tailedFile) (l : tail_look) (inode sz : Z) (reg : bool) :
  fs_glob (tl_fs l) g = [path] -> fs_stat (tl_fs l) path = Some (inode, sz, reg) -> inode <> tf_inode tf -> follows s tf ->
  let content := tl_contents l (tf_inode tf) in
  tail_ok content tf -> len content - Z.of_nat (tf_fpos tf) < readChunk ->
  exists lines rest s', round parser container s l = Some (s', emit_all tf (tf_offset tf) (line_segs lines rest))
    /\ text_lines (drop (Z.to_nat (tf_offset tf)) content) lines rest
    /\ s_files s' = ∅ /\ s_specs s' = [spec] /\ s_positions s' = s_positions s /\ s_lastFound s' = time_zero
    /\ s_discovery s' = s_discovery s.
Proof.
  intros Hg Hstat Hne Hf content Hok Hrest.
  destruct (scan_rotated (tl_fs l) (tl_now l) s tf inode sz reg Hg Hstat Hne Hf) as (H1 & H2 & H3 & H4 & H5 & H6).
  unfold round. rewrite (read_one _ (with_gone tf)) by done. unfold read_file. rewrite H1, lookup_singleton_eq.
  change (tf_inode (with_gone tf)) with (tf_inode tf). fold content.
  assert (Hok' : tail_ok content (with_gone tf)) by exact Hok.
  pose proof (gone_closes content (tl_now l) (with_gone tf) Hok' eq_refl Hrest) as Hclosed.
  destruct (read_round_lines content (tl_now l) (with_gone tf) Hok') as (lines & rest & Htext & Hes & _).
  assert (Hfl : (if flush_rest (with_gone tf) (tl_now l) rest then rest else []) = rest).
  { destruct rest as [|c rest]; [by destruct (flush_rest _ _ _)|]. unfold flush_rest. cbn [tf_gone with_gone orb]. rewrite andb_true_r.
    rewrite (proj2 (Z.ltb_lt 0 (len (c :: rest)))) by (unfold len; cbn [length]; lia). by rewrite orb_true_r. }
  rewrite Hfl, emit_all_gone in Hes. destruct (read_round content (tl_now l) (with_gone tf)) as [[tf' es] closed]. cbn [fst snd] in *. subst closed es.
  rewrite Hstat. exists lines, rest. eexists. split; [reflexivity|]. cbn [s_files s_specs s_positions s_lastFound s_discovery]. split_and!; try done.
  - cbn [tf_partial tf_fpos with_gone] in Htext. rewrite take_ge in Htext; [by rewrite <-unread_text|].
    rewrite length_drop. unfold len in Hrest. clear -Hrest. lia.
  - by rewrite delete_singleton_eq.
Qed.

(** The next one opens the new file and reads it from its start. *)
Lemma round_opens (s : FileSource) (l : tail_look) (inode : Z) (pos : Position) :
  let content := tl_contents l inode in
  fs_glob (tl_fs l) g = [path] -> fs_stat (tl_fs l) path = Some (inode, len content, true) ->
  fs_open (tl_fs l) path = Opened inode (len content) -> wanted (tl_fs l) path spec = verdictRead ->
  s_specs s = [spec] -> s_files s = ∅ -> s_discovery s <= time_sub (tl_now l) (s_lastFound s) ->
  Files (s_positions s) !! path = Some pos -> Inode pos <> inode ->
  exists lines rest s' tf',
    round parser container s l = Some (s', emit_all (from_start inode) 0 (line_segs lines (if MaxLineBytes <=? len rest then rest else [])))
    /\ s_files s' = {[path := tf']} /\ tail_ok content tf'
    /\ text_lines (take (Z.to_nat readChunk) content) lines rest /\ tf_partial tf' = (if MaxLineBytes <=? len rest then [] else rest).
Proof.
  intros content Hg Hstat Hopen Hw Hsp Hfiles Hdue Hp Hne.
  pose proof (scan_opens (tl_fs l) (tl_now l) s inode (len content) pos Hg Hstat Hopen Hw Hsp Hfiles Hdue Hp Hne) as Hscan.
  unfold round. rewrite (read_one _ (from_start inode)) by done. unfold read_file. rewrite Hscan, lookup_singleton_eq.
  assert (tf_inode (from_start inode) = inode) as ->.
  { unfold from_start, template. by destruct (match container _ _ with Some ci => ci | None => _ end). }
  destruct (from_start_ok content inode) as (Hok & H0 & Hp0 & Hf0 & Hg0 & Ht0).
  destruct (read_round_lines content (tl_now l) (from_start inode) Hok) as (lines & rest & Htext & Hes & Hpart).
  assert (Hfl : flush_rest (from_start inode) (tl_now l) rest = (MaxLineBytes <=? len rest)).
  { unfold flush_rest. rewrite Hg0, Ht0. cbn [orb andb negb IsZero]. by rewrite andb_false_r, orb_false_r. }
  rewrite Hfl, H0 in Hes. rewrite Hfl in Hpart. rewrite Hp0, Hf0, drop_0, app_nil_l in Htext.
  destruct (read_round_exact content (tl_now l) (from_start inode) Hok) as (segs & tf' & closed & Hr & _ & _ & _ & _ & _ & Hok' & _ & _ & Hcl).
  fold content. rewrite Hr in Hes, Hpart |- *. cbn [fst snd] in Hes, Hpart. destruct closed; [destruct (Hcl eq_refl) as [Hg1 _]; congruence|].
  exists lines, rest. eexists _, tf'. split; [by rewrite Hes|]. cbn [with_files s_files]. split; [by rewrite insert_singleton_eq|]. split; [exact Hok'|]. split; [exact Htext|exact Hpart].
Qed.
End Rotation.

(** ** Property *)

(** C17: a rotation loses no line and splits none.  The source follows one
    file, found by its one glob; its position is recorded with the file's
    inode.  The file is renamed and another created at its path, and less than
    256 KiB of the old one is unread (its content is that of the moment its
    round reads it to the end).  Then the next two rounds send, in order,
    exactly the lines of the old file from the position of the last line sent
    on, with an unterminated last line as one more, and exactly the terminated
    lines of the first 256 KiB of the new file; what follows its last
    terminator there is kept for the next round, or sent when it is as long as
    the longest line (64 KiB).  The new file is followed from then on. *)
Theorem rotation_complete (parser : bytes -> bytes -> bytes -> Entry) (container : bytes -> bytes -> option (bytes * bytes))
    (path g : bytes) (spec : FileSpec) (s : FileSource) (tf : tailedFile) (pos : Position) (inode : Z) (l1 l2 : tail_look)
    (sz : Z) (reg : bool) :
  let old := tl_contents l1 (tf_inode tf) in
  let new_ := tl_contents l2 inode in
  Globs spec = [g] -> follows path spec s tf -> tail_ok old tf -> len old - Z.of_nat (tf_fpos tf) < readChunk ->
  Files (s_positions s) !! path = Some pos -> Inode pos = tf_inode tf -> inode <> tf_inode tf ->
  fs_glob (tl_fs l1) g = [path] -> fs_stat (tl_fs l1) path = Some (inode, sz, reg) ->
  fs_glob (tl_fs l2) g = [path] -> fs_stat (tl_fs l2) path = Some (inode, len new_, true) ->
  fs_open (tl_fs l2) path = Opened inode (len new_) -> wanted (tl_fs l2) path spec = verdictRead ->
  s_discovery s <= time_sub (tl_now l2) time_zero ->
  exists lines1 rest1 lines2 rest2 s' tf',
    run_ticks (round parser container) s [l1; l2]
      = Some (s', emit_all tf (tf_offset tf) (line_segs lines1 rest1)
                  ++ emit_all (from_start parser container path spec inode) 0
                       (line_segs lines2 (if MaxLineBytes <=? len rest2 then rest2 else [])))
    /\ text_lines (drop (Z.to_nat (tf_offset tf)) old) lines1 rest1
    /\ text_lines (take (Z.to_nat readChunk) new_) lines2 rest2
    /\ s_files s' = {[path := tf']} /\ tail_ok new_ tf' /\ tf_partial tf' = (if MaxLineBytes <=? len rest2 then [] else rest2).
Proof.
  intros old new_ Hgl Hf Hok Hrest Hp Hpi Hne Hg1 Hs1 Hg2 Hs2 Ho2 Hw2 Hdue.
  destruct (round_drains parser container path g spec Hgl s tf l1 inode sz reg Hg1 Hs1 Hne Hf Hok Hrest)
    as (lines1 & rest1 & s1 & Hr1 & Hraw1 & Hf1 & Hsp1 & Hpos1 & Hlast1 & Hdisc1).
  destruct (round_opens parser container path g spec Hgl s1 l2 inode pos Hg2 Hs2 Ho2 Hw2 Hsp1 Hf1)
    as (lines2 & rest2 & s2 & tf' & Hr2 & Hf2 & Hok2 & Hraw2 & Hpart2).
  { by rewrite Hlast1, Hdisc1. }
  { by rewrite Hpos1. }
  { congruence. }
  exists lines1, rest1, lines2, rest2, s2, tf'. cbn [run_ticks]. rewrite Hr1. cbn [mbind option_bind]. rewrite Hr2. cbn [mbind option_bind].
  rewrite app_nil_r. split; [reflexivity|]. split; [exact Hraw1|]. split; [exact Hraw2|]. split; [exact Hf2|]. split; [exact Hok2|exact Hpart2].
Qed.

(** *** Witness *)
Definition demo_old : bytes := B "first" ++ [newline] ++ B "second" ++ [newline] ++ B "end".
Definition demo_new : bytes := B "fresh" ++ [newline].
Definition demo_contents (ino : Z) : bytes := if ino =? 7 then demo_old else demo_new.
Definition demo_tree : filesystem := {|
  fs_stat := fun _ => Some (9, len demo_new, true); fs_open := fun _ => Opened 9 (len demo_new); fs_glob := fun g => [g];
  fs_match := fun _ _ => false; fs_allowed := fun _ => true |}.
Definition demo_tail : tailedFile := with_read (template demo_path 7 demo_spec demo_parse (fun _ _ => None)) 6 6 [] time_zero.
Definition demo_source : FileSource := {|
  s_specs := [demo_spec]; s_positions := LoadPositions (B "/var/lib/yomins") (PSaved (Some {[demo_path := {| Inode := 7; Offset := 6 |}]}) []);
  s_interval := second; s_discovery := discoverEvery; s_lastFound := 50 * second; s_files := {[demo_path := demo_tail]};
  s_started := 0; s_denied := 0; s_outside := 0 |}.
Definition demo_round (now : time) : tail_look := {| tl_fs := demo_tree; tl_contents := demo_contents; tl_now := now |}.

Example demo_rotation :
  map e_Msg (default [] (snd <$> run_ticks (round demo_parse (fun _ _ => None)) demo_source [demo_round (60 * second); demo_round (61 * second)]))
  = [B "second"; B "end"; B "fresh"].
Proof. vm_compute. reflexivity. Qed.

Lemma rotation_complete_witness :
  exists lines1 rest1 lines2 rest2 s',
    run_ticks (round demo_parse (fun _ _ => None)) demo_source [demo_round (60 * second); demo_round (61 * second)]
      = Some (s', emit_all demo_tail 6 (line_segs lines1 rest1)
                  ++ emit_all (from_start demo_parse (fun _ _ => None) demo_path demo_spec 9) 0
                       (line_segs lines2 (if MaxLineBytes <=? len rest2 then rest2 else [])))
    /\ text_lines (B "second" ++ [newline] ++ B "end") lines1 rest1.
Proof.
  destruct (rotation_complete demo_parse (fun _ _ => None) demo_path demo_path demo_spec demo_source demo_tail {| Inode := 7; Offset := 6 |} 9
    (demo_round (60 * second)) (demo_round (61 * second)) (len demo_new) true) as (lines1 & rest1 & lines2 & rest2 & s' & tf' & H1 & H2 & _).
  - reflexivity.
  - split; reflexivity.
  - split; [vm_compute; discriminate|]. split; [reflexivity|]. split; [vm_compute; lia|reflexivity].
  - reflexivity.
  - reflexivity.
  - reflexivity.
  - discriminate.
  - reflexivity.
  - reflexivity.
  - reflexivity.
  - reflexivity.
  - reflexivity.
  - reflexivity.
  - vm_compute. discriminate.
  - exists lines1, rest1, lines2, rest2, s'. split; [exact H1|exact H2].
Defined.
