(* ===== verification/LogAllow.v ===== *)
(** * The allow list of log paths

    [src/internal/logs/allow.go]: the globs are turned into regular
    expressions, which are cached, and a path is cleaned before it is matched.
    [filepath.Clean] and [regexp.QuoteMeta] are modelled as the standard
    library documents them. *)
From S2P Require Import Prelude GoStrings GoRegexp.
Local Open Scope Z_scope.

Definition DefaultAllow : list bytes := map B [
  "/var/log/**"; "/home/*/logs/**"; "/home/*/log/**"; "/var/www/**/logs/**"; "/var/www/**/log/**"; "/var/www/**/*.log";
  "/srv/**/*.log"; "/opt/**/*.log"; "/var/lib/docker/containers/*/*-json.log"; "/var/lib/mysql/*.err"; "/var/lib/mysql/*slow*.log" ].

(** ** [filepath.Clean] *)
Definition sep : ascii := "/"%char.
Definition dotdot : bytes := B "..".

(** One element of the path against the elements kept so far, last first. *)
Definition clean_step (rooted : bool) (stack : list bytes) (el : bytes) : list bytes :=
  if bool_decide (el = []) || bool_decide (el = B ".") then stack
  else if bool_decide (el = dotdot) then
    match stack with
    | top :: rest => if bool_decide (top = dotdot) then el :: stack else rest
    | [] => if rooted then [] else [el]
    end
  else el :: stack.

Definition is_rooted (p : bytes) : bool := match p with c :: _ => bool_decide (c = sep) | [] => false end.
Definition clean_elements (p : bytes) : list bytes := foldl (clean_step (is_rooted p)) [] (Split p sep).

Definition Clean (p : bytes) : bytes :=
  let out := Join (reverse (clean_elements p)) sep in
  if is_rooted p then sep :: out else match out with [] => B "." | _ => out end.

Example clean_runs : map (fun s => S (Clean (B s))) ["/var/log/../../etc/shadow"; "/var//log/./x/"; "/.."; ""; "a/../../b"; "./a"]
  = ["/etc/shadow"; "/var/log/x"; "/"; "."; "../b"; "a"]%string.
Proof. vm_compute. reflexivity. Qed.

(** ** [globRegexp] *)

(** [string(c)] of a byte: the UTF-8 encoding of the code point [c]. *)
Definition string_of_byte (c : ascii) : bytes :=
  if byteval c <? 128 then [c] else [byte_of_Z (192 + byteval c / 64); byte_of_Z (128 + byteval c mod 64)].

Definition special : bytes := B "\.+*?()|[]{}^$".
Definition backslash : ascii := "\"%char.
Definition QuoteMeta (s : bytes) : bytes := concat (map (fun c => if bool_decide (c ∈ special) then [backslash; c] else [c]) s).

Definition star : ascii := "*"%char.
Definition quest : ascii := "?"%char.

(** The loop that writes the expression. *)
Fixpoint glob_body (g : bytes) : bytes :=
  match g with
  | [] => []
  | c :: t =>
      if bool_decide (c = star) then
        match t with
        | d :: t' => if bool_decide (d = star) then B ".*" ++ glob_body t' else B "[^/]*" ++ glob_body t
        | [] => B "[^/]*"
        end
      else if bool_decide (c = quest) then B "[^/]" ++ glob_body t
      else QuoteMeta (string_of_byte c) ++ glob_body t
  end.
Definition glob_pattern (g : bytes) : bytes := B "^" ++ glob_body g ++ B "$".

Definition cache := gmap bytes re.

(** [None] is the panic of [MustCompile]. *)
Definition globRegexp (m : cache) (g : bytes) : option (cache * re) :=
  match m !! g with
  | Some r => Some (m, r)
  | None => (fun r => (<[g := r]> m, r)) <$> Compile (glob_pattern g)
  end.

Fixpoint allowed_loop (m : cache) (path : bytes) (allow : list bytes) : option (cache * bool) :=
  match allow with
  | [] => Some (m, false)
  | g :: t => '(m', r) ← globRegexp m g; if MatchString r path then Some (m', true) else allowed_loop m' path t
  end.

Definition Allowed (m : cache) (path : bytes) (allow : list bytes) : option (cache * bool) := allowed_loop m (Clean path) allow.

Example allowed_runs : map (fun s => snd <$> Allowed ∅ (B s) DefaultAllow)
  ["/var/log/nginx/access.log"; "/var/log/../../etc/shadow"; "/home/u/logs/x"; "/home/a/b/logs/x"; "/var/lib/mysql/host.err"; "/opt/x/y.log"]
  = [Some true; Some false; Some true; Some false; Some true; Some true].
Proof. vm_compute. reflexivity. Qed.

(** ** The tokens of a glob, and what the expression of each matches *)
Inductive tok := TAny | TSeg | TOne | TLit (c : ascii).

Fixpoint toks (g : bytes) : list tok :=
  match g with
  | [] => []
  | c :: t =>
      if bool_decide (c = star) then
        match t with
        | d :: t' => if bool_decide (d = star) then TAny :: toks t' else TSeg :: toks t
        | [] => [TSeg]
        end
      else if bool_decide (c = quest) then TOne :: toks t
      else TLit c :: toks t
  end.

Definition not_nl (r : Z * bytes) : Prop := r.1 <> 10.
Definition not_sep (r : Z * bytes) : Prop := r.1 <> 47.

(** The language of the expression that [globRegexp] writes: [.*] for [**],
    [[^/]] for [*] and [?], and for any other byte the code point of its value,
    which is the byte's own character only below 128. *)
Inductive glob_match : list tok -> list (Z * bytes) -> Prop :=
  | G_nil : glob_match [] []
  | G_any ts pre suf : Forall not_nl pre -> glob_match ts suf -> glob_match (TAny :: ts) (pre ++ suf)
  | G_seg ts pre suf : Forall not_sep pre -> glob_match ts suf -> glob_match (TSeg :: ts) (pre ++ suf)
  | G_one ts x suf : not_sep x -> glob_match ts suf -> glob_match (TOne :: ts) (x :: suf)
  | G_lit ts c x suf : x.1 = byteval c -> glob_match ts suf -> glob_match (TLit c :: ts) (x :: suf).

(** ** The expression a glob compiles to *)
Definition tok_codes (t : tok) : list Z :=
  match t with
  | TAny => [46; 42]
  | TSeg => [91; 94; 47; 93; 42]
  | TOne => [91; 94; 47; 93]
  | TLit c => if bool_decide (c ∈ special) then [92; byteval c] else [byteval c]
  end.
Definition tok_re (t : tok) : re :=
  match t with
  | TAny => RStar true (RChar false true [(10, 10)])
  | TSeg => RStar true (RChar false true [(47, 47)])
  | TOne => RChar false true [(47, 47)]
  | TLit c => RChar false false [(byteval c, byteval c)]
  end.
Definition codes (ts : list tok) : list Z := concat (map tok_codes ts) ++ [36].
Fixpoint toks_re (ts : list tok) : re :=
  match ts with
  | [] => RSeq (REnd false) REmpty
  | t :: ts => RSeq (tok_re t) (toks_re ts)
  end.

(** Facts of the 256 bytes, by evaluation. *)
Definition high_ok (c : ascii) : bool :=
  match string_of_byte c with
  | [a; b] => negb (byteval a <? 128) && lead2 a b && (Z.land (byteval a) 31 * 64 + low6 b =? byteval c)
              && bool_decide (QuoteMeta (string_of_byte c) = [a; b]) && bool_decide (tok_codes (TLit c) = [byteval c])
  | _ => byteval c <? 128
  end.
Lemma high_ok_all (c : ascii) : high_ok c = true.
Proof. destruct c as [[] [] [] [] [] [] [] []]; vm_compute; reflexivity. Qed.

Definition low_ok (c : ascii) : bool :=
  negb (byteval c <? 128)
  || bool_decide (map byteval (QuoteMeta (string_of_byte c)) = tok_codes (TLit c)) && forallb (fun d => byteval d <? 128) (QuoteMeta (string_of_byte c))
     && (0 <? length (QuoteMeta (string_of_byte c)))%nat.
Lemma low_ok_all (c : ascii) : low_ok c = true.
Proof. destruct c as [[] [] [] [] [] [] [] []]; vm_compute; reflexivity. Qed.

Lemma codes_ascii (l k : bytes) : forallb (fun d => byteval d <? 128) l = true -> map fst (runes (l ++ k)) = map byteval l ++ map fst (runes k).
Proof.
  intros Hl. destruct l as [|c l]; [done|]. change ((c :: l) ++ k) with ([] ++ (c :: l) ++ k). rewrite runes_embed; [|by apply Forall_forall; intros x Hx; rewrite forallb_forall in Hl; apply Z.ltb_lt, Hl, list_elem_of_In|done].
  cbn [runes app]. by rewrite map_app, map_map.
Qed.

Lemma runes_string_of_byte (c : ascii) (k : bytes) :
  map fst (runes (QuoteMeta (string_of_byte c) ++ k)) = tok_codes (TLit c) ++ map fst (runes k).
Proof.
  pose proof (high_ok_all c) as Hh. pose proof (low_ok_all c) as Hl. unfold high_ok, low_ok in *.
  destruct (byteval c <? 128) eqn:Hc.
  - clear Hh. cbn [negb orb] in Hl. apply andb_true_iff in Hl as [[Hl%bool_decide_eq_true Hf]%andb_true_iff _].
    by rewrite codes_ascii, Hl.
  - clear Hl. unfold string_of_byte at 1 in Hh. unfold string_of_byte. rewrite Hc in *.
    apply andb_true_iff in Hh as [[[[Ha H2]%andb_true_iff Hv%Z.eqb_eq]%andb_true_iff Hq%bool_decide_eq_true]%andb_true_iff Ht%bool_decide_eq_true].
    unfold string_of_byte in Hq. rewrite Hc in Hq. rewrite Hq, Ht. apply negb_true_iff in Ha.
    cbn [app runes]. rewrite Ha, H2, Hv. done.
Qed.

Lemma pattern_codes (g : bytes) : map fst (runes (glob_body g ++ B "$")) = codes (toks g).
Proof.
  remember (length g) as n eqn:Hn. revert g Hn. induction n as [n IH] using lt_wf_ind. intros g ->.
  assert (Hsub : forall m, (length m < length g)%nat -> map fst (runes (glob_body m ++ B "$")) = codes (toks m)) by eauto. clear IH.
  destruct g as [|c t]; [done|]. cbn [glob_body toks]. cbn [length] in Hsub.
  case_bool_decide; [destruct t as [|d t']; [done|]; case_bool_decide|case_bool_decide].
  - rewrite <- app_assoc, codes_ascii by done. rewrite Hsub by (cbn; lia). done.
  - rewrite <- app_assoc, codes_ascii by done. rewrite Hsub by (cbn; lia). done.
  - rewrite <- app_assoc, codes_ascii by done. rewrite Hsub by lia. done.
  - rewrite <- app_assoc, runes_string_of_byte, Hsub by lia. unfold codes. cbn [map concat]. by rewrite <- app_assoc.
Qed.

(** ** Compiling it *)
Definition head_not (zs : list Z) (l : list Z) : bool := match l with [] => true | z :: _ => negb (bool_decide (z ∈ zs)) end.

Ltac by_code z := destruct z as [|z|z]; try done; do 7 (destruct z as [z|z|]; try done).

Lemma parse_repeat_none (r : re) (l : list Z) : head_not [42; 43; 63; 123] l = true -> parse_repeat r l = Some (r, l).
Proof. intros H. destruct l as [|z l]; [done|]. by_code z. Qed.

Lemma starts_repeat_none (l : list Z) : head_not [42; 43; 63; 123] l = true -> starts_repeat l = false /\ lazy_mark l = (true, l).
Proof. intros H. destruct l as [|z l]; [done|]. by_code z. Qed.

Lemma parse_repeat_star (r : re) (l : list Z) : head_not [42; 43; 63; 123] l = true -> parse_repeat r (42 :: l) = Some (RStar true r, l).
Proof. intros H. apply starts_repeat_none in H as [H1 H2]. unfold parse_repeat. by rewrite H2, H1. Qed.

Lemma parse_seq_atom (f : nat) (fl : flags) (n : nat) (l : list Z) :
  l <> [] -> head_not [40; 41; 124] l = true ->
  parse_seq (Datatypes.S f) fl n l =
    ('(a, t) ← parse_atom fl l; '(a, t) ← parse_repeat a t; '(b, fl, n, t) ← parse_seq f fl n t; Some (RSeq a b, fl, n, t)).
Proof. intros Hne H. destruct l as [|z l]; [done|]. by_code z. Qed.

Lemma lit_atom (c : ascii) (rest : list Z) :
  head_not [40; 41; 124] (tok_codes (TLit c) ++ rest) = true /\ head_not [42; 43; 63; 123] (tok_codes (TLit c) ++ rest) = true
  /\ parse_atom no_flags (tok_codes (TLit c) ++ rest) = Some (tok_re (TLit c), rest).
Proof. destruct c as [[] [] [] [] [] [] [] []]; split_and!; reflexivity. Qed.

Lemma codes_head (ts : list tok) : head_not [42; 43; 63; 123] (codes ts) = true.
Proof. destruct ts as [|[| | |c] ts]; try done. unfold codes. cbn [map concat]. rewrite <- app_assoc. apply lit_atom. Qed.

Lemma parse_tok (t : tok) (ts : list tok) (f n : nat) :
  parse_seq (Datatypes.S f) no_flags n (codes (t :: ts)) =
    ('(b, fl, n, l) ← parse_seq f no_flags n (codes ts); Some (RSeq (tok_re t) b, fl, n, l)).
Proof.
  assert (Hc : codes (t :: ts) = tok_codes t ++ codes ts) by (unfold codes; cbn [map concat]; by rewrite <- app_assoc). rewrite Hc.
  pose proof (codes_head ts) as Hh. destruct t as [| | |c].
  - rewrite parse_seq_atom by done. cbn [tok_codes app parse_atom mbind option_bind f_s no_flags]. by rewrite parse_repeat_star.
  - rewrite parse_seq_atom by done. cbn [tok_codes app parse_atom mbind option_bind class_items class_item_after f_i no_flags].
    by rewrite parse_repeat_star.
  - rewrite parse_seq_atom by done. cbn [tok_codes app parse_atom mbind option_bind class_items class_item_after f_i no_flags].
    by rewrite parse_repeat_none.
  - destruct (lit_atom c (codes ts)) as (H1 & _ & H3). rewrite parse_seq_atom; [|unfold tok_codes; by case_bool_decide|done].
    rewrite H3. cbn [mbind option_bind]. by rewrite parse_repeat_none.
Qed.

Lemma parse_toks (ts : list tok) (f n : nat) :
  (length ts + 2 <= f)%nat -> parse_seq f no_flags n (codes ts) = Some (toks_re ts, no_flags, n, []).
Proof.
  revert f. induction ts as [|t ts IH]; intros f Hf; (destruct f as [|f]; [cbn in Hf; lia|]).
  - destruct f as [|f]; [cbn in Hf; lia|]. done.
  - rewrite parse_tok, IH by (cbn in Hf; lia). done.
Qed.

Lemma codes_length (ts : list tok) : (length ts < length (codes ts))%nat.
Proof.
  induction ts as [|t ts IH]; [cbn; lia|]. unfold codes in *. cbn [map concat]. rewrite <- app_assoc, length_app.
  enough (1 <= length (tok_codes t))%nat by (cbn [length]; lia). destruct t; cbn [tok_codes length]; try case_bool_decide; cbn; lia.
Qed.

(** Every glob compiles, to the expression of its tokens. *)
Lemma Compile_glob (g : bytes) : Compile (glob_pattern g) = Some (RSeq (RBegin false) (toks_re (toks g))).
Proof.
  unfold Compile, glob_pattern. rewrite codes_ascii by done. rewrite pattern_codes.
  change (map byteval (B "^") ++ codes (toks g)) with (94 :: codes (toks g)). pose proof (codes_length (toks g)) as Hl.
  set (fuel := (2 * length (94%Z :: codes (toks g)) + 2)%nat). assert (Hf : (length (toks g) + 6 <= fuel)%nat) by (subst fuel; cbn [length]; lia).
  clearbody fuel. do 2 (destruct fuel as [|fuel]; [lia|]).
  change (parse_alt (Datatypes.S (Datatypes.S fuel)) no_flags 1 (94 :: codes (toks g))) with
    ('(a, fl, n, l) ← parse_seq (Datatypes.S fuel) no_flags 1 (94 :: codes (toks g));
     match l with 124 :: t => '(b, fl, n, l) ← parse_alt (Datatypes.S fuel) fl n t; Some (RAlt a b, fl, n, l) | _ => Some (a, fl, n, l) end).
  rewrite parse_seq_atom by done. cbn [parse_atom mbind option_bind no_flags f_m]. rewrite parse_repeat_none by apply codes_head.
  cbn [mbind option_bind]. rewrite parse_toks by lia. done.
Qed.

(** ** Its language *)
Lemma prev_of_cons (prev : option Z) (x : Z * bytes) (pre : list (Z * bytes)) : prev_of prev (x :: pre) = prev_of (Some x.1) pre.
Proof.
  unfold prev_of. destruct pre as [|p pre]; [done|]. change (last (x :: p :: pre)) with (last (p :: pre)).
  destruct (last_is_Some (p :: pre)) as [_ H]. destruct H as [y Hy]; [done|]. by rewrite Hy.
Qed.

Lemma star_char_lang (g : bool) (rs : ranges) (prev : option Z) (l : list (Z * bytes)) (q : position) :
  lang (RStar g (RChar false true rs)) (prev, l) q <->
  exists pre, l = pre ++ q.2 /\ q.1 = prev_of prev pre /\ Forall (fun x => in_ranges rs x.1 = false) pre.
Proof.
  split.
  - remember (RStar g (RChar false true rs)) as r eqn:Hr. remember (prev, l) as p eqn:Hp. intros Hl. revert prev l Hp.
    induction Hl as [| | | | |g' a' p|g' a' p q r Hpq _ Hlt Hqr IH| | | |]; intros prev l ->; simplify_eq.
    + exists []. by split_and!.
    + inversion Hpq as [f n rs' p' x t Hx Hok| | | | | | | | | |]; simplify_eq. cbn in Hx. subst l.
      destruct (IH eq_refl (Some x.1) t eq_refl) as (pre & -> & H1 & H2). exists (x :: pre). split_and!; [done|by rewrite prev_of_cons|].
      constructor; [|done]. unfold char_ok in Hok. cbn in Hok. by destruct (in_ranges rs x.1).
  - intros (pre & -> & Hq & Hf). destruct q as [q1 q2]. cbn in *. subst q1. revert prev.
    induction Hf as [|x pre Hx _ IH]; intros prev; [constructor|].
    rewrite prev_of_cons. eapply L_more; [by apply (L_char false true rs (prev, (x :: pre) ++ q2) x (pre ++ q2)); [|unfold char_ok; rewrite Hx]| |apply IH].
    cbn. lia.
Qed.

Lemma in_one (c r : Z) : in_ranges [(c, c)] r = (r =? c).
Proof. unfold in_ranges, existsb. lia. Qed.
Lemma char_one (neg : bool) (c r : Z) : char_ok false neg [(c, c)] r = if neg then negb (r =? c) else (r =? c).
Proof. unfold char_ok. rewrite in_one. by destruct neg, (r =? c). Qed.

Lemma toks_lang (ts : list tok) (prev : option Z) (l : list (Z * bytes)) : (exists q, lang (toks_re ts) (prev, l) q) <-> glob_match ts l.
Proof.
  revert prev l. induction ts as [|t ts IH]; intros prev l; cbn [toks_re].
  - split.
    + intros [q Hq]. inversion Hq as [| |a b p r q' H1 H2| | | | | | | |]; simplify_eq. inversion H1 as [| | | | | | | | |m p H|]; simplify_eq.
      destruct l; [constructor|done].
    + inversion 1; subst. exists (prev, []). eapply L_seq; [by apply L_end|constructor].
  - assert (Hseq : (exists q, lang (RSeq (tok_re t) (toks_re ts)) (prev, l) q)
      <-> exists q, lang (tok_re t) (prev, l) q /\ glob_match ts q.2).
    { split.
      - intros [q Hq]. inversion Hq as [| |a b p r q' H1 H2| | | | | | | |]; simplify_eq. exists r. split; [done|].
        destruct r as [r1 r2]. apply (IH r1). eauto.
      - intros ([r1 r2] & H1 & H2). apply (IH r1) in H2 as [q H2]. eauto using lang. }
    rewrite Hseq. clear Hseq IH. destruct t as [| | |c]; cbn [tok_re]; split.
    + intros (q & (pre & -> & _ & Hf)%star_char_lang & Hm). apply G_any; [|done]. eapply Forall_impl; [exact Hf|]. intros x Hx.
      cbn beta in Hx. rewrite in_one in Hx. unfold not_nl, not_sep. lia.
    + inversion 1 as [|ts' pre suf Hf Hm| | |]; simplify_eq. exists (prev_of prev pre, suf). split; [|done]. apply star_char_lang.
      exists pre. split_and!; try done. eapply Forall_impl; [exact Hf|]. intros x Hx. unfold not_nl in Hx. cbn beta. rewrite in_one. lia.
    + intros (q & (pre & -> & _ & Hf)%star_char_lang & Hm). apply G_seg; [|done]. eapply Forall_impl; [exact Hf|]. intros x Hx.
      cbn beta in Hx. rewrite in_one in Hx. unfold not_nl, not_sep. lia.
    + inversion 1 as [| |ts' pre suf Hf Hm| |]; simplify_eq. exists (prev_of prev pre, suf). split; [|done]. apply star_char_lang.
      exists pre. split_and!; try done. eapply Forall_impl; [exact Hf|]. intros x Hx. unfold not_sep in Hx. cbn beta. rewrite in_one. lia.
    + intros (q & Hq & Hm). inversion Hq as [f n rs p x t Hx Hok| | | | | | | | | |]; simplify_eq. cbn in Hx. subst l. apply G_one; [|done].
      rewrite char_one in Hok. unfold not_sep. lia.
    + inversion 1 as [| | |ts' x suf Hx Hm|]; simplify_eq. exists (Some x.1, suf). split; [|done]. apply (L_char false true _ _ x); [done|].
      unfold not_sep in Hx. rewrite char_one. lia.
    + intros (q & Hq & Hm). inversion Hq as [f n rs p x t Hx Hok| | | | | | | | | |]; simplify_eq. cbn in Hx. subst l. apply G_lit; [|done].
      rewrite char_one in Hok. lia.
    + inversion 1 as [| | | |ts' c' x suf Hx Hm]; simplify_eq. exists (Some x.1, suf). split; [|done]. apply (L_char false false _ _ x); [done|].
      rewrite char_one. lia.
Qed.

Lemma glob_regexp_match (ts : list tok) (s : bytes) : MatchString (RSeq (RBegin false) (toks_re ts)) s = true <-> glob_match ts (runes s).
Proof.
  rewrite MatchString_spec, <- (toks_lang ts None). split.
  - intros (pre & suf & q & Heq & Hl). inversion Hl as [| |a b p r q' H1 H2| | | | | | | |]; simplify_eq.
    inversion H1 as [| | | | | | | |m p H| |]; simplify_eq. unfold prev_of in *. destruct (last pre) eqn:El; [done|].
    apply last_None in El. subst. rewrite Heq. cbn. eauto.
  - intros [q Hq]. exists [], (runes s), q. split; [done|]. eapply L_seq; [by apply L_begin|done].
Qed.

(** The cache holds what compiling gives. *)
Definition cache_ok (m : cache) : Prop := forall g r, m !! g = Some r -> Compile (glob_pattern g) = Some r.

Lemma cache_ok_empty : cache_ok ∅.
Proof. intros g r H. unfold cache in H. by rewrite lookup_empty in H. Qed.

Lemma globRegexp_ok (m : cache) (g : bytes) : cache_ok m ->
  exists m', globRegexp m g = Some (m', RSeq (RBegin false) (toks_re (toks g))) /\ cache_ok m'.
Proof.
  intros Hm. unfold globRegexp. destruct (m !! g) as [r|] eqn:E.
  - exists m. split; [|done]. apply Hm in E. rewrite Compile_glob in E. congruence.
  - rewrite Compile_glob. eexists. split; [done|]. intros g' r' H. apply lookup_insert_Some in H as [[<- <-]|[_ H]]; [apply Compile_glob|by apply Hm].
Qed.

Lemma allowed_loop_ok (m : cache) (path : bytes) (allow : list bytes) : cache_ok m ->
  exists m' b, allowed_loop m path allow = Some (m', b) /\ cache_ok m' /\ (b = true <-> exists g, g ∈ allow /\ glob_match (toks g) (runes path)).
Proof.
  revert m. induction allow as [|g allow IH]; intros m Hm; cbn [allowed_loop].
  - exists m, false. split_and!; [done..|]. split; [done|]. intros (g & Hg & _). by apply not_elem_of_nil in Hg.
  - destruct (globRegexp_ok m g Hm) as (m1 & -> & Hm1). cbn [mbind option_bind].
    destruct (MatchString _ path) eqn:E.
    + exists m1, true. split_and!; [done..|]. split; [|done]. intros _. exists g. split; [by constructor|]. by apply glob_regexp_match.
    + destruct (IH m1 Hm1) as (m' & b & -> & Hm' & Hb). exists m', b. split_and!; [done..|]. rewrite Hb. split.
      * intros (g' & Hg' & H). exists g'. split; [by constructor|done].
      * intros (g' & [->|Hg']%elem_of_cons & H); [|eauto]. apply glob_regexp_match in H. congruence.
Qed.

(** ** What a glob means

    The documented meaning, on the characters of the glob and of the path:
    [**] spans directories, [*] and [?] stay within one path segment, and any
    other character stands for itself. *)
Definition same_char (c : ascii) (r : Z * bytes) : Prop := r.1 = byteval c.

Inductive documented : list (Z * bytes) -> list (Z * bytes) -> Prop :=
  | D_end : documented [] []
  | D_span s1 s2 g pre suf : same_char star s1 -> same_char star s2 -> documented g suf -> documented (s1 :: s2 :: g) (pre ++ suf)
  | D_segment s1 g pre suf : same_char star s1 -> match g with s2 :: _ => ~ same_char star s2 | [] => True end ->
      Forall not_sep pre -> documented g suf -> documented (s1 :: g) (pre ++ suf)
  | D_one q g x suf : same_char quest q -> not_sep x -> documented g suf -> documented (q :: g) (x :: suf)
  | D_itself c g x suf : ~ same_char star c -> ~ same_char quest c -> x.1 = c.1 -> documented g suf -> documented (c :: g) (x :: suf).

Lemma same_char_ascii (c d : ascii) : same_char c (ascii_rune d) <-> d = c.
Proof.
  unfold same_char. cbn. split; [|by intros ->]. intros H. apply (f_equal byte_of_Z) in H. by rewrite !byte_of_byteval in H.
Qed.

(** For a glob in ASCII and a path on one line, the expression matches what
    is documented. *)
Lemma glob_match_documented (g : bytes) (l : list (Z * bytes)) :
  Forall (fun c => byteval c < 128) g -> Forall not_nl l -> glob_match (toks g) l <-> documented (map ascii_rune g) l.
Proof.
  remember (length g) as n eqn:Hn. revert g Hn l. induction n as [n IH] using lt_wf_ind. intros g -> l Hg Hl.
  assert (Hsub : forall k l', (length k < length g)%nat -> Forall (fun c => byteval c < 128) k -> Forall not_nl l' ->
            glob_match (toks k) l' <-> documented (map ascii_rune k) l') by eauto. clear IH.
  destruct g as [|c t]; [split; inversion 1; constructor|]. cbn [toks map]. cbn [length] in Hsub. apply Forall_cons in Hg as [Hc Ht].
  case_bool_decide as Hs; [subst c; destruct t as [|d t]; [|apply Forall_cons in Ht as Hdt; destruct Hdt as [Hd Ht']; case_bool_decide as Hd'; [subst d|]]|case_bool_decide as Hq].
  - split.
    + inversion 1 as [| |ts pre suf Hf Hm| |]; subst. apply D_segment; [done|done|done|]. inversion Hm; subst. constructor.
    + inversion 1 as [| |s1 g' pre suf H1 H2 Hf Hm|q g' x suf H1|c' g' x suf H1]; subst; [|done|by destruct H1].
      apply G_seg; [done|]. inversion Hm; subst. constructor.
  - split.
    + inversion 1 as [|ts pre suf Hf Hm| | |]; subst. apply Forall_app in Hl as [_ Hl]. apply D_span; [done|done|].
      apply Hsub; [cbn; lia|done..].
    + inversion 1 as [|s1 s2 g' pre suf H1 H2 Hm|s1 g' pre suf H1 H2|q g' x suf H1|c' g' x suf H1]; subst; [|by destruct H2|done|by destruct H1].
      apply Forall_app in Hl as [Hl1 Hl]. apply G_any; [done|]. apply Hsub; [cbn; lia|done..].
  - assert (Hns : ~ same_char star (ascii_rune d)) by (by rewrite same_char_ascii). split.
    + inversion 1 as [| |ts pre suf Hf Hm| |]; subst. apply Forall_app in Hl as [_ Hl]. apply D_segment; [done|done|done|].
      by apply (Hsub (d :: t)); [cbn; lia|..].
    + inversion 1 as [|s1 s2 g' pre suf H1 H2 Hm|s1 g' pre suf H1 H2 Hf Hm|q g' x suf H1|c' g' x suf H1]; subst; [done| |done|by destruct H1].
      apply Forall_app in Hl as [_ Hl]. apply G_seg; [done|]. by apply (Hsub (d :: t)); [cbn; lia|..].
  - subst c. split.
    + inversion 1 as [| | |ts x suf Hx Hm|]; subst. apply Forall_cons in Hl as [_ Hl]. apply D_one; [done|done|]. by apply Hsub; [lia|..].
    + inversion 1 as [|s1 s2 g' pre suf H1|s1 g' pre suf H1|q g' x suf H1 Hx Hm|c' g' x suf H1 H2]; subst; [done|done| |by destruct H2].
      apply Forall_cons in Hl as [_ Hl]. apply G_one; [done|]. by apply Hsub; [lia|..].
  - assert (Hns : ~ same_char star (ascii_rune c)) by (by rewrite same_char_ascii).
    assert (Hnq : ~ same_char quest (ascii_rune c)) by (by rewrite same_char_ascii). split.
    + inversion 1 as [| | | |ts c' x suf Hx Hm]; subst. apply Forall_cons in Hl as [_ Hl]. apply D_itself; [done..|]. by apply Hsub; [lia|..].
    + inversion 1 as [|s1 s2 g' pre suf H1|s1 g' pre suf H1|q g' x suf H1 Hx Hm|c' g' x suf H1 H2 Hx Hm]; subst; [done..|].
      apply Forall_cons in Hl as [_ Hl]. apply G_lit; [done|]. by apply Hsub; [lia|..].
Qed.

(** C25: the allow list decides as its globs are documented.  For every list of
    globs in ASCII and every path, in any encoding, whose cleaned form has no
    line break, with the cache in any state the program can leave it in:
    [Allowed] returns (no expression fails to compile), keeps the cache right,
    and says yes exactly when the cleaned path matches one of the globs
    character by character, where [**] spans directories, [*] and [?] stay
    within one segment and any other character stands for itself. *)
Theorem Allowed_globs (m : cache) (path : bytes) (allow : list bytes) :
  cache_ok m -> Forall (Forall (fun c => byteval c < 128)) allow -> Forall not_nl (runes (Clean path)) ->
  exists m' b, Allowed m path allow = Some (m', b) /\ cache_ok m'
    /\ (b = true <-> exists g, g ∈ allow /\ documented (runes g) (runes (Clean path))).
Proof.
  intros Hm Ha Hp. destruct (allowed_loop_ok m (Clean path) allow Hm) as (m' & b & H1 & H2 & H3). exists m', b.
  split_and!; [done..|]. rewrite H3. rewrite Forall_forall in Ha.
  split; intros (g & Hg & Hmt); exists g; (split; [done|]); specialize (Ha g Hg);
    [rewrite runes_ascii by done|rewrite runes_ascii in Hmt by done]; by apply glob_match_documented.
Qed.

Lemma Allowed_globs_witness :
  exists m' b, Allowed ∅ (B "/var/log/x/y.log") [B "/srv/*"; B "/var/log/**"] = Some (m', b)
    /\ cache_ok m' /\ (b = true <-> exists g, g ∈ [B "/srv/*"; B "/var/log/**"] /\ documented (runes g) (runes (Clean (B "/var/log/x/y.log")))).
Proof.
  apply (Allowed_globs ∅ (B "/var/log/x/y.log") [B "/srv/*"; B "/var/log/**"]); [apply cache_ok_empty|..].
  - repeat (constructor; [repeat (constructor; [by vm_compute|]); constructor|]). constructor.
  - change (Clean (B "/var/log/x/y.log")) with (B "/var/log/x/y.log"). vm_compute runes. repeat (constructor; [discriminate|]). constructor.
Defined.

(** ** Where the default list confines the agent *)
Definition allowed_roots : list bytes := map B [
  "/var/log/"; "/home/"; "/var/www/"; "/srv/"; "/opt/"; "/var/lib/docker/containers/"; "/var/lib/mysql/" ].

Definition literal (c : ascii) : bool := (byteval c <? 128) && bool_decide (c <> star) && bool_decide (c <> quest).

(** A glob that starts with literal bytes matches only paths that start with them. *)
Lemma glob_prefix (pre g path : bytes) :
  forallb literal pre = true -> glob_match (toks (pre ++ g)) (runes path) -> exists rest, path = pre ++ rest.
Proof.
  revert path. induction pre as [|c pre IH]; intros path Hp Hm; [by exists path|]. cbn [forallb] in Hp.
  apply andb_true_iff in Hp as [[[Hc%Z.ltb_lt Hs%bool_decide_eq_true]%andb_true_iff Hq%bool_decide_eq_true]%andb_true_iff Hp].
  cbn [app toks] in Hm. rewrite !bool_decide_false in Hm by done.
  inversion Hm as [| | | |ts c' x suf Hx Hm' Ht Hl]; simplify_eq. destruct path as [|d path]; [done|].
  assert (Hlow : byteval d < 128 /\ runes (d :: path) = ascii_rune d :: runes path).
  { destruct (Z.ltb_spec (byteval d) 128) as [Hd|Hd]; [split; [done|]; cbn [runes]; by rewrite (proj2 (Z.ltb_lt _ _) Hd)|exfalso].
    pose proof (runes_high d path Hd) as Hh. rewrite <- Hl in Hh. cbn in Hh. lia. }
  destruct Hlow as [Hd Hr]. rewrite Hr in Hl. simplify_eq. cbn in Hx. apply (f_equal byte_of_Z) in Hx. rewrite !byte_of_byteval in Hx. subst d.
  destruct (IH path Hp Hm') as [rest ->]. by exists rest.
Qed.

Lemma Split_Join (els : list bytes) : Forall (fun e => sep ∉ e) els -> els <> [] -> Split (Join els sep) sep = els.
Proof.
  intros Hf Hne.
  assert (Hw : forall w, sep ∉ w -> forall k, Split (w ++ sep :: k) sep = w :: Split k sep).
  { induction w as [|c w IH]; intros Hn k; cbn [app Split]; [by rewrite bool_decide_true|]. apply not_elem_of_cons in Hn as [H1 H2].
    rewrite bool_decide_false by congruence. by rewrite IH. }
  assert (Hw1 : forall w, sep ∉ w -> Split w sep = [w]).
  { induction w as [|c w IH]; intros Hn; [done|]. apply not_elem_of_cons in Hn as [H1 H2]. cbn [Split].
    rewrite bool_decide_false by congruence. by rewrite IH. }
  induction Hf as [|e els He Hf IH]; [done|]. destruct els as [|e' els]; [by apply Hw1|].
  change (Join (e :: e' :: els) sep) with (e ++ sep :: Join (e' :: els) sep). rewrite Hw by done. by rewrite IH.
Qed.

(** The elements cleaning keeps; a rooted path keeps no parent element. *)
Definition kept (rooted : bool) (e : bytes) : Prop := sep ∉ e /\ e <> [] /\ (rooted = true -> e <> dotdot).

Lemma clean_kept (rooted : bool) (l stack : list bytes) :
  Forall (fun e => sep ∉ e) l -> Forall (kept rooted) stack -> Forall (kept rooted) (foldl (clean_step rooted) stack l).
Proof.
  revert stack. induction l as [|e l IH]; intros stack Hl Hs; [done|]. inversion Hl; subst. cbn [foldl]. apply IH; [done|].
  unfold clean_step. case_bool_decide; [done|]. case_bool_decide; [done|]. cbn [orb]. case_bool_decide as Hd.
  - assert (He : kept false e) by (by split_and!).
    destruct stack as [|top rest]; [destruct rooted; [done|by constructor]|]. inversion Hs as [|?? (_ & _ & Ht) Hr]; subst.
    case_bool_decide; [|done]. destruct rooted; [by destruct Ht|]. by constructor.
  - constructor; [|done]. by split_and!.
Qed.

Lemma clean_elements_kept (p : bytes) : Forall (kept (is_rooted p)) (reverse (clean_elements p)).
Proof.
  apply Forall_reverse, clean_kept; [|done]. apply Forall_forall. intros w. apply Split_no_sep.
Qed.

Lemma Clean_no_parent (p : bytes) : is_rooted (Clean p) = true -> dotdot ∉ Split (Clean p) sep.
Proof.
  pose proof (clean_elements_kept p) as Hk. unfold Clean. destruct (is_rooted p).
  - intros _. cbn [Split]. rewrite bool_decide_true by done. apply not_elem_of_cons. split; [done|].
    destruct (reverse (clean_elements p)) as [|e els] eqn:E; [cbn; by intros [?|?%not_elem_of_nil]%elem_of_cons|].
    rewrite Split_Join; [|eapply Forall_impl; [exact Hk|by intros x (Hx & _)]|done].
    intros Hin. rewrite Forall_forall in Hk. destruct (Hk _ Hin) as (_ & _ & Hd). by apply Hd.
  - destruct (reverse (clean_elements p)) as [|e els]; [done|]. inversion Hk as [|?? (Hs & Hn & _) _]; subst.
    destruct e as [|c e]; [done|]. apply not_elem_of_cons in Hs as [Hs _]. intros Hr. exfalso.
    destruct els; cbn in Hr; rewrite bool_decide_eq_true in Hr; congruence.
Qed.

(** C5: what the default list promises against a hostile configuration: when
    [Allowed] says yes with it, the cleaned path starts, byte for byte, with
    one of seven directories and has no parent element, so it cannot name a
    file such as [/etc/shadow], whatever the path asked for. *)
Theorem default_confined (m m' : cache) (path : bytes) :
  cache_ok m -> Allowed m path DefaultAllow = Some (m', true) ->
  (exists root rest, root ∈ allowed_roots /\ Clean path = root ++ rest) /\ dotdot ∉ Split (Clean path) sep.
Proof.
  intros Hm Ha. destruct (allowed_loop_ok m (Clean path) DefaultAllow Hm) as (m1 & b & Hb & _ & Hiff).
  unfold Allowed in Ha. rewrite Hb in Ha. simplify_eq. destruct (proj1 Hiff eq_refl) as (g & Hg & Hgm).
  assert (Hroot : exists root rest, root ∈ allowed_roots /\ Clean path = root ++ rest).
  { assert (Hpre : exists root t, root ∈ allowed_roots /\ g = root ++ t).
    { assert (Hall : forallb (fun g => existsb (HasPrefix g) allowed_roots) DefaultAllow = true) by (vm_compute; reflexivity).
      rewrite forallb_forall in Hall. specialize (Hall g ltac:(by apply list_elem_of_In)).
      apply existsb_exists in Hall as (root & Hin & [t Ht]%HasPrefix_spec). exists root, t. split; [by apply list_elem_of_In|done]. }
    destruct Hpre as (root & t & Hin & ->). exists root.
    assert (Hplain : forallb (forallb literal) allowed_roots = true) by (vm_compute; reflexivity).
    rewrite forallb_forall in Hplain. apply list_elem_of_In in Hin as Hin'.
    destruct (glob_prefix root t (Clean path) (Hplain _ Hin') Hgm) as [rest Hr]. by exists rest. }
  split; [done|]. apply Clean_no_parent. destruct Hroot as (root & rest & Hin & ->).
  assert (Hr : forallb is_rooted allowed_roots = true) by (vm_compute; reflexivity).
  rewrite forallb_forall in Hr. specialize (Hr root ltac:(by apply list_elem_of_In)). by destruct root.
Qed.

Lemma default_confined_witness :
  exists m', Allowed ∅ (B "/var/log/../log/auth.log") DefaultAllow = Some (m', true)
    /\ (exists root rest, root ∈ allowed_roots /\ Clean (B "/var/log/../log/auth.log") = root ++ rest)
    /\ dotdot ∉ Split (Clean (B "/var/log/../log/auth.log")) sep.
Proof.
  assert (Ha : exists m', Allowed ∅ (B "/var/log/../log/auth.log") DefaultAllow = Some (m', true)) by (eexists; vm_compute; reflexivity).
  destruct Ha as [m' Ha]. exists m'. split; [done|]. exact (default_confined ∅ m' _ cache_ok_empty Ha).
Defined.

(** A glob with a character above ASCII does not mean what is documented: each
    byte of its UTF-8 encoding is compared with a whole character of the path,
    so the glob does not match the file it names. *)
Lemma non_ascii_glob_never_matches :
  let path := B "/var/log/" ++ map byte_of_Z [195; 169] ++ B ".log" in snd <$> Allowed ∅ path [path] = Some false.
Proof. vm_compute. reflexivity. Qed.

(** And [**] does not span a line break in a name. *)
Lemma newline_not_spanned : snd <$> Allowed ∅ (B "/var/log/a" ++ newline :: B "b.log") [B "/var/log/**"] = Some false.
Proof. vm_compute. reflexivity. Qed.
