(* ===== verification/LogShip.v ===== *)
(** * The log shipper

    [src/internal/logs/ship.go] with the counters of [stats.go] it moves.  The
    loop of [Run] and the loop of [deliver] are one machine that takes a step
    per received entry, per tick of the flush timer and per delivery attempt;
    while a batch is being delivered nothing is received.  What [encode]
    renders is a parameter: the theorems hold for every rendering. *)
From S2P Require Import Prelude GoFloat GoStrings Session Transport LogTail.
Local Open Scope Z_scope.

Record ShipperConfig := { MaxBatchLines : Z; MaxBatchBytes : Z; FlushEvery : duration; Hostname : string; AgentID : string }.

(** The defaults [NewShipper] fills in. *)
Definition NewShipper (c : ShipperConfig) : ShipperConfig := {|
  MaxBatchLines := if MaxBatchLines c <=? 0 then 1000 else MaxBatchLines c;
  MaxBatchBytes := if MaxBatchBytes c <=? 0 then 1048576 else MaxBatchBytes c;
  FlushEvery := if FlushEvery c <=? 0 then 2 * second else FlushEvery c;
  Hostname := Hostname c; AgentID := AgentID c |}.

(** ** [stats.go]: the counters of the shipper *)
Record Stats := { st_lines : gmap bytes float64; st_bytes : float64; st_drops : gmap bytes float64; st_retries : float64; st_lastShip : time }.
Definition NewStats : Stats := {| st_lines := ∅; st_bytes := f64_zero; st_drops := ∅; st_retries := f64_zero; st_lastShip := time_zero |}.

Definition shipped (s : Stats) (batch : list Entry) (n : Z) (now : time) : Stats := {|
  st_lines := foldl (fun m e => <[e_Source e := f64_add (default f64_zero (m !! e_Source e)) f64_one]> m) (st_lines s) batch;
  st_bytes := f64_add (st_bytes s) (f64_of_Z n); st_drops := st_drops s; st_retries := st_retries s; st_lastShip := now |}.
Definition droppedN (s : Stats) (reason : bytes) (n : Z) : Stats := {|
  st_lines := st_lines s; st_bytes := st_bytes s;
  st_drops := <[reason := f64_add (default f64_zero (st_drops s !! reason)) (f64_of_Z n)]> (st_drops s);
  st_retries := st_retries s; st_lastShip := st_lastShip s |}.
Definition dropped (s : Stats) (reason : bytes) : Stats := droppedN s reason 1.
Definition retry (s : Stats) : Stats := {|
  st_lines := st_lines s; st_bytes := st_bytes s; st_drops := st_drops s; st_retries := f64_add (st_retries s) f64_one; st_lastShip := st_lastShip s |}.

(** ** The machine *)

(** In [Delivering wait held] the batch is being posted; [held] is the entry
    that did not fit and is added once the batch is gone. *)
Inductive mode := Idle | Delivering (wait : duration) (held : option (Entry * bytes)).

(** [sh_acked] lists the entries whose [ack] was called, in order, and
    [sh_log] the deliveries that ended with an answer: the batch, its payload
    and the answer. *)
Record shipper := {
  sh_batch : list Entry; sh_buf : bytes; sh_pending : bool; sh_mode : mode; sh_ctxDone : bool; sh_stats : Stats;
  sh_acked : list Entry; sh_log : list (list Entry * bytes * option push_error) }.

Definition ship_start : shipper := {|
  sh_batch := []; sh_buf := []; sh_pending := false; sh_mode := Idle; sh_ctxDone := false; sh_stats := NewStats; sh_acked := []; sh_log := [] |}.

(** An attempt is what [Post] returned, the clock, and whether the sleep that
    follows a failure ran to its end (or the context ended). *)
Inductive ship_event := Recv (e : Entry) | Timer | Attempt (r : option push_error) (now : time) (slept : bool).

Definition with_batch (s : shipper) (b : list Entry) (buf : bytes) (p : bool) (m : mode) : shipper := {|
  sh_batch := b; sh_buf := buf; sh_pending := p; sh_mode := m; sh_ctxDone := sh_ctxDone s; sh_stats := sh_stats s;
  sh_acked := sh_acked s; sh_log := sh_log s |}.

(** [deliver] begins: [wait := time.Second]. *)
Definition begin_delivery (s : shipper) (held : option (Entry * bytes)) : shipper :=
  with_batch s (sh_batch s) (sh_buf s) (sh_pending s) (Delivering second held).

(** The end of the receive case: write the line, append, flush when full. *)
Definition add_line (cfg : ShipperConfig) (s : shipper) (e : Entry) (line : bytes) : shipper :=
  let s' := with_batch s (sh_batch s ++ [e]) (sh_buf s ++ line) true Idle in
  if MaxBatchLines cfg <=? len (sh_batch s') then begin_delivery s' None else s'.

(** After [deliver]: the batch and the buffer are emptied, and the held entry added. *)
Definition end_delivery (cfg : ShipperConfig) (s : shipper) (held : option (Entry * bytes)) : shipper :=
  let s' := with_batch s [] [] false Idle in
  match held with Some (e, line) => add_line cfg s' e line | None => s' end.

(** [ack(batch)], after the batch was shipped or dropped. *)
Definition answered (s : shipper) (r : option push_error) (st : Stats) : shipper := {|
  sh_batch := sh_batch s; sh_buf := sh_buf s; sh_pending := sh_pending s; sh_mode := sh_mode s; sh_ctxDone := sh_ctxDone s;
  sh_stats := st; sh_acked := sh_acked s ++ sh_batch s; sh_log := sh_log s ++ [(sh_batch s, sh_buf s, r)] |}.

Definition next_wait (r : option push_error) (wait : duration) : duration :=
  match r with
  | Some ErrPaused | Some (ErrRejected _) => 10 * second
  | Some (ErrBusy _ d) => if 0 <? d then d else wait
  | _ => wait
  end.

(** One turn of the loop of [deliver]. *)
Definition deliver_attempt (cfg : ShipperConfig) (s : shipper) (wait : duration) (held : option (Entry * bytes))
    (r : option push_error) (now : time) (slept : bool) : shipper :=
  match r with
  | None => end_delivery cfg (answered s r (shipped (sh_stats s) (sh_batch s) (len (sh_buf s)) now)) held
  | Some (ErrRefused _) => end_delivery cfg (answered s r (droppedN (sh_stats s) (B "refused") (len (sh_batch s)))) held
  | _ =>
      let wait := next_wait r wait in
      let s' := {| sh_batch := sh_batch s; sh_buf := sh_buf s; sh_pending := sh_pending s; sh_mode := sh_mode s;
                   sh_ctxDone := sh_ctxDone s || negb slept; sh_stats := retry (sh_stats s); sh_acked := sh_acked s; sh_log := sh_log s |} in
      if slept then with_batch s' (sh_batch s') (sh_buf s') (sh_pending s') (Delivering (Z.min (wrap_i64 (wait * 2)) minute) held)
      else end_delivery cfg s' held
  end.

Section Shipping.
Context (encode : Entry -> option bytes).

(** [None]: the event cannot occur in the state.  Once the context has ended
    every request fails and no sleep runs to its end. *)
Definition ship_step (cfg : ShipperConfig) (s : shipper) (ev : ship_event) : option shipper :=
  match ev, sh_mode s with
  | Recv e, Idle =>
      match encode e with
      | None => Some {| sh_batch := sh_batch s; sh_buf := sh_buf s; sh_pending := sh_pending s; sh_mode := Idle; sh_ctxDone := sh_ctxDone s;
                        sh_stats := dropped (sh_stats s) (B "encode"); sh_acked := sh_acked s ++ [e]; sh_log := sh_log s |}
      | Some line =>
          if (0 <? len (sh_batch s)) && (MaxBatchBytes cfg <? len (sh_buf s) + len line)
          then Some (begin_delivery s (Some (e, line)))
          else Some (add_line cfg s e line)
      end
  | Timer, Idle =>
      match sh_batch s with
      | [] => Some (with_batch s [] [] false Idle)
      | _ => Some (begin_delivery s None)
      end
  | Attempt r now slept, Delivering wait held =>
      if sh_ctxDone s && (slept || match r with None | Some (ErrRefused _) => true | _ => false end) then None
      else Some (deliver_attempt cfg s wait held r now slept)
  | _, _ => None
  end.

Fixpoint ship_run (cfg : ShipperConfig) (s : shipper) (evs : list ship_event) : option shipper :=
  match evs with
  | [] => Some s
  | ev :: t => s' ← ship_step cfg s ev; ship_run cfg s' t
  end.

Definition received (evs : list ship_event) : list Entry := omap (fun ev => match ev with Recv e => Some e | _ => None end) evs.
Definition held_entries (m : mode) : list Entry := match m with Delivering _ (Some (e, _)) => [e] | _ => [] end.

(** The lines of a batch, as they stand in the buffer. *)
Definition lines_of (b : list Entry) : bytes := concat (map (fun e => default [] (encode e)) b).

(** A batch that may be posted: within both limits, or a single line. *)
Definition batch_ok (cfg : ShipperConfig) (b : list Entry) (payload : bytes) : Prop :=
  payload = lines_of b /\ len b <= MaxBatchLines cfg /\ (len payload <= MaxBatchBytes cfg \/ length b = 1%nat).

Definition final (r : option push_error) : Prop := r = None \/ exists st, r = Some (ErrRefused st).

(** Every entry can be rendered: [json.Marshal] does not fail on a map of
    strings. *)
Hypothesis Hencode : forall e, is_Some (encode e).
Context (cfg : ShipperConfig).
Hypothesis Hlines : 0 < MaxBatchLines cfg.

(** [rcvd] are the entries received so far. *)
Record ship_inv (rcvd : list Entry) (s : shipper) : Prop := {
  si_prefix : exists lost, rcvd = sh_acked s ++ lost ++ sh_batch s ++ held_entries (sh_mode s) /\ (sh_ctxDone s = false -> lost = []);
  si_batch : sh_buf s = lines_of (sh_batch s) /\ (sh_batch s = [] \/ batch_ok cfg (sh_batch s) (sh_buf s));
  si_mode : match sh_mode s with
            | Idle => len (sh_batch s) < MaxBatchLines cfg
            | Delivering wait held => sh_batch s <> [] /\ wait <= minute
                /\ match held with Some (e, line) => encode e = Some line | None => True end
            end;
  si_log : sh_acked s = concat (map (fun d => d.1.1) (sh_log s))
    /\ Forall (fun d => batch_ok cfg d.1.1 d.1.2 /\ d.1.1 <> [] /\ final d.2) (sh_log s) }.

Lemma lines_of_snoc (b : list Entry) (e : Entry) (line : bytes) : encode e = Some line -> lines_of (b ++ [e]) = lines_of b ++ line.
Proof. intros He. unfold lines_of. rewrite map_app, concat_app. cbn. by rewrite He, app_nil_r. Qed.

Lemma inv_add_line (rcvd : list Entry) (s : shipper) (e : Entry) (line : bytes) :
  ship_inv rcvd s -> sh_mode s = Idle -> encode e = Some line ->
  (len (sh_batch s) = 0 \/ len (sh_buf s) + len line <= MaxBatchBytes cfg) -> ship_inv (rcvd ++ [e]) (add_line cfg s e line).
Proof.
  intros [(lost & Hr & Hlost) (Hbuf & Hb) Hm Hlog] Hidle He Hfit. rewrite Hidle in *.
  assert (Hok : sh_buf s ++ line = lines_of (sh_batch s ++ [e]) /\ batch_ok cfg (sh_batch s ++ [e]) (sh_buf s ++ line)).
  { assert (Hl : sh_buf s ++ line = lines_of (sh_batch s ++ [e])) by (by rewrite (lines_of_snoc _ _ line), Hbuf).
    split; [done|]. split; [done|]. unfold len in *. rewrite !length_app. cbn [length]. split; [lia|]. lia. }
  assert (Hpre : rcvd ++ [e] = sh_acked s ++ lost ++ (sh_batch s ++ [e]) ++ []).
  { rewrite Hr. cbn [held_entries]. by rewrite !app_nil_r, <- !app_assoc. }
  destruct Hok as [Hl Hok]. unfold add_line. cbn [with_batch sh_batch].
  destruct (Z.leb_spec (MaxBatchLines cfg) (len (sh_batch s ++ [e]))) as [Hfull|Hfull];
    constructor; cbn [begin_delivery with_batch sh_batch sh_buf sh_mode sh_ctxDone sh_acked sh_log held_entries]; eauto.
  split; [by destruct (sh_batch s)|]. split; [done|done].
Qed.

Lemma inv_begin (rcvd : list Entry) (s : shipper) (held : option (Entry * bytes)) :
  ship_inv rcvd s -> sh_mode s = Idle -> sh_batch s <> [] -> match held with Some (e, line) => encode e = Some line | None => True end ->
  ship_inv (rcvd ++ match held with Some (e, _) => [e] | None => [] end) (begin_delivery s held).
Proof.
  intros [(lost & Hr & Hlost) Hb Hm Hlog] Hidle Hne Hh. rewrite Hidle in *. constructor; cbn; [|done|by split_and!|done].
  exists lost. split; [|done]. rewrite Hr. cbn [held_entries]. rewrite !app_nil_r, <- !app_assoc. by destruct held as [[e line]|].
Qed.

(** The entries received up to the held one, seen from the emptied shipper. *)
Lemma inv_end (rcvd : list Entry) (s : shipper) (held : option (Entry * bytes)) (lost : list Entry) :
  rcvd = sh_acked s ++ lost ++ held_entries (Delivering second held) -> (sh_ctxDone s = false -> lost = []) ->
  match held with Some (e, line) => encode e = Some line | None => True end ->
  sh_acked s = concat (map (fun d => d.1.1) (sh_log s)) ->
  Forall (fun d => batch_ok cfg d.1.1 d.1.2 /\ d.1.1 <> [] /\ final d.2) (sh_log s) ->
  ship_inv rcvd (end_delivery cfg s held).
Proof.
  intros Hr Hlost Hh Hl1 Hl2. unfold end_delivery.
  assert (Hempty : ship_inv (sh_acked s ++ lost) (with_batch s [] [] false Idle)).
  { constructor; cbn [with_batch sh_batch sh_buf sh_mode sh_ctxDone sh_acked sh_log held_entries].
    - exists lost. by rewrite !app_nil_r.
    - split; [done|by left].
    - done.
    - done. }
  destruct held as [[e line]|]; cbn [held_entries] in Hr.
  - rewrite Hr, app_assoc. apply inv_add_line; try done. by left.
  - by rewrite Hr, app_nil_r.
Qed.

Lemma inv_attempt (rcvd : list Entry) (s s' : shipper) (r : option push_error) (now : time) (slept : bool) :
  ship_inv rcvd s -> ship_step cfg s (Attempt r now slept) = Some s' -> ship_inv rcvd s'.
Proof.
  intros [(lost & Hr & Hlost) (Hbuf & Hb) Hm [Hl1 Hl2]] Hstep. cbn [ship_step] in Hstep.
  destruct (sh_mode s) as [|wait held] eqn:Hmode; [done|]. destruct Hm as (Hne & Hw & Hh).
  destruct Hb as [Hb|Hb]; [done|].
  destruct (sh_ctxDone s && _) eqn:Hc; [done|]. injection Hstep as <-.
  assert (Hans : final r -> sh_ctxDone s = false -> forall st, ship_inv rcvd (end_delivery cfg (answered s r st) held)).
  { intros Hf Hd st. apply (inv_end _ _ _ []); cbn [answered sh_acked sh_ctxDone sh_log]; [|done|done| |].
    - rewrite (Hlost Hd) in Hr. rewrite Hr. cbn [app held_entries]. by rewrite <- app_assoc.
    - rewrite map_app, concat_app, <- Hl1. cbn. by rewrite app_nil_r.
    - apply Forall_app. split; [done|]. by constructor. }
  assert (Hretry : ship_inv rcvd
    (let s1 := {| sh_batch := sh_batch s; sh_buf := sh_buf s; sh_pending := sh_pending s; sh_mode := sh_mode s;
                  sh_ctxDone := sh_ctxDone s || negb slept; sh_stats := retry (sh_stats s); sh_acked := sh_acked s; sh_log := sh_log s |} in
     if slept then with_batch s1 (sh_batch s1) (sh_buf s1) (sh_pending s1) (Delivering (Z.min (wrap_i64 (next_wait r wait * 2)) minute) held)
     else end_delivery cfg s1 held)).
  { destruct slept; cbv zeta.
    - constructor; cbn; [|by split; [|right]|split_and!; [done|apply Z.le_min_r|done]|done].
      exists lost. split; [done|]. rewrite orb_false_r. done.
    - apply (inv_end _ _ _ (lost ++ sh_batch s)); cbn; [|by rewrite orb_true_r|done..]. rewrite Hr. by rewrite <- !app_assoc. }
  unfold deliver_attempt. destruct r as [[]|]; try exact Hretry.
  - apply Hans; [right; eauto|]. apply not_true_is_false. intros Hd. rewrite Hd in Hc. by destruct slept.
  - apply Hans; [by left|]. apply not_true_is_false. intros Hd. rewrite Hd in Hc. by destruct slept.
Qed.

Lemma inv_step (rcvd : list Entry) (s s' : shipper) (ev : ship_event) :
  ship_inv rcvd s -> ship_step cfg s ev = Some s' -> ship_inv (rcvd ++ received [ev]) s'.
Proof.
  intros Hi Hs. destruct ev as [e| |r now slept]; cbn [received omap list_omap].
  - cbn [ship_step] in Hs. destruct (sh_mode s) eqn:Hm; [|done]. destruct (Hencode e) as [line He]. rewrite He in Hs.
    destruct ((0 <? len (sh_batch s)) && (MaxBatchBytes cfg <? len (sh_buf s) + len line)) eqn:Hf; simplify_eq.
    + apply (inv_begin rcvd s (Some (e, line))); try done. apply andb_true_iff in Hf as [Hf _]. intros H0. by rewrite H0 in Hf.
    + apply inv_add_line; try done. unfold len in *. lia.
  - rewrite app_nil_r. cbn [ship_step] in Hs. destruct (sh_mode s) eqn:Hm; [|done]. destruct (sh_batch s) eqn:Hb; simplify_eq.
    + destruct Hi as [(lost & Hr & Hlost) _ _ Hlog]. constructor; cbn; [|by split; [|left]|done|done].
      exists lost. by rewrite Hr, Hb, Hm.
    + rewrite <- (app_nil_r rcvd). apply (inv_begin rcvd s None); try done. by rewrite Hb.
  - rewrite app_nil_r. by eapply inv_attempt.
Qed.

Lemma ship_run_inv (evs : list ship_event) (rcvd : list Entry) (s s' : shipper) :
  ship_inv rcvd s -> ship_run cfg s evs = Some s' -> ship_inv (rcvd ++ received evs) s'.
Proof.
  revert rcvd s. induction evs as [|ev evs IH]; intros rcvd s Hi Hr; cbn [ship_run] in Hr.
  - simplify_eq. by rewrite app_nil_r.
  - destruct (ship_step cfg s ev) as [s1|] eqn:Hs; [|done]. cbn in Hr. apply (inv_step _ _ _ _ Hi) in Hs. apply (IH _ _ Hs) in Hr.
    rewrite <- app_assoc in Hr. unfold received in *. cbn [omap list_omap] in *. by destruct ev.
Qed.

Lemma ship_inv_start : ship_inv [] ship_start.
Proof. constructor; cbn; [exists []; by split|split; [done|by left]|done|by split]. Qed.

(** C2: whatever the network answers and whenever the timer fires or the
    context ends, the entries acknowledged are a prefix, in order, of the
    entries received, so a source's position never passes a line that was not
    answered for; they are exactly the batches the server accepted or refused
    for good, each posted within the limits (or a single line) as the lines of
    its entries; and until the context ends the entries received and not
    acknowledged are exactly those of the current batch and the one held
    back, so nothing is dropped silently. *)
Theorem ship_in_order (evs : list ship_event) (s : shipper) :
  ship_run cfg ship_start evs = Some s ->
  (exists rest, received evs = sh_acked s ++ rest)
  /\ (sh_ctxDone s = false -> received evs = sh_acked s ++ sh_batch s ++ held_entries (sh_mode s))
  /\ sh_acked s = concat (map (fun d => d.1.1) (sh_log s))
  /\ Forall (fun d => batch_ok cfg d.1.1 d.1.2 /\ final d.2) (sh_log s)
  /\ len (sh_batch s) <= MaxBatchLines cfg.
Proof.
  intros Hr. destruct (ship_run_inv evs [] ship_start s ship_inv_start Hr) as [(lost & Hp & Hl) (Hbuf & Hb) Hm [Hl1 Hl2]].
  cbn [app] in Hp. split_and!; [by eexists| |done| |].
  - intros Hd. by rewrite Hp, (Hl Hd).
  - eapply Forall_impl; [exact Hl2|]. by intros d (H1 & _ & H3).
  - destruct Hb as [->|(_ & Hb & _)]; [unfold len; cbn [length]; lia|done].
Qed.

(** A delivery ends at the first answer that accepts or refuses the batch,
    however many attempts failed before it. *)
Lemma delivery_ends (s : shipper) (wait : duration) (held : option (Entry * bytes)) (fails : list (push_error * time)) (r : option push_error) (now : time) :
  sh_mode s = Delivering wait held -> sh_ctxDone s = false -> final r ->
  Forall (fun f => ~ final (Some f.1)) fails ->
  exists s', ship_run cfg s (map (fun f => Attempt (Some f.1) f.2 true) fails ++ [Attempt r now true]) = Some s'
    /\ sh_acked s' = sh_acked s ++ sh_batch s /\ sh_ctxDone s' = false
    /\ sh_log s' = sh_log s ++ [(sh_batch s, sh_buf s, r)].
Proof.
  intros Hm Hd Hf Hfails. revert s wait Hm Hd. induction Hfails as [|[e t] fails He _ IH]; intros s wait Hm Hd.
  - cbn [map app ship_run ship_step]. rewrite Hm, Hd. cbn [andb mbind option_bind]. eexists. split; [done|].
    assert (Hend : forall st, sh_acked (end_delivery cfg (answered s r st) held) = sh_acked s ++ sh_batch s
      /\ sh_ctxDone (end_delivery cfg (answered s r st) held) = sh_ctxDone s
      /\ sh_log (end_delivery cfg (answered s r st) held) = sh_log s ++ [(sh_batch s, sh_buf s, r)]).
    { intros st. unfold end_delivery. destruct held as [[e line]|]; [|done]. unfold add_line. by case_match. }
    rewrite <- Hd. destruct Hf as [->|[st ->]]; apply Hend.
  - cbn [map app ship_run ship_step]. rewrite Hm, Hd. cbn [andb mbind option_bind fst snd].
    assert (Hr : exists w, deliver_attempt cfg s wait held (Some e) t true =
      with_batch {| sh_batch := sh_batch s; sh_buf := sh_buf s; sh_pending := sh_pending s; sh_mode := sh_mode s;
                    sh_ctxDone := sh_ctxDone s || false; sh_stats := retry (sh_stats s); sh_acked := sh_acked s; sh_log := sh_log s |}
        (sh_batch s) (sh_buf s) (sh_pending s) (Delivering w held)).
    { unfold deliver_attempt. destruct e; try (by eexists). exfalso. apply He. right. eauto. }
    destruct Hr as [w ->].
    match goal with |- context [ship_run cfg ?x _] => destruct (IH x w) as (s' & H1 & H2 & H3 & H4) end; [done|cbn; by rewrite Hd|].
    exists s'. by split_and!.
Qed.
End Shipping.

Definition demo_enc (e : Entry) : option bytes := Some (e_Msg e ++ [newline]).
Definition demo_entry (s : string) : Entry := demo_parse [] [] (B s).
Definition demo_cfg : ShipperConfig := NewShipper {| MaxBatchLines := 2; MaxBatchBytes := 0; FlushEvery := 0; Hostname := "h"; AgentID := "a" |}.

(** Two lines fill a batch, the server is busy once and then takes it; a third
    line waits for the timer. *)
Lemma ship_in_order_witness :
  exists s, ship_run demo_enc demo_cfg ship_start
      [Recv (demo_entry "a"); Recv (demo_entry "b"); Attempt (Some (ErrBusy 503 0)) 1 true; Attempt None 2 true; Recv (demo_entry "c")] = Some s
    /\ map e_Msg (sh_acked s) = [B "a"; B "b"] /\ map e_Msg (sh_batch s) = [B "c"]
    /\ len (sh_batch s) <= MaxBatchLines demo_cfg.
Proof.
  eexists. split; [reflexivity|]. split; [reflexivity|]. split; [reflexivity|].
  apply (ship_in_order demo_enc (fun e => ltac:(by eexists)) demo_cfg ltac:(done)
    [Recv (demo_entry "a"); Recv (demo_entry "b"); Attempt (Some (ErrBusy 503 0)) 1 true; Attempt None 2 true; Recv (demo_entry "c")]).
  reflexivity.
Defined.
