(* ===== verification/LogDiscover.v ===== *)
(** * Finding the logs of a host

    [src/internal/logs/discover.go] (the plan), [docker.go] (log files mounted
    from containers) and [rsyslog.go] (files that are copies of the catch-all
    one).  What the file system answers — globs, existence, file contents —
    is given by parameters; a decoded container configuration is a record. *)
From S2P Require Import Prelude GoStrings GoRegexp LogTail LogAllow.
Local Open Scope Z_scope.

(** ** Parser names (parse.go) *)
Definition ParserPlain : bytes := B "plain".
Definition ParserSyslog : bytes := B "syslog".
Definition ParserNginxAccess : bytes := B "nginx_access".
Definition ParserNginxError : bytes := B "nginx_error".
Definition ParserPHPFPM : bytes := B "php_fpm".
Definition ParserMySQL : bytes := B "mysql".
Definition ParserJSON : bytes := B "json".
Definition ParserDockerJSON : bytes := B "docker_json".
Definition ParserAuto : bytes := B "auto".
Definition ParserNginxAny : bytes := B "nginx_any".
Definition ParserApacheAny : bytes := B "apache_any".

(** ** Paths *)
Definition IsAbs (p : bytes) : bool := HasPrefix p [sep].
(** [filepath.Join] of two elements. *)
Definition path_Join (a b : bytes) : bytes :=
  match a, b with
  | [], [] => []
  | [], _ => Clean b
  | _, [] => Clean a
  | _, _ => Clean (a ++ sep :: b)
  end.
Definition Dir (p : bytes) : bytes :=
  Clean (match LastIndexByte p sep with Some i => take (Datatypes.S i) p | None => [] end).

(** ** rsyslog *)
Definition facilityFiles : list (bytes * list bytes) :=
  [ (B "auth", map B ["/var/log/auth.log"; "/var/log/secure"]);
    (B "cron", map B ["/var/log/cron.log"; "/var/log/cron"]);
    (B "kern", [B "/var/log/kern.log"]);
    (B "mail", map B ["/var/log/mail.log"; "/var/log/maillog"; "/var/log/mail.err"]);
    (B "user", [B "/var/log/user.log"]);
    (B "daemon", [B "/var/log/daemon.log"]) ].

(** The facilities a catch-all selector leaves out. *)
Definition excluded_by (sel : bytes) : gset bytes :=
  list_to_set (mjoin (map (fun part =>
    match Cut part "."%char with
    | Some (facs, prio) => if bool_decide (prio = B "none") then map TrimSpace (Split facs ","%char) else []
    | None => []
    end) (Split sel ";"%char))).

(** The selector of a line that writes to the catch-all file. *)
Definition catch_all (line : bytes) : option bytes :=
  let fields := Fields line in
  match fields with
  | f0 :: _ :: _ =>
      if HasPrefix f0 (B "#") then None
      else
        let action := TrimPrefix (List.last fields []) (B "-") in
        if bool_decide (action = B "/var/log/syslog") || bool_decide (action = B "/var/log/messages") then
          let sel := concat (removelast fields) in
          if Contains sel (B "*.") then Some sel else None
        else None
  | _ => None
  end.

(** One file, line by line: the facilities left out by the last selector seen,
    [None] while there is none. *)
Definition scan_conf (excluded : option (gset bytes)) (text : bytes) : option (gset bytes) :=
  foldl (fun ex line => match catch_all line with Some sel => Some (excluded_by sel) | None => ex end) excluded (ScanLines text).1.

Fixpoint scan_confs (confs : list (option bytes)) : option (gset bytes) :=
  match confs with
  | [] => None
  | None :: t => scan_confs t
  | Some text :: t => match scan_conf None text with Some ex => Some ex | None => scan_confs t end
  end.

Definition facility_copied (excluded : gset bytes) (fac : bytes) : bool :=
  negb (bool_decide (fac ∈ excluded) || (bool_decide (fac = B "auth") && bool_decide (B "authpriv" ∈ excluded))).

(** [syslogCopies]; a configuration that cannot be opened is [None]. *)
Definition syslogCopies (confs : list (option bytes)) : gset bytes :=
  match scan_confs confs with
  | None => ∅
  | Some excluded => list_to_set (mjoin (map snd (List.filter (fun f => facility_copied excluded f.1) facilityFiles)))
  end.

(** ** Specs *)
Definition known (source : string) (parser : bytes) (globs : list string) : FileSpec :=
  {| sp_Source := B source; Globs := map B globs; Exclude := []; sp_Parser := parser; Container := [] |}.

Definition knownLogs : list FileSpec :=
  [ known "syslog" ParserSyslog ["/var/log/syslog"; "/var/log/messages"; "/var/log/daemon.log"; "/var/log/user.log"];
    known "auth" ParserSyslog ["/var/log/auth.log"; "/var/log/secure"];
    known "kernel" ParserSyslog ["/var/log/kern.log"];
    known "cron" ParserSyslog ["/var/log/cron.log"; "/var/log/cron"];
    known "packages" ParserPlain ["/var/log/dpkg.log"; "/var/log/dnf.log"; "/var/log/yum.log"; "/var/log/apt/history.log"; "/var/log/unattended-upgrades/unattended-upgrades.log"];
    known "nginx" ParserNginxAccess ["/var/log/nginx/*access*.log"; "/var/log/nginx/*analytics*.log"];
    known "nginx" ParserNginxError ["/var/log/nginx/*error*.log"];
    known "apache" ParserNginxAccess ["/var/log/apache2/*access*.log"; "/var/log/httpd/*access*_log"; "/var/log/httpd/*access*.log"];
    known "apache" ParserPlain ["/var/log/apache2/*error*.log"; "/var/log/httpd/*error*_log"; "/var/log/httpd/*error*.log"];
    known "php-fpm" ParserPHPFPM ["/var/log/php*-fpm.log"; "/var/log/php-fpm/*.log"; "/var/log/php-fpm*/*error*.log"; "/var/log/php-fpm*/*slow*.log"; "/var/log/php*/*error*.log"];
    known "php-fpm" ParserPlain ["/var/log/php-fpm*/*access*.log"];
    known "mysql" ParserMySQL ["/var/log/mysql/*.log"; "/var/log/mariadb/*.log"; "/var/log/mysqld.log"; "/var/lib/mysql/*.err"; "/var/lib/mysql/*slow*.log"];
    known "postgresql" ParserAuto ["/var/log/postgresql/*.log"];
    known "redis" ParserPlain ["/var/log/redis/*.log"];
    known "mongodb" ParserJSON ["/var/log/mongodb/*.log"];
    known "mail" ParserSyslog ["/var/log/mail.log"; "/var/log/maillog"; "/var/log/mail.err"];
    known "exim" ParserPlain ["/var/log/exim4/mainlog"; "/var/log/exim4/rejectlog"; "/var/log/exim4/paniclog"; "/var/log/exim/main.log"; "/var/log/exim/reject.log"; "/var/log/exim/panic.log"];
    known "dovecot" ParserSyslog ["/var/log/dovecot*.log"];
    known "ftp" ParserPlain ["/var/log/vsftpd.log"; "/var/log/xferlog"; "/var/log/proftpd/*.log"];
    known "fail2ban" ParserPlain ["/var/log/fail2ban.log"];
    known "clamav" ParserPlain ["/var/log/clamav/*.log"];
    known "docker" ParserDockerJSON ["/var/lib/docker/containers/*/*-json.log"];
    known "app" ParserAuto ["/home/*/logs/*.log"; "/home/*/logs/*/*.log"; "/var/www/*/logs/*.log"; "/var/www/*/log/*.log"; "/var/log/yomins/*.log"] ].

Definition withoutCopies (globs : list bytes) (copies : gset bytes) : list bytes :=
  List.filter (fun g => negb (bool_decide (g ∈ copies))) globs.

Definition reSourceName : re := MustCompile "^[a-z0-9][a-z0-9_-]{0,31}$".

Definition SplitTyped (g : bytes) : bytes * bytes :=
  match Cut g ":"%char with
  | Some (name, rest) => if HasPrefix rest [sep] && MatchString reSourceName name then (name, rest) else ([], g)
  | None => ([], g)
  end.

Definition sourceParsers : list (bytes * bytes) :=
  [ (B "nginx", ParserNginxAny); (B "apache", ParserApacheAny); (B "php-fpm", ParserPHPFPM); (B "mysql", ParserMySQL);
    (B "syslog", ParserSyslog); (B "auth", ParserSyslog); (B "kernel", ParserSyslog); (B "cron", ParserSyslog); (B "mail", ParserSyslog);
    (B "json", ParserJSON); (B "docker", ParserDockerJSON); (B "plain", ParserPlain) ].

Definition sourceAliases : list (bytes * bytes) :=
  [ (B "mariadb", B "mysql"); (B "php", B "php-fpm"); (B "apache2", B "apache"); (B "httpd", B "apache") ].

Definition assoc (l : list (bytes * bytes)) (k : bytes) : option bytes :=
  (fun p => p.2) <$> List.find (fun p => bool_decide (p.1 = k)) l.

(** The source and parser of one extra glob, and the glob. *)
Definition extra_one (g : bytes) : bytes * bytes * bytes :=
  let '(source, glob) := SplitTyped g in
  let source := default source (assoc sourceAliases source) in
  match source with
  | [] => (B "custom", ParserAuto, glob)
  | _ => (source, default ParserAuto (assoc sourceParsers source), glob)
  end.

(** The loop of [extraSpecs]: [bySource] holds indices into [out]. *)
Definition extra_step (exclude : list bytes) (st : list FileSpec * gmap bytes nat) (g : bytes) : list FileSpec * gmap bytes nat :=
  let '(out, bySource) := st in
  let '(source, parser, glob) := extra_one g in
  match bySource !! source with
  | Some i =>
      (alter (fun sp => {| sp_Source := sp_Source sp; Globs := Globs sp ++ [glob]; Exclude := Exclude sp;
                           sp_Parser := sp_Parser sp; Container := Container sp |}) i out, bySource)
  | None =>
      (out ++ [{| sp_Source := source; Globs := [glob]; Exclude := exclude; sp_Parser := parser; Container := [] |}],
       <[source := length out]> bySource)
  end.
Definition extraSpecs (extra exclude : list bytes) : list FileSpec := (foldl (extra_step exclude) ([], ∅) extra).1.

(** ** Containers *)
Record mount := { m_Source : bytes; m_Destination : bytes }.
Record container := { c_ID : bytes; c_Name : bytes; c_Image : bytes; c_Mounts : list mount }.
(** The decoded [config.v2.json]; the mounts in the order a range visits them. *)
Record raw_container := { r_ID : bytes; r_Name : bytes; r_Image : bytes; r_MountPoints : list mount }.

Definition readContainer (read : bytes -> option raw_container) (configPath : bytes) : option container :=
  raw ← read configPath;
  Some {| c_ID := match r_ID raw with [] => Base (Dir configPath) | id => id end;
          c_Name := TrimPrefix (r_Name raw) [sep];
          c_Image := r_Image raw;
          c_Mounts := map (fun m => {| m_Source := Clean (m_Source m); m_Destination := Clean (m_Destination m) |})
                        (List.filter (fun m => negb (bool_decide (m_Source m = [])) && IsAbs (m_Source m) && IsAbs (m_Destination m)) (r_MountPoints raw)) |}.

Definition containerOfLog (read : bytes -> option raw_container) (path : bytes) : option container :=
  readContainer read (path_Join (Dir path) (B "config.v2.json")).

Definition hostGlob (g : bytes) (m : mount) : option bytes :=
  if bool_decide (m_Destination m = [sep]) then None
  else path_Join (m_Source m) <$> CutPrefix g (m_Destination m ++ [sep]).

Section host.
(** [filepath.Glob], [os.Stat] without an error, the rsyslog files (main
    first), and the containers' configuration files. *)
Context (Glob : bytes -> list bytes) (exists_ : bytes -> bool) (rsyslogConfs : list (option bytes)) (read_config : bytes -> option raw_container).
Definition dockerRoot : bytes := B "/var/lib/docker".

Definition dockerContainers : list container :=
  omap (readContainer read_config) (Glob (dockerRoot ++ B "/containers/*/config.v2.json")).

Fixpoint anyMatch (globs : list bytes) : bool :=
  match globs with
  | [] => false
  | g :: t => match Glob g with [] => anyMatch t | _ => true end
  end.

(** The inner loops of [containerLogSpecs]; [seen] goes through all of them. *)
Fixpoint host_globs (m : mount) (gs : list bytes) (seen : gset bytes) : list bytes * gset bytes :=
  match gs with
  | [] => ([], seen)
  | g :: t =>
      match hostGlob g m with
      | Some hg =>
          if bool_decide (hg ∈ seen) then host_globs m t seen
          else let '(l, seen') := host_globs m t ({[hg]} ∪ seen) in (hg :: l, seen')
      | None => host_globs m t seen
      end
  end.

Definition spec_step (c : container) (m : mount) (st : list FileSpec * gset bytes) (spec : FileSpec) : list FileSpec * gset bytes :=
  let '(out, seen) := st in
  if bool_decide (sp_Source spec = B "docker") then st
  else
    let '(globs, seen') := host_globs m (Globs spec) seen in
    (if negb (bool_decide (globs = [])) && anyMatch globs
     then out ++ [{| sp_Source := sp_Source spec; Globs := globs; Exclude := []; sp_Parser := sp_Parser spec; Container := c_Name c |}]
     else out, seen').

Definition mount_step (c : container) (st : list FileSpec * gset bytes) (m : mount) : list FileSpec * gset bytes :=
  foldl (spec_step c m) st knownLogs.
Definition container_step (st : list FileSpec * gset bytes) (c : container) : list FileSpec * gset bytes :=
  foldl (mount_step c) st (c_Mounts c).
Definition containerLogSpecs (containers : list container) : list FileSpec := (foldl container_step ([], ∅) containers).1.

Record Plan := { p_Files : list FileSpec; p_Journal : bool; p_ContainerAllow : list bytes }.

Definition with_exclude (exclude : list bytes) (sp : FileSpec) : FileSpec :=
  {| sp_Source := sp_Source sp; Globs := Globs sp; Exclude := exclude; sp_Parser := sp_Parser sp; Container := Container sp |}.
Definition with_globs (globs : list bytes) (sp : FileSpec) : FileSpec :=
  {| sp_Source := sp_Source sp; Globs := globs; Exclude := Exclude sp; sp_Parser := sp_Parser sp; Container := Container sp |}.

Definition Discover (extra exclude : list bytes) : Plan :=
  let copies := syslogCopies rsyslogConfs in
  let host_specs := List.filter (fun sp => anyMatch (Globs sp)) (map (fun sp => with_globs (withoutCopies (Globs sp) copies) sp) knownLogs) in
  let ctr := containerLogSpecs dockerContainers in
  {| p_Files := map (with_exclude exclude) host_specs ++ map (with_exclude exclude) ctr ++ extraSpecs extra exclude;
     p_Journal := negb (exists_ (B "/var/log/syslog")) && negb (exists_ (B "/var/log/messages")) && exists_ (B "/run/systemd/journal");
     p_ContainerAllow := concat (map Globs ctr) |}.
End host.

(** ** Clean absolute paths *)
Definition normal (e : bytes) : Prop := sep ∉ e /\ e <> [] /\ e <> B "." /\ e <> dotdot.

Lemma clean_step_normal (rooted : bool) (stack : list bytes) (e : bytes) : normal e -> clean_step rooted stack e = e :: stack.
Proof. intros (_ & H1 & H2 & H3). unfold clean_step. by rewrite !bool_decide_false. Qed.

Lemma clean_fold_normal (rooted : bool) (l stack : list bytes) :
  Forall normal l -> foldl (clean_step rooted) stack l = reverse l ++ stack.
Proof.
  intros H. revert stack. induction H as [|e l He _ IH]; intros stack; [done|]. cbn [foldl].
  rewrite clean_step_normal, IH, reverse_cons by done. by rewrite <-app_assoc.
Qed.

Lemma clean_normal (l stack : list bytes) :
  Forall (fun e => sep ∉ e) l -> Forall normal stack -> Forall normal (foldl (clean_step true) stack l).
Proof.
  revert stack. induction l as [|e l IH]; intros stack Hl Hs; [done|]. inversion Hl; subst. cbn [foldl]. apply IH; [done|].
  unfold clean_step. case_bool_decide; [done|]. case_bool_decide; [done|]. cbn [orb]. case_bool_decide as Hd.
  - destruct stack as [|top rest]; [done|]. inversion Hs as [|?? (_ & _ & _ & Ht) Hr]; subst. by rewrite bool_decide_false.
  - constructor; [|done]. by split_and!.
Qed.

Lemma Split_app (a b : bytes) : Split (a ++ sep :: b) sep = Split a sep ++ Split b sep.
Proof.
  induction a as [|c a IH]; cbn [app Split]; [by rewrite bool_decide_true|].
  destruct (bool_decide (c = sep)); [by rewrite IH|]. rewrite IH.
  pose proof (Split_nonempty a sep). by destruct (Split a sep).
Qed.

Lemma Join_app (l k : list bytes) : l <> [] -> k <> [] -> Join (l ++ k) sep = Join l sep ++ sep :: Join k sep.
Proof.
  intros Hl Hk. induction l as [|x l IH]; [done|]. destruct l as [|y l].
  - cbn [app]. by destruct k.
  - change (x :: y :: l) with ([x] ++ (y :: l)). change (Join (([x] ++ y :: l) ++ k) sep) with (x ++ sep :: Join ((y :: l) ++ k) sep).
    rewrite IH by done. change (Join ([x] ++ y :: l) sep) with (x ++ sep :: Join (y :: l) sep). by rewrite <-app_assoc.
Qed.

Lemma is_rooted_abs (p : bytes) : IsAbs p = true <-> is_rooted p = true.
Proof.
  unfold IsAbs, is_rooted. rewrite HasPrefix_spec. destruct p as [|c p]; [split; [by intros [? ?]|done]|].
  rewrite bool_decide_eq_true. split; [by intros [t [= -> _]]|intros ->; by exists p].
Qed.

(** Cleaning a clean absolute path followed by normal elements. *)
Lemma Clean_append (p : bytes) (rest : bytes) : IsAbs p = true -> Forall normal (Split rest sep) ->
  let src := Clean p in
  Clean (src ++ sep :: rest) = (if bool_decide (src = [sep]) then [] else src) ++ sep :: rest.
Proof.
  intros Ha Hn. apply is_rooted_abs in Ha. cbv zeta. unfold Clean at 2 3 4 5. rewrite Ha.
  assert (Forall normal (reverse (clean_elements p))) as Hk.
  { apply Forall_reverse. unfold clean_elements. rewrite Ha. apply clean_normal; [|done].
    apply Forall_forall. intros w. apply Split_no_sep. }
  set (els := reverse (clean_elements p)) in *. clearbody els. clear Ha p.
  unfold Clean, clean_elements. cbn [app is_rooted]. rewrite (bool_decide_true (sep = sep)) by done.
  rewrite app_comm_cons, Split_app, foldl_app.
  assert (foldl (clean_step true) [] (Split (sep :: Join els sep) sep) = reverse els) as ->.
  { cbn [Split]. rewrite bool_decide_true by done. cbn [foldl]. destruct els as [|e els]; [done|].
    rewrite Split_Join; [|eapply Forall_impl; [exact Hk|by intros x []]|done].
    change (clean_step true [] []) with (@nil bytes). rewrite clean_fold_normal by done. by rewrite app_nil_r. }
  rewrite clean_fold_normal by done. rewrite reverse_app, !reverse_involutive.
  destruct els as [|e els].
  - cbn [app Join]. rewrite bool_decide_true by done. by rewrite Join_Split.
  - rewrite Join_app, Join_Split by (done || apply Split_nonempty).
    rewrite bool_decide_false; [done|]. intros [= H]. apply (f_equal (fun s => Split s sep)) in H.
    change (Split (Join (e :: els) sep) sep = [[]]) in H. rewrite Split_Join in H; [|eapply Forall_impl; [exact Hk|by intros x []]|done].
    cbn in H. injection H as -> _. inversion Hk as [|? ? (_ & H & _)]; subst. done.
Qed.

(** ** Globs of containers *)
Definition normalb (e : bytes) : bool :=
  negb (bool_decide (sep ∈ e)) && negb (bool_decide (e ∈ [[]; B "."; dotdot])).

Lemma normalb_spec (e : bytes) : normalb e = true -> normal e.
Proof.
  unfold normalb. intros H. bool_hyps. apply bool_decide_eq_false in H, H0. rewrite !not_elem_of_cons in H0.
  destruct H0 as (? & ? & ? & _). by split_and!.
Qed.

Lemma known_globs_normal (spec : FileSpec) (g : bytes) :
  spec ∈ knownLogs -> g ∈ Globs spec -> exists t, Split g sep = [] :: t /\ Forall normal t.
Proof.
  intros Hs Hg.
  assert (forallb (fun sp => forallb (fun g => match Split g sep with [] :: t => forallb normalb t | _ => false end) (Globs sp)) knownLogs = true) as H
    by (vm_compute; reflexivity).
  rewrite forallb_forall in H. specialize (H spec (proj1 (list_elem_of_In _ _) Hs)).
  rewrite forallb_forall in H. specialize (H g (proj1 (list_elem_of_In _ _) Hg)).
  destruct (Split g sep) as [|[|] t]; try done. exists t. split; [done|]. rewrite forallb_forall in H.
  apply Forall_forall. intros e He. apply normalb_spec, H. by apply list_elem_of_In.
Qed.

Lemma hostGlob_inside (spec : FileSpec) (g p d h : bytes) : spec ∈ knownLogs -> g ∈ Globs spec ->
  IsAbs p = true -> IsAbs d = true -> hostGlob g {| m_Source := Clean p; m_Destination := Clean d |} = Some h ->
  exists rest, g = Clean d ++ sep :: rest /\ h = (if bool_decide (Clean p = [sep]) then [] else Clean p) ++ sep :: rest.
Proof.
  intros Hs Hg Hp Hd. unfold hostGlob. cbn [m_Source m_Destination]. case_bool_decide as Hroot; [done|].
  unfold CutPrefix. destruct (HasPrefix g (Clean d ++ [sep])) eqn:Hpre; [|done].
  apply HasPrefix_spec in Hpre as [rest Hrest]. rewrite <-app_assoc in Hrest. cbn [app] in Hrest.
  cbn [fmap option_fmap option_map]. rewrite Hrest at 1.
  replace (drop (length (Clean d ++ [sep])) (Clean d ++ sep :: rest)) with rest
    by (by rewrite (cons_middle sep (Clean d) rest), (app_assoc (Clean d)), drop_app_length).
  intros [= <-]. exists rest. split; [done|].
  destruct (known_globs_normal spec g Hs Hg) as (t & Ht & Hn). rewrite Hrest, Split_app in Ht.
  assert (is_rooted (Clean d) = true) as Hr.
  { apply is_rooted_abs in Hd. unfold Clean. by rewrite Hd. }
  assert (Forall normal (Split rest sep)) as Hnr.
  { destruct (Clean d) as [|c cd]; [done|]. cbn [is_rooted] in Hr. apply bool_decide_eq_true in Hr as ->.
    cbn [Split] in Ht. rewrite bool_decide_true in Ht by done. injection Ht as <-. by apply Forall_app in Hn as [_ ?]. }
  rewrite <-Clean_append by done. unfold path_Join.
  assert (Clean p <> []) by (unfold Clean; apply is_rooted_abs in Hp; by rewrite Hp).
  destruct (Clean p) as [|c cp]; [done|]. destruct rest as [|c0 rest]; [|done].
  cbn in Hnr. inversion Hnr as [|? ? (_ & ? & _)]; done.
Qed.

Lemma foldl_inv {A B} (P : A -> Prop) (f : A -> B -> A) (l : list B) (a : A) :
  P a -> (forall a x, x ∈ l -> P a -> P (f a x)) -> P (foldl f a l).
Proof.
  revert a. induction l as [|x l IH]; intros a Ha Hf; [done|]. cbn [foldl]. apply IH.
  - apply Hf; [left|done].
  - intros b y Hy. apply Hf. by right.
Qed.

Lemma host_globs_spec (m : mount) (gs : list bytes) (seen : gset bytes) :
  let '(l, seen') := host_globs m gs seen in
  NoDup l /\ (forall h, h ∈ l -> h ∉ seen /\ h ∈ seen' /\ exists g, g ∈ gs /\ hostGlob g m = Some h) /\ seen ⊆ seen'.
Proof.
  revert seen. induction gs as [|g gs IH]; intros seen; cbn [host_globs].
  { split_and!; [constructor|by intros h ?%not_elem_of_nil|done]. }
  destruct (hostGlob g m) as [hg|] eqn:Hg; [case_bool_decide as Hin|]; [| |].
  - specialize (IH seen). destruct (host_globs m gs seen) as [l seen']. destruct IH as (H1 & H2 & H3).
    split_and!; [done| |done]. intros h Hh. destruct (H2 h Hh) as (? & ? & g' & ? & ?). split_and!; [done..|]. exists g'. split; [by right|done].
  - specialize (IH ({[hg]} ∪ seen)). destruct (host_globs m gs ({[hg]} ∪ seen)) as [l seen']. destruct IH as (H1 & H2 & H3).
    split_and!; [| |set_solver].
    + constructor; [|done]. intros Hh. destruct (H2 hg Hh) as (? & _). set_solver.
    + intros h [->|Hh]%elem_of_cons.
      * split_and!; [done|set_solver|]. exists g. split; [left|done].
      * destruct (H2 h Hh) as (? & ? & g' & ? & ?). split_and!; [set_solver|done|]. exists g'. split; [by right|done].
  - specialize (IH seen). destruct (host_globs m gs seen) as [l seen']. destruct IH as (H1 & H2 & H3).
    split_and!; [done| |done]. intros h Hh. destruct (H2 h Hh) as (? & ? & g' & ? & ?). split_and!; [done..|]. exists g'. split; [by right|done].
Qed.

Section container_specs.
Context (Glob : bytes -> list bytes) (containers : list container).

(** Where a glob of a container spec comes from. *)
Definition glob_origin (sp : FileSpec) (h : bytes) : Prop :=
  exists c m spec g, c ∈ containers /\ m ∈ c_Mounts c /\ spec ∈ knownLogs /\ g ∈ Globs spec /\ hostGlob g m = Some h
    /\ Container sp = c_Name c /\ sp_Source sp = sp_Source spec /\ sp_Parser sp = sp_Parser spec.

Definition specs_inv (st : list FileSpec * gset bytes) : Prop :=
  NoDup (concat (map Globs st.1))
  /\ (forall h, h ∈ concat (map Globs st.1) -> h ∈ st.2)
  /\ (forall sp h, sp ∈ st.1 -> h ∈ Globs sp -> glob_origin sp h).

Lemma spec_step_inv (c : container) (m : mount) (st : list FileSpec * gset bytes) (spec : FileSpec) :
  c ∈ containers -> m ∈ c_Mounts c -> spec ∈ knownLogs -> specs_inv st -> specs_inv (spec_step Glob c m st spec).
Proof.
  intros Hc Hm Hs (Hnd & Hseen & Hor). destruct st as [out seen]. cbn [fst snd] in *. unfold spec_step.
  case_bool_decide; [done|]. pose proof (host_globs_spec m (Globs spec) seen) as Hg.
  destruct (host_globs m (Globs spec) seen) as [globs seen']. destruct Hg as (Hl & Hin & Hsub).
  destruct (_ && _).
  - split_and!; cbn [fst snd]; rewrite ?map_app, ?concat_app; cbn [map concat]; rewrite ?app_nil_r.
    + apply NoDup_app. split_and!; [done| |done]. intros h Hh Hh'. destruct (Hin h Hh') as (Hno & _). by apply Hno, Hseen.
    + intros h [Hh|Hh]%elem_of_app; [by apply Hsub, Hseen|by apply Hin].
    + intros sp h [Hsp|Hsp]%elem_of_app Hh; [by apply Hor|]. apply list_elem_of_singleton in Hsp as ->. cbn [Globs] in Hh.
      destruct (Hin h Hh) as (_ & _ & g & Hg & Hhg). exists c, m, spec, g. by split_and!.
  - split_and!; cbn [fst snd]; [done| |done]. intros h Hh. by apply Hsub, Hseen.
Qed.

Lemma containerLogSpecs_inv : exists seen, specs_inv (containerLogSpecs Glob containers, seen).
Proof.
  unfold containerLogSpecs. exists (foldl (container_step Glob) ([], ∅) containers).2.
  rewrite <-surjective_pairing. apply foldl_inv.
  - split_and!; cbn; [constructor|by intros h ?%not_elem_of_nil|by intros sp h ?%not_elem_of_nil].
  - intros st c Hc Hst. unfold container_step. apply foldl_inv; [done|]. intros st1 m Hm Hst1.
    unfold mount_step. apply foldl_inv; [done|]. intros st2 spec Hs Hst2. by apply spec_step_inv.
Qed.
End container_specs.

Lemma readContainer_mounts (read : bytes -> option raw_container) (p : bytes) (c : container) (m : mount) :
  readContainer read p = Some c -> m ∈ c_Mounts c ->
  exists s d, IsAbs s = true /\ IsAbs d = true /\ m = {| m_Source := Clean s; m_Destination := Clean d |}.
Proof.
  unfold readContainer. destruct (read p) as [raw|]; [|done]. cbn [mbind option_bind]. intros [= <-]. cbn [c_Mounts].
  intros Hm. apply list_elem_of_In, in_map_iff in Hm as ([s d] & <- & Hf). apply filter_In in Hf as [_ Hf]. cbn in Hf. bool_hyps.
  by exists s, d.
Qed.

(** C32: what discovery through containers may read.  The globs that extend
    the allow list are all different, and each is a known log glob seen from
    the host: it is inside the source directory of a mount of a container
    whose destination holds that known glob, so a container gives the agent
    access to nothing else of the host. *)
Theorem container_allow_inside (Glob : bytes -> list bytes) (exists_ : bytes -> bool) (confs : list (option bytes))
    (read : bytes -> option raw_container) (extra exclude : list bytes) :
  let allow := p_ContainerAllow (Discover Glob exists_ confs read extra exclude) in
  NoDup allow
  /\ Forall (fun h => exists c m spec rest, c ∈ dockerContainers Glob read /\ m ∈ c_Mounts c /\ spec ∈ knownLogs
       /\ (m_Destination m ++ sep :: rest) ∈ Globs spec
       /\ h = (if bool_decide (m_Source m = [sep]) then [] else m_Source m) ++ sep :: rest) allow.
Proof.
  cbn [p_ContainerAllow Discover]. cbv zeta.
  destruct (containerLogSpecs_inv Glob (dockerContainers Glob read)) as (seen & Hnd & _ & Hor). cbn [fst] in *.
  split; [done|]. apply Forall_forall. intros h Hh. apply list_elem_of_In, in_concat in Hh as (gs & Hgs & Hh).
  apply in_map_iff in Hgs as (sp & <- & Hsp). apply list_elem_of_In in Hsp, Hh.
  destruct (Hor sp h Hsp Hh) as (c & m & spec & g & Hc & Hm & Hs & Hg & Hhg & _).
  pose proof Hc as Hc'. unfold dockerContainers in Hc'. apply list_elem_of_omap in Hc' as (p & _ & Hp).
  destruct (readContainer_mounts _ _ _ _ Hp Hm) as (s & d & Ha & Hd & ->).
  destruct (hostGlob_inside spec g s d h) as (rest & -> & ->); try done.
  exists c, {| m_Source := Clean s; m_Destination := Clean d |}, spec, rest. by split_and!.
Qed.

(** ** Extra globs, grouped *)
Definition source_of (g : bytes) : bytes := (extra_one g).1.1.
Definition glob_of (g : bytes) : bytes := (extra_one g).2.

(** The sources in the order they first appear. *)
Definition first_seen (acc : list bytes) (s : bytes) : list bytes := if bool_decide (s ∈ acc) then acc else acc ++ [s].
Definition sources (extra : list bytes) : list bytes := foldl first_seen [] (map source_of extra).

(** The group of a source: its globs in the order given. *)
Definition group (extra exclude : list bytes) (s : bytes) : FileSpec :=
  {| sp_Source := s; Globs := map glob_of (List.filter (fun g => bool_decide (source_of g = s)) extra); Exclude := exclude;
     sp_Parser := default ParserAuto (assoc sourceParsers s); Container := [] |}.

Lemma extra_parser (g : bytes) : (extra_one g).1.2 = default ParserAuto (assoc sourceParsers (source_of g)).
Proof.
  unfold source_of, extra_one. destruct (SplitTyped g) as [source glob]. by destruct (default source (assoc sourceAliases source)).
Qed.

Lemma sources_snoc (extra : list bytes) (g : bytes) : sources (extra ++ [g]) = first_seen (sources extra) (source_of g).
Proof. unfold sources. by rewrite map_app, foldl_app. Qed.

Lemma sources_mem (extra : list bytes) (g : bytes) : g ∈ extra -> source_of g ∈ sources extra.
Proof.
  induction extra as [|x extra IH] using rev_ind; [by intros ?%not_elem_of_nil|]. rewrite sources_snoc. unfold first_seen.
  intros [Hg|Hg]%elem_of_app; [apply IH in Hg; case_bool_decide; [done|]; apply elem_of_app; by left|].
  apply list_elem_of_singleton in Hg as ->. case_bool_decide; [done|]. apply elem_of_app. right. left.
Qed.

Lemma sources_nodup (extra : list bytes) : NoDup (sources extra).
Proof.
  induction extra as [|x extra IH] using rev_ind; [constructor|]. rewrite sources_snoc. unfold first_seen.
  case_bool_decide as H; [done|]. apply NoDup_app. split_and!; [done| |apply NoDup_singleton].
  intros s Hs ->%list_elem_of_singleton. done.
Qed.

Lemma group_other (extra exclude : list bytes) (g s : bytes) : source_of g <> s -> group (extra ++ [g]) exclude s = group extra exclude s.
Proof. intros H. unfold group. rewrite List.filter_app. cbn [List.filter]. by rewrite bool_decide_false, app_nil_r. Qed.

Lemma group_same (extra exclude : list bytes) (g : bytes) :
  group (extra ++ [g]) exclude (source_of g)
  = let sp := group extra exclude (source_of g) in
    {| sp_Source := sp_Source sp; Globs := Globs sp ++ [glob_of g]; Exclude := Exclude sp; sp_Parser := sp_Parser sp; Container := Container sp |}.
Proof. unfold group. cbn. rewrite List.filter_app, map_app. cbn [List.filter]. by rewrite bool_decide_true. Qed.

Lemma alter_group (l extra exclude : list bytes) (g : bytes) (i : nat) (f : FileSpec -> FileSpec) :
  NoDup l -> l !! i = Some (source_of g) -> f (group extra exclude (source_of g)) = group (extra ++ [g]) exclude (source_of g) ->
  alter f i (map (group extra exclude) l) = map (group (extra ++ [g]) exclude) l.
Proof.
  intros Hnd Hi Hf. apply list_eq. intros j. destruct (decide (j = i)) as [->|Hne].
  - rewrite list_lookup_alter_eq, !list_lookup_fmap, Hi. cbn. by rewrite Hf.
  - rewrite list_lookup_alter_ne, !list_lookup_fmap by done. destruct (l !! j) as [s|] eqn:Hj; [|done]. cbn. f_equal.
    symmetry. apply group_other. intros <-. apply Hne. by eapply NoDup_lookup.
Qed.

Lemma extra_state (extra exclude : list bytes) :
  let st := foldl (extra_step exclude) ([], ∅) extra in
  st.1 = map (group extra exclude) (sources extra)
  /\ forall s i, st.2 !! s = Some i <-> sources extra !! i = Some s.
Proof.
  induction extra as [|g extra IH] using rev_ind; [split; [done|]; intros s i; cbn [foldl snd]; by rewrite (lookup_empty s)|].
  cbv zeta in *. rewrite foldl_app. cbn [foldl]. destruct (foldl (extra_step exclude) ([], ∅) extra) as [out by_].
  destruct IH as [IH1 IH2]. cbn [fst snd] in *. subst out. rewrite sources_snoc. unfold extra_step.
  pose proof (extra_parser g) as Hpar. destruct (extra_one g) as [[source parser] glob] eqn:He.
  assert (source_of g = source) as Hs by (unfold source_of; by rewrite He).
  assert (glob_of g = glob) as Hg by (unfold glob_of; by rewrite He). cbn [fst snd] in Hpar. subst source glob parser.
  unfold first_seen. destruct (by_ !! source_of g) as [i|] eqn:Hi.
  - apply IH2 in Hi as Hi'. rewrite bool_decide_true by (by eapply list_elem_of_lookup_2). cbn [fst snd]. split; [|done].
    apply alter_group; [apply sources_nodup|done|]. by rewrite group_same.
  - rewrite bool_decide_false.
    2:{ intros [i Hin]%list_elem_of_lookup. apply IH2 in Hin. congruence. }
    assert (source_of g ∉ sources extra) as Hno by (intros [i Hin]%list_elem_of_lookup; apply IH2 in Hin; congruence).
    cbn [fst snd]. split.
    + rewrite map_app. cbn [map]. f_equal.
      * apply map_ext_in. intros s Hin. symmetry. apply group_other. intros <-. apply Hno. by apply list_elem_of_In.
      * rewrite group_same. cbv zeta. unfold group. cbn.
        replace (List.filter (fun g0 => bool_decide (source_of g0 = source_of g)) extra) with (@nil bytes); [done|].
        symmetry. clear -Hno. destruct (List.filter _ extra) as [|x l] eqn:Hf; [done|].
        assert (In x (List.filter (fun g0 => bool_decide (source_of g0 = source_of g)) extra)) as Hx by (rewrite Hf; by left).
        apply filter_In in Hx as [Hx Heq]. apply bool_decide_eq_true in Heq. destruct Hno. rewrite <-Heq. apply sources_mem. by apply list_elem_of_In.
    + intros s i. rewrite length_map. destruct (decide (s = source_of g)) as [->|Hne].
      * rewrite lookup_insert_eq. split; [intros [= <-]; by apply list_lookup_middle|]. intros Hl.
        f_equal. apply lookup_app_Some in Hl as [Hl|[Hge Hl]]; [destruct Hno; by eapply list_elem_of_lookup_2|].
        apply list_lookup_singleton_Some in Hl as [Hz _]. lia.
      * rewrite lookup_insert_ne by done. rewrite IH2. split; [apply lookup_app_l_Some|].
        intros [Hl|[_ Hl]]%lookup_app_Some; [done|]. apply list_lookup_singleton_Some in Hl as [_ ?]. done.
Qed.

(** Splitting a list by one key, then by the others. *)
Lemma filter_split (l : list bytes) (s : bytes) :
  List.filter (fun g => bool_decide (source_of g = s)) l ++ List.filter (fun g => negb (bool_decide (source_of g = s))) l ≡ₚ l.
Proof.
  induction l as [|g l IH]; [done|]. cbn [List.filter]. destruct (bool_decide _); cbn [negb].
  - cbn [app]. by rewrite IH.
  - rewrite <-Permutation_middle. by rewrite IH.
Qed.

Lemma filter_other (l : list bytes) (s t : bytes) : s <> t ->
  List.filter (fun g => bool_decide (source_of g = t)) (List.filter (fun g => negb (bool_decide (source_of g = s))) l)
  = List.filter (fun g => bool_decide (source_of g = t)) l.
Proof.
  intros H. induction l as [|g l IH]; [done|]. cbn [List.filter]. case_bool_decide as Hs; cbn [negb].
  - rewrite bool_decide_false by congruence. done.
  - cbn [List.filter]. by rewrite IH.
Qed.

Lemma concat_groups (extra srcs : list bytes) : NoDup srcs -> (forall g, g ∈ extra -> source_of g ∈ srcs) ->
  concat (map (fun s => map glob_of (List.filter (fun g => bool_decide (source_of g = s)) extra)) srcs) ≡ₚ map glob_of extra.
Proof.
  intros Hnd. revert extra. induction Hnd as [|s srcs Hs Hnd IH]; intros extra Hmem.
  { destruct extra as [|g extra]; [done|]. specialize (Hmem g ltac:(left)). by apply not_elem_of_nil in Hmem. }
  cbn [map concat]. etransitivity; [|apply Permutation_map, (filter_split extra s)]. rewrite map_app. apply Permutation_app; [done|].
  rewrite <-(IH (List.filter (fun g => negb (bool_decide (source_of g = s))) extra)).
  - apply reflexive_eq. f_equal. apply map_ext_in. intros t Ht. f_equal. symmetry. apply filter_other.
    intros ->. apply Hs. by apply list_elem_of_In.
  - intros g Hg. apply list_elem_of_In, filter_In in Hg as [Hg Hne]. apply list_elem_of_In, Hmem, elem_of_cons in Hg as [Heq|?]; [|done].
    by rewrite bool_decide_true in Hne.
Qed.

(** [extraSpecs] groups the extra globs by source.  Its result is one
    spec for each source, in the order the sources first appear, with all
    the globs of that source in the order given and nothing else, the parser
    of the source and the exclusions; so no extra glob is lost, read twice or
    read under another source. *)
Theorem extraSpecs_groups (extra exclude : list bytes) :
  extraSpecs extra exclude = map (group extra exclude) (sources extra)
  /\ NoDup (sources extra)
  /\ Permutation (concat (map Globs (extraSpecs extra exclude))) (map glob_of extra).
Proof.
  destruct (extra_state extra exclude) as [H _]. unfold extraSpecs. rewrite H. split_and!; [done|apply sources_nodup|].
  rewrite map_map. cbn [group Globs].
  apply concat_groups; [apply sources_nodup|apply sources_mem].
Qed.

Example extra_runs : map (fun sp => (S (sp_Source sp), S (sp_Parser sp), map S (Globs sp)))
    (extraSpecs (map B ["nginx:/srv/a/*.log"; "/x/*.log"; "httpd:/srv/b.log"; "nginx:/srv/c.log"; "Bad:/y"]) [])
  = [("nginx", "nginx_any", ["/srv/a/*.log"; "/srv/c.log"]); ("custom", "auto", ["/x/*.log"; "Bad:/y"]); ("apache", "apache_any", ["/srv/b.log"])]%string.
Proof. vm_compute. reflexivity. Qed.

Example copies_runs :
  let conf := B "# rules" ++ newline :: B "*.*;auth,authpriv.none  -/var/log/syslog" ++ newline :: B "mail.*  -/var/log/mail.log" in
  (bool_decide (B "/var/log/auth.log" ∈ syslogCopies [None; Some conf]), bool_decide (B "/var/log/mail.log" ∈ syslogCopies [None; Some conf]))
  = (false, true).
Proof. vm_compute. reflexivity. Qed.

(** When both catch-all files are written, only the selector read last
    counts: mail lines are in [/var/log/syslog], yet the mail log is not known
    as a copy. *)
Lemma last_selector_wins :
  let conf := B "*.*;auth,authpriv.none -/var/log/syslog" ++ newline :: B "*.info;mail.none -/var/log/messages" in
  bool_decide (B "/var/log/mail.log" ∈ syslogCopies [Some (B "*.*;auth,authpriv.none -/var/log/syslog")]) = true
  /\ bool_decide (B "/var/log/mail.log" ∈ syslogCopies [Some conf]) = false.
Proof. vm_compute. by split. Qed.
