(* ===== verification/LogParse.v ===== *)
(** * Log parsers

    [src/internal/logs/parse.go].  Go's calendar ([time.Parse] with its
    layouts, [LoadLocation], [AddDate]), the clock and the conversion between
    floats and text are parameters; regular expressions and JSON are those of
    [GoRegexp] and [GoJSON].  The order in which a range visits a map is a
    parameter where the result depends on it. *)
From S2P Require Import Prelude GoFloat GoStrings GoRegexp GoJSON Metrics LogTail LogDiscover.
Local Open Scope Z_scope.

Definition LevelError : bytes := B "error".
Definition LevelWarn : bytes := B "warn".
Definition LevelInfo : bytes := B "info".
Definition LevelDebug : bytes := B "debug".

(** A composite literal with the fields a parser sets. *)
Definition parsed_entry (msg level : bytes) (t : time) (fields : gmap bytes bytes) : Entry := {|
  e_Time := t; e_Msg := msg; e_Source := []; e_Path := []; e_Unit := []; e_Level := level; e_Fields := fields; e_ack := None |}.

(** ** Levels *)
Definition compile_pattern (p : bytes) : re := default REmpty (Compile p).
Definition reLevelError : re := Eval vm_compute in MustCompile "(?i)\b(fatal|panic|emerg(ency)?|alert|crit(ical)?|err(or)?|exception|segfault)\b".
Definition reLevelWarn : re := Eval vm_compute in MustCompile "(?i)\b(warn(ing)?|deprecated|failed|failure|timeout|timed out|refused|denied)\b".

Definition guessLevel (msg : bytes) : bytes :=
  if MatchString reLevelError msg then LevelError
  else if MatchString reLevelWarn msg then LevelWarn
  else [].

(** [strings.Trim] with a set of ASCII bytes. *)
Definition Trim (s cutset : bytes) : bytes := TrimRight (dropwhile (fun c => bool_decide (c ∈ cutset)) s) cutset.

Definition normLevel (s : bytes) : bytes :=
  let w := ToLower (Trim s (B "[]: ")) in
  if bool_decide (w ∈ map B ["emerg"; "emergency"; "alert"; "crit"; "critical"; "fatal"; "panic"; "error"; "err"; "severe"]) then LevelError
  else if bool_decide (w ∈ map B ["warn"; "warning"]) then LevelWarn
  else if bool_decide (w ∈ map B ["notice"; "info"; "information"; "note"; "system"]) then LevelInfo
  else if bool_decide (w ∈ map B ["debug"; "trace"]) then LevelDebug
  else [].

Definition statusLevel (status : bytes) : bytes :=
  if HasPrefix status (B "5") then LevelError
  else if HasPrefix status (B "4") then LevelWarn
  else match status with [] => [] | _ => LevelInfo end.

(** "Error: …" style prefixes. *)
Definition levelFromPrefix (msg : bytes) : bytes :=
  match Cut msg ":"%char with
  | Some (head, _) =>
      if 12 <? len head then []
      else normLevel (match LastIndexByte head space with Some i => drop (Datatypes.S i) head | None => head end)
  | None => []
  end.

Definition parsePlain (line : bytes) : Entry := parsed_entry line (guessLevel line) time_zero ∅.

(** ** Expressions *)
Definition stamp_pattern : string :=
  "^(\d{4}-\d\d-\d\dT\d\d:\d\d:\d\d(?:\.\d+)?(?:Z|[+-]\d\d:\d\d)|[A-Z][a-z]{2} [ \d]\d \d\d:\d\d:\d\d) ".
Definition reSyslog : re := Eval vm_compute in MustCompile (stamp_pattern +:+ "(\S+) ([^:\[\s]+)(?:\[(\d+)\])?: (.*)$").
Definition reSyslogNoHost : re := Eval vm_compute in MustCompile (stamp_pattern +:+ "()([^:\[\s]+)(?:\[(\d+)\])?: (.*)$").
Definition reNginxAccess : re := Eval vm_compute in
  compile_pattern (B "^(\S+) (?:\S+ \S+ )?\[([^\]]+)\] " ++ [dquote] ++ B "([^" ++ [dquote] ++ B "]*)" ++ [dquote] ++ B " (\d{3}) (\d+|-)").
Definition reNginxFull : re := Eval vm_compute in
  MustCompile "^(\S+) \[([^\]]+)\] \| STREAM: (\S+) -> (\S*) \| REQ: (.*?) \| STATUS: f: (\d{3}) b: (\S*) \| SIZE: (\d+)/[^|]*\| TIME: f: ([\d.]+) b: (\S*)".
Definition reNginxError : re := Eval vm_compute in MustCompile "^(\d{4}/\d\d/\d\d \d\d:\d\d:\d\d) \[(\w+)\] (\d+)#\d+: (.*)$".
Definition rePHP : re := Eval vm_compute in
  MustCompile "^\[(\d\d-[A-Z][a-z]{2}-\d{4} \d\d:\d\d:\d\d)(?: ([^\]]+))?\] (?:PHP )?([A-Za-z ]+?)(?: error)?: (.*)$".
Definition reMySQL : re := Eval vm_compute in MustCompile "^(\d{4}-\d\d-\d\d[ T]\d\d:\d\d:\d\d(?:\.\d+)?Z?)\s+\d+ \[(\w+)\] (.*)$".

(** Every pattern is a valid expression: none of the values above is the
    default. *)
Example patterns_compile :
  forallb (fun r => match r with REmpty => false | _ => true end)
    [reLevelError; reLevelWarn; reSyslog; reSyslogNoHost; reNginxAccess; reNginxFull; reNginxError; rePHP; reMySQL] = true.
Proof. reflexivity. Qed.

(** [m[i]] of a match. *)
Definition sub (m : list bytes) (i : nat) : bytes := nth i m [].

(** The method and the path of a request line, as both nginx formats set them. *)
Definition request_fields (req : bytes) (f : gmap bytes bytes) : gmap bytes bytes :=
  match Cut req space with
  | Some (method, rest) =>
      let uri := match Cut rest space with Some (u, _) => u | None => rest end in
      let path := match Cut uri "?"%char with Some (p, _) => p | None => uri end in
      <[B "path" := path]> (<[B "method" := method]> f)
  | None => f
  end.

Definition nginxJSONFields : list (bytes * bytes) :=
  map (fun p => (B p.1, B p.2))
    [ ("remote_addr", "client_ip"); ("status", "status"); ("request_method", "method"); ("request_uri", "path"); ("uri", "path");
      ("host", "vhost"); ("http_host", "vhost"); ("server_name", "vhost"); ("request_time", "request_time");
      ("upstream_response_time", "upstream_time"); ("upstream_status", "upstream_status"); ("body_bytes_sent", "bytes");
      ("http_user_agent", "user_agent"); ("request_id", "request_id") ]%string.

Section parsers.
(** The calendar: [time.Parse] and [time.ParseInLocation] by layout ([None] is
    an error), locations, and the clock. *)
Context {Loc : Type} (Local_ UTC_ : Loc) (LoadLocation : bytes -> option Loc).
Context (Parse : bytes -> bytes -> option time) (ParseInLocation : bytes -> bytes -> Loc -> option time).
Context (now : time) (Year : time -> Z) (AddYears : time -> Z -> time).
(** [strconv.ParseFloat], the text [fmt.Sprint] gives a float, and the order
    of a range over a decoded object. *)
Context (ParseFloat : bytes -> option float64) (Sprint_float : float64 -> bytes).
Context (order : gmap bytes json -> list (bytes * json)).

Definition yearless (layout s : bytes) : time :=
  match ParseInLocation layout s Local_ with
  | None => time_zero
  | Some t =>
      let t := AddYears t (Year now) in
      if time_after t (time_add now (24 * hour)) then AddYears t (-1) else t
  end.

Definition syslogTime (s : bytes) : time :=
  match Parse (B "2006-01-02T15:04:05.999999999Z07:00") s with
  | Some t => t
  | None => yearless (B "Jan _2 15:04:05") s
  end.

Definition parseSyslog (line : bytes) : Entry :=
  let m := match FindStringSubmatch reSyslog 5 line with
           | Some m => if HasSuffix (sub m 2) (B ":") then FindStringSubmatch reSyslogNoHost 5 line else Some m
           | None => FindStringSubmatch reSyslogNoHost 5 line
           end in
  match m with
  | None => parsePlain line
  | Some m =>
      let fields := {[B "program" := sub m 3]} in
      let fields := match sub m 4 with [] => fields | pid => <[B "pid" := pid]> fields end in
      let level := levelFromPrefix (sub m 5) in
      parsed_entry line (match level with [] => guessLevel (sub m 5) | _ => level end) (syslogTime (sub m 1)) fields
  end.

Definition access_layout : bytes := B "02/Jan/2006:15:04:05 -0700".

Definition nginxFull (line : bytes) (m : list bytes) : Entry :=
  let fields : gmap bytes bytes :=
    list_to_map [(B "client_ip", sub m 1); (B "vhost", sub m 3); (B "status", sub m 6); (B "bytes", sub m 8); (B "request_time", sub m 9)] in
  let set (k v : bytes) (f : gmap bytes bytes) := if bool_decide (v = []) || bool_decide (v = B "-") then f else <[k := v]> f in
  let fields := set (B "upstream") (sub m 4) (set (B "upstream_status") (sub m 7) (set (B "upstream_time") (sub m 10) fields)) in
  parsed_entry line (statusLevel (sub m 6)) (default time_zero (Parse access_layout (sub m 2))) (request_fields (sub m 5) fields).

(** [fmt.Sprint] of a decoded value.  Only scalars reach a field here when the
    logs are flat; arrays and objects print as Go prints them. *)
Fixpoint Sprint (j : json) : bytes :=
  match j with
  | JNull => B "<nil>"
  | JBool b => if b then B "true" else B "false"
  | JNum t => match ParseFloat t with Some f => Sprint_float f | None => [] end
  | JStr s => s
  | JArr l => B "[" ++ Join (map Sprint l) space ++ B "]"
  | JObj l =>
      let m : gmap string bytes := list_to_map (reverse (map (fun m => (S m.1, Sprint m.2)) l)) in
      B "map[" ++ Join (map (fun k => B k ++ B ":" ++ default [] (m !! k)) (sorted_keys m)) space ++ B "]"
  end.

(** Every number is in the range of a float64; otherwise [Unmarshal] reports an
    error. *)
Fixpoint numbers_ok (j : json) : bool :=
  match j with
  | JNum t => match ParseFloat t with Some _ => true | None => false end
  | JArr l => forallb numbers_ok l
  | JObj l => forallb (fun m => numbers_ok m.2) l
  | _ => true
  end.

(** [json.Unmarshal] into a [map[string]any]: the last of equal keys wins. *)
Definition Unmarshal_map (line : bytes) : option (gmap bytes json) :=
  j ← Unmarshal line;
  if numbers_ok j then
    match j with
    | JObj l => Some (list_to_map (reverse l))
    | JNull => Some ∅
    | _ => None
    end
  else None.

(** The loop over the object: a later key of the range overwrites an earlier one. *)
Definition json_step (f : gmap bytes bytes) (kv : bytes * json) : gmap bytes bytes :=
  match assoc nginxJSONFields kv.1 with
  | Some name =>
      let s := Sprint kv.2 in
      if bool_decide (s = []) || bool_decide (s = B "-") then f else <[name := s]> f
  | None => f
  end.

Definition parseNginxJSON (line : bytes) : Entry :=
  match Unmarshal_map line with
  | None => parsePlain line
  | Some obj =>
      let fields := foldl json_step ∅ (order obj) in
      let fields := match fields !! B "path" with
                    | Some ((_ :: _) as p) => <[B "path" := match Cut p "?"%char with Some (a, _) => a | None => p end]> fields
                    | _ => fields
                    end in
      let t := match obj !! B "msec" with
               | Some ms => match ParseFloat (Sprint ms) with
                            | Some f => time_unix 0 (wrap_i64 (f64_trunc (f64_mul f (f64_of_Z 1000000000))))
                            | None => time_zero
                            end
               | None => match obj !! B "time_iso8601" with
                         | Some (JStr ts) => default time_zero (Parse (B "2006-01-02T15:04:05Z07:00") ts)
                         | _ => time_zero
                         end
               end in
      parsed_entry line (statusLevel (default [] (fields !! B "status"))) t fields
  end.

Definition parseNginxAccess (line : bytes) : Entry :=
  if HasPrefix line (B "{") then parseNginxJSON line
  else match FindStringSubmatch reNginxFull 10 line with
       | Some m => nginxFull line m
       | None =>
           match FindStringSubmatch reNginxAccess 5 line with
           | None => parsePlain line
           | Some m =>
               let fields : gmap bytes bytes := list_to_map [(B "client_ip", sub m 1); (B "status", sub m 4)] in
               let fields := request_fields (sub m 3) fields in
               let fields := if bool_decide (sub m 5 = B "-") then fields else <[B "bytes" := sub m 5]> fields in
               parsed_entry line (statusLevel (sub m 4)) (default time_zero (Parse access_layout (sub m 2))) fields
           end
       end.

Definition parseNginxError (line : bytes) : Entry :=
  match FindStringSubmatch reNginxError 4 line with
  | None => parsePlain line
  | Some m => parsed_entry line (normLevel (sub m 2)) (default time_zero (ParseInLocation (B "2006/01/02 15:04:05") (sub m 1) Local_))
                {[B "pid" := sub m 3]}
  end.

Definition parsePHPFPM (line : bytes) : Entry :=
  match FindStringSubmatch rePHP 4 line with
  | None => parsePlain line
  | Some m =>
      let loc := match sub m 2 with
                 | [] => Local_
                 | z => match LoadLocation z with Some l => l | None => if bool_decide (z = B "UTC") then UTC_ else Local_ end
                 end in
      let kind := ToLower (sub m 3) in
      let level := if bool_decide (kind ∈ map B ["fatal"; "parse"; "catchable fatal"; "recoverable fatal"]) then LevelError
                   else if bool_decide (kind ∈ map B ["deprecated"; "strict standards"]) then LevelWarn
                   else normLevel kind in
      parsed_entry line (match level with [] => guessLevel (sub m 4) | _ => level end)
        (default time_zero (ParseInLocation (B "02-Jan-2006 15:04:05") (sub m 1) loc)) ∅
  end.

(** [strings.Replace] of the first byte [a]. *)
Fixpoint replace_first (s : bytes) (a b : ascii) : bytes :=
  match s with
  | [] => []
  | c :: t => if bool_decide (c = a) then b :: t else c :: replace_first t a b
  end.

Definition parseMySQL (line : bytes) : Entry :=
  match FindStringSubmatch reMySQL 3 line with
  | None => parsePlain line
  | Some m =>
      parsed_entry line (normLevel (sub m 2))
        (default time_zero
           (if HasSuffix (sub m 1) (B "Z") then Parse (B "2006-01-02T15:04:05.999999Z") (sub m 1)
            else ParseInLocation (B "2006-01-02 15:04:05.999999") (replace_first (sub m 1) "T"%char space) Local_)) ∅
  end.

(** The first of [keys] whose value is a text [use] accepts. *)
Fixpoint take_key {A} (use : bytes -> option A) (keys : list bytes) (obj : gmap bytes json) : option (bytes * A) :=
  match keys with
  | [] => None
  | k :: t =>
      match obj !! k with
      | Some (JStr v) => match use v with Some a => Some (k, a) | None => take_key use t obj end
      | _ => take_key use t obj
      end
  end.

Definition delete_key {A} (o : option (bytes * A)) (obj : gmap bytes json) : gmap bytes json :=
  match o with Some (k, _) => delete k obj | None => obj end.

Definition scalar_text (j : json) : option bytes :=
  match j with JStr s => Some s | JNum _ | JBool _ => Some (Sprint j) | _ => None end.

Definition msg_keys : list bytes := map B ["msg"; "message"; "@message"; "log"].
Definition time_keys : list bytes := map B ["time"; "ts"; "timestamp"; "@timestamp"].
Definition level_keys : list bytes := map B ["level"; "severity"; "lvl"; "log.level"].

Definition parseJSON (line : bytes) : Entry :=
  match (if HasPrefix line (B "{") then Unmarshal_map line else None) with
  | None => parsePlain line
  | Some obj =>
      let m := take_key Some msg_keys obj in
      let obj := delete_key m obj in
      let t := take_key (Parse (B "2006-01-02T15:04:05.999999999Z07:00")) time_keys obj in
      let obj := delete_key t obj in
      let l := take_key Some level_keys obj in
      let obj := delete_key l obj in
      let msg := match m with Some (_, v) => v | None => line end in
      let level := match l with Some (_, v) => normLevel v | None => [] end in
      parsed_entry msg (match level with [] => guessLevel msg | _ => level end)
        (match t with Some (_, x) => x | None => time_zero end) (omap scalar_text obj)
  end.

(** [time.Time] in a structure: [null] leaves it, a text must parse (it is the
    text between the quotes, which Docker writes without escapes). *)
Definition dec_time : decoder time := fun j a =>
  match j with JNull => Some a | JStr s => Parse (B "2006-01-02T15:04:05.999999999Z07:00") s | _ => None end.

Record docker_line := { d_Log : bytes; d_Stream : bytes; d_Time : time }.
Definition docker_fields : list (bytes * decoder docker_line) :=
  [ (B "log", fun j d => (fun v => {| d_Log := v; d_Stream := d_Stream d; d_Time := d_Time d |}) <$> dec_string j (d_Log d));
    (B "stream", fun j d => (fun v => {| d_Log := d_Log d; d_Stream := v; d_Time := d_Time d |}) <$> dec_string j (d_Stream d));
    (B "time", fun j d => (fun v => {| d_Log := d_Log d; d_Stream := d_Stream d; d_Time := v |}) <$> dec_time j (d_Time d)) ].
Definition no_docker : docker_line := {| d_Log := []; d_Stream := []; d_Time := time_zero |}.

Definition crlf : bytes := map byte_of_Z [13; 10].

Definition parseDockerJSON (line : bytes) : Entry :=
  match Unmarshal line ≫= (fun j => decode_struct docker_fields j no_docker) with
  | None => parsePlain line
  | Some d =>
      let e := parseJSON (TrimRight (d_Log d) crlf) in
      parsed_entry (e_Msg e)
        (match e_Level e with [] => if bool_decide (d_Stream d = B "stderr") then guessLevel (e_Msg e) else [] | l => l end)
        (if IsZero (e_Time e) then d_Time d else e_Time e)
        (<[B "stream" := d_Stream d]> (e_Fields e))
  end.

Definition parseAuto (line : bytes) : Entry :=
  if HasPrefix line (B "{") then parseJSON line
  else if MatchString reSyslog line || MatchString reSyslogNoHost line then parseSyslog line
  else parsePlain line.

Definition ParserFor (name : bytes) : bytes -> Entry :=
  if bool_decide (name = ParserSyslog) then parseSyslog
  else if bool_decide (name = ParserNginxAccess) then parseNginxAccess
  else if bool_decide (name = ParserNginxError) then parseNginxError
  else if bool_decide (name = ParserPHPFPM) then parsePHPFPM
  else if bool_decide (name = ParserMySQL) then parseMySQL
  else if bool_decide (name = ParserJSON) then parseJSON
  else if bool_decide (name = ParserDockerJSON) then parseDockerJSON
  else if bool_decide (name = ParserAuto) then parseAuto
  else parsePlain.

Definition parserForFile (name path : bytes) : bytes -> Entry :=
  let isError := Contains (Base path) (B "error") in
  if bool_decide (name = ParserNginxAny) && isError then parseNginxError
  else if bool_decide (name = ParserApacheAny) && isError then parsePlain
  else if bool_decide (name = ParserNginxAny) || bool_decide (name = ParserApacheAny) then parseNginxAccess
  else ParserFor name.

(** ** What the parsers promise *)
Definition levels : list bytes := [[]; LevelError; LevelWarn; LevelInfo; LevelDebug].

Lemma guess_in_levels (s : bytes) : guessLevel s ∈ levels.
Proof. unfold guessLevel, levels. destruct (MatchString _ s); [|destruct (MatchString _ s)]; rewrite !elem_of_cons; tauto. Qed.

Lemma norm_in_levels (s : bytes) : normLevel s ∈ levels.
Proof. unfold normLevel, levels. cbv zeta. repeat case_bool_decide; rewrite !elem_of_cons; tauto. Qed.

Lemma status_in_levels (s : bytes) : statusLevel s ∈ levels.
Proof. unfold statusLevel, levels. destruct (HasPrefix _ _); [|destruct (HasPrefix _ _); [|destruct s]]; rewrite !elem_of_cons; tauto. Qed.

Lemma prefix_in_levels (s : bytes) : levelFromPrefix s ∈ levels.
Proof.
  unfold levelFromPrefix. destruct (Cut _ _) as [[h r]|]; [|left]. destruct (_ <? _); [left|apply norm_in_levels].
Qed.

Lemma or_guess_in_levels (l s : bytes) : l ∈ levels -> match l with [] => guessLevel s | _ => l end ∈ levels.
Proof. intros H. destruct l; [apply guess_in_levels|done]. Qed.

Lemma const_in_levels (l : bytes) : bool_decide (l ∈ levels) = true -> l ∈ levels.
Proof. apply bool_decide_eq_true_1. Qed.

Lemma syslog_level (line : bytes) : e_Level (parseSyslog line) ∈ levels.
Proof.
  unfold parseSyslog. cbv zeta. destruct (match FindStringSubmatch reSyslog 5 line with Some m => _ | None => _ end) as [m|].
  - apply or_guess_in_levels, prefix_in_levels.
  - apply guess_in_levels.
Qed.

Lemma access_level (line : bytes) : e_Level (parseNginxAccess line) ∈ levels.
Proof.
  unfold parseNginxAccess. destruct (HasPrefix _ _).
  - unfold parseNginxJSON. destruct (Unmarshal_map line); [apply status_in_levels|apply guess_in_levels].
  - destruct (FindStringSubmatch reNginxFull 10 line); [apply status_in_levels|].
    destruct (FindStringSubmatch reNginxAccess 5 line); [apply status_in_levels|apply guess_in_levels].
Qed.

Lemma json_level (line : bytes) : e_Level (parseJSON line) ∈ levels.
Proof.
  unfold parseJSON. destruct (if HasPrefix line _ then _ else _) as [obj|]; [|apply guess_in_levels].
  cbv zeta. apply or_guess_in_levels. destruct (take_key Some level_keys _) as [[k v]|]; [apply norm_in_levels|left].
Qed.

Lemma docker_level (line : bytes) : e_Level (parseDockerJSON line) ∈ levels.
Proof.
  unfold parseDockerJSON. destruct (_ ≫= _) as [d|]; [|apply guess_in_levels]. cbv zeta. cbn [e_Level parsed_entry].
  pose proof (json_level (TrimRight (d_Log d) crlf)) as H. destruct (e_Level _); [|done].
  case_bool_decide; [apply guess_in_levels|left].
Qed.

Lemma php_level (line : bytes) : e_Level (parsePHPFPM line) ∈ levels.
Proof.
  unfold parsePHPFPM. destruct (FindStringSubmatch rePHP 4 line) as [m|]; [|apply guess_in_levels]. cbv zeta.
  apply or_guess_in_levels. repeat case_bool_decide; [..|apply norm_in_levels]; apply const_in_levels; vm_compute; reflexivity.
Qed.

(** a parser assigns one of the four levels or none.  Whatever the
    configured name, the path of the file and the line, the level is empty,
    error, warn, info or debug; so the level label of the derived metrics has
    five values at most per source. *)
Theorem parser_levels (name path line : bytes) : e_Level (parserForFile name path line) ∈ levels.
Proof.
  unfold parserForFile, ParserFor. cbv zeta.
  repeat match goal with |- context [if ?b then _ else _] => destruct b end;
    first [ apply syslog_level | apply access_level | apply json_level | apply docker_level | apply php_level | apply guess_in_levels | idtac ].
  - unfold parseNginxError. destruct (FindStringSubmatch _ _ _); [apply norm_in_levels|apply guess_in_levels].
  - unfold parseNginxError. destruct (FindStringSubmatch _ _ _); [apply norm_in_levels|apply guess_in_levels].
  - unfold parseMySQL. destruct (FindStringSubmatch _ _ _); [apply norm_in_levels|apply guess_in_levels].
  - unfold parseAuto. destruct (HasPrefix _ _); [apply json_level|]. destruct (_ || _); [apply syslog_level|apply guess_in_levels].
Qed.

(** ** Structured lines *)
Lemma take_key_found {A} (use : bytes -> option A) (keys : list bytes) (obj : gmap bytes json) (k : bytes) (a : A) :
  take_key use keys obj = Some (k, a) -> k ∈ keys /\ exists v, obj !! k = Some (JStr v) /\ use v = Some a.
Proof.
  induction keys as [|x keys IH]; cbn [take_key]; [done|]. intros H.
  destruct (obj !! x) as [[| | |v| |]|] eqn:Hx; try (destruct (IH H) as [? ?]; split; [by right|done]).
  destruct (use v) as [b|] eqn:Hu; [|destruct (IH H) as [? ?]; split; [by right|done]].
  injection H as <- <-. split; [left|by exists v].
Qed.

Lemma delete_key_other {A} (use : bytes -> option A) (keys : list bytes) (obj : gmap bytes json) (k : bytes) :
  k ∉ keys -> delete_key (take_key use keys obj) obj !! k = obj !! k.
Proof.
  intros Hk. unfold delete_key. destruct (take_key use keys obj) as [[x a]|] eqn:H; [|done].
  apply take_key_found in H as [Hx _]. rewrite lookup_delete_ne; [done|]. by intros ->.
Qed.

Lemma delete_key_sub {A} (o : option (bytes * A)) (obj : gmap bytes json) (k : bytes) (j : json) :
  delete_key o obj !! k = Some j -> obj !! k = Some j.
Proof. destruct o as [[x a]|]; cbn; [|done]. by intros [_ ?]%lookup_delete_Some. Qed.

(** a structured line keeps its data.  For a line that is a JSON object:
    the fields are scalars of the object under their own key and as their
    text, every scalar whose key is not one of the message, time and level
    keys is there, and the message is the text of the first message key the
    object has (the whole line when it has none). *)
Theorem parseJSON_keeps (line : bytes) (obj : gmap bytes json) :
  HasPrefix line (B "{") = true -> Unmarshal_map line = Some obj ->
  let e := parseJSON line in
  (forall k v, e_Fields e !! k = Some v -> exists j, obj !! k = Some j /\ scalar_text j = Some v)
  /\ (forall k j v, k ∉ msg_keys ++ time_keys ++ level_keys -> obj !! k = Some j -> scalar_text j = Some v -> e_Fields e !! k = Some v)
  /\ (e_Msg e = line \/ exists k, k ∈ msg_keys /\ obj !! k = Some (JStr (e_Msg e)) /\ e_Fields e !! k = None)
  /\ (forall v, obj !! B "msg" = Some (JStr v) -> e_Msg e = v).
Proof.
  intros Hp Ho. cbv zeta. unfold parseJSON. rewrite Hp, Ho. cbn [e_Fields e_Msg parsed_entry].
  set (m := take_key Some msg_keys obj). set (o1 := delete_key m obj).
  set (t := take_key _ time_keys o1). set (o2 := delete_key t o1). set (l := take_key Some level_keys o2). set (o3 := delete_key l o2).
  split_and!.
  - intros k v Hk. rewrite lookup_omap in Hk. destruct (o3 !! k) as [j|] eqn:Hj; [|done]. cbn in Hk.
    exists j. split; [|done]. by apply delete_key_sub, delete_key_sub, delete_key_sub in Hj.
  - intros k j v Hk Hj Hs. rewrite !not_elem_of_app in Hk. destruct Hk as (Hk1 & Hk2 & Hk3). rewrite lookup_omap.
    unfold o3, l, o2, t, o1, m. rewrite !delete_key_other by done. rewrite Hj. done.
  - destruct m as [[k v]|] eqn:Hm; [right|by left]. unfold m in Hm. apply take_key_found in Hm as (Hk & w & Hw & [= ->]).
    exists k. split_and!; [done|done|]. rewrite lookup_omap.
    destruct (o3 !! k) as [j|] eqn:Hj; [|done]. apply delete_key_sub, delete_key_sub in Hj. unfold o1 in Hj. cbn in Hj.
    by rewrite lookup_delete_eq in Hj.
  - intros v Hv. unfold m, msg_keys. cbn [map take_key]. by rewrite Hv.
Qed.

(** ** Docker *)
Definition docker_json (log stream stamp : bytes) : json := JObj [(B "log", JStr log); (B "stream", JStr stream); (B "time", JStr stamp)].

Lemma TrimRight_line (inner : bytes) :
  (forall t c, inner = t ++ [c] -> c ∉ crlf) -> TrimRight (inner ++ [newline]) crlf = inner.
Proof.
  intros H. unfold TrimRight. rewrite reverse_app. change (reverse [newline]) with [newline]. cbn [app dropwhile].
  rewrite bool_decide_true by (right; left). destruct inner as [|c t _] using rev_ind; [done|].
  rewrite reverse_app. change (reverse [c]) with [c]. cbn [app dropwhile].
  rewrite bool_decide_false by (by eapply H). change (c :: reverse t) with ([c] ++ reverse t).
  rewrite reverse_app, reverse_involutive. done.
Qed.

(** C28: a line written through Docker reads as the application wrote it.  The
    line the json-file driver writes for an application line (any UTF-8 text,
    quotes, control characters and nested JSON included) parses to what the
    JSON parser gives for the application line itself, with the stream added
    and Docker's time when the application gave none. *)
Theorem docker_transparent (inner stream stamp : bytes) (t : time) :
  valid_utf8 inner = true -> valid_utf8 stream = true -> valid_utf8 stamp = true ->
  (forall a c, inner = a ++ [c] -> c ∉ crlf) ->
  Parse (B "2006-01-02T15:04:05.999999999Z07:00") stamp = Some t ->
  let e := parseJSON inner in
  let d := parseDockerJSON (Marshal (docker_json (inner ++ [newline]) stream stamp)) in
  e_Msg d = e_Msg e /\ e_Time d = (if IsZero (e_Time e) then t else e_Time e)
  /\ e_Fields d = <[B "stream" := stream]> (e_Fields e)
  /\ (e_Level e <> [] -> e_Level d = e_Level e).
Proof.
  intros Hi Hs Ht Hend Hp. cbv zeta. unfold parseDockerJSON. rewrite Unmarshal_Marshal.
  2:{ unfold docker_json.
      change (valid_utf8 (B "log") && valid_utf8 (inner ++ [newline]) && (valid_utf8 (B "stream") && valid_utf8 stream
              && (valid_utf8 (B "time") && valid_utf8 stamp && true)) = true).
      rewrite valid_app, Hs, Ht by (done || by vm_compute). by vm_compute. }
  cbn [mbind option_bind]. unfold docker_json. cbn [decode_struct].
  erewrite decode_member; [|reflexivity|reflexivity]. erewrite decode_member; [|reflexivity|reflexivity].
  erewrite decode_member; [|reflexivity|cbn -[dec_time]; unfold dec_time; rewrite Hp; reflexivity]. cbn [decode_members d_Log d_Stream d_Time].
  rewrite TrimRight_line by done. cbn [e_Msg e_Time e_Fields e_Level parsed_entry].
  split_and!; [done..|]. by destruct (e_Level (parseJSON inner)).
Qed.

(** ** Files read as access or error logs *)
Lemma syslog_msg (line : bytes) : e_Msg (parseSyslog line) = line.
Proof. unfold parseSyslog. cbv zeta. by destruct (match FindStringSubmatch reSyslog 5 line with Some m => _ | None => _ end). Qed.

Lemma access_msg (line : bytes) : HasPrefix line (B "{") = false -> e_Msg (parseNginxAccess line) = line.
Proof.
  intros H. unfold parseNginxAccess. rewrite H. destruct (FindStringSubmatch reNginxFull 10 line); [done|].
  by destruct (FindStringSubmatch reNginxAccess 5 line).
Qed.

Lemma json_msg (line : bytes) : HasPrefix line (B "{") = false -> e_Msg (parseJSON line) = line.
Proof. intros H. unfold parseJSON. by rewrite H. Qed.

Lemma auto_msg (line : bytes) : HasPrefix line (B "{") = false -> e_Msg (parseAuto line) = line.
Proof. intros H. unfold parseAuto. rewrite H. destruct (_ || _); [apply syslog_msg|done]. Qed.

Lemma match_msg (line : bytes) (o : option (list bytes)) (f : list bytes -> Entry) :
  (forall m, e_Msg (f m) = line) -> e_Msg (match o with None => parsePlain line | Some m => f m end) = line.
Proof. intros H. by destruct o. Qed.

(** nothing of a text line is lost.  For a line that is not a JSON object,
    every parser except Docker's keeps the whole line as the message, whether
    or not it recognises the format. *)
Theorem text_line_kept (name path line : bytes) :
  HasPrefix line (B "{") = false -> name <> ParserDockerJSON -> e_Msg (parserForFile name path line) = line.
Proof.
  intros Hl Hn. unfold parserForFile, ParserFor. cbv zeta. rewrite (bool_decide_false (name = ParserDockerJSON)) by done.
  repeat match goal with |- context [if ?b then _ else _] => destruct b end;
    first [ by apply syslog_msg | by apply access_msg | by apply json_msg | by apply auto_msg | done | by apply match_msg ].
Qed.
End parsers.

(** ** Sample runs

    A calendar that knows one stamp, and floats read as 1. *)
Definition stamp_sample : bytes := B "2026-10-18T10:00:00Z".
Definition parse_sample (layout s : bytes) : option time := if bool_decide (s = stamp_sample) then Some (7 * second) else None.
Definition parse_in_sample (layout s : bytes) (loc : unit) : option time := Some (3 * second).
Definition float_sample (s : bytes) : option float64 := Some f64_one.
Definition sprint_sample (f : float64) : bytes := B "1".
Definition parser_sample (name : bytes) : bytes -> Entry :=
  parserForFile tt tt (fun _ => None) parse_sample parse_in_sample (100 * second) (fun _ => 0) (fun t _ => t) float_sample sprint_sample
    map_to_list name (B "/var/log/x.log").

Definition show_entry (e : Entry) : string * list (string * string) :=
  (S (e_Level e), map (fun kv => (S kv.1, S kv.2)) (merge_sort (fun a b => String.le (S a.1) (S b.1)) (map_to_list (e_Fields e)))).

Definition json_text (l : list (string * json)) : bytes := Marshal (JObj (map (fun m => (B m.1, m.2)) l)).

Example parse_runs :
  map (fun p => show_entry (parser_sample (B p.1) (B p.2)))
    [ ("syslog", "Oct 18 13:44:01 web1 sshd[42]: Failed password for root");
      ("syslog", "Oct 18 13:44:01 imap-login: Info: ready");
      ("nginx_error", "2026/10/18 13:43:01 [error] 123#124: *45 open() failed");
      ("php_fpm", "[18-Oct-2026 13:00:01] WARNING: [pool www] child 3 exited");
      ("php_fpm", "[18-Oct-2026 13:00:01 Europe/Kyiv] PHP Fatal error: oops");
      ("mysql", "2026-10-18 13:00:00 0 [Warning] slow");
      ("nginx_access", "10.0.0.1 [18/Oct/2026:13:00:00 +0000] | STREAM: a.example -> 10.1.1.1:80 | REQ: GET /p?q=1 HTTP/1.1 | STATUS: f: 502 b: - | SIZE: 12/(3) | TIME: f: 0.012 b: -") ]%string
  = [ ("warn", [("pid", "42"); ("program", "sshd")]);
      ("info", [("program", "imap-login")]);
      ("error", [("pid", "123")]);
      ("warn", []);
      ("error", []);
      ("warn", []);
      ("error", [("bytes", "12"); ("client_ip", "10.0.0.1"); ("method", "GET"); ("path", "/p"); ("request_time", "0.012"); ("status", "502");
                 ("upstream", "10.1.1.1:80"); ("vhost", "a.example")]) ]%string.
Proof. vm_compute. reflexivity. Qed.

Example access_run :
  show_entry (parser_sample (B "nginx_access") (B "1.2.3.4 - - [18/Oct/2026:13:00:00 +0000] " ++ GoJSON.q "GET /a?b HTTP/2" ++ B " 404 -"))
  = ("warn", [("client_ip", "1.2.3.4"); ("method", "GET"); ("path", "/a"); ("status", "404")])%string.
Proof. vm_compute. reflexivity. Qed.

Definition members_sample : list (bytes * json) :=
  [(B "msg", JStr (B "up")); (B "level", JStr (B "warning")); (B "n", JNum (B "3")); (B "user", JStr (B "bob"))].
Definition json_sample : bytes := Marshal (JObj members_sample).

Lemma parseJSON_keeps_witness :
  let obj := list_to_map (reverse members_sample) in
  Unmarshal_map float_sample json_sample = Some obj
  /\ e_Fields (parseJSON parse_sample float_sample sprint_sample json_sample) !! B "user" = Some (B "bob")
  /\ e_Msg (parseJSON parse_sample float_sample sprint_sample json_sample) = B "up".
Proof.
  intros obj.
  assert (Unmarshal_map float_sample json_sample = Some obj) as H.
  { unfold Unmarshal_map. replace (Unmarshal json_sample) with (Some (JObj members_sample)) by (vm_compute; reflexivity). reflexivity. }
  destruct (parseJSON_keeps parse_sample float_sample sprint_sample json_sample obj) as (_ & Hk & _ & Hm); [vm_compute; reflexivity|exact H|].
  split; [exact H|]. split.
  - apply (Hk (B "user") (JStr (B "bob")) (B "bob")); [apply (bool_decide_eq_true_1 _)| |reflexivity]; vm_compute; reflexivity.
  - apply Hm. vm_compute. reflexivity.
Defined.

Lemma docker_transparent_witness :
  e_Msg (parseDockerJSON parse_sample float_sample sprint_sample
           (Marshal (docker_json (json_sample ++ [newline]) (B "stderr") stamp_sample))) = B "up".
Proof.
  destruct (docker_transparent parse_sample float_sample sprint_sample json_sample (B "stderr") stamp_sample (7 * second)) as (-> & _);
    [vm_compute; reflexivity|vm_compute; reflexivity|vm_compute; reflexivity| |vm_compute; reflexivity|vm_compute; reflexivity].
  intros a c H. apply (f_equal last) in H. rewrite last_snoc in H. vm_compute in H. injection H as <-.
  apply (bool_decide_eq_true_1 _). vm_compute. reflexivity.
Defined.

Lemma text_line_kept_witness : e_Msg (parser_sample ParserSyslog (B "no shape at all")) = B "no shape at all".
Proof. apply text_line_kept; [vm_compute; reflexivity|discriminate]. Defined.

(** When a JSON access log has both [host] and [http_host], the vhost is the
    one the range over the map visits last. *)
Lemma vhost_depends_on_order :
  let line := json_text [("host", JStr (B "a.example")); ("http_host", JStr (B "b.example")); ("status", JStr (B "200"))]%string in
  e_Fields (parseNginxJSON parse_sample float_sample sprint_sample map_to_list line) !! B "vhost"
  <> e_Fields (parseNginxJSON parse_sample float_sample sprint_sample (fun m => reverse (map_to_list m)) line) !! B "vhost".
Proof. vm_compute. discriminate. Qed.

(** A [null] in a JSON access log becomes the text [<nil>]. *)
Lemma null_becomes_text :
  e_Fields (parser_sample ParserNginxAccess (json_text [("status", JNum (B "200")); ("upstream_status", JNull)]%string)) !! B "upstream_status"
  = Some (B "<nil>").
Proof. vm_compute. reflexivity. Qed.
