(* ===== verification/LogEncode.v ===== *)
(** * The line an entry is sent as

    [Shipper.encode] of [src/internal/logs/ship.go]: the JSON object of an
    entry, redacted, on one line.  The text of a time is a parameter. *)
From S2P Require Import Prelude GoFloat GoStrings GoRegexp GoJSON Metrics LogTail LogAllow LogRedact LogDiscover LogParse.
Local Open Scope Z_scope.

Definition reservedFields : list bytes :=
  map B ["_time"; "_msg"; "_stream"; "source"; "file"; "unit"; "level"; "host"; "agent_id"; "project_id"; "customer_id"].

Section encode.
(** [t.UTC().Format(time.RFC3339Nano)]. *)
Context (Format : time -> bytes).

Definition ship_field (kv : bytes * bytes) : bool := negb (bool_decide (kv.1 ∈ reservedFields)) && negb (bool_decide (kv.1 = [])).

Fixpoint redact_fields (r : Redactor) (l : list (bytes * bytes)) : option (list (string * bytes)) :=
  match l with
  | [] => Some []
  | (k, v) :: t => v' ← Redact r v; t' ← redact_fields r t; Some ((S k, v') :: t')
  end.

(** An assignment made only when the text is not empty. *)
Definition set_nonempty (k : string) (v : bytes) (m : gmap string bytes) : gmap string bytes :=
  match v with [] => m | _ => <[k := v]> m end.

(** The object; [None] is a panic of the redactor. *)
Definition encode_obj (r : Redactor) (now : time) (e : Entry) : option (gmap string bytes) :=
  let t := if IsZero (e_Time e) then now else e_Time e in
  fields ← redact_fields r (List.filter ship_field (map_to_list (e_Fields e)));
  msg ← Redact r (e_Msg e);
  Some (set_nonempty "level" (e_Level e) (set_nonempty "unit" (e_Unit e) (set_nonempty "file" (e_Path e)
         (<["source" := e_Source e]> (<["_msg" := msg]> (<["_time" := Format t]> (list_to_map fields))))))).

(** [json.Marshal] of a map of strings: the keys sorted. *)
Definition map_json (m : gmap string bytes) : json := JObj (map (fun k => (B k, JStr (default [] (m !! k)))) (sorted_keys m)).

Definition encode (r : Redactor) (now : time) (e : Entry) : option bytes :=
  (fun m => Marshal (map_json m) ++ [newline]) <$> encode_obj r now e.

(** ** What is written is one line *)
Definition printable (c : ascii) : Prop := 32 <= byteval c.

Lemma printable_lit (s : string) : forallb (fun c => 32 <=? byteval c) (B s) = true -> Forall printable (B s).
Proof. intros H. rewrite forallb_forall in H. apply Forall_forall. intros c Hc. apply Z.leb_le, H. by apply list_elem_of_In. Qed.

Lemma hex_printable (d : Z) : 0 <= d < 16 -> printable (hex_lower d).
Proof. intros H. unfold printable, hex_lower. rewrite byteval_byte; destruct (Z.ltb_spec d 10); lia. Qed.

Lemma escape_printable (n : Z) : Forall printable (escape_u n).
Proof.
  unfold escape_u, hex4. cbn [map]. repeat (apply Forall_cons_2; [|]); [by vm_compute|by vm_compute|..|apply List.Forall_nil];
    apply hex_printable, Z.mod_pos_bound; lia.
Qed.

Lemma quote_rune_printable (l : bytes) : Forall (fun r => Forall printable (quote_rune r)) (runes l).
Proof.
  pose proof (runes_good l) as Hg. eapply Forall_impl; [exact Hg|]. intros [c bs] Hr. unfold quote_rune. cbn beta in Hr.
  do 7 (match goal with |- context [if ?x =? ?y then _ else _] => destruct (Z.eqb_spec x y); [repeat (apply Forall_cons_2; [by vm_compute|]); apply List.Forall_nil|] end).
  destruct ((c <? 32) || (c =? 60) || (c =? 62) || (c =? 38)) eqn:He; [apply escape_printable|].
  destruct ((c =? rune_error) && (len bs =? 1)) eqn:Hb; [apply escape_printable|].
  destruct ((c =? 8232) || (c =? 8233)); [apply escape_printable|].
  assert (good_rune (c, bs)) as (_ & _ & _ & Hs) by (apply Hr; unfold rune_valid; cbn [fst snd]; by rewrite Hb).
  clear Hb. bool_hyps. destruct Hs as [(a & [= -> ->] & _)|[_ Hh]].
  - apply Forall_singleton. unfold printable. lia.
  - eapply Forall_impl; [exact Hh|]. intros x Hx. unfold printable. cbn beta in Hx. lia.
Qed.

Lemma quote_printable (s : bytes) : Forall printable (quote s).
Proof.
  unfold quote. apply Forall_cons_2; [by vm_compute|]. apply Forall_app. split; [|by apply Forall_singleton; vm_compute].
  apply Forall_concat, Forall_fmap. exact (quote_rune_printable s).
Qed.

Lemma commas_printable (l : list bytes) : Forall (Forall printable) l -> Forall printable (commas l).
Proof.
  induction 1 as [|x l Hx _ IH]; [apply List.Forall_nil|]. destruct l as [|y l]; [done|]. rewrite commas_cons2.
  apply Forall_app. split; [done|]. apply Forall_cons_2; [by vm_compute|done].
Qed.

Lemma map_json_printable (m : gmap string bytes) : Forall printable (Marshal (map_json m)).
Proof.
  unfold map_json. cbn [Marshal]. apply Forall_cons_2; [by vm_compute|]. apply Forall_app. split; [|by apply Forall_singleton; vm_compute].
  rewrite map_map. apply commas_printable, Forall_fmap, Forall_forall. intros k _. cbn beta iota. 
  apply Forall_app. split; [apply quote_printable|]. apply Forall_cons_2; [by vm_compute|apply quote_printable].
Qed.

(** ** What is in the object *)
Lemma redact_fields_lookup (r : Redactor) (l : list (bytes * bytes)) (out : list (string * bytes)) : redact_fields r l = Some out ->
  out.*1 = map (fun kv => S kv.1) l
  /\ forall k v, (k, v) ∈ l -> exists v', Redact r v = Some v' /\ (S k, v') ∈ out.
Proof.
  revert out. induction l as [|[k v] l IH]; intros out; cbn [redact_fields]; [intros [= <-]; split; [done|]; by intros k v ?%not_elem_of_nil|].
  destruct (Redact r v) as [v'|] eqn:Hv; [|done]. cbn [mbind option_bind].
  destruct (redact_fields r l) as [out'|]; [|done]. intros [= <-]. destruct (IH out' eq_refl) as [H1 H2]. split.
  - cbn. by rewrite H1.
  - intros k0 v0 [[= -> ->]|Hin]%elem_of_cons; [exists v'; split; [done|left]|]. destruct (H2 _ _ Hin) as (v1 & ? & ?). exists v1. split; [done|by right].
Qed.

Lemma NoDup_fst_filter (p : bytes * bytes -> bool) (l : list (bytes * bytes)) : NoDup l.*1 -> NoDup (map fst (List.filter p l)).
Proof.
  induction l as [|[k v] l IH]; cbn; [constructor|]. intros [Hk Hl]%NoDup_cons. destruct (p (k, v)); [|by apply IH].
  cbn. constructor; [|by apply IH]. intros H. apply Hk. apply list_elem_of_fmap in H as ([k' v'] & -> & Hin).
  apply list_elem_of_In, filter_In in Hin as [Hin _]. apply list_elem_of_fmap. exists (k', v'). split; [done|by apply list_elem_of_In].
Qed.

Lemma fields_map (r : Redactor) (f : gmap bytes bytes) (out : list (string * bytes)) (k : bytes) :
  redact_fields r (List.filter ship_field (map_to_list f)) = Some out ->
  (list_to_map out : gmap string bytes) !! S k = if ship_field (k, []) then f !! k ≫= Redact r else None.
Proof.
  intros H. apply redact_fields_lookup in H as [Hk Hv].
  assert (forall kv, kv ∈ List.filter ship_field (map_to_list f) <-> f !! kv.1 = Some kv.2 /\ ship_field kv = true) as Hin.
  { intros [a b]. rewrite list_elem_of_In, filter_In, <-list_elem_of_In. by rewrite elem_of_map_to_list. }
  assert (NoDup out.*1) as Hnd.
  { rewrite Hk. rewrite <-(map_map fst S). apply NoDup_fmap_2; [intros a b Hab; apply (f_equal B) in Hab; by rewrite !B_S in Hab|].
    apply NoDup_fst_filter, NoDup_fst_map_to_list. }
  change (ship_field (k, [])) with (ship_field (k, default [] (f !! k))).
  destruct (f !! k) as [v|] eqn:Hf; [destruct (ship_field (k, v)) eqn:Hs|].
  - cbn [default from_option id]. rewrite Hs. cbn [mbind option_bind].
    destruct (Hv k v) as (v' & -> & Hout); [by apply Hin|]. by apply elem_of_list_to_map_1.
  - cbn [default from_option id]. rewrite Hs. apply not_elem_of_list_to_map_1. rewrite Hk. intros H.
    apply list_elem_of_fmap in H as ([k' v'] & Heq & Hkv). apply (f_equal B) in Heq. rewrite !B_S in Heq. cbn in Heq. subst k'.
    apply Hin in Hkv as [Hf' Hs']. cbn in Hf'. rewrite Hf in Hf'. injection Hf' as <-. congruence.
  - rewrite not_elem_of_list_to_map_1; [by destruct (ship_field _)|]. rewrite Hk. intros H.
    apply list_elem_of_fmap in H as ([k' v'] & Heq & Hkv). apply (f_equal B) in Heq. rewrite !B_S in Heq. cbn in Heq. subst k'.
    apply Hin in Hkv as [Hf' _]. cbn in Hf'. congruence.
Qed.

Lemma set_nonempty_lookup (k k' : string) (v : bytes) (m : gmap string bytes) :
  set_nonempty k v m !! k' = if decide (k = k') then match v with [] => m !! k' | _ => Some v end else m !! k'.
Proof. unfold set_nonempty. destruct v; [by case_decide|]. case_decide; [subst; apply lookup_insert_eq|by apply lookup_insert_ne]. Qed.

Lemma ship_field_key (k v : bytes) : ship_field (k, v) = true <-> k ∉ reservedFields /\ k <> [].
Proof. unfold ship_field. cbn [fst]. rewrite andb_true_iff, !negb_true_iff, !bool_decide_eq_false. done. Qed.

Definition opt_text (v : bytes) : option bytes := match v with [] => None | _ => Some v end.

(** The object, key by key. *)
Lemma encode_obj_lookup (r : Redactor) (now : time) (e : Entry) (m : gmap string bytes) : encode_obj r now e = Some m ->
  (exists msg, Redact r (e_Msg e) = Some msg /\ m !! "_msg"%string = Some msg)
  /\ m !! "_time"%string = Some (Format (if IsZero (e_Time e) then now else e_Time e))
  /\ m !! "source"%string = Some (e_Source e)
  /\ m !! "file"%string = opt_text (e_Path e) /\ m !! "unit"%string = opt_text (e_Unit e) /\ m !! "level"%string = opt_text (e_Level e)
  /\ (forall k, k ∈ map B ["_stream"; "host"; "agent_id"; "project_id"; "customer_id"; ""] -> m !! S k = None)
  /\ (forall k, k ∉ reservedFields -> k <> [] -> m !! S k = e_Fields e !! k ≫= Redact r).
Proof.
  unfold encode_obj. cbv zeta. destruct (redact_fields _ _) as [out|] eqn:Ho; [|done]. cbn [mbind option_bind].
  destruct (Redact r (e_Msg e)) as [msg|]; [|done]. cbn [mbind option_bind]. intros [= <-].
  pose proof (fun k => fields_map r (e_Fields e) out k Ho) as Hf. clear Ho.
  assert (forall k : string, bool_decide (B k ∈ reservedFields) = true -> (list_to_map out : gmap string bytes) !! k = None) as Hres.
  { intros k Hk. apply bool_decide_eq_true in Hk. specialize (Hf (B k)). rewrite S_B in Hf. rewrite Hf.
    destruct (ship_field (B k, [])) eqn:Hs; [|done]. by apply ship_field_key in Hs as [? _]. }
  assert (forall k : string, k ∉ ["level"; "unit"; "file"; "source"; "_msg"; "_time"]%string ->
    set_nonempty "level" (e_Level e) (set_nonempty "unit" (e_Unit e) (set_nonempty "file" (e_Path e)
      (<["source"%string := e_Source e]> (<["_msg"%string := msg]> (<["_time"%string := Format (if IsZero (e_Time e) then now else e_Time e)]> (list_to_map out)))))) !! k
    = (list_to_map out : gmap string bytes) !! k) as Hother.
  { intros k Hk. rewrite !not_elem_of_cons in Hk. destruct Hk as (? & ? & ? & ? & ? & ? & _).
    rewrite !set_nonempty_lookup. rewrite !decide_False by congruence. rewrite !lookup_insert_ne by congruence. done. }
  split_and!.
  - exists msg. split; [done|]. rewrite !set_nonempty_lookup, !decide_False by done. rewrite lookup_insert_ne, lookup_insert_eq by done. done.
  - rewrite !set_nonempty_lookup, !decide_False by done. rewrite !lookup_insert_ne, lookup_insert_eq by done. done.
  - rewrite !set_nonempty_lookup, !decide_False by done. by rewrite lookup_insert_eq.
  - rewrite !set_nonempty_lookup, !decide_False by done. rewrite decide_True by done.
    destruct (e_Path e); [|done]. cbn [opt_text]. rewrite !lookup_insert_ne by done. by apply Hres.
  - rewrite set_nonempty_lookup, decide_False by done. rewrite set_nonempty_lookup, decide_True by done.
    destruct (e_Unit e); [|done]. cbn [opt_text]. rewrite set_nonempty_lookup, decide_False by done. rewrite !lookup_insert_ne by done. by apply Hres.
  - rewrite set_nonempty_lookup, decide_True by done. destruct (e_Level e); [|done]. cbn [opt_text].
    rewrite !set_nonempty_lookup, !decide_False by done. rewrite !lookup_insert_ne by done. by apply Hres.
  - intros k Hk. rewrite Hother.
    + rewrite Hf. destruct (ship_field (k, [])) eqn:Hs; [|done]. apply ship_field_key in Hs as [Hs Hne]. exfalso.
      cbn [map] in Hk. repeat (apply elem_of_cons in Hk as [->|Hk]; [first [by apply Hne|apply Hs, (bool_decide_eq_true_1 _); vm_compute; reflexivity]|]).
      by apply not_elem_of_nil in Hk.
    + cbn [map] in Hk. repeat (apply elem_of_cons in Hk as [->|Hk]; [apply (bool_decide_eq_true_1 _); vm_compute; reflexivity|]).
      by apply not_elem_of_nil in Hk.
  - intros k Hk Hne. rewrite Hother.
    + rewrite Hf. by rewrite (proj2 (ship_field_key k [])).
    + intros Hin. apply Hk. rewrite <-(B_S k).
      repeat (apply elem_of_cons in Hin as [->|Hin]; [apply (bool_decide_eq_true_1 _); vm_compute; reflexivity|]). by apply not_elem_of_nil in Hin.
Qed.

Lemma redact_fields_total (r : Redactor) (l : list (bytes * bytes)) :
  (forall s, exists out, Redact r s = Some out) -> is_Some (redact_fields r l).
Proof.
  intros H. induction l as [|[k v] l [out IH]]; cbn [redact_fields]; [by eexists|]. destruct (H v) as [v' ->]. cbn [mbind option_bind].
  rewrite IH. by eexists.
Qed.

Lemma encode_obj_total (extra : list bytes) (r : Redactor) (now : time) (e : Entry) :
  NewRedactor extra = Some r -> is_Some (encode_obj r now e).
Proof.
  intros Hr. assert (forall s, exists out, Redact r s = Some out) as H by (intros s; by eapply Redact_total).
  unfold encode_obj. cbv zeta. destruct (redact_fields_total r (List.filter ship_field (map_to_list (e_Fields e))) H) as [out ->].
  cbn [mbind option_bind]. destruct (H (e_Msg e)) as [msg ->]. by eexists.
Qed.

(** Every entry can be rendered, as the shipper's theorems require. *)
Lemma encode_total (extra : list bytes) (r : Redactor) (now : time) (e : Entry) :
  NewRedactor extra = Some r -> is_Some (encode r now e).
Proof. intros Hr. unfold encode. destruct (encode_obj_total extra r now e Hr) as [m ->]. by eexists. Qed.

Lemma map_json_plain (m : gmap string bytes) :
  (forall k v, m !! k = Some v -> valid_utf8 (B k) = true /\ valid_utf8 v = true) -> plain_json max_depth (map_json m) = true.
Proof.
  intros H. unfold map_json. assert (exists d, max_depth = Datatypes.S d) as [d ->] by (exists 9999%nat; vm_compute; reflexivity).
  cbn [plain_json]. apply forallb_forall. intros kv Hkv. apply in_map_iff in Hkv as (k & <- & Hk). cbn [fst snd plain_json].
  apply list_elem_of_In in Hk. unfold sorted_keys in Hk. rewrite merge_sort_Permutation in Hk.
  apply list_elem_of_fmap in Hk as ([k' v] & -> & Hin). apply elem_of_map_to_list in Hin. cbn [fst]. rewrite Hin.
  destruct (H _ _ Hin) as [Hk Hv]. cbn [default from_option id]. by rewrite Hk, Hv.
Qed.

(** C26: what is sent for an entry.  With a redactor the agent could build, an
    entry always becomes one line: a JSON object without control characters,
    so without a newline, and a newline.  The object says the time (now when
    the entry has none), the redacted message and the source, the file, unit
    and level when they are known, and the redacted parser fields; a parser
    field cannot set or replace a key that belongs to the agent or the server
    (the host, the agent, the project or the customer).  When the texts are
    UTF-8 the server decodes exactly that object. *)
Theorem encode_line (extra : list bytes) (r : Redactor) (now : time) (e : Entry) :
  NewRedactor extra = Some r ->
  exists m, encode r now e = Some (Marshal (map_json m) ++ [newline])
    /\ Forall printable (Marshal (map_json m))
    /\ (exists msg, Redact r (e_Msg e) = Some msg /\ m !! "_msg"%string = Some msg)
    /\ m !! "_time"%string = Some (Format (if IsZero (e_Time e) then now else e_Time e))
    /\ m !! "source"%string = Some (e_Source e)
    /\ m !! "file"%string = opt_text (e_Path e) /\ m !! "unit"%string = opt_text (e_Unit e) /\ m !! "level"%string = opt_text (e_Level e)
    /\ (forall k, k ∈ map B ["_stream"; "host"; "agent_id"; "project_id"; "customer_id"; ""] -> m !! S k = None)
    /\ (forall k, k ∉ reservedFields -> k <> [] -> m !! S k = e_Fields e !! k ≫= Redact r)
    /\ ((forall k v, m !! k = Some v -> valid_utf8 (B k) = true /\ valid_utf8 v = true) ->
         Unmarshal (Marshal (map_json m)) = Some (map_json m)).
Proof.
  intros Hr. destruct (encode_obj_total extra r now e Hr) as [m Hm]. exists m.
  split; [unfold encode; by rewrite Hm|]. split; [apply map_json_printable|].
  destruct (encode_obj_lookup r now e m Hm) as (H1 & H2 & H3 & H4 & H5 & H6 & H7 & H8). split_and!; try done.
  intros Hv. by apply Unmarshal_Marshal, map_json_plain.
Qed.
End encode.

(** ** Sample runs *)
Definition format_sample (t : time) : bytes := B "T".
Definition nginx_sample : Entry :=
  {| e_Time := time_zero; e_Msg := B "GET /?token=abcdef"; e_Source := B "nginx"; e_Path := B "/var/log/a.log"; e_Unit := []; e_Level := B "info";
     e_Fields := list_to_map [(B "host", B "evil"); (B "path", B "/"); (B "", B "x")]; e_ack := None |}.

Example encode_run :
  (fun l => Unmarshal (removelast l)) <$> encode format_sample default_redactor 5 nginx_sample
  = Some (Some (JObj (map (fun p => (B p.1, JStr (B p.2)))
      [("_msg", "GET /?token=***"); ("_time", "T"); ("file", "/var/log/a.log"); ("level", "info"); ("path", "/"); ("source", "nginx")]%string))).
Proof. vm_compute. reflexivity. Qed.

Lemma encode_line_witness :
  exists m, encode format_sample default_redactor 5 nginx_sample = Some (Marshal (map_json m) ++ [newline])
    /\ m !! "host"%string = None /\ m !! "source"%string = Some (B "nginx").
Proof.
  destruct (encode_line format_sample [] default_redactor 5 nginx_sample) as (m & He & _ & _ & _ & Hs & _ & _ & _ & Hr & _); [reflexivity|].
  exists m. split; [exact He|]. split; [|exact Hs]. apply (Hr (B "host")). apply (bool_decide_eq_true_1 _). vm_compute. reflexivity.
Defined.

(** The redactor sees a parser field without its key: the password of a
    structured line is sent in clear, although it is masked when the same
    line is read as plain text. *)
Lemma structured_secret_sent :
  let line := json_text [("msg", JStr (B "login")); ("password", JStr (B "hunter2"))]%string in
  let sends (e : Entry) := (fun l => Contains l (B "hunter2")) <$> encode format_sample default_redactor 5 e in
  sends (parseJSON parse_sample float_sample sprint_sample line) = Some true /\ sends (parsePlain line) = Some false.
Proof. vm_compute. by split. Qed.
