(* ===== verification/Registry.v ===== *)
(** * The collector registry

    [src/internal/collector/collector.go].  [CollectAll] is a machine: the
    loop that starts the collectors, their calls of [Collect], which may
    outlive the pass that made them, and the waiters, one per call, which take
    a call's result or time out.  Every interleaving of these is a sequence of
    steps. *)
From S2P Require Import Prelude GoFloat GoStrings Metrics.
Local Open Scope Z_scope.

Definition isExcluded (name : string) (excludes : list string) : bool := existsb (fun ex => bool_decide (ex = name)) excludes.

Definition DefaultCollectTimeout : duration := 20 * second.

Inductive collect_error := CollectFailed (msg : string) | StillRunning | TimedOut (after : duration).
#[export] Instance collect_error_eq_dec : EqDecision collect_error.
Proof. solve_decision. Defined.

(** What a call of [Collect] returns: points, or an error (the points of a
    failed call are not used). *)
Abbreviation result := (list MetricPoint + collect_error)%type (only parsing).

(** One call of [Collect]: [c_res] is what its channel holds, [c_finished]
    whether [finish] ran. *)
Record call := { c_name : string; c_res : option result; c_finished : bool }.

(** An entry of [results], with the index of the call its waiter watches. *)
Inductive slot := SNone | SWait (k : nat) | SDone (r : result).

Record pass := { p_next : nat; p_results : list slot }.

Record Registry := {
  r_collectors : list string; r_timeout : duration; r_busy : gset string; r_calls : list call; r_pass : option pass }.

Definition NewRegistry (collectors : list string) : Registry := {|
  r_collectors := collectors; r_timeout := DefaultCollectTimeout; r_busy := ∅; r_calls := []; r_pass := None |}.

Definition WithTimeout (r : Registry) (d : duration) : Registry := {|
  r_collectors := r_collectors r; r_timeout := if 0 <? d then d else r_timeout r; r_busy := r_busy r; r_calls := r_calls r; r_pass := r_pass r |}.

Definition with_busy (r : Registry) (b : gset string) (cs : list call) (p : option pass) : Registry := {|
  r_collectors := r_collectors r; r_timeout := r_timeout r; r_busy := b; r_calls := cs; r_pass := p |}.

Definition start (b : gset string) (name : string) : bool * gset string :=
  if bool_decide (name ∈ b) then (false, b) else (true, {[name]} ∪ b).
Definition finish (b : gset string) (name : string) : gset string := b ∖ {[name]}.

(** One turn of the loop over the collectors. *)
Definition start_next (r : Registry) (p : pass) (name : string) : Registry :=
  let '(ok, b) := start (r_busy r) name in
  if ok then
    with_busy r b (r_calls r ++ [{| c_name := name; c_res := None; c_finished := false |}])
      (Some {| p_next := Datatypes.S (p_next p); p_results := <[p_next p := SWait (length (r_calls r))]> (p_results p) |})
  else
    with_busy r b (r_calls r) (Some {| p_next := Datatypes.S (p_next p); p_results := <[p_next p := SDone (inr StillRunning)]> (p_results p) |}).

Definition set_result (r : Registry) (p : pass) (i : nat) (res : result) : Registry :=
  with_busy r (r_busy r) (r_calls r) (Some {| p_next := p_next p; p_results := <[i := SDone res]> (p_results p) |}).

(** The last loop: points in registration order, errors by name. *)
Fixpoint assemble (names : list string) (results : list slot) : list MetricPoint * gmap string collect_error :=
  match names, results with
  | n :: ns, res :: t =>
      let '(points, errs) := assemble ns t in
      match res with
      | SDone (inl pts) => (pts ++ points, errs)
      | SDone (inr e) => (points, match errs !! n with Some _ => errs | None => <[n := e]> errs end)
      | _ => (points, errs)
      end
  | _, _ => ([], ∅)
  end.

Inductive action :=
  | ABegin                        (* CollectAll is called *)
  | AStart                        (* one turn of its first loop *)
  | AReturn (k : nat) (r : result)  (* a call returns and sends its result *)
  | AFinish (k : nat)             (* and then runs finish *)
  | ARecv (i : nat)               (* a waiter takes the result *)
  | ATimeout (i : nat)            (* or its context is done *)
  | AEnd.                         (* wg.Wait returns and CollectAll too *)

Definition done_waiting (s : slot) : bool := match s with SDone _ => true | _ => false end.

(** [None]: the action cannot happen in the state.  The second component is
    what [CollectAll] returns. *)
Definition step (r : Registry) (a : action) : option (Registry * option (list MetricPoint * gmap string collect_error)) :=
  match a, r_pass r with
  | ABegin, None =>
      Some (with_busy r (r_busy r) (r_calls r) (Some {| p_next := 0; p_results := replicate (length (r_collectors r)) SNone |}), None)
  | AStart, Some p => name ← r_collectors r !! p_next p; Some (start_next r p name, None)
  | AReturn k res, _ =>
      c ← r_calls r !! k;
      match c_res c with
      | None => Some (with_busy r (r_busy r) (<[k := {| c_name := c_name c; c_res := Some res; c_finished := c_finished c |}]> (r_calls r)) (r_pass r), None)
      | Some _ => None
      end
  | AFinish k, _ =>
      c ← r_calls r !! k;
      match c_res c, c_finished c with
      | Some _, false => Some (with_busy r (finish (r_busy r) (c_name c))
                                (<[k := {| c_name := c_name c; c_res := c_res c; c_finished := true |}]> (r_calls r)) (r_pass r), None)
      | _, _ => None
      end
  | ARecv i, Some p =>
      match p_results p !! i with
      | Some (SWait k) => c ← r_calls r !! k; res ← c_res c; Some (set_result r p i res, None)
      | _ => None
      end
  | ATimeout i, Some p =>
      match p_results p !! i with
      | Some (SWait k) => Some (set_result r p i (inr (TimedOut (r_timeout r))), None)
      | _ => None
      end
  | AEnd, Some p =>
      if (p_next p =? length (r_collectors r))%nat && forallb done_waiting (p_results p)
      then Some (with_busy r (r_busy r) (r_calls r) None, Some (assemble (r_collectors r) (p_results p)))
      else None
  | _, _ => None
  end.

Fixpoint run (r : Registry) (acts : list action) : option (Registry * list (list MetricPoint * gmap string collect_error)) :=
  match acts with
  | [] => Some (r, [])
  | a :: t => '(r1, o) ← step r a; '(r2, os) ← run r1 t; Some (r2, match o with Some x => x :: os | None => os end)
  end.

(** ** Invariant

    [base] is the number of calls made before the running pass. *)
Definition unfinished (r : Registry) (k : nat) (name : string) : Prop :=
  exists c, r_calls r !! k = Some c /\ c_name c = name /\ c_finished c = false.

(** The call [k] of the collector [i], made in this pass. *)
Definition own_call (base : nat) (r : Registry) (i k : nat) : Prop :=
  (base <= k)%nat /\ exists c name, r_calls r !! k = Some c /\ r_collectors r !! i = Some name /\ c_name c = name.

Definition slot_ok (base : nat) (r : Registry) (p : pass) (i : nat) (s : slot) : Prop :=
  match s with
  | SNone => (p_next p <= i)%nat
  | SWait k => (i < p_next p)%nat /\ own_call base r i k
  | SDone (inl pts) => (i < p_next p)%nat
      /\ exists k c, own_call base r i k /\ r_calls r !! k = Some c /\ c_res c = Some (inl pts)
  | SDone (inr e) => (i < p_next p)%nat
      /\ (e = StillRunning \/ e = TimedOut (r_timeout r) \/ exists k c, own_call base r i k /\ r_calls r !! k = Some c /\ c_res c = Some (inr e))
  end.

Record reg_inv (base : nat) (r : Registry) : Prop := {
  ri_busy : forall name, name ∈ r_busy r <-> exists k, unfinished r k name;
  ri_once : forall name k k', unfinished r k name -> unfinished r k' name -> k = k';
  ri_base : (base <= length (r_calls r))%nat;
  ri_pass : match r_pass r with
            | None => True
            | Some p => length (p_results p) = length (r_collectors r) /\ (p_next p <= length (r_collectors r))%nat
                /\ forall i s, p_results p !! i = Some s -> slot_ok base r p i s
            end }.

(** Calls are only added, and keep their name and a result they have. *)
Definition calls_grow (r r' : Registry) : Prop :=
  r_collectors r' = r_collectors r /\ r_timeout r' = r_timeout r
  /\ forall k c, r_calls r !! k = Some c -> exists c', r_calls r' !! k = Some c' /\ c_name c' = c_name c /\ (forall x, c_res c = Some x -> c_res c' = Some x).

Lemma own_call_grow (base : nat) (r r' : Registry) (i k : nat) : calls_grow r r' -> own_call base r i k -> own_call base r' i k.
Proof.
  intros (Hc & _ & Hg) (Hb & c & name & Hk & Hi & Hn). split; [done|]. destruct (Hg k c Hk) as (c' & Hk' & Hn' & _).
  exists c', name. rewrite Hc. split_and!; congruence.
Qed.

Lemma slot_ok_grow (base : nat) (r r' : Registry) (p p' : pass) (i : nat) (s : slot) :
  calls_grow r r' -> (p_next p <= p_next p')%nat -> (s = SNone -> (p_next p' <= i)%nat) -> slot_ok base r p i s -> slot_ok base r' p' i s.
Proof.
  intros Hg Hn Hsn. pose proof Hg as (_ & Ht & Hgc).
  assert (Hres : forall res, (exists k c, own_call base r i k /\ r_calls r !! k = Some c /\ c_res c = Some res) ->
    exists k c, own_call base r' i k /\ r_calls r' !! k = Some c /\ c_res c = Some res).
  { intros res (k & c & Ho & Hk & Hr). destruct (Hgc k c Hk) as (c' & Hk' & _ & Hr'). exists k, c'. eauto using own_call_grow. }
  destruct s as [|k|[pts|e]]; cbn [slot_ok].
  - intros _. by apply Hsn.
  - intros [Hi Ho]. split; [lia|]. by eapply own_call_grow.
  - intros [Hi Ho]. split; [lia|]. by apply Hres.
  - intros [Hi [->|[->|Ho]]]; (split; [lia|]); [by left|right; left; by rewrite Ht|right; right; by apply Hres].
Qed.

Lemma calls_grow_same (r : Registry) b p : calls_grow r (with_busy r b (r_calls r) p).
Proof. split_and!; [done..|]. cbn. intros k c Hk. by exists c. Qed.
Lemma calls_grow_snoc (r : Registry) b c p : calls_grow r (with_busy r b (r_calls r ++ [c]) p).
Proof. split_and!; [done..|]. cbn. intros k c' Hk. exists c'. split_and!; [|done..]. by apply lookup_app_l_Some. Qed.
Lemma calls_grow_insert (r : Registry) b k c c' p :
  r_calls r !! k = Some c -> c_name c' = c_name c -> (forall x, c_res c = Some x -> c_res c' = Some x) ->
  calls_grow r (with_busy r b (<[k := c']> (r_calls r)) p).
Proof.
  intros Hk Hn Hr. split_and!; [done..|]. cbn. intros k' d Hk'. destruct (decide (k = k')) as [<-|Hne].
  - exists c'. rewrite list_lookup_insert_eq by (by eapply lookup_lt_Some). split_and!; [done|congruence|]. intros x Hx. apply Hr. congruence.
  - exists d. by rewrite list_lookup_insert_ne.
Qed.

(** Replacing one entry of the results. *)
Lemma slots_insert (base : nat) (r r' : Registry) (p : pass) (i n' : nat) (s : slot) :
  calls_grow r r' -> (forall j t, p_results p !! j = Some t -> slot_ok base r p j t) ->
  (p_next p <= n')%nat -> (forall j, p_results p !! j = Some SNone -> j <> i -> (n' <= j)%nat) ->
  slot_ok base r' {| p_next := n'; p_results := <[i := s]> (p_results p) |} i s ->
  forall j t, <[i := s]> (p_results p) !! j = Some t -> slot_ok base r' {| p_next := n'; p_results := <[i := s]> (p_results p) |} j t.
Proof.
  intros Hg Hall Hn Hnone Hs j t Hj. destruct (decide (i = j)) as [<-|Hne].
  - apply list_lookup_insert_Some in Hj as [(_ & <- & _)|[? _]]; done.
  - rewrite list_lookup_insert_ne in Hj by done. eapply (slot_ok_grow base r r' p); eauto. cbn. intros ->. by apply Hnone.
Qed.

Lemma unfinished_snoc (r : Registry) b p n k name :
  unfinished (with_busy r b (r_calls r ++ [{| c_name := n; c_res := None; c_finished := false |}]) p) k name
  <-> unfinished r k name \/ (k = length (r_calls r) /\ name = n).
Proof.
  unfold unfinished. cbn. split.
  - intros (c & Hk & Hn & Hf). apply lookup_app_Some in Hk as [Hk|[Hle Hk]]; [left; eauto|right].
    apply list_lookup_singleton_Some in Hk as [Hz <-]. cbn in *. split; [lia|done].
  - intros [(c & Hk & Hn & Hf)|[-> ->]]; [exists c; split; [by apply lookup_app_l_Some|done]|].
    eexists. split; [apply list_lookup_middle; lia|done].
Qed.

Lemma unfinished_return (r : Registry) b p k0 c res k name : r_calls r !! k0 = Some c ->
  unfinished (with_busy r b (<[k0 := {| c_name := c_name c; c_res := Some res; c_finished := c_finished c |}]> (r_calls r)) p) k name
  <-> unfinished r k name.
Proof.
  intros Hk0. unfold unfinished. cbn. destruct (decide (k0 = k)) as [<-|Hne].
  - rewrite list_lookup_insert_eq by (by eapply lookup_lt_Some). rewrite Hk0. split; intros (d & Hd & Hn & Hf); simplify_eq; eauto.
  - by rewrite list_lookup_insert_ne.
Qed.

Lemma unfinished_finish (r : Registry) b p k0 c k name : r_calls r !! k0 = Some c ->
  unfinished (with_busy r b (<[k0 := {| c_name := c_name c; c_res := c_res c; c_finished := true |}]> (r_calls r)) p) k name
  <-> unfinished r k name /\ k <> k0.
Proof.
  intros Hk0. unfold unfinished. cbn. destruct (decide (k0 = k)) as [<-|Hne].
  - rewrite list_lookup_insert_eq by (by eapply lookup_lt_Some). split; [intros (d & Hd & Hn & Hf); simplify_eq|by intros [_ ?]].
  - rewrite list_lookup_insert_ne by done. naive_solver.
Qed.

Lemma pass_inv_begin (base : nat) (r : Registry) : reg_inv base r -> r_pass r = None ->
  reg_inv (length (r_calls r)) (with_busy r (r_busy r) (r_calls r) (Some {| p_next := 0; p_results := replicate (length (r_collectors r)) SNone |})).
Proof.
  intros [H1 H2 H3 _] Hp. constructor; cbn; [done..|]. split_and!; [by rewrite length_replicate|lia|].
  intros i s (-> & Hi)%lookup_replicate. cbn. lia.
Qed.

Lemma inv_start_next (base : nat) (r : Registry) (p : pass) (name : string) :
  reg_inv base r -> r_pass r = Some p -> r_collectors r !! p_next p = Some name -> reg_inv base (start_next r p name).
Proof.
  intros [H1 H2 H3 H4] Hp Hn. rewrite Hp in H4. destruct H4 as (Hlen & Hnext & Hall). apply lookup_lt_Some in Hn as Hlt.
  assert (Hnone : forall j, p_results p !! j = Some SNone -> j <> p_next p -> (Datatypes.S (p_next p) <= j)%nat)
    by (intros j Hj Hne; specialize (Hall j SNone Hj); cbn in Hall; lia).
  unfold start_next, start. case_bool_decide as Hb.
  - constructor; cbn; [done..|]. split_and!; [by rewrite length_insert|lia|]. apply (slots_insert base r); try done; [apply calls_grow_same|lia|].
    cbn. split; [lia|by left].
  - constructor.
    + intros n. cbn [r_busy with_busy]. rewrite elem_of_union, elem_of_singleton, H1. setoid_rewrite unfinished_snoc. naive_solver.
    + intros n k k' Hk Hk'. rewrite unfinished_snoc in Hk, Hk'. destruct Hk as [Hk|[-> ->]], Hk' as [Hk'|[-> Hk'n]]; [by eapply H2| | |done].
      * subst n. exfalso. apply Hb, H1. eauto.
      * exfalso. apply Hb, H1. eauto.
    + cbn. rewrite length_app. lia.
    + cbn. split_and!; [by rewrite length_insert|lia|]. apply (slots_insert base r); try done; [apply calls_grow_snoc|lia|].
      cbn. split; [lia|]. split; [done|]. eexists _, name. cbn. split; [by apply list_lookup_middle|done].
Qed.

Lemma inv_set_result (base : nat) (r : Registry) (p : pass) (i : nat) (k : nat) (res : result) :
  reg_inv base r -> r_pass r = Some p -> p_results p !! i = Some (SWait k) ->
  (res = inr (TimedOut (r_timeout r)) \/ exists c, r_calls r !! k = Some c /\ c_res c = Some res) ->
  reg_inv base (set_result r p i res).
Proof.
  intros [H1 H2 H3 H4] Hp Hi Hres. rewrite Hp in H4. destruct H4 as (Hlen & Hnext & Hall).
  constructor; cbn; [done..|]. split_and!; [by rewrite length_insert|done|].
  destruct (Hall i _ Hi) as [Hlt Hown].
  apply (slots_insert base r); try done; [apply calls_grow_same| |].
  - intros j Hj _. exact (Hall j _ Hj).
  - destruct Hres as [->|(c & Hk & Hc)]; [cbn; split; [lia|by right; left]|]. destruct res as [pts|e]; cbn; (split; [lia|]); [|right; right]; exists k, c; done.
Qed.

Lemma inv_calls (base : nat) (r r' : Registry) (k : nat) (c c' : call) (b : gset string) :
  reg_inv base r -> r_calls r !! k = Some c -> c_name c' = c_name c -> (forall x, c_res c = Some x -> c_res c' = Some x) ->
  r' = with_busy r b (<[k := c']> (r_calls r)) (r_pass r) ->
  (forall name, name ∈ b <-> exists k, unfinished r' k name) -> (forall name k k', unfinished r' k name -> unfinished r' k' name -> k = k') -> reg_inv base r'.
Proof.
  intros [H1 H2 H3 H4] Hk Hn Hr -> Hb Ho. constructor; [done|done|cbn; by rewrite length_insert|]. cbn. destruct (r_pass r) as [p|]; [|done].
  destruct H4 as (Hlen & Hnext & Hall). split_and!; [done..|]. intros i s Hi. eapply (slot_ok_grow base r _ p); [by eapply calls_grow_insert|done| |by apply Hall].
  intros ->. exact (Hall i _ Hi).
Qed.

Lemma registry_step_inv (base : nat) (r r' : Registry) (a : action) o : reg_inv base r -> a <> ABegin -> step r a = Some (r', o) -> reg_inv base r'.
Proof.
  intros Hi Ha Hs. destruct a as [| |k res|k|i|i|]; [done|..]; cbn [step] in Hs.
  - destruct (r_pass r) as [p|] eqn:Hp; [|done]. destruct (r_collectors r !! p_next p) as [name|] eqn:Hn; [|done]. cbn in Hs. simplify_eq. by eapply inv_start_next.
  - destruct (r_calls r !! k) as [c|] eqn:Hk; [|done]. cbn in Hs. destruct (c_res c) eqn:Hc; [done|]. simplify_eq.
    eapply inv_calls; [done|exact Hk| | |reflexivity| |]; try done; [by rewrite Hc| |].
    + intros name. setoid_rewrite (unfinished_return _ _ _ _ _ _ _ _ Hk). apply Hi.
    + intros name k1 k2. rewrite !(unfinished_return _ _ _ _ _ _ _ _ Hk). apply Hi.
  - destruct (r_calls r !! k) as [c|] eqn:Hk; [|done]. cbn in Hs. destruct (c_res c) eqn:Hc; [|done]. destruct (c_finished c) eqn:Hf; [done|]. simplify_eq.
    assert (Hu : unfinished r k (c_name c)) by (exists c; done). rewrite <- Hc.
    eapply inv_calls; [done|exact Hk| | |reflexivity| |]; try done.
    + intros name. setoid_rewrite (unfinished_finish _ _ _ _ _ _ _ Hk). unfold finish. rewrite elem_of_difference, elem_of_singleton, (ri_busy _ _ Hi).
      split.
      * intros [(k1 & Hk1) Hne]. exists k1. split; [done|]. intros ->. destruct Hk1 as (d & Hd & Hn & _). congruence.
      * intros (k1 & Hk1 & Hne). split; [eauto|]. intros ->. apply Hne. by eapply (ri_once _ _ Hi).
    + intros name k1 k2. rewrite !(unfinished_finish _ _ _ _ _ _ _ Hk). intros [? _] [? _]. by eapply (ri_once _ _ Hi).
  - destruct (r_pass r) as [p|] eqn:Hp; [|done]. destruct (p_results p !! i) as [[|k|]|] eqn:Hr; try done.
    destruct (r_calls r !! k) as [c|] eqn:Hk; [|done]. cbn in Hs. destruct (c_res c) eqn:Hc; [|done]. cbn in Hs. simplify_eq. eapply inv_set_result; eauto.
  - destruct (r_pass r) as [p|] eqn:Hp; [|done]. destruct (p_results p !! i) as [[|k|]|] eqn:Hr; try done. simplify_eq. eapply inv_set_result; eauto.
  - destruct (r_pass r) as [p|] eqn:Hp; [|done]. destruct (_ && _); [|done]. simplify_eq. destruct Hi as [H1 H2 H3 _]. by constructor.
Qed.

(** ** What a pass returns *)
Definition points_of (r : result) : list MetricPoint := match r with inl pts => pts | inr _ => [] end.

Lemma assemble_spec (names : list string) (os : list result) :
  length names = length os ->
  (assemble names (map SDone os)).1 = concat (map points_of os)
  /\ forall name, is_Some ((assemble names (map SDone os)).2 !! name) <-> exists i e, names !! i = Some name /\ os !! i = Some (inr e).
Proof.
  revert os. induction names as [|n names IH]; intros [|o os] Hl; cbn in Hl; try lia.
  { split; [done|]. intros name. cbn. rewrite lookup_empty. split; [by intros []|]. by intros (i & e & H & _). }
  destruct (IH os ltac:(lia)) as [Hp He]. cbn [map assemble concat]. destruct (assemble names (map SDone os)) as [pts errs]. cbn in Hp, He. subst pts.
  assert (Hsplit : forall name, (exists i e, (n :: names) !! i = Some name /\ (o :: os) !! i = Some (inr e))
    <-> (n = name /\ exists e, o = inr e) \/ exists i e, names !! i = Some name /\ os !! i = Some (inr e)).
  { intros name. split.
    - intros ([|i] & e & H1 & H2); cbn in *; simplify_eq; [left|right]; eauto.
    - intros [[-> [e ->]]|(i & e & H1 & H2)]; [by exists 0%nat, e|by exists (Datatypes.S i), e]. }
  destruct o as [pts|e]; cbn.
  - split; [done|]. intros name. rewrite Hsplit, He. naive_solver.
  - split; [done|]. intros name. rewrite Hsplit, <- He. destruct (errs !! n) eqn:Hn.
    + split; [by right|]. intros [[-> _]|H]; [by rewrite Hn|done].
    + destruct (decide (n = name)) as [->|Hne]; [rewrite lookup_insert_eq; naive_solver|]. rewrite lookup_insert_ne by done. naive_solver.
Qed.

(** The states the program can be in. *)
Definition reachable (names : list string) (r : Registry) : Prop :=
  exists d acts outs, run (WithTimeout (NewRegistry names) d) acts = Some (r, outs).

Lemma registry_run_app (r : Registry) (a b : list action) r' outs : run r (a ++ b) = Some (r', outs) ->
  exists r1 o1 o2, run r a = Some (r1, o1) /\ run r1 b = Some (r', o2) /\ outs = o1 ++ o2.
Proof.
  revert r outs. induction a as [|x a IH]; intros r outs H; cbn [app run] in *; [by exists r, [], outs|].
  destruct (step r x) as [[r1 o]|]; [|done]. cbn in *. destruct (run r1 (a ++ b)) as [[r2 os]|] eqn:E; [|done]. cbn in H. simplify_eq.
  apply IH in E as (r3 & o1 & o2 & H1 & H2 & ->). rewrite H1. cbn. exists r3. destruct o as [y|]; [exists (y :: o1), o2|exists o1, o2]; done.
Qed.

Lemma run_names (acts : list action) (r r' : Registry) outs : run r acts = Some (r', outs) -> r_collectors r' = r_collectors r /\ r_timeout r' = r_timeout r.
Proof.
  revert r outs. induction acts as [|a acts IH]; intros r outs H; cbn [run] in H; [by simplify_eq|].
  destruct (step r a) as [[r1 o]|] eqn:Hs; [|done]. cbn in H. destruct (run r1 acts) as [[r2 os]|] eqn:E; [|done]. cbn in H. simplify_eq.
  apply IH in E as [-> ->]. clear IH. destruct a; cbn [step] in Hs;
    repeat (first [apply bind_Some in Hs as (? & ? & Hs)|case_match]; simplify_eq); try done.
  unfold start_next, start. by case_bool_decide.
Qed.

#[export] Instance action_is_begin (a : action) : Decision (a = ABegin).
Proof. destruct a; (by left) || (by right). Defined.

Lemma registry_run_inv (acts : list action) (base : nat) (r r' : Registry) outs :
  reg_inv base r -> run r acts = Some (r', outs) -> exists base', reg_inv base' r' /\ (ABegin ∉ acts -> base' = base).
Proof.
  revert base r outs. induction acts as [|a acts IH]; intros base r outs Hi H; cbn [run] in H.
  - simplify_eq. by exists base.
  - destruct (step r a) as [[r1 o]|] eqn:Hs; [|done]. cbn in H. destruct (run r1 acts) as [[r2 os]|] eqn:E; [|done]. cbn in H. simplify_eq.
    destruct (decide (a = ABegin)) as [->|Hne].
    + cbn in Hs. destruct (r_pass r) eqn:Hp; [done|]. simplify_eq. destruct (IH _ _ _ (pass_inv_begin _ _ Hi Hp) E) as (b' & Hb & _).
      exists b'. split; [done|]. intros Hn. exfalso. apply Hn. by constructor.
    + destruct (IH _ _ _ (registry_step_inv _ _ _ _ _ Hi Hne Hs) E) as (b' & Hb & He). exists b'. split; [done|]. intros Hn. apply He. intros Hin. apply Hn. by right.
Qed.

Lemma inv_new (names : list string) (d : duration) : reg_inv 0 (WithTimeout (NewRegistry names) d).
Proof.
  constructor; cbn; [|by intros name k k' (c & H & _)|lia|done]. intros name. split; [intros H; by apply elem_of_empty in H|]. by intros (k & c & H & _).
Qed.

Lemma reachable_inv (names : list string) (r : Registry) : reachable names r -> exists base, reg_inv base r /\ r_collectors r = names.
Proof.
  intros (d & acts & outs & H). destruct (registry_run_inv _ _ _ _ _ (inv_new names d) H) as (b & Hb & _). exists b. split; [done|].
  by apply run_names in H as [-> _].
Qed.

Lemma run_silent (acts : list action) (r r' : Registry) outs :
  Forall (fun a => a <> ABegin /\ a <> AEnd) acts -> run r acts = Some (r', outs) -> outs = [].
Proof.
  intros Hf. revert r outs. induction Hf as [|a acts [Hb He] _ IH]; intros r outs H; cbn [run] in H; [by simplify_eq|].
  destruct (step r a) as [[r1 o]|] eqn:Hs; [|done]. cbn in H. destruct (run r1 acts) as [[r2 os]|] eqn:E; [|done]. cbn in H. simplify_eq.
  apply IH in E as ->. assert (Ho : o = None); [|by rewrite Ho].
  destruct a; cbn [step] in Hs; try done; repeat (first [apply bind_Some in Hs as (? & ? & Hs)|case_match]; simplify_eq); done.
Qed.

Lemma all_done (l : list slot) : forallb done_waiting l = true -> exists os, l = map SDone os.
Proof.
  induction l as [|s l IH]; intros H; [by exists []|]. cbn in H. apply andb_true_iff in H as [Hs H]. destruct (IH H) as [os ->].
  destruct s as [| |res]; try done. by exists (res :: os).
Qed.

(** C27: whatever the collectors do and however their calls, the waiters and the
    loop interleave, a pass returns the points of the collectors in
    registration order, those of each collector being what its own call of this
    pass returned (never a late result of an earlier pass); every collector
    without points in the result, and no other, has an error under its name;
    and the errors are only its own, a timeout, or a previous call still
    running. *)
Theorem collect_pass (names : list string) (r0 r' : Registry) (acts : list action) outs :
  reachable names r0 -> Forall (fun a => a <> ABegin /\ a <> AEnd) acts ->
  run r0 (ABegin :: acts ++ [AEnd]) = Some (r', outs) ->
  exists (os : list result) points errs, outs = [(points, errs)] /\ length os = length names
    /\ points = concat (map points_of os)
    /\ (forall name, is_Some (errs !! name) <-> exists i e, names !! i = Some name /\ os !! i = Some (inr e))
    /\ forall i res, os !! i = Some res -> res = inr StillRunning \/ res = inr (TimedOut (r_timeout r0))
         \/ exists k c, own_call (length (r_calls r0)) r' i k /\ r_calls r' !! k = Some c /\ c_res c = Some res.
Proof.
  intros Hreach Hacts Hrun. destruct (reachable_inv _ _ Hreach) as (base & Hinv & Hnames).
  cbn [run step] in Hrun. destruct (r_pass r0) eqn:Hp0; [done|]. cbn [mbind option_bind] in Hrun.
  set (rb := with_busy r0 (r_busy r0) (r_calls r0) _) in Hrun. pose proof (pass_inv_begin _ _ Hinv Hp0 : reg_inv _ rb) as Hb.
  destruct (run rb (acts ++ [AEnd])) as [[r2 os2]|] eqn:E; [|done]. cbn in Hrun. simplify_eq.
  apply registry_run_app in E as (r1 & o1 & o2 & E1 & E2 & ->). pose proof (run_silent _ _ _ _ Hacts E1) as ->.
  destruct (registry_run_inv _ _ _ _ _ Hb E1) as (b' & Hi1 & Hbase). rewrite Hbase in Hi1.
  2:{ intros Hin. rewrite Forall_forall in Hacts. by destruct (Hacts _ Hin). }
  apply run_names in E1 as [Hn1 Ht1]. cbn [run step] in E2. destruct (r_pass r1) as [p|] eqn:Hp1; [|done].
  destruct (_ && _) eqn:Hend; [|done]. cbn in E2. simplify_eq. apply andb_true_iff in Hend as [_ Hdone]. apply all_done in Hdone as [os Hos].
  destruct Hi1 as [_ _ _ Hpass]. rewrite Hp1 in Hpass. destruct Hpass as (Hlen & _ & Hall). rewrite Hos, length_map in Hlen.
  destruct (assemble_spec (r_collectors r1) os ltac:(done)) as [Hpts Herrs]. rewrite Hos.
  exists os, (assemble (r_collectors r1) (map SDone os)).1, (assemble (r_collectors r1) (map SDone os)).2.
  split; [by destruct (assemble _ _)|]. split; [rewrite Hlen; unfold rb in Hn1; by rewrite Hn1|]. split; [done|].
  rewrite Hn1 in Herrs |- *. split; [exact Herrs|]. intros i res Hi.
  specialize (Hall i (SDone res)). rewrite Hos, list_lookup_fmap, Hi in Hall. specialize (Hall eq_refl).
  destruct res as [pts|e]; [destruct Hall as [_ Hall]; by right; right|]. destruct Hall as [_ [->|[->|Hall]]]; [by left|right; left; by rewrite Ht1|by right; right].
Qed.

(** The results still waited for. *)
Definition is_wait (s : slot) : bool := match s with SWait _ => true | _ => false end.
Definition waits (l : list slot) : nat := countb is_wait l.

Lemma waits_insert (l : list slot) (i : nat) (x y : slot) : l !! i = Some x ->
  (waits (<[i := y]> l) + (if is_wait x then 1 else 0) = waits l + (if is_wait y then 1 else 0))%nat.
Proof.
  unfold waits, countb. revert i. induction l as [|s l IH]; intros [|i] Hi; cbn in Hi; simplify_eq.
  - change (<[0%nat := y]> (x :: l)) with (y :: l). cbn [List.filter]. destruct (is_wait x), (is_wait y); cbn [length]; lia.
  - change (<[Datatypes.S i := y]> (s :: l)) with (s :: <[i := y]> l). specialize (IH i Hi). cbn [List.filter].
    destruct (is_wait s); cbn [length]; lia.
Qed.

Lemma waits_none (l : list slot) : waits l = 0%nat -> forall i k, l !! i <> Some (SWait k).
Proof.
  unfold waits, countb. intros H i k Hi. apply length_zero_iff_nil in H.
  assert (Hin : In (SWait k) (List.filter is_wait l)) by (apply filter_In; split; [by apply list_elem_of_In, list_elem_of_lookup_2 with i|done]).
  by rewrite H in Hin.
Qed.

Lemma waits_some (l : list slot) : (0 < waits l)%nat -> exists i k, l !! i = Some (SWait k).
Proof.
  unfold waits, countb. destruct (List.filter is_wait l) as [|s t] eqn:E; [cbn; lia|]. intros _.
  assert (Hin : In s (List.filter is_wait l)) by (rewrite E; by left). apply filter_In in Hin as [Hin Hw]. apply list_elem_of_In in Hin.
  apply list_elem_of_lookup in Hin as [i Hi]. destruct s as [|k|]; try done. eauto.
Qed.

(** ** A pass ends *)

(** The steps of the pass itself, and those of them that need no collector to
    return. *)
Definition is_pass_step (a : action) : bool :=
  match a with AStart | ARecv _ | ATimeout _ | AEnd => true | _ => false end.
Definition own_step (a : action) : Prop := a = AStart \/ a = AEnd \/ exists i, a = ATimeout i.

(** What the pass has left to do: two steps for each collector not started
    yet, one for each result still waited for, and the return. *)
Definition remaining (r : Registry) : nat :=
  match r_pass r with
  | None => 0
  | Some p => 2 * (length (r_collectors r) - p_next p) + waits (p_results p) + 1
  end.

Lemma start_next_remaining (base : nat) (r : Registry) (p : pass) (name : string) :
  reg_inv base r -> r_pass r = Some p -> r_collectors r !! p_next p = Some name ->
  (remaining (start_next r p name) < remaining r)%nat.
Proof.
  intros Hi Hp Hn. pose proof (ri_pass _ _ Hi) as Hpass. rewrite Hp in Hpass. destruct Hpass as (Hlen & Hnext & Hall).
  apply lookup_lt_Some in Hn as Hlt. destruct (lookup_lt_is_Some_2 (p_results p) (p_next p) ltac:(lia)) as [s Hs].
  assert (Hw : is_wait s = false) by (specialize (Hall _ _ Hs); destruct s as [| |]; try done; destruct Hall; lia).
  unfold remaining, start_next, start. rewrite Hp. case_bool_decide; cbn [r_pass with_busy r_collectors p_next p_results].
  - pose proof (waits_insert (p_results p) (p_next p) s (SDone (inr StillRunning)) Hs) as H1. rewrite Hw in H1. cbn in H1. lia.
  - pose proof (waits_insert (p_results p) (p_next p) s (SWait (length (r_calls r))) Hs) as H1. rewrite Hw in H1. cbn in H1. lia.
Qed.

Lemma set_result_remaining (r : Registry) (p : pass) (i k : nat) (res : result) :
  r_pass r = Some p -> p_results p !! i = Some (SWait k) -> (remaining (set_result r p i res) < remaining r)%nat.
Proof.
  intros Hp Hi. unfold remaining, set_result. rewrite Hp. cbn [r_pass with_busy r_collectors p_next p_results].
  pose proof (waits_insert (p_results p) i (SWait k) (SDone res) Hi) as H1. cbn in H1. lia.
Qed.

(** Every step of the pass leaves it less to do, and no other step leaves it more. *)
Lemma step_remaining (base : nat) (r r' : Registry) (a : action) o :
  reg_inv base r -> a <> ABegin -> step r a = Some (r', o) ->
  (remaining r' + (if is_pass_step a then 1 else 0) <= remaining r)%nat.
Proof.
  intros Hi Hne Hs. destruct a as [| |k res|k|i|i|]; [done|..]; cbn [step] in Hs.
  - destruct (r_pass r) as [p|] eqn:Hp; [|done]. apply bind_Some in Hs as (name & Hn & Hs). simplify_eq.
    pose proof (start_next_remaining base r p name Hi Hp Hn). cbn [is_pass_step]. lia.
  - apply bind_Some in Hs as (c & Hk & Hs). destruct (c_res c); [done|]. simplify_eq. unfold remaining. cbn. lia.
  - apply bind_Some in Hs as (c & Hk & Hs). destruct (c_res c); [|done]. destruct (c_finished c); [done|]. simplify_eq. unfold remaining. cbn. lia.
  - destruct (r_pass r) as [p|] eqn:Hp; [|done]. destruct (p_results p !! i) as [[|k|]|] eqn:Hr; try done.
    apply bind_Some in Hs as (c & Hk & Hs). apply bind_Some in Hs as (x & Hx & Hs). simplify_eq.
    pose proof (set_result_remaining r p i k x Hp Hr). cbn [is_pass_step]. lia.
  - destruct (r_pass r) as [p|] eqn:Hp; [|done]. destruct (p_results p !! i) as [[|k|]|] eqn:Hr; try done. simplify_eq.
    pose proof (set_result_remaining r p i k (inr (TimedOut (r_timeout r))) Hp Hr). cbn [is_pass_step]. lia.
  - destruct (r_pass r) as [p|] eqn:Hp; [|done]. destruct (_ && _); [|done]. simplify_eq. unfold remaining. rewrite Hp. cbn. lia.
Qed.

(** *** Deadlines

    The steps with the time at which they are made.  A waiter gives up only
    when the context of its call is done: [dl] holds, for each collector
    started in this pass, the time of its start plus the registry's timeout
    (cancelling the whole pass only ends the context sooner). *)
Abbreviation deadlines := (gmap nat time) (only parsing).

Definition timed_step (s : Registry * deadlines) (ta : time * action)
    : option (Registry * deadlines * option (list MetricPoint * gmap string collect_error)) :=
  let '(r, dl) := s in let '(t, a) := ta in
  match a, r_pass r with
  | ATimeout i, _ => if default t (dl !! i) <=? t then '(r', o) ← step r a; Some (r', dl, o) else None
  | AStart, Some p => '(r', o) ← step r a; Some (r', <[p_next p := t + r_timeout r]> dl, o)
  | ABegin, _ => '(r', o) ← step r a; Some (r', ∅, o)
  | _, _ => '(r', o) ← step r a; Some (r', dl, o)
  end.

Fixpoint timed_run (s : Registry * deadlines) (tacts : list (time * action))
    : option (Registry * deadlines * list (list MetricPoint * gmap string collect_error)) :=
  match tacts with
  | [] => Some (s, [])
  | ta :: t => '(s1, o) ← timed_step s ta; '(s2, os) ← timed_run s1 t; Some (s2, match o with Some x => x :: os | None => os end)
  end.

Lemma timed_step_step (r r' : Registry) (dl dl' : deadlines) (t : time) (a : action) o :
  timed_step (r, dl) (t, a) = Some (r', dl', o) -> step r a = Some (r', o).
Proof.
  unfold timed_step. intros H. destruct a; repeat case_match; simplify_eq; try done;
    apply bind_Some in H as ([r1 o1] & Hs & H); simplify_eq; done.
Qed.

(** A running pass can always make a step of its own once its waiters are due. *)
Lemma pass_enabled (base : nat) (r : Registry) (p : pass) (dl : deadlines) (t : time) :
  reg_inv base r -> r_pass r = Some p -> (forall i d, dl !! i = Some d -> d <= t) ->
  exists a s', own_step a /\ timed_step (r, dl) (t, a) = Some s'.
Proof.
  intros Hi Hp Hdl. pose proof (ri_pass _ _ Hi) as Hpass. rewrite Hp in Hpass. destruct Hpass as (Hlen & Hnext & Hall).
  destruct (decide (p_next p < length (r_collectors r))%nat) as [Hlt|Hge].
  { destruct (lookup_lt_is_Some_2 (r_collectors r) (p_next p) Hlt) as [name Hn].
    exists AStart. eexists. split; [by left|]. cbn. by rewrite Hp, Hn. }
  destruct (decide (waits (p_results p) = 0)%nat) as [H0|H0].
  - exists AEnd. eexists. split; [by right; left|]. cbn. rewrite Hp, (proj2 (Nat.eqb_eq _ _)) by lia.
    assert (Hdone : forallb done_waiting (p_results p) = true); [|by rewrite Hdone].
    apply forallb_forall. intros s Hin. apply list_elem_of_In, list_elem_of_lookup in Hin as [i Hin]. pose proof (waits_none _ H0 i) as Hw.
    specialize (Hall i s Hin). apply lookup_lt_Some in Hin as Hil. destruct s as [|k|]; [cbn in Hall; lia|by destruct (Hw k)|done].
  - destruct (waits_some (p_results p) ltac:(lia)) as (i & k & Hik).
    exists (ATimeout i). eexists. split; [by right; right; exists i|]. cbn. rewrite Hp, Hik.
    assert (default t (dl !! i) <= t) as Hd by (destruct (dl !! i) as [d|] eqn:Hd; cbn; [by eapply Hdl|lia]).
    apply Z.leb_le in Hd. by rewrite Hd.
Qed.

(** What holds along a timed run of one pass. *)
Lemma timed_run_ends (tacts : list (time * action)) (base : nat) (r r' : Registry) (dl dl' : deadlines) outs :
  reg_inv base r -> Forall (fun x => x.2 <> ABegin) tacts -> timed_run (r, dl) tacts = Some (r', dl', outs) ->
  reg_inv base r' /\ r_timeout r' = r_timeout r /\ (remaining r' + countb (fun x => is_pass_step x.2) tacts <= remaining r)%nat
  /\ (outs = [] -> is_Some (r_pass r) -> is_Some (r_pass r'))
  /\ (forall i d, dl' !! i = Some d -> dl !! i = Some d \/ exists t, (t, AStart) ∈ tacts /\ d = t + r_timeout r).
Proof.
  revert base r dl outs. induction tacts as [|[t a] tacts IH]; intros base r dl outs Hi Hf H; cbn [timed_run] in H.
  { simplify_eq. split_and!; [done|done|cbn; lia|done|by left]. }
  apply Forall_cons in Hf as [Hne Hf]. cbn in Hne. apply bind_Some in H as ([[r1 dl1] o] & Hs & H).
  apply bind_Some in H as ([[r2 dl2] os] & Hr & H). injection H as -> -> <-. pose proof (timed_step_step _ _ _ _ _ _ _ Hs) as Hs1.
  destruct (IH base r1 dl1 os (registry_step_inv _ _ _ _ _ Hi Hne Hs1) Hf Hr) as (Hi' & Ht' & Hm & Hpass & Hdl).
  pose proof (step_remaining _ _ _ _ _ Hi Hne Hs1) as Hm1.
  assert (Ht1 : r_timeout r1 = r_timeout r).
  { destruct (run_names [a] r r1 (match o with Some x => [x] | None => [] end)) as [_ E]; [|done]. cbn. by rewrite Hs1. }
  split_and!; [done|congruence|unfold countb in *; cbn [List.filter snd]; destruct (is_pass_step a); cbn [length]; lia|..].
  - destruct o as [x|]; [done|]. intros -> Hp. apply Hpass; [done|]. destruct (r_pass r) as [p|] eqn:Hp0; [|by destruct Hp].
    destruct a as [| |k res|k|i|i|]; cbn [step] in Hs1; rewrite ?Hp0 in Hs1; try done;
      repeat (first [apply bind_Some in Hs1 as (? & ? & Hs1)|case_match]; simplify_eq); cbn; eauto.
    unfold start_next, start. case_bool_decide; cbn; eauto.
  - intros i d Hd. destruct (Hdl i d Hd) as [Hd1|(t1 & Hin & ->)]; [|right; exists t1; split; [by right|congruence]].
    unfold timed_step in Hs. destruct a as [| |k res|k|j|j|]; repeat case_match; simplify_eq; try done;
      apply bind_Some in Hs as ([r3 o3] & _ & Hs); simplify_eq; try by left.
    rewrite lookup_insert in Hd1. case_decide; simplify_eq; [right; exists t; split; [by left|done]|by left].
Qed.

(** C31: a collector that hangs never holds up a pass.  Take any schedule of a
    pass, with its times, however the loop, the collectors' calls (of this
    pass and late ones of earlier passes) and the waiters interleave, where a
    waiter gives up only once the timeout has run since its collector was
    started.  The pass makes at most two steps per collector and one; and as
    long as it has not returned, it can make a step that needs no collector
    (start the next one, give up on one, or return) at any time that is past
    the deadlines, each of which is the start of a collector plus the timeout.
    So it ends at the latest when they have passed, though no call returns. *)
Theorem collect_ends (names : list string) (r0 r : Registry) (dl : deadlines) (t0 : time) (tacts : list (time * action)) outs :
  reachable names r0 -> Forall (fun x => x.2 <> ABegin) tacts ->
  timed_run (r0, ∅) ((t0, ABegin) :: tacts) = Some (r, dl, outs) ->
  (countb (fun x => is_pass_step x.2) tacts <= 2 * length names + 1)%nat
  /\ (forall i d, dl !! i = Some d -> exists t, (t, AStart) ∈ tacts /\ d = t + r_timeout r0)
  /\ (outs = [] -> forall t, (forall i d, dl !! i = Some d -> d <= t) ->
        exists a s', own_step a /\ timed_step (r, dl) (t, a) = Some s').
Proof.
  intros Hr Hf Hrun. destruct (reachable_inv _ _ Hr) as (base & Hi & Hn). cbn [timed_run timed_step step] in Hrun.
  destruct (r_pass r0) eqn:Hp; [done|]. cbn [mbind option_bind] in Hrun.
  apply bind_Some in Hrun as ([[r2 dl2] os] & Hrun & Heq). injection Heq as <- <- <-.
  destruct (timed_run_ends _ _ _ _ _ _ _ (pass_inv_begin _ _ Hi Hp) Hf Hrun) as (Hi' & _ & Hm & Hpass & Hdl). split_and!.
  - unfold remaining at 2 in Hm. cbn [r_pass with_busy r_collectors p_next p_results] in Hm. rewrite Hn in Hm.
    assert (H0 : waits (replicate (length names) SNone) = 0%nat); [|lia].
    clear. unfold waits, countb. induction (length names) as [|k IHk]; [done|exact IHk].
  - intros i d Hd. destruct (Hdl i d Hd) as [Hd'|Hd']; [by rewrite lookup_empty in Hd'|done].
  - intros Hos t Ht. destruct (Hpass Hos) as [p Hp']; [by eexists|]. by eapply pass_enabled.
Qed.

(** no collector is ever run twice at once, over any sequence of passes,
    timeouts and late returns: at most one of its calls has not finished, and
    the registry's busy set holds exactly the collectors with such a call. *)
Theorem one_call_each (names : list string) (r : Registry) (name : string) :
  reachable names r ->
  (forall k k', unfinished r k name -> unfinished r k' name -> k = k') /\ (name ∈ r_busy r <-> exists k, unfinished r k name).
Proof. intros Hr. destruct (reachable_inv _ _ Hr) as (base & Hi & _). split; [intros k k'; apply (ri_once _ _ Hi)|apply (ri_busy _ _ Hi)]. Qed.

(** ** A concrete run: "disk" hangs, "cpu" answers *)
Definition demo_names : list string := ["cpu"; "disk"].
Definition demo_acts : list action := [AStart; AStart; AReturn 0 (inl []); AFinish 0; ARecv 0; ATimeout 1].
Definition demo_registry : Registry := WithTimeout (NewRegistry demo_names) 0.

Lemma demo_reachable : reachable demo_names demo_registry.
Proof. by exists 0, [], []. Qed.

Lemma collect_pass_witness :
  exists r' points errs, run demo_registry (ABegin :: demo_acts ++ [AEnd]) = Some (r', [(points, errs)]) /\ points = []
    /\ is_Some (errs !! "disk"%string).
Proof.
  assert (Hr : exists r' outs, run demo_registry (ABegin :: demo_acts ++ [AEnd]) = Some (r', outs)) by (eexists _, _; vm_compute; reflexivity).
  destruct Hr as (r' & outs & Hr).
  destruct (collect_pass demo_names demo_registry r' demo_acts outs demo_reachable) as (os & points & errs & -> & _ & _ & _ & _); [repeat constructor; done|exact Hr|].
  exists r', points, errs. split; [exact Hr|]. apply (f_equal (fun x => snd <$> x)) in Hr.
  assert (He : snd <$> run demo_registry (ABegin :: demo_acts ++ [AEnd]) = Some [([], {["disk"%string := TimedOut DefaultCollectTimeout]})]) by (vm_compute; reflexivity).
  rewrite He in Hr. cbn in Hr. simplify_eq. split; [done|]. by eexists.
Defined.

Lemma demo_mid_reachable : exists r p, reachable demo_names r /\ r_pass r = Some p /\ unfinished r 1 "disk".
Proof.
  eexists _, _. split; [exists 0, (ABegin :: demo_acts), []; vm_compute; reflexivity|]. split; [reflexivity|]. eexists. split; [reflexivity|done].
Qed.

(** Both collectors are started, "cpu" answers; "disk" hangs and is given up
    on at its deadline, 21 seconds after the start of the pass. *)
Definition demo_timed : list (time * action) :=
  [(0, AStart); (second, AStart); (second, AReturn 0 (inl [])); (2 * second, ARecv 0)].
Lemma collect_ends_witness :
  exists r dl, timed_run (demo_registry, ∅) ((0, ABegin) :: demo_timed) = Some (r, dl, [])
    /\ exists a s', own_step a /\ timed_step (r, dl) (21 * second, a) = Some s'.
Proof.
  assert (H : exists r dl, timed_run (demo_registry, ∅) ((0, ABegin) :: demo_timed) = Some (r, dl, []))
    by (eexists _, _; vm_compute; reflexivity).
  destruct H as (r & dl & H). exists r, dl. split; [exact H|].
  destruct (collect_ends demo_names demo_registry r dl 0 demo_timed [] demo_reachable) as (_ & Hdl & Hgo); [repeat constructor; done|exact H|].
  apply Hgo; [reflexivity|]. intros i d Hd. destruct (Hdl i d Hd) as (t & Hin & ->).
  unfold demo_timed in Hin. rewrite !elem_of_cons, elem_of_nil in Hin. destruct Hin as [E|[E|[E|[E|[]]]]]; try discriminate E; injection E as ->; vm_compute; discriminate.
Defined.

Lemma one_call_each_witness : exists r, unfinished r 1 "disk" /\ forall k, unfinished r k "disk" -> k = 1%nat.
Proof.
  destruct demo_mid_reachable as (r & p & Hr & _ & Hu). exists r. split; [done|]. intros k Hk. exact (proj1 (one_call_each demo_names r "disk" Hr) k 1%nat Hk Hu).
Defined.

(** A call sends its result before it runs [finish], so a pass that starts in
    between reports a collector that has returned as still running. *)
Lemma returned_call_still_running :
  snd <$> run (NewRegistry ["cpu"]) [ABegin; AStart; AReturn 0 (inl []); ARecv 0; AEnd; ABegin; AStart; AFinish 0; AEnd]
  = Some [([], ∅); ([], {["cpu"%string := StillRunning]})].
Proof. vm_compute. reflexivity. Qed.
