(* ===== verification/Agent.v ===== *)
(** * The agent's tick and its self metrics

    [src/internal/agent/agent.go] and
    [src/internal/collector/selfmetrics.go].  A tick takes what the registry
    collected, the clock readings and the result of the push as arguments and
    returns the agent, the set it pushed and whether it called the function
    for the first successful push (which commits a staged upgrade). *)
From S2P Require Import Prelude GoFloat GoStrings Metrics Registry Session Transport.
Local Open Scope Z_scope.

(** ** Self metrics *)
Record SelfMetricsCollector := {
  sm_agentID : string; sm_startedAt : time; pushSuccessTotal : float64; pushErrorTotal : float64; lastPushSuccessTS : float64;
  collectionDurationS : float64; pushDurationS : float64; collectorErrors : gmap string float64 }.

Definition NewSelfMetricsCollector (agentID : string) (startedAt : time) : SelfMetricsCollector := {|
  sm_agentID := agentID; sm_startedAt := startedAt; pushSuccessTotal := f64_zero; pushErrorTotal := f64_zero; lastPushSuccessTS := f64_zero;
  collectionDurationS := f64_zero; pushDurationS := f64_zero; collectorErrors := ∅ |}.

Definition RecordCollection (s : SelfMetricsCollector) (d : duration) (errs : gmap string collect_error) : SelfMetricsCollector := {|
  sm_agentID := sm_agentID s; sm_startedAt := sm_startedAt s; pushSuccessTotal := pushSuccessTotal s; pushErrorTotal := pushErrorTotal s;
  lastPushSuccessTS := lastPushSuccessTS s; collectionDurationS := Seconds d; pushDurationS := pushDurationS s;
  collectorErrors := merge (fun n e => match e with Some _ => Some (f64_add (default f64_zero n) f64_one) | None => n end) (collectorErrors s) errs |}.

(** [Time.Unix]. *)
Definition Unix (t : time) : Z := t / 1000000000 - unix_epoch_s.

Definition RecordPush (s : SelfMetricsCollector) (d : duration) (err : option push_error) (now : time) : SelfMetricsCollector :=
  match err with
  | Some _ => {| sm_agentID := sm_agentID s; sm_startedAt := sm_startedAt s; pushSuccessTotal := pushSuccessTotal s;
                 pushErrorTotal := f64_add (pushErrorTotal s) f64_one; lastPushSuccessTS := lastPushSuccessTS s;
                 collectionDurationS := collectionDurationS s; pushDurationS := Seconds d; collectorErrors := collectorErrors s |}
  | None => {| sm_agentID := sm_agentID s; sm_startedAt := sm_startedAt s; pushSuccessTotal := f64_add (pushSuccessTotal s) f64_one;
               pushErrorTotal := pushErrorTotal s; lastPushSuccessTS := f64_of_Z (Unix now);
               collectionDurationS := collectionDurationS s; pushDurationS := Seconds d; collectorErrors := collectorErrors s |}
  end.

(** The variables set at build time and what [runtime] reports. *)
Record build := { b_Version : string; b_Commit : string; b_BuildDate : string; b_go : string; b_os : string; b_arch : string }.

(** The error counters come in the order of the map's iteration, which is left
    open here: [map_to_list] is one such order. *)
Definition self_Collect (b : build) (s : SelfMetricsCollector) (now : time) : list MetricPoint :=
  [ point "agent_push_success_total" "Total number of successful metric push operations" Counter (pushSuccessTotal s) ∅;
    point "agent_push_error_total" "Total number of failed metric push operations" Counter (pushErrorTotal s) ∅;
    point "agent_last_push_success_timestamp" "Unix timestamp of the last successful push" Gauge (lastPushSuccessTS s) ∅;
    point "agent_collection_duration_seconds" "Duration of the last full collection pass in seconds" Gauge (collectionDurationS s) ∅;
    point "agent_push_duration_seconds" "Duration of the last push attempt in seconds" Gauge (pushDurationS s) ∅;
    point "agent_uptime_seconds" "Agent process uptime in seconds" Gauge (Seconds (time_sub now (sm_startedAt s))) ∅;
    point "agent_info" "Agent identity information" Gauge f64_one {["agent_version" := b_Version b]};
    point "agent_build_info" "Agent build information" Gauge f64_one
      (list_to_map [("version", b_Version b); ("commit", b_Commit b); ("build_date", b_BuildDate b); ("go_version", b_go b);
                    ("os", b_os b); ("arch", b_arch b)]) ]
  ++ map (fun kv => point "agent_collector_error_total" "Total errors per collector" Counter kv.2 {["collector" := kv.1]})
       (map_to_list (collectorErrors s)).

(** ** The agent *)
Record Config := {
  Interval : duration; cfg_AgentID : string; cfg_Hostname : string; cfg_Version : string; ShutdownTimeout : duration;
  OnFirstPushSuccess : bool }.

(** [a_committed] is the state of [commitOnce]; [a_onFirst] says whether the
    function is set. *)
Record Agent := {
  a_self : SelfMetricsCollector; a_interval : duration; a_shutdownTimeout : duration; a_agentID : string; a_hostname : string; a_version : string;
  a_onFirst : bool; a_committed : bool }.

Definition New (cfg : Config) (self : SelfMetricsCollector) : Agent := {|
  a_self := self; a_interval := Interval cfg;
  a_shutdownTimeout := if ShutdownTimeout cfg =? 0 then 10 * second else ShutdownTimeout cfg;
  a_agentID := cfg_AgentID cfg; a_hostname := cfg_Hostname cfg; a_version := cfg_Version cfg; a_onFirst := OnFirstPushSuccess cfg; a_committed := false |}.

(** What happens around one tick: the result of [CollectAll] and of [Push], and
    the clock at each reading. *)
Record tick_env := {
  t_points : list MetricPoint; t_errs : gmap string collect_error; t_push : option push_error;
  t_collectStart : time; t_collectEnd : time; t_self : time; t_at : time; t_pushStart : time; t_pushEnd : time; t_recorded : time }.

Definition tick (b : build) (a : Agent) (env : tick_env) : Agent * MetricSet * bool :=
  let self := RecordCollection (a_self a) (time_sub (t_collectEnd env) (t_collectStart env)) (t_errs env) in
  let ms := {| ms_Points := t_points env ++ self_Collect b self (t_self env); ms_AgentID := a_agentID a; ms_Hostname := a_hostname a;
               ms_Version := a_version a; ms_Source := "yomins_agent"; ms_CollectedAt := t_at env |} in
  let self' := RecordPush self (time_sub (t_pushEnd env) (t_pushStart env)) (t_push env) (t_recorded env) in
  let ok := match t_push env with None => true | Some _ => false end in
  ({| a_self := self'; a_interval := a_interval a; a_shutdownTimeout := a_shutdownTimeout a; a_agentID := a_agentID a; a_hostname := a_hostname a;
      a_version := a_version a; a_onFirst := a_onFirst a; a_committed := a_committed a || ok |},
   ms, ok && negb (a_committed a) && a_onFirst a).

(** [Run]: a tick at once, one per ticker event, and a final one on shutdown;
    the ticks in order, with what each pushed and whether it committed. *)
Fixpoint Run (b : build) (a : Agent) (envs : list tick_env) : Agent * list (MetricSet * bool) :=
  match envs with
  | [] => (a, [])
  | env :: t => let '(a1, ms, commit) := tick b a env in let '(a2, out) := Run b a1 t in (a2, (ms, commit) :: out)
  end.

(** ** Lemmas *)
Definition pushed_ok (env : tick_env) : bool := match t_push env with None => true | Some _ => false end.
Definition failed (name : string) (env : tick_env) : bool := match t_errs env !! name with Some _ => true | None => false end.

Definition counter (n : nat) : option float64 := match n with O => None | _ => Some (f64_count n) end.

Lemma f64_count_succ (n : nat) : f64_add (f64_count n) f64_one = f64_count (Datatypes.S n).
Proof. done. Qed.

Lemma errors_step (s : SelfMetricsCollector) d (errs : gmap string collect_error) (name : string) (n : nat) :
  collectorErrors s !! name = counter n ->
  collectorErrors (RecordCollection s d errs) !! name = counter (match errs !! name with Some _ => Datatypes.S n | None => n end).
Proof.
  intros H. cbn [RecordCollection collectorErrors]. rewrite lookup_merge, H. unfold diag_None. destruct (errs !! name) as [e|].
  - destruct n; cbn; by rewrite ?f64_count_succ.
  - by destruct n.
Qed.

(** What the counters are after the ticks [past]. *)
Record self_after (past : list tick_env) (a : Agent) : Prop := {
  sa_ok : pushSuccessTotal (a_self a) = f64_count (countb pushed_ok past);
  sa_err : pushErrorTotal (a_self a) = f64_count (countb (fun e => negb (pushed_ok e)) past);
  sa_errs : forall name, collectorErrors (a_self a) !! name = counter (countb (failed name) past);
  sa_commit : a_committed a = existsb pushed_ok past }.

Lemma countb_snoc {A} (p : A -> bool) (l : list A) (x : A) : countb p (l ++ [x]) = (if p x then Datatypes.S (countb p l) else countb p l).
Proof. rewrite countb_app. unfold countb. cbn. destruct (p x); cbn; lia. Qed.

Lemma failed_if {A} (name : string) (env : tick_env) (x y : A) :
  (if failed name env then x else y) = match t_errs env !! name with Some _ => x | None => y end.
Proof. unfold failed. by destruct (t_errs env !! name). Qed.

Lemma tick_after (b : build) (past : list tick_env) (a a' : Agent) (env : tick_env) ms c :
  self_after past a -> tick b a env = (a', ms, c) -> self_after (past ++ [env]) a' /\ a_onFirst a' = a_onFirst a.
Proof.
  intros [H1 H2 H3 H4] Ht. unfold tick in Ht. simplify_eq. split; [|done].
  assert (Herr : forall name, collectorErrors (RecordCollection (a_self a) (time_sub (t_collectEnd env) (t_collectStart env)) (t_errs env)) !! name
    = counter (countb (failed name) (past ++ [env]))).
  { intros name. rewrite (errors_step _ _ _ name (countb (failed name) past)) by apply H3. by rewrite countb_snoc, failed_if. }
  assert (Hok : pushed_ok env = match t_push env with None => true | Some _ => false end) by done.
  constructor; cbn [a_self a_committed].
  - rewrite countb_snoc, Hok. destruct (t_push env); cbn; by rewrite H1.
  - rewrite countb_snoc, Hok. destruct (t_push env); cbn; by rewrite H2.
  - intros name. rewrite <- Herr. by destruct (t_push env).
  - rewrite existsb_app, H4. cbn [existsb]. rewrite Hok, orb_false_r. by destruct (t_push env).
Qed.

(** What one tick pushes: the collected points, and the agent's own with the
    errors of this pass and the pushes before it. *)
Definition tick_out (b : build) (onFirst : bool) (past : list tick_env) (env : tick_env) (out : MetricSet * bool) : Prop :=
  (exists s, ms_Points out.1 = t_points env ++ self_Collect b s (t_self env)
     /\ pushSuccessTotal s = f64_count (countb pushed_ok past) /\ pushErrorTotal s = f64_count (countb (fun e => negb (pushed_ok e)) past)
     /\ forall name, collectorErrors s !! name = counter (countb (failed name) (past ++ [env])))
  /\ out.2 = onFirst && pushed_ok env && negb (existsb pushed_ok past).

Lemma tick_out_ok (b : build) (past : list tick_env) (a a' : Agent) (env : tick_env) ms c :
  self_after past a -> tick b a env = (a', ms, c) -> tick_out b (a_onFirst a) past env (ms, c).
Proof.
  intros [H1 H2 H3 H4] Ht. unfold tick in Ht. simplify_eq. split; cbn [fst snd].
  - eexists. split; [reflexivity|]. cbn [RecordCollection pushSuccessTotal pushErrorTotal]. split; [done|]. split; [done|]. intros name.
    rewrite (errors_step _ _ _ name (countb (failed name) past)) by apply H3. by rewrite countb_snoc, failed_if.
  - rewrite H4. unfold pushed_ok. destruct (t_push env), (a_onFirst a), (existsb _ past); done.
Qed.

Lemma Run_accounts (b : build) (envs past : list tick_env) (a a' : Agent) out :
  self_after past a -> Run b a envs = (a', out) ->
  self_after (past ++ envs) a' /\ length out = length envs
  /\ forall i env o, envs !! i = Some env -> out !! i = Some o -> tick_out b (a_onFirst a) (past ++ take i envs) env o.
Proof.
  revert past a a' out. induction envs as [|env envs IH]; intros past a a' out Hs Hr; cbn [Run] in Hr.
  - simplify_eq. rewrite app_nil_r. by split_and!.
  - destruct (tick b a env) as [[a1 ms] c] eqn:Ht. destruct (Run b a1 envs) as [a2 out2] eqn:E. simplify_eq.
    pose proof (tick_out_ok _ _ _ _ _ _ _ Hs Ht) as Hout. destruct (tick_after _ _ _ _ _ _ _ Hs Ht) as [Hs1 Ho].
    destruct (IH _ _ _ _ Hs1 E) as (Hs2 & Hl & Hi). rewrite <- app_assoc in Hs2. split; [done|]. split; [cbn; lia|].
    intros [|i] e o He Hoi; cbn in He, Hoi; simplify_eq.
    + by rewrite app_nil_r.
    + specialize (Hi i e o He Hoi). rewrite <- app_assoc, Ho in Hi. done.
Qed.

(** over every run of the agent, whatever the collectors and the server do:
    each tick pushes the collected points followed by the agent's own, which
    count the collector errors up to and including this pass and the pushes
    before it; at the end the counters are the numbers of accepted pushes, of
    failed ones and of each collector's failed passes; and the function that
    commits a staged upgrade is called in the first tick whose push succeeded,
    if it is set, and in no other. *)
Theorem agent_accounts (b : build) (cfg : Config) (id : string) (started : time) (envs : list tick_env) (a : Agent) out :
  Run b (New cfg (NewSelfMetricsCollector id started)) envs = (a, out) ->
  length out = length envs
  /\ (forall i env o, envs !! i = Some env -> out !! i = Some o -> tick_out b (OnFirstPushSuccess cfg) (take i envs) env o)
  /\ pushSuccessTotal (a_self a) = f64_count (countb pushed_ok envs)
  /\ pushErrorTotal (a_self a) = f64_count (countb (fun e => negb (pushed_ok e)) envs)
  /\ (forall name, collectorErrors (a_self a) !! name = counter (countb (failed name) envs))
  /\ countb snd out = (if OnFirstPushSuccess cfg && existsb pushed_ok envs then 1 else 0)%nat.
Proof.
  intros Hr. assert (H0 : self_after [] (New cfg (NewSelfMetricsCollector id started))).
  { constructor; done. }
  destruct (Run_accounts _ _ _ _ _ _ H0 Hr) as ([H1 H2 H3 _] & Hl & Hi). cbn [app] in *. split_and!; try done.
  cbn [a_onFirst New] in Hi.
  assert (Hsnd : forall past envs out, length out = length envs ->
    (forall i env o, envs !! i = Some env -> out !! i = Some o -> o.2 = OnFirstPushSuccess cfg && pushed_ok env && negb (existsb pushed_ok (past ++ take i envs))) ->
    countb (A := MetricSet * bool) snd out = (if OnFirstPushSuccess cfg && existsb pushed_ok envs && negb (existsb pushed_ok past) then 1 else 0)%nat).
  { clear. intros past envs. revert past. induction envs as [|env envs IH]; intros past [|o out] Hl H; cbn in Hl; try lia; [by rewrite andb_false_r|].
    pose proof (H 0%nat env o eq_refl eq_refl) as Ho. cbn [take] in Ho. rewrite app_nil_r in Ho.
    pose proof (IH (past ++ [env]) out ltac:(lia)
      (fun i e o' He Ho' => eq_ind_r (fun l => o'.2 = OnFirstPushSuccess cfg && pushed_ok e && negb (existsb pushed_ok l)) (H (Datatypes.S i) e o' He Ho') (eq_sym (app_assoc past [env] (take i envs))))) as Htail.
    unfold countb in *. cbn [List.filter existsb]. rewrite Ho. rewrite existsb_app in Htail. cbn [existsb] in Htail.
    destruct (OnFirstPushSuccess cfg), (pushed_ok env), (existsb pushed_ok past), (existsb pushed_ok envs); cbn in *; lia. }
  rewrite (Hsnd [] envs out Hl); [by rewrite andb_true_r|]. intros i env o He Ho. exact (proj2 (Hi i env o He Ho)).
Qed.

Definition demo_env (ok : bool) : tick_env := {|
  t_points := []; t_errs := if ok then ∅ else {["disk" := TimedOut second]}; t_push := if ok then None else Some (ErrNetwork "refused");
  t_collectStart := 0; t_collectEnd := second; t_self := second; t_at := second; t_pushStart := second; t_pushEnd := 2 * second; t_recorded := 2 * second |}.
Definition demo_build : build := {| b_Version := "1.2.0"; b_Commit := "abc"; b_BuildDate := "now"; b_go := "go1.23"; b_os := "linux"; b_arch := "amd64" |}.
Definition demo_agent : Agent := New {| Interval := minute; cfg_AgentID := "id"; cfg_Hostname := "h"; cfg_Version := "1.2.0"; ShutdownTimeout := 0;
  OnFirstPushSuccess := true |} (NewSelfMetricsCollector "id" 0).

(** A failed push, two successful ones and another failure: one commit. *)
Lemma agent_accounts_witness :
  countb snd (Run demo_build demo_agent (map demo_env [false; true; true; false])).2 = 1%nat
  /\ collectorErrors (a_self (Run demo_build demo_agent (map demo_env [false; true; true; false])).1) !! "disk"%string = Some (f64_count 2).
Proof.
  destruct (Run demo_build demo_agent (map demo_env [false; true; true; false])) as [a out] eqn:E.
  destruct (agent_accounts _ _ _ _ _ _ _ E) as (_ & _ & _ & _ & He & Hc). cbn [fst snd]. rewrite Hc, He. split; vm_compute; reflexivity.
Defined.
