(* ===== verification/LogStats.v ===== *)
(** * Metrics of the log pipeline

    [src/internal/logs/httpmetrics.go] (metrics derived from the lines) and
    the report of [stats.go].  [strconv.ParseFloat] is a parameter that gives
    the value and whether there was no error (a range error gives an
    infinity, a syntax error 0). *)
From S2P Require Import Prelude GoFloat GoStrings GoNum Metrics Session Transport Registry Agent LogTail LogShip.
Local Open Scope Z_scope.

Record histogram := { h_counts : list float64; h_sum : float64; h_n : float64 }.
Record lineMetrics := {
  lm_lines : gmap (string * string) float64; lm_requests : gmap (string * string) float64; lm_bytes : gmap string float64;
  lm_hist : gmap string histogram }.
Definition newLineMetrics : lineMetrics := {| lm_lines := ∅; lm_requests := ∅; lm_bytes := ∅; lm_hist := ∅ |}.

Definition maxVhosts : Z := 50.

(** The nearest float to a decimal fraction, and its text. *)
Definition bucket (num den : Z) (text : string) : float64 * string := (f64_div (f64_of_Z num) (f64_of_Z den), text).
Definition durationBuckets : list (float64 * string) :=
  [ bucket 5 100 "0.05"; bucket 1 10 "0.1"; bucket 25 100 "0.25"; bucket 5 10 "0.5"; bucket 1 1 "1"; bucket 25 10 "2.5"; bucket 5 1 "5";
    bucket 10 1 "10" ].

(** [m[k]++] and [m[k] += x]. *)
Definition add_to {K} `{Countable K} (k : K) (x : float64) (m : gmap K float64) : gmap K float64 :=
  <[k := f64_add (default f64_zero (m !! k)) x]> m.

Definition vhost_suffixes : list bytes := map B [".access.log"; "-access.log"; "_access.log"; ".analytics.log"; ".log"].

Fixpoint cut_first_suffix (base : bytes) (sufs : list bytes) : bytes :=
  match sufs with
  | [] => base
  | s :: t => match CutSuffix base s with Some v => v | None => cut_first_suffix base t end
  end.

Definition vhostFromFile (path : bytes) : bytes :=
  let base := TrimPrefix (cut_first_suffix (Base path) vhost_suffixes) (B "prom_") in
  if bool_decide (base ∈ [[]; B "access"; B "other_vhosts_access"]) then B "default" else base.

Example vhost_runs : map (fun s => S (vhostFromFile (B s))) ["/var/log/nginx/metro.dp.ua.access.log"; "/var/log/nginx/access.log"; "/x/prom_a.log"; "/x/.log"]
  = ["metro.dp.ua"; "default"; "a"; "default"]%string.
Proof. vm_compute. reflexivity. Qed.

(** A request time goes into every bucket whose bound it does not exceed. *)
Definition observe_hist (d : float64) (h : histogram) : histogram := {|
  h_counts := zip_with (fun c b => if f_le d b.1 then f64_add c f64_one else c) (h_counts h) durationBuckets;
  h_sum := f64_add (h_sum h) d; h_n := f64_add (h_n h) f64_one |}.
Definition new_hist : histogram := {| h_counts := map (fun _ => f64_zero) durationBuckets; h_sum := f64_zero; h_n := f64_zero |}.

Section observe.
Context (ParseFloat : bytes -> float64 * bool).

Definition level_label (e : Entry) : string := match e_Level e with [] => "none"%string | l => S l end.
Definition is_access (e : Entry) : bool :=
  (bool_decide (e_Source e = B "nginx") || bool_decide (e_Source e = B "apache")) && (len (default [] (e_Fields e !! B "status")) =? 3).
(** The name a line gives its virtual host, and the label it is counted under. *)
Definition vhost_name (e : Entry) : string :=
  S (match default [] (e_Fields e !! B "vhost") with [] => vhostFromFile (e_Path e) | v => v end).
Definition status_class (e : Entry) : string := S (take 1 (default [] (e_Fields e !! B "status")) ++ B "xx").
Definition vhost_of (m : lineMetrics) (e : Entry) : string :=
  let v := vhost_name e in
  match lm_bytes m !! v with
  | Some _ => v
  | None => if maxVhosts <=? Z.of_nat (size (lm_bytes m)) then "other"%string else v
  end.

Definition observe (m : lineMetrics) (e : Entry) : lineMetrics :=
  let lines := add_to (S (e_Source e), level_label e) f64_one (lm_lines m) in
  if negb (is_access e) then {| lm_lines := lines; lm_requests := lm_requests m; lm_bytes := lm_bytes m; lm_hist := lm_hist m |}
  else
    let vhost := vhost_of m e in
    let '(d, ok) := ParseFloat (default [] (e_Fields e !! B "request_time")) in
    {| lm_lines := lines;
       lm_requests := add_to (vhost, status_class e) f64_one (lm_requests m);
       lm_bytes := add_to vhost (ParseFloat (default [] (e_Fields e !! B "bytes"))).1 (lm_bytes m);
       lm_hist := if ok then <[vhost := observe_hist d (default new_hist (lm_hist m !! vhost))]> (lm_hist m) else lm_hist m |}.

Definition observe_all (es : list Entry) : lineMetrics := foldl observe newLineMetrics es.
End observe.

(** ** Reports *)
Definition pair_le (a b : string * string) : Prop := if decide (a.1 = b.1) then String.le a.2 b.2 else String.le a.1 b.1.
#[export] Instance pair_le_dec : RelDecision pair_le.
Proof. intros a b. unfold pair_le. case_decide; apply _. Defined.
Definition sortedPairs (m : gmap (string * string) float64) : list (string * string) := merge_sort pair_le (map fst (map_to_list m)).

Definition hist_help : string := "Request time from the access logs".
Definition hist_points (v : string) (h : histogram) : list MetricPoint :=
  zip_with (fun c b => point "http_request_duration_seconds_bucket" hist_help Counter c (list_to_map [("vhost"%string, v); ("le"%string, b.2)]))
    (h_counts h) durationBuckets
  ++ [ point "http_request_duration_seconds_bucket" hist_help Counter (h_n h) (list_to_map [("vhost"%string, v); ("le"%string, "+Inf"%string)]);
       point "http_request_duration_seconds_sum" hist_help Counter (h_sum h) {["vhost"%string := v]};
       point "http_request_duration_seconds_count" hist_help Counter (h_n h) {["vhost"%string := v]} ].

Definition points (m : lineMetrics) : list MetricPoint :=
  map (fun k => point "log_lines_total" "Log lines read, by source and level" Counter (default f64_zero (lm_lines m !! k))
                  (list_to_map [("log_source"%string, k.1); ("level"%string, k.2)])) (sortedPairs (lm_lines m))
  ++ map (fun k => point "http_requests_total" "Requests in the web server's access logs, by vhost and status class" Counter
                     (default f64_zero (lm_requests m !! k)) (list_to_map [("vhost"%string, k.1); ("status_class"%string, k.2)]))
       (sortedPairs (lm_requests m))
  ++ concat (map (fun v =>
       point "http_response_bytes_total" "Bytes sent, from the access logs" Counter (default f64_zero (lm_bytes m !! v)) {["vhost"%string := v]}
       :: match lm_hist m !! v with Some h => hist_points v h | None => [] end) (sorted_keys (lm_bytes m))).

(** [Stats.Collect]; what the registered functions report is an argument. *)
Definition sum_counts (l : list Z) : Z := foldl (fun a n => a +i n)%go 0 l.

Definition stats_Collect (s : Stats) (derived : lineMetrics) (watchers deniers outsides : list Z) : list MetricPoint :=
  let keys (m : gmap bytes float64) := merge_sort String.le (map (fun kv => S kv.1) (map_to_list m)) in
  map (fun src => point "agent_logs_lines_total" "Log lines delivered, by source" Counter (default f64_zero (st_lines s !! B src))
                    {["log_source"%string := src]}) (keys (st_lines s))
  ++ map (fun r => point "agent_logs_dropped_total" "Log lines dropped, by reason" Counter (default f64_zero (st_drops s !! B r))
                     {["reason"%string := r]}) (keys (st_drops s))
  ++ [ point "agent_logs_bytes_total" "Bytes of log lines delivered (before compression)" Counter (st_bytes s) ∅;
       point "agent_logs_retries_total" "Log batch delivery attempts that failed" Counter (st_retries s) ∅ ]
  ++ (if IsZero (st_lastShip s) then []
      else [point "agent_logs_last_delivery_timestamp" "Unix time of the last delivered log batch" Gauge (f64_of_Z (Unix (st_lastShip s))) ∅])
  ++ points derived
  ++ [ point "agent_logs_files_outside_allow" "Log files matched by the configured paths that lie outside the agent's allow list (YOMINS_LOG_ALLOW)" Gauge (f64_of_Z (sum_counts outsides)) ∅;
       point "agent_logs_files_watched" "Log files followed now" Gauge (f64_of_Z (sum_counts watchers)) ∅;
       point "agent_logs_files_denied" "Log files found that the agent may not read (re-run the installer)" Gauge (f64_of_Z (sum_counts deniers)) ∅ ].

(** ** Histograms are cumulative *)
Lemma f_le_trans (x y z : spec_float) : f_le x y = true -> f_le y z = true -> f_le x z = true.
Proof.
  unfold f_le, SFleb, SFcompare.
  destruct x as [[]|[]| |[] mx ex], y as [[]|[]| |[] my ey], z as [[]|[]| |[] mz ez]; try done;
    change (Pos.compare_cont Eq mx my) with (mx ?= my)%positive; change (Pos.compare_cont Eq my mz) with (my ?= mz)%positive;
    change (Pos.compare_cont Eq mx mz) with (mx ?= mz)%positive;
    destruct (Z.compare_spec ex ey), (Z.compare_spec ey ez), (Z.compare_spec ex ez); try done; try lia;
    destruct (Pos.compare_spec mx my), (Pos.compare_spec my mz), (Pos.compare_spec mx mz); cbn; try done; lia.
Qed.

(** A histogram of [n] requests, [ks] of them under each bound. *)
Definition hist_ok (h : histogram) : Prop :=
  exists (ks : list nat) (n : nat),
    h_counts h = map f64_count ks /\ h_n h = f64_count n /\ length ks = length durationBuckets
    /\ (forall i a b, ks !! i = Some a -> ks !! Datatypes.S i = Some b -> (a <= b)%nat) /\ Forall (fun k => (k <= n)%nat) ks.

Lemma f64_count_S (n : nat) : f64_count (Datatypes.S n) = f64_add (f64_count n) f64_one.
Proof. done. Qed.

Lemma buckets_increase (i : nat) (a b : float64 * string) :
  durationBuckets !! i = Some a -> durationBuckets !! Datatypes.S i = Some b -> f_le a.1 b.1 = true.
Proof.
  unfold durationBuckets. do 8 (destruct i as [|i]; [by intros [= <-] [= <-]; vm_compute|]). done.
Qed.

Definition under (d : float64) (b : float64 * string) : nat := if f_le d b.1 then 1 else 0.

Lemma under_increases (d : float64) (i : nat) (a b : float64 * string) :
  durationBuckets !! i = Some a -> durationBuckets !! Datatypes.S i = Some b -> (under d a <= under d b)%nat.
Proof.
  intros Ha Hb. unfold under. destruct (f_le d a.1) eqn:H; [|lia].
  by rewrite (f_le_trans d a.1 b.1 H (buckets_increase i a b Ha Hb)).
Qed.

Lemma observe_hist_ok (d : float64) (h : histogram) : hist_ok h -> hist_ok (observe_hist d h).
Proof.
  intros (ks & n & Hc & Hn & Hlen & Hmono & Hall).
  exists (zip_with (fun k b => (k + under d b)%nat) ks durationBuckets), (Datatypes.S n). unfold observe_hist. cbn [h_counts h_n].
  split_and!.
  - rewrite Hc. clear. generalize durationBuckets. revert ks. induction ks as [|k ks IH]; intros [|b bs]; [done..|]. cbn [map zip_with].
    rewrite <-IH. f_equal. unfold under. destruct (f_le d b.1); [|by rewrite Nat.add_0_r]. by rewrite Nat.add_1_r, f64_count_S.
  - by rewrite Hn, f64_count_S.
  - rewrite length_zip_with. lia.
  - intros i a b. rewrite !lookup_zip_with_Some. intros (k1 & b1 & -> & Hk1 & Hb1) (k2 & b2 & -> & Hk2 & Hb2).
    pose proof (Hmono _ _ _ Hk1 Hk2). pose proof (under_increases d _ _ _ Hb1 Hb2). lia.
  - apply Forall_forall. intros x Hx. apply elem_of_lookup_zip_with in Hx as (i & k & b & -> & Hk & _).
    rewrite Forall_forall in Hall. pose proof (Hall k (list_elem_of_lookup_2 _ _ _ Hk)). unfold under. destruct (f_le d b.1); lia.
Qed.

Lemma new_hist_ok : hist_ok new_hist.
Proof.
  exists (map (fun _ => O) durationBuckets), O. split_and!; [reflexivity..| |repeat constructor].
  intros i a b Ha _. apply list_elem_of_lookup_2, list_elem_of_In, in_map_iff in Ha as (? & <- & _). lia.
Qed.

(** ** Bounds of the labels *)
Record lm_inv (m : lineMetrics) : Prop := {
  li_size : (size (lm_bytes m) <= 50)%nat \/ ((size (lm_bytes m) <= 51)%nat /\ is_Some (lm_bytes m !! "other"%string));
  li_hist : forall v h, lm_hist m !! v = Some h -> is_Some (lm_bytes m !! v) /\ hist_ok h;
  li_requests : forall v c x, lm_requests m !! (v, c) = Some x -> is_Some (lm_bytes m !! v) }.

Lemma add_to_some {K} `{Countable K} (k k' : K) (x : float64) (m : gmap K float64) : is_Some (m !! k') -> is_Some (add_to k x m !! k').
Proof. intros Hm. unfold add_to. destruct (decide (k = k')) as [->|]; [rewrite lookup_insert_eq; eauto|by rewrite lookup_insert_ne]. Qed.

Lemma add_to_here {K} `{Countable K} (k : K) (x : float64) (m : gmap K float64) : is_Some (add_to k x m !! k).
Proof. unfold add_to. rewrite lookup_insert_eq. eauto. Qed.

Lemma size_add_to (k : string) (x : float64) (m : gmap string float64) :
  size (add_to k x m) = match m !! k with Some _ => size m | None => Datatypes.S (size m) end.
Proof.
  unfold add_to. destruct (m !! k) eqn:Hk; [by apply map_size_insert_Some; eauto|by apply map_size_insert_None].
Qed.

Lemma observe_inv (ParseFloat : bytes -> float64 * bool) (m : lineMetrics) (e : Entry) : lm_inv m -> lm_inv (observe ParseFloat m e).
Proof.
  intros [Hsize Hhist Hreq]. unfold observe. destruct (negb (is_access e)); [by constructor|].
  destruct (ParseFloat (default [] (e_Fields e !! B "request_time"))) as [d ok]. set (x := (ParseFloat _).1).
  set (v := vhost_of m e). constructor; cbn [lm_bytes lm_hist lm_requests].
  - rewrite size_add_to. unfold v, vhost_of, maxVhosts. set (w := vhost_name e).
    destruct (lm_bytes m !! w) eqn:Hw.
    + rewrite Hw. destruct Hsize as [?|[? ?]]; [by left|right]. split; [done|by apply add_to_some].
    + destruct (Z.leb_spec 50 (Z.of_nat (size (lm_bytes m)))) as [Hge|Hlt].
      * right. split; [|apply add_to_here]. destruct Hsize as [?|[? [y Hy]]]; [destruct (lm_bytes m !! "other"%string); lia|by rewrite Hy].
      * rewrite Hw. left. lia.
  - intros u h Hu. destruct ok; [|destruct (Hhist u h Hu) as [? ?]; split; [by apply add_to_some|done]].
    destruct (decide (v = u)) as [<-|Hne].
    + rewrite lookup_insert_eq in Hu. injection Hu as <-. split; [apply add_to_here|]. apply observe_hist_ok.
      destruct (lm_hist m !! v) as [h0|] eqn:Hh; [by apply (Hhist v h0)|apply new_hist_ok].
    + rewrite lookup_insert_ne in Hu by done. destruct (Hhist u h Hu) as [? ?]. split; [by apply add_to_some|done].
  - intros u c y Hu. unfold add_to in Hu at 1. set (k := (v, _)) in Hu. destruct (decide (k = (u, c))) as [Heq|Hne].
    + unfold k in Heq. injection Heq as <- _. apply add_to_here.
    + rewrite lookup_insert_ne in Hu by done. by apply add_to_some, (Hreq u c y).
Qed.

Lemma observe_all_inv (ParseFloat : bytes -> float64 * bool) (es : list Entry) : lm_inv (observe_all ParseFloat es).
Proof.
  unfold observe_all. induction es as [|e es IH] using rev_ind.
  - constructor; cbn; [left; rewrite map_size_empty; lia|by intros v h ?%lookup_empty_Some..|by intros v c x ?%lookup_empty_Some].
  - rewrite foldl_app. cbn [foldl]. by apply observe_inv.
Qed.

(** ** Counts of lines *)
Definition counted (n : nat) : option float64 := match n with O => None | _ => Some (f64_count n) end.
Definition line_key (e : Entry) : string * string := (S (e_Source e), level_label e).

Lemma counted_S (n : nat) : Some (f64_add (default f64_zero (counted n)) f64_one) = counted (Datatypes.S n).
Proof. by destruct n. Qed.

Lemma observe_lines (ParseFloat : bytes -> float64 * bool) (m : lineMetrics) (e : Entry) :
  lm_lines (observe ParseFloat m e) = add_to (line_key e) f64_one (lm_lines m).
Proof. unfold observe, line_key. destruct (negb _); [done|]. by destruct (ParseFloat _). Qed.

Lemma lines_counted (ParseFloat : bytes -> float64 * bool) (es : list Entry) (k : string * string) :
  lm_lines (observe_all ParseFloat es) !! k = counted (countb (fun e => bool_decide (line_key e = k)) es).
Proof.
  unfold observe_all. induction es as [|e es IH] using rev_ind; [apply lookup_empty|].
  rewrite foldl_app. cbn [foldl]. rewrite observe_lines, countb_app. unfold add_to.
  change (countb (fun e => bool_decide (line_key e = k)) [e]) with (length (if bool_decide (line_key e = k) then [e] else [])).
  case_bool_decide as He; cbn [length].
  - subst k. rewrite lookup_insert_eq, IH, Nat.add_1_r. apply counted_S.
  - rewrite lookup_insert_ne by done. by rewrite IH, Nat.add_0_r.
Qed.

Lemma counted_exact (n : nat) : (0 < n)%nat -> Z.of_nat n < 2 ^ 53 -> counted n = Some (f64_of_Z (Z.of_nat n)).
Proof. intros Hp Hn. destruct n as [|n]; [lia|]. unfold counted. by rewrite f64_count_exact. Qed.

(** ** Which virtual hosts have their own series *)

(** The distinct elements of a list, in the order they first appear. *)
Definition seen_once (acc : list string) (x : string) : list string := if decide (x ∈ acc) then acc else acc ++ [x].
Definition distinct (l : list string) : list string := foldl seen_once [] l.

Lemma distinct_snoc (l : list string) (x : string) : distinct (l ++ [x]) = seen_once (distinct l) x.
Proof. unfold distinct. by rewrite foldl_app. Qed.

Lemma elem_of_distinct (l : list string) (x : string) : x ∈ distinct l <-> x ∈ l.
Proof.
  induction l as [|y l IH] using rev_ind; [done|]. rewrite distinct_snoc, elem_of_app, list_elem_of_singleton. unfold seen_once.
  case_decide; rewrite ?elem_of_app, ?list_elem_of_singleton, IH; [naive_solver|done].
Qed.

Lemma NoDup_distinct (l : list string) : NoDup (distinct l).
Proof.
  induction l as [|y l IH] using rev_ind; [constructor|]. rewrite distinct_snoc. unfold seen_once. case_decide; [done|].
  apply NoDup_app. split_and!; [done|set_solver|apply NoDup_singleton].
Qed.

(** The names of the access lines, the first fifty of them, and the label. *)
Definition names (es : list Entry) : list string := map vhost_name (List.filter is_access es).
Definition own_series (es : list Entry) : list string := take 50 (distinct (names es)).
Definition label_in (top : list string) (v : string) : string := if decide (v ∈ top) then v else "other"%string.

Lemma names_snoc (es : list Entry) (e : Entry) : names (es ++ [e]) = names es ++ (if is_access e then [vhost_name e] else []).
Proof. unfold names. rewrite List.filter_app, map_app. cbn. by destruct (is_access e). Qed.

(** Once fifty names are known the list no longer changes. *)
Lemma own_series_snoc (es : list Entry) (e : Entry) : is_access e = true ->
  own_series (es ++ [e])
  = if decide ((length (own_series es) < 50)%nat /\ vhost_name e ∉ own_series es) then own_series es ++ [vhost_name e] else own_series es.
Proof.
  intros Ha. unfold own_series. rewrite names_snoc, Ha, distinct_snoc. unfold seen_once. set (d := distinct (names es)).
  rewrite length_take. case_decide as Hin.
  - case_decide as H; [|done]. destruct H as [Hl Hn]. rewrite take_ge in Hn by lia. done.
  - destruct (decide (length d < 50)%nat) as [Hl|Hl].
    + rewrite !take_ge by (rewrite ?length_app; cbn; lia). case_decide as H; [done|]. destruct H. split; [lia|done].
    + rewrite take_app_le by lia. case_decide as H; [lia|done].
Qed.

(** A line keeps its label as more lines come. *)
Lemma label_stable (es : list Entry) (e x : Entry) : x ∈ es -> is_access x = true ->
  label_in (own_series (es ++ [e])) (vhost_name x) = label_in (own_series es) (vhost_name x).
Proof.
  intros Hx Hax. destruct (is_access e) eqn:Ha; [|unfold own_series; by rewrite names_snoc, Ha, app_nil_r].
  rewrite own_series_snoc by done. case_decide as H; [|done]. destruct H as [Hl Hn]. unfold label_in.
  assert (Hin : vhost_name x ∈ own_series es).
  { unfold own_series in *. rewrite length_take in Hl. rewrite take_ge by lia. apply elem_of_distinct. unfold names.
    apply list_elem_of_In, in_map, filter_In. split; [by apply list_elem_of_In|done]. }
  rewrite !decide_True; [done|done|]. apply elem_of_app. by left.
Qed.

(** The series are those of the first fifty names, and [other] once they are
    exhausted. *)
Definition series_ok (es : list Entry) (m : lineMetrics) : Prop :=
  dom (lm_bytes m) = list_to_set (own_series es)
  \/ (dom (lm_bytes m) = {["other"%string]} ∪ list_to_set (own_series es) /\ length (own_series es) = 50%nat).

Lemma own_series_NoDup (es : list Entry) : NoDup (own_series es) /\ (length (own_series es) <= 50)%nat.
Proof.
  unfold own_series. split; [|rewrite length_take; lia]. pose proof (NoDup_distinct (names es)) as H.
  rewrite <-(take_drop 50 (distinct (names es))) in H. by apply NoDup_app in H as [? _].
Qed.

Lemma series_room (es : list Entry) (m : lineMetrics) : series_ok es m ->
  (Z.of_nat (size (lm_bytes m)) < 50 -> dom (lm_bytes m) = list_to_set (own_series es) /\ (length (own_series es) < 50)%nat)
  /\ (50 <= Z.of_nat (size (lm_bytes m)) -> length (own_series es) = 50%nat).
Proof.
  intros Hs. destruct (own_series_NoDup es) as [Hnd Hle]. rewrite <-size_dom.
  pose proof (size_list_to_set (C := gset string) _ Hnd) as Hsz. destruct Hs as [->|[-> Hl]].
  - rewrite Hsz. split; [intros; split; [done|lia]|lia].
  - assert (size (list_to_set (own_series es) : gset string) <= size (({["other"%string]} : gset string) ∪ list_to_set (own_series es)))%nat
      by (apply subseteq_size; set_solver). split; [lia|done].
Qed.

Lemma series_step (es : list Entry) (m : lineMetrics) (e : Entry) (x : float64) : series_ok es m -> is_access e = true ->
  vhost_of m e = label_in (own_series (es ++ [e])) (vhost_name e)
  /\ (dom (add_to (vhost_of m e) x (lm_bytes m)) = list_to_set (own_series (es ++ [e]))
      \/ (dom (add_to (vhost_of m e) x (lm_bytes m)) = {["other"%string]} ∪ list_to_set (own_series (es ++ [e]))
          /\ length (own_series (es ++ [e])) = 50%nat)).
Proof.
  intros Hs Ha. destruct (series_room es m Hs) as [Hroom Hfull]. rewrite own_series_snoc by done.
  unfold add_to, vhost_of, label_in, maxVhosts. rewrite dom_insert_L. set (w := vhost_name e).
  destruct (lm_bytes m !! w) as [y|] eqn:Hw.
  - apply elem_of_dom_2 in Hw as Hd. destruct Hs as [Hs|[Hs Hl]]; rewrite Hs in Hd |- *.
    + assert (Hin : w ∈ own_series es) by set_solver. rewrite (decide_False (P := _ /\ _)), decide_True by naive_solver.
      split; [done|]. left. set_solver.
    + rewrite (decide_False (P := _ /\ _)) by lia. split; [case_decide; [done|set_solver]|]. right. split; [set_solver|done].
  - apply not_elem_of_dom_2 in Hw as Hd. destruct (Z.leb_spec 50 (Z.of_nat (size (lm_bytes m)))) as [Hge|Hlt].
    + specialize (Hfull Hge). rewrite (decide_False (P := _ /\ _)) by lia.
      assert (w ∉ own_series es) by (destruct Hs as [Hs|[Hs _]]; rewrite Hs in Hd; set_solver).
      rewrite decide_False by done. split; [done|]. right. split; [|done]. destruct Hs as [->|[-> _]]; set_solver.
    + destruct (Hroom Hlt) as [Hdm Hl]. rewrite Hdm in Hd |- *. assert (w ∉ own_series es) by set_solver.
      rewrite (decide_True (P := _ /\ _)) by done. rewrite decide_True by (apply elem_of_app; right; by apply list_elem_of_singleton).
      split; [done|]. left. set_solver.
Qed.

Lemma observe_all_snoc (ParseFloat : bytes -> float64 * bool) (es : list Entry) (e : Entry) :
  observe_all ParseFloat (es ++ [e]) = observe ParseFloat (observe_all ParseFloat es) e.
Proof. unfold observe_all. by rewrite foldl_app. Qed.

Lemma series_all (ParseFloat : bytes -> float64 * bool) (es : list Entry) : series_ok es (observe_all ParseFloat es).
Proof.
  induction es as [|e es IH] using rev_ind; [left; apply dom_empty_L|]. rewrite observe_all_snoc. unfold observe, series_ok.
  destruct (is_access e) eqn:Ha; cbn [negb].
  - destruct (ParseFloat (default [] (e_Fields e !! B "request_time"))) as [d ok]. cbn [lm_bytes]. by apply series_step.
  - cbn [lm_bytes]. assert (own_series (es ++ [e]) = own_series es) as -> by (unfold own_series; by rewrite names_snoc, Ha, app_nil_r). done.
Qed.

(** The requests counted under a label. *)
Definition request_in (es : list Entry) (k : string * string) (e : Entry) : bool :=
  is_access e && bool_decide ((label_in (own_series es) (vhost_name e), status_class e) = k).

Lemma requests_counted (ParseFloat : bytes -> float64 * bool) (es : list Entry) (k : string * string) :
  lm_requests (observe_all ParseFloat es) !! k = counted (countb (request_in es k) es).
Proof.
  induction es as [|e es IH] using rev_ind; [apply lookup_empty|].
  assert (Hsame : countb (request_in (es ++ [e]) k) es = countb (request_in es k) es).
  { unfold countb. f_equal. apply filter_ext_in. intros x Hx. unfold request_in. destruct (is_access x) eqn:Hax; [|done].
    by rewrite label_stable by (by apply list_elem_of_In || done). }
  rewrite observe_all_snoc, countb_app, Hsame. unfold observe. unfold countb at 2. cbn [List.filter]. unfold request_in at 2.
  destruct (is_access e) eqn:Ha; cbn [negb andb]; [|cbn [lm_requests length]; by rewrite IH, Nat.add_0_r].
  destruct (ParseFloat (default [] (e_Fields e !! B "request_time"))) as [d ok]. cbn [lm_requests].
  destruct (series_step es _ e f64_zero (series_all ParseFloat es) Ha) as [-> _]. unfold add_to.
  case_bool_decide as Hk; cbn [length].
  - rewrite Hk, lookup_insert_eq, IH, Nat.add_1_r. apply counted_S.
  - rewrite lookup_insert_ne by done. by rewrite IH, Nat.add_0_r.
Qed.

(** C40: the metrics derived from the log lines stay bounded and count what
    went through the pipeline, whatever the lines are.  The first fifty
    distinct virtual hosts, in order of appearance, have their own series;
    there is a further series, [other], only once there are fifty, and every
    other host is counted there.  The request counter of a host (or [other])
    and a status class holds the number of its access lines, and that of a
    source and a level the number of its lines: a series with no line does not
    exist, and below 2^53 the float the counter is kept in is that number
    exactly (a larger one is what that many increments of a float give).  A
    histogram exists only for a host with a series and is cumulative: each
    bucket holds at most as many requests as the next, none more than the
    count. *)
Theorem derived_bounded (ParseFloat : bytes -> float64 * bool) (es : list Entry) :
  let m := observe_all ParseFloat es in
  (length (own_series es) <= 50)%nat
  /\ (forall v, v ∈ own_series es -> is_Some (lm_bytes m !! v))
  /\ (forall v, is_Some (lm_bytes m !! v) -> v ∈ own_series es \/ (v = "other"%string /\ length (own_series es) = 50%nat))
  /\ (forall k, lm_requests m !! k = counted (countb (request_in es k) es))
  /\ (forall k, lm_lines m !! k = counted (countb (fun e => bool_decide (line_key e = k)) es))
  /\ (forall n, (0 < n)%nat -> Z.of_nat n < 2 ^ 53 -> counted n = Some (f64_of_Z (Z.of_nat n)))
  /\ (forall v h, lm_hist m !! v = Some h -> is_Some (lm_bytes m !! v) /\ hist_ok h).
Proof.
  cbv zeta. destruct (observe_all_inv ParseFloat es) as [_ Hh _]. pose proof (series_all ParseFloat es) as Hs. split_and!.
  - apply own_series_NoDup.
  - intros v Hv. apply elem_of_dom. destruct Hs as [->|[-> _]]; set_solver.
  - intros v Hv. apply elem_of_dom in Hv. destruct Hs as [Hs|[Hs Hl]]; rewrite Hs in Hv; set_solver.
  - apply requests_counted.
  - apply lines_counted.
  - apply counted_exact.
  - exact Hh.
Qed.
