(* ===== verification/Config.v ===== *)
(** * Configuration of the agent

    [src/internal/config/config.go]: the fields of [Config], the command line
    and the environment they are read from, and their validation; and
    [src/internal/identity/identity.go], the identifier kept in the state
    directory.  The process environment is a function from names to values. *)
From S2P Require Import Prelude GoFloat GoStrings GoNum GoFlag.
Local Open Scope Z_scope.

Record Config := {
  Version : bool;
  Uninstall : bool;
  DryRun : bool;
  Server : bytes;
  Token : bytes;
  Interval : duration;
  LogLevel : bytes;
  HostnameOverride : bytes;
  DisableFilesystems : bool;
  DisableNetwork : bool;
  InsecureSkipVerify : bool;
  StateDir : bytes;
  DisableAutoUpgrade : bool;
  AutoUpgradeInterval : duration;
  ExcludeMountpoints : list bytes;
  ExcludeInterfaces : list bytes;
  IncludeInterfaces : list bytes;
  DisableKernelCareInfo : bool;
  VirtualizationOverride : bytes;
  DisableEvents : bool;
  DisableAuthEvents : bool;
  DisableProcessEvents : bool;
  DisableNetworkEvents : bool;
  DisableSystemEvents : bool;
  MonitorProcessLifecycle : bool;
  EventBufferSize : Z;
  WtmpPath : bytes;
  AuthLogPath : bytes;
  SuspiciousPatterns : list bytes;
  BruteforceThreshold : Z;
  BruteforceWindow : duration;
  BruteforceSuppression : duration;
  MonitorTmpPaths : bool;
  MonitorConfigFiles : bool;
  IgnorePrivateIP : bool;
  EventFlushInterval : duration;
  EventBatchSize : Z;
  Logs : bytes;
  LogPaths : list bytes;
  LogExclude : list bytes;
  LogAllow : list bytes;
  LogRedact : list bytes;
  DisabledCollectors : list bytes;
  RemoteConfig : bytes;
  DisableIntegrations : bool;
  NginxStatusURL : bytes;
  MySQLDSN : bytes;
  ScrapeURLs : list bytes }.

(** The process environment: [os.LookupEnv] and [os.Getenv]. *)
Definition Env := bytes -> option bytes.
Definition Getenv (e : Env) (name : bytes) : bytes := default [] (e name).

Definition isTruthy (v : bytes) : bool :=
  let v := ToLower (TrimSpace v) in
  bool_decide (v = B "1") || bool_decide (v = B "true") || bool_decide (v = B "yes").

Definition comma : ascii := ",".

Definition parseCSV (s : bytes) : list bytes :=
  match s with
  | [] => []
  | _ => List.filter (fun t => negb (bool_decide (t = []))) (map TrimSpace (Split s comma))
  end.

(** ** The command line *)

(** The flags [Load] defines, with their defaults, in the order of the code. *)
Definition flag_defs : list (bytes * value) :=
  [ (B "version", VBool false);
    (B "uninstall", VBool false);
    (B "dry-run", VBool false);
    (B "server", VStr []);
    (B "token", VStr []);
    (B "interval", VDur (60 * second));
    (B "log-level", VStr (B "info"));
    (B "hostname-override", VStr []);
    (B "disable-filesystems", VBool false);
    (B "disable-network", VBool false);
    (B "insecure-skip-verify", VBool false);
    (B "state-dir", VStr (B "/var/lib/yomins/agent"));
    (B "disable-auto-upgrade", VBool false);
    (B "auto-upgrade-interval", VDur (24 * hour));
    (B "disable-kernelcare-info", VBool false);
    (B "virtualization-override", VStr []);
    (B "exclude-mountpoints", VStr []);
    (B "exclude-interfaces", VStr []);
    (B "include-interfaces", VStr (B "eth*,ens*,enp*,eno*,wlan*,wlp*"));
    (B "disable-events", VBool false);
    (B "disable-auth-events", VBool false);
    (B "disable-process-events", VBool false);
    (B "disable-network-events", VBool false);
    (B "disable-system-events", VBool false);
    (B "monitor-process-lifecycle", VBool false);
    (B "event-buffer-size", VInt 10000);
    (B "wtmp-path", VStr (B "/var/log/wtmp"));
    (B "auth-log-path", VStr (B "/var/log/auth.log"));
    (B "suspicious-patterns", VStr []);
    (B "bruteforce-threshold", VInt 5);
    (B "bruteforce-window", VDur (30 * second));
    (B "bruteforce-suppression", VDur (2 * minute));
    (B "monitor-tmp-paths", VBool true);
    (B "monitor-config-files", VBool true);
    (B "ignore-private-ip", VBool true);
    (B "event-flush-interval", VDur (10 * second));
    (B "event-batch-size", VInt 200);
    (B "logs", VStr (B "off"));
    (B "log-paths", VStr []);
    (B "log-exclude", VStr []);
    (B "log-allow", VStr []);
    (B "remote-config", VStr (B "full"));
    (B "disable-integrations", VBool false);
    (B "nginx-status-url", VStr []);
    (B "mysql-dsn", VStr []);
    (B "scrape-urls", VStr []) ].

(** What a variable bound to a flag holds after [Parse]. *)
Definition flag_bool (fs : FlagSet) (name : bytes) : bool :=
  match fs_values fs !! name with Some (VBool b) => b | _ => false end.
Definition flag_int (fs : FlagSet) (name : bytes) : Z :=
  match fs_values fs !! name with Some (VInt n) => n | _ => 0 end.
Definition flag_str (fs : FlagSet) (name : bytes) : bytes :=
  match fs_values fs !! name with Some (VStr s) => s | _ => [] end.
Definition flag_dur (fs : FlagSet) (name : bytes) : duration :=
  match fs_values fs !! name with Some (VDur d) => d | _ => 0 end.

(** The configuration as the flags leave it; the lists are still empty. *)
Definition flag_config (fs : FlagSet) : Config := {|
  Version := flag_bool fs (B "version");
  Uninstall := flag_bool fs (B "uninstall");
  DryRun := flag_bool fs (B "dry-run");
  Server := flag_str fs (B "server");
  Token := flag_str fs (B "token");
  Interval := flag_dur fs (B "interval");
  LogLevel := flag_str fs (B "log-level");
  HostnameOverride := flag_str fs (B "hostname-override");
  DisableFilesystems := flag_bool fs (B "disable-filesystems");
  DisableNetwork := flag_bool fs (B "disable-network");
  InsecureSkipVerify := flag_bool fs (B "insecure-skip-verify");
  StateDir := flag_str fs (B "state-dir");
  DisableAutoUpgrade := flag_bool fs (B "disable-auto-upgrade");
  AutoUpgradeInterval := flag_dur fs (B "auto-upgrade-interval");
  ExcludeMountpoints := [];
  ExcludeInterfaces := [];
  IncludeInterfaces := [];
  DisableKernelCareInfo := flag_bool fs (B "disable-kernelcare-info");
  VirtualizationOverride := flag_str fs (B "virtualization-override");
  DisableEvents := flag_bool fs (B "disable-events");
  DisableAuthEvents := flag_bool fs (B "disable-auth-events");
  DisableProcessEvents := flag_bool fs (B "disable-process-events");
  DisableNetworkEvents := flag_bool fs (B "disable-network-events");
  DisableSystemEvents := flag_bool fs (B "disable-system-events");
  MonitorProcessLifecycle := flag_bool fs (B "monitor-process-lifecycle");
  EventBufferSize := flag_int fs (B "event-buffer-size");
  WtmpPath := flag_str fs (B "wtmp-path");
  AuthLogPath := flag_str fs (B "auth-log-path");
  SuspiciousPatterns := [];
  BruteforceThreshold := flag_int fs (B "bruteforce-threshold");
  BruteforceWindow := flag_dur fs (B "bruteforce-window");
  BruteforceSuppression := flag_dur fs (B "bruteforce-suppression");
  MonitorTmpPaths := flag_bool fs (B "monitor-tmp-paths");
  MonitorConfigFiles := flag_bool fs (B "monitor-config-files");
  IgnorePrivateIP := flag_bool fs (B "ignore-private-ip");
  EventFlushInterval := flag_dur fs (B "event-flush-interval");
  EventBatchSize := flag_int fs (B "event-batch-size");
  Logs := flag_str fs (B "logs");
  LogPaths := [];
  LogExclude := [];
  LogAllow := [];
  LogRedact := [];
  DisabledCollectors := [];
  RemoteConfig := flag_str fs (B "remote-config");
  DisableIntegrations := flag_bool fs (B "disable-integrations");
  NginxStatusURL := flag_str fs (B "nginx-status-url");
  MySQLDSN := flag_str fs (B "mysql-dsn");
  ScrapeURLs := [] |}.

(** ** The environment *)

(** [env_*]: what a variable sets, by the shape of the code's test on it. *)
Definition env_str (e : Env) (name : bytes) : option bytes :=
  match Getenv e name with [] => None | v => Some v end.
Definition env_folded (e : Env) (name : bytes) : option bytes :=
  (fun v => ToLower (TrimSpace v)) <$> env_str e name.
Definition env_on (e : Env) (name : bytes) : option bool :=
  if isTruthy (Getenv e name) then Some true else None.
Definition env_switch (e : Env) (name : bytes) : option bool := isTruthy <$> env_str e name.
Definition env_dur (e : Env) (name : bytes) : option duration :=
  v ← env_str e name; ParseDuration v.
Definition env_count (e : Env) (name : bytes) : option Z :=
  v ← env_str e name;
  match Atoi v with (n, None) => if 0 <? n then Some n else None | _ => None end.

(** [if !explicit[name] { ... }] around an assignment from the environment. *)
Definition over {A} (explicit : bytes -> bool) (name : bytes) (o : option A) (cur : A) : A :=
  if explicit name then cur else default cur o.

Definition overlayEnv (e : Env) (explicit : bytes -> bool) (cfg : Config) : Config := {|
  Version := Version cfg;
  Uninstall := Uninstall cfg;
  DryRun := DryRun cfg;
  Server := over explicit (B "server") (env_str e (B "YOMINS_SERVER")) (Server cfg);
  Token := over explicit (B "token") (env_str e (B "YOMINS_TOKEN")) (Token cfg);
  Interval := over explicit (B "interval") (env_dur e (B "YOMINS_INTERVAL")) (Interval cfg);
  LogLevel := over explicit (B "log-level") (env_str e (B "YOMINS_LOG_LEVEL")) (LogLevel cfg);
  HostnameOverride := over explicit (B "hostname-override") (env_str e (B "YOMINS_HOSTNAME_OVERRIDE")) (HostnameOverride cfg);
  DisableFilesystems := over explicit (B "disable-filesystems") (env_on e (B "YOMINS_DISABLE_FILESYSTEMS")) (DisableFilesystems cfg);
  DisableNetwork := over explicit (B "disable-network") (env_on e (B "YOMINS_DISABLE_NETWORK")) (DisableNetwork cfg);
  InsecureSkipVerify := InsecureSkipVerify cfg;
  StateDir := over explicit (B "state-dir") (env_str e (B "YOMINS_STATE_DIR")) (StateDir cfg);
  DisableAutoUpgrade := over explicit (B "disable-auto-upgrade") (env_on e (B "YOMINS_DISABLE_AUTO_UPGRADE")) (DisableAutoUpgrade cfg);
  AutoUpgradeInterval := over explicit (B "auto-upgrade-interval") (env_dur e (B "YOMINS_AUTO_UPGRADE_INTERVAL")) (AutoUpgradeInterval cfg);
  ExcludeMountpoints := ExcludeMountpoints cfg;
  ExcludeInterfaces := ExcludeInterfaces cfg;
  IncludeInterfaces := IncludeInterfaces cfg;
  DisableKernelCareInfo := over explicit (B "disable-kernelcare-info") (env_on e (B "YOMINS_DISABLE_KERNELCARE_INFO")) (DisableKernelCareInfo cfg);
  VirtualizationOverride := over explicit (B "virtualization-override") (env_str e (B "YOMINS_VIRTUALIZATION_OVERRIDE")) (VirtualizationOverride cfg);
  DisableEvents := over explicit (B "disable-events") (env_on e (B "YOMINS_DISABLE_EVENTS")) (DisableEvents cfg);
  DisableAuthEvents := over explicit (B "disable-auth-events") (env_on e (B "YOMINS_DISABLE_AUTH_EVENTS")) (DisableAuthEvents cfg);
  DisableProcessEvents := over explicit (B "disable-process-events") (env_on e (B "YOMINS_DISABLE_PROCESS_EVENTS")) (DisableProcessEvents cfg);
  DisableNetworkEvents := over explicit (B "disable-network-events") (env_on e (B "YOMINS_DISABLE_NETWORK_EVENTS")) (DisableNetworkEvents cfg);
  DisableSystemEvents := over explicit (B "disable-system-events") (env_on e (B "YOMINS_DISABLE_SYSTEM_EVENTS")) (DisableSystemEvents cfg);
  MonitorProcessLifecycle := over explicit (B "monitor-process-lifecycle") (env_on e (B "YOMINS_MONITOR_PROCESS_LIFECYCLE")) (MonitorProcessLifecycle cfg);
  EventBufferSize := over explicit (B "event-buffer-size") (env_count e (B "YOMINS_EVENT_BUFFER_SIZE")) (EventBufferSize cfg);
  WtmpPath := over explicit (B "wtmp-path") (env_str e (B "YOMINS_WTMP_PATH")) (WtmpPath cfg);
  AuthLogPath := over explicit (B "auth-log-path") (env_str e (B "YOMINS_AUTH_LOG_PATH")) (AuthLogPath cfg);
  SuspiciousPatterns := SuspiciousPatterns cfg;
  BruteforceThreshold := over explicit (B "bruteforce-threshold") (env_count e (B "YOMINS_BRUTEFORCE_THRESHOLD")) (BruteforceThreshold cfg);
  BruteforceWindow := over explicit (B "bruteforce-window") (env_dur e (B "YOMINS_BRUTEFORCE_WINDOW")) (BruteforceWindow cfg);
  BruteforceSuppression := over explicit (B "bruteforce-suppression") (env_dur e (B "YOMINS_BRUTEFORCE_SUPPRESSION")) (BruteforceSuppression cfg);
  MonitorTmpPaths := over explicit (B "monitor-tmp-paths") (env_switch e (B "YOMINS_MONITOR_TMP_PATHS")) (MonitorTmpPaths cfg);
  MonitorConfigFiles := over explicit (B "monitor-config-files") (env_switch e (B "YOMINS_MONITOR_CONFIG_FILES")) (MonitorConfigFiles cfg);
  IgnorePrivateIP := over explicit (B "ignore-private-ip") (env_switch e (B "YOMINS_IGNORE_PRIVATE_IP")) (IgnorePrivateIP cfg);
  EventFlushInterval := over explicit (B "event-flush-interval") (env_dur e (B "YOMINS_EVENT_FLUSH_INTERVAL")) (EventFlushInterval cfg);
  EventBatchSize := over explicit (B "event-batch-size") (env_count e (B "YOMINS_EVENT_BATCH_SIZE")) (EventBatchSize cfg);
  Logs := over explicit (B "logs") (env_folded e (B "YOMINS_LOGS")) (Logs cfg);
  LogPaths := LogPaths cfg;
  LogExclude := LogExclude cfg;
  LogAllow := LogAllow cfg;
  LogRedact := LogRedact cfg;
  DisabledCollectors := DisabledCollectors cfg;
  RemoteConfig := over explicit (B "remote-config") (env_folded e (B "YOMINS_REMOTE_CONFIG")) (RemoteConfig cfg);
  DisableIntegrations := over explicit (B "disable-integrations") (env_on e (B "YOMINS_DISABLE_INTEGRATIONS")) (DisableIntegrations cfg);
  NginxStatusURL := over explicit (B "nginx-status-url") (env_str e (B "YOMINS_NGINX_STATUS_URL")) (NginxStatusURL cfg);
  MySQLDSN := over explicit (B "mysql-dsn") (env_str e (B "YOMINS_MYSQL_DSN")) (MySQLDSN cfg);
  ScrapeURLs := ScrapeURLs cfg |}.

(** The comma-separated lists, read after the other fields; an empty
    [YOMINS_INCLUDE_INTERFACES] counts, the other variables must not be empty. *)
Definition set_lists (e : Env) (explicit : bytes -> bool) (fs : FlagSet) (cfg : Config) : Config := {|
  Version := Version cfg;
  Uninstall := Uninstall cfg;
  DryRun := DryRun cfg;
  Server := Server cfg;
  Token := Token cfg;
  Interval := Interval cfg;
  LogLevel := LogLevel cfg;
  HostnameOverride := HostnameOverride cfg;
  DisableFilesystems := DisableFilesystems cfg;
  DisableNetwork := DisableNetwork cfg;
  InsecureSkipVerify := InsecureSkipVerify cfg;
  StateDir := StateDir cfg;
  DisableAutoUpgrade := DisableAutoUpgrade cfg;
  AutoUpgradeInterval := AutoUpgradeInterval cfg;
  ExcludeMountpoints := parseCSV (over explicit (B "exclude-mountpoints") (env_str e (B "YOMINS_EXCLUDE_MOUNTPOINTS")) (flag_str fs (B "exclude-mountpoints")));
  ExcludeInterfaces := parseCSV (over explicit (B "exclude-interfaces") (env_str e (B "YOMINS_EXCLUDE_INTERFACES")) (flag_str fs (B "exclude-interfaces")));
  IncludeInterfaces := parseCSV (over explicit (B "include-interfaces") (e (B "YOMINS_INCLUDE_INTERFACES")) (flag_str fs (B "include-interfaces")));
  DisableKernelCareInfo := DisableKernelCareInfo cfg;
  VirtualizationOverride := VirtualizationOverride cfg;
  DisableEvents := DisableEvents cfg;
  DisableAuthEvents := DisableAuthEvents cfg;
  DisableProcessEvents := DisableProcessEvents cfg;
  DisableNetworkEvents := DisableNetworkEvents cfg;
  DisableSystemEvents := DisableSystemEvents cfg;
  MonitorProcessLifecycle := MonitorProcessLifecycle cfg;
  EventBufferSize := EventBufferSize cfg;
  WtmpPath := WtmpPath cfg;
  AuthLogPath := AuthLogPath cfg;
  SuspiciousPatterns := parseCSV (over explicit (B "suspicious-patterns") (env_str e (B "YOMINS_SUSPICIOUS_PATTERNS")) (flag_str fs (B "suspicious-patterns")));
  BruteforceThreshold := BruteforceThreshold cfg;
  BruteforceWindow := BruteforceWindow cfg;
  BruteforceSuppression := BruteforceSuppression cfg;
  MonitorTmpPaths := MonitorTmpPaths cfg;
  MonitorConfigFiles := MonitorConfigFiles cfg;
  IgnorePrivateIP := IgnorePrivateIP cfg;
  EventFlushInterval := EventFlushInterval cfg;
  EventBatchSize := EventBatchSize cfg;
  Logs := Logs cfg;
  LogPaths := parseCSV (over explicit (B "log-paths") (env_str e (B "YOMINS_LOG_PATHS")) (flag_str fs (B "log-paths")));
  LogExclude := parseCSV (over explicit (B "log-exclude") (env_str e (B "YOMINS_LOG_EXCLUDE")) (flag_str fs (B "log-exclude")));
  LogAllow := parseCSV (over explicit (B "log-allow") (env_str e (B "YOMINS_LOG_ALLOW")) (flag_str fs (B "log-allow")));
  LogRedact := LogRedact cfg;
  DisabledCollectors := DisabledCollectors cfg;
  RemoteConfig := RemoteConfig cfg;
  DisableIntegrations := DisableIntegrations cfg;
  NginxStatusURL := NginxStatusURL cfg;
  MySQLDSN := MySQLDSN cfg;
  ScrapeURLs := parseCSV (over explicit (B "scrape-urls") (env_str e (B "YOMINS_SCRAPE_URLS")) (flag_str fs (B "scrape-urls"))) |}.

Definition Load (e : Env) (args : list bytes) : flag_error + Config :=
  match Parse (Datatypes.S (length args)) (new_flags flag_defs) args with
  | inl err => inl err
  | inr fs =>
      let explicit name := bool_decide (name ∈ fs_actual fs) in
      inr (set_lists e explicit fs (overlayEnv e explicit (flag_config fs)))
  end.

(** ** Validation *)
Definition with_Server (s : bytes) (cfg : Config) : Config := {|
  Version := Version cfg;
  Uninstall := Uninstall cfg;
  DryRun := DryRun cfg;
  Server := s;
  Token := Token cfg;
  Interval := Interval cfg;
  LogLevel := LogLevel cfg;
  HostnameOverride := HostnameOverride cfg;
  DisableFilesystems := DisableFilesystems cfg;
  DisableNetwork := DisableNetwork cfg;
  InsecureSkipVerify := InsecureSkipVerify cfg;
  StateDir := StateDir cfg;
  DisableAutoUpgrade := DisableAutoUpgrade cfg;
  AutoUpgradeInterval := AutoUpgradeInterval cfg;
  ExcludeMountpoints := ExcludeMountpoints cfg;
  ExcludeInterfaces := ExcludeInterfaces cfg;
  IncludeInterfaces := IncludeInterfaces cfg;
  DisableKernelCareInfo := DisableKernelCareInfo cfg;
  VirtualizationOverride := VirtualizationOverride cfg;
  DisableEvents := DisableEvents cfg;
  DisableAuthEvents := DisableAuthEvents cfg;
  DisableProcessEvents := DisableProcessEvents cfg;
  DisableNetworkEvents := DisableNetworkEvents cfg;
  DisableSystemEvents := DisableSystemEvents cfg;
  MonitorProcessLifecycle := MonitorProcessLifecycle cfg;
  EventBufferSize := EventBufferSize cfg;
  WtmpPath := WtmpPath cfg;
  AuthLogPath := AuthLogPath cfg;
  SuspiciousPatterns := SuspiciousPatterns cfg;
  BruteforceThreshold := BruteforceThreshold cfg;
  BruteforceWindow := BruteforceWindow cfg;
  BruteforceSuppression := BruteforceSuppression cfg;
  MonitorTmpPaths := MonitorTmpPaths cfg;
  MonitorConfigFiles := MonitorConfigFiles cfg;
  IgnorePrivateIP := IgnorePrivateIP cfg;
  EventFlushInterval := EventFlushInterval cfg;
  EventBatchSize := EventBatchSize cfg;
  Logs := Logs cfg;
  LogPaths := LogPaths cfg;
  LogExclude := LogExclude cfg;
  LogAllow := LogAllow cfg;
  LogRedact := LogRedact cfg;
  DisabledCollectors := DisabledCollectors cfg;
  RemoteConfig := RemoteConfig cfg;
  DisableIntegrations := DisableIntegrations cfg;
  NginxStatusURL := NginxStatusURL cfg;
  MySQLDSN := MySQLDSN cfg;
  ScrapeURLs := ScrapeURLs cfg |}.

Definition slash : ascii := "/".

(** The messages, in the code's order; [Validate] joins them. *)
Definition validate_errs (c : Config) : list bytes :=
  (if DryRun c then [] else
     (if bool_decide (Server c = []) then [B "--server (or YOMINS_SERVER) is required"] else [])
     ++ (if bool_decide (Token c = []) then [B "--token (or YOMINS_TOKEN) is required"] else []))
  ++ (if Interval c <=? 0 then [B "--interval must be a positive duration"] else [])
  ++ (if bool_decide (RemoteConfig c ∈ [[]; B "full"; B "limited"; B "off"]) then [] else [B "--remote-config must be full, limited or off"])
  ++ (if negb (bool_decide (Logs c = [])) && negb (bool_decide (Logs c = B "off")) && negb (bool_decide (Logs c = B "auto"))
      then [B "--logs must be off or auto"] else []).

Fixpoint join_errs (l : list bytes) : bytes :=
  match l with
  | [] => []
  | [x] => x
  | x :: t => x ++ B "; " ++ join_errs t
  end.

(** The receiver after the call, and the error. *)
Definition Validate (c : Config) : Config * option bytes :=
  let c' := if negb (DryRun c) && negb (bool_decide (Server c = [])) then with_Server (TrimRight (Server c) [slash]) c else c in
  (c', match validate_errs c with [] => None | errs => Some (join_errs errs) end).

(** ** What each setting is read from

    A setting: its flag and default, what the environment sets it to, and
    how a field of the configuration shows a value. *)
Record setting := { s_flag : bytes; s_default : value; s_env : Env -> option value; s_shows : Config -> value -> Prop }.

Definition no_env : Env -> option value := fun _ => None.
Definition env_value {A} (mk : A -> value) (read : Env -> bytes -> option A) (name : string) : Env -> option value :=
  fun e => mk <$> read e (B name).
Definition shows_bool (get : Config -> bool) (c : Config) (v : value) : Prop := v = VBool (get c).
Definition shows_int (get : Config -> Z) (c : Config) (v : value) : Prop := v = VInt (get c).
Definition shows_str (get : Config -> bytes) (c : Config) (v : value) : Prop := v = VStr (get c).
Definition shows_dur (get : Config -> duration) (c : Config) (v : value) : Prop := v = VDur (get c).
Definition shows_list (get : Config -> list bytes) (c : Config) (v : value) : Prop :=
  exists s, v = VStr s /\ get c = parseCSV s.

Definition row (name : string) (d : value) (env : Env -> option value) (shows : Config -> value -> Prop) : setting :=
  {| s_flag := B name; s_default := d; s_env := env; s_shows := shows |}.

Definition settings : list setting :=
  [ row "version" (VBool false) no_env (shows_bool Version);
    row "uninstall" (VBool false) no_env (shows_bool Uninstall);
    row "dry-run" (VBool false) no_env (shows_bool DryRun);
    row "server" (VStr []) (env_value VStr env_str "YOMINS_SERVER") (shows_str Server);
    row "token" (VStr []) (env_value VStr env_str "YOMINS_TOKEN") (shows_str Token);
    row "interval" (VDur (60 * second)) (env_value VDur env_dur "YOMINS_INTERVAL") (shows_dur Interval);
    row "log-level" (VStr (B "info")) (env_value VStr env_str "YOMINS_LOG_LEVEL") (shows_str LogLevel);
    row "hostname-override" (VStr []) (env_value VStr env_str "YOMINS_HOSTNAME_OVERRIDE") (shows_str HostnameOverride);
    row "disable-filesystems" (VBool false) (env_value VBool env_on "YOMINS_DISABLE_FILESYSTEMS") (shows_bool DisableFilesystems);
    row "disable-network" (VBool false) (env_value VBool env_on "YOMINS_DISABLE_NETWORK") (shows_bool DisableNetwork);
    row "insecure-skip-verify" (VBool false) no_env (shows_bool InsecureSkipVerify);
    row "state-dir" (VStr (B "/var/lib/yomins/agent")) (env_value VStr env_str "YOMINS_STATE_DIR") (shows_str StateDir);
    row "disable-auto-upgrade" (VBool false) (env_value VBool env_on "YOMINS_DISABLE_AUTO_UPGRADE") (shows_bool DisableAutoUpgrade);
    row "auto-upgrade-interval" (VDur (24 * hour)) (env_value VDur env_dur "YOMINS_AUTO_UPGRADE_INTERVAL") (shows_dur AutoUpgradeInterval);
    row "disable-kernelcare-info" (VBool false) (env_value VBool env_on "YOMINS_DISABLE_KERNELCARE_INFO") (shows_bool DisableKernelCareInfo);
    row "virtualization-override" (VStr []) (env_value VStr env_str "YOMINS_VIRTUALIZATION_OVERRIDE") (shows_str VirtualizationOverride);
    row "exclude-mountpoints" (VStr []) (env_value VStr env_str "YOMINS_EXCLUDE_MOUNTPOINTS") (shows_list ExcludeMountpoints);
    row "exclude-interfaces" (VStr []) (env_value VStr env_str "YOMINS_EXCLUDE_INTERFACES") (shows_list ExcludeInterfaces);
    row "include-interfaces" (VStr (B "eth*,ens*,enp*,eno*,wlan*,wlp*")) (env_value VStr (fun e name => e name) "YOMINS_INCLUDE_INTERFACES") (shows_list IncludeInterfaces);
    row "disable-events" (VBool false) (env_value VBool env_on "YOMINS_DISABLE_EVENTS") (shows_bool DisableEvents);
    row "disable-auth-events" (VBool false) (env_value VBool env_on "YOMINS_DISABLE_AUTH_EVENTS") (shows_bool DisableAuthEvents);
    row "disable-process-events" (VBool false) (env_value VBool env_on "YOMINS_DISABLE_PROCESS_EVENTS") (shows_bool DisableProcessEvents);
    row "disable-network-events" (VBool false) (env_value VBool env_on "YOMINS_DISABLE_NETWORK_EVENTS") (shows_bool DisableNetworkEvents);
    row "disable-system-events" (VBool false) (env_value VBool env_on "YOMINS_DISABLE_SYSTEM_EVENTS") (shows_bool DisableSystemEvents);
    row "monitor-process-lifecycle" (VBool false) (env_value VBool env_on "YOMINS_MONITOR_PROCESS_LIFECYCLE") (shows_bool MonitorProcessLifecycle);
    row "event-buffer-size" (VInt 10000) (env_value VInt env_count "YOMINS_EVENT_BUFFER_SIZE") (shows_int EventBufferSize);
    row "wtmp-path" (VStr (B "/var/log/wtmp")) (env_value VStr env_str "YOMINS_WTMP_PATH") (shows_str WtmpPath);
    row "auth-log-path" (VStr (B "/var/log/auth.log")) (env_value VStr env_str "YOMINS_AUTH_LOG_PATH") (shows_str AuthLogPath);
    row "suspicious-patterns" (VStr []) (env_value VStr env_str "YOMINS_SUSPICIOUS_PATTERNS") (shows_list SuspiciousPatterns);
    row "bruteforce-threshold" (VInt 5) (env_value VInt env_count "YOMINS_BRUTEFORCE_THRESHOLD") (shows_int BruteforceThreshold);
    row "bruteforce-window" (VDur (30 * second)) (env_value VDur env_dur "YOMINS_BRUTEFORCE_WINDOW") (shows_dur BruteforceWindow);
    row "bruteforce-suppression" (VDur (2 * minute)) (env_value VDur env_dur "YOMINS_BRUTEFORCE_SUPPRESSION") (shows_dur BruteforceSuppression);
    row "monitor-tmp-paths" (VBool true) (env_value VBool env_switch "YOMINS_MONITOR_TMP_PATHS") (shows_bool MonitorTmpPaths);
    row "monitor-config-files" (VBool true) (env_value VBool env_switch "YOMINS_MONITOR_CONFIG_FILES") (shows_bool MonitorConfigFiles);
    row "ignore-private-ip" (VBool true) (env_value VBool env_switch "YOMINS_IGNORE_PRIVATE_IP") (shows_bool IgnorePrivateIP);
    row "event-flush-interval" (VDur (10 * second)) (env_value VDur env_dur "YOMINS_EVENT_FLUSH_INTERVAL") (shows_dur EventFlushInterval);
    row "event-batch-size" (VInt 200) (env_value VInt env_count "YOMINS_EVENT_BATCH_SIZE") (shows_int EventBatchSize);
    row "logs" (VStr (B "off")) (env_value VStr env_folded "YOMINS_LOGS") (shows_str Logs);
    row "log-paths" (VStr []) (env_value VStr env_str "YOMINS_LOG_PATHS") (shows_list LogPaths);
    row "log-exclude" (VStr []) (env_value VStr env_str "YOMINS_LOG_EXCLUDE") (shows_list LogExclude);
    row "log-allow" (VStr []) (env_value VStr env_str "YOMINS_LOG_ALLOW") (shows_list LogAllow);
    row "remote-config" (VStr (B "full")) (env_value VStr env_folded "YOMINS_REMOTE_CONFIG") (shows_str RemoteConfig);
    row "disable-integrations" (VBool false) (env_value VBool env_on "YOMINS_DISABLE_INTEGRATIONS") (shows_bool DisableIntegrations);
    row "nginx-status-url" (VStr []) (env_value VStr env_str "YOMINS_NGINX_STATUS_URL") (shows_str NginxStatusURL);
    row "mysql-dsn" (VStr []) (env_value VStr env_str "YOMINS_MYSQL_DSN") (shows_str MySQLDSN);
    row "scrape-urls" (VStr []) (env_value VStr env_str "YOMINS_SCRAPE_URLS") (shows_list ScrapeURLs) ].

(** The value a setting must have: the last one on the command line, else the
    one of the environment, else the default. *)
Definition expected (s : setting) (e : Env) (given : list (bytes * bytes)) : option value :=
  match last_given (s_flag s) given with
  | Some t => flag_Set (s_default s) t
  | None => Some (default (s_default s) (s_env s e))
  end.

Definition accepted (g : bytes * bytes) : Prop :=
  Exists (fun s => g.1 = s_flag s /\ is_Some (flag_Set (s_default s) g.2)) settings.

Lemma flag_defs_settings : flag_defs = map (fun s => (s_flag s, s_default s)) settings.
Proof. reflexivity. Qed.

Lemma flag_names_nodup : NoDup flag_defs.*1.
Proof. apply (bool_decide_unpack _). vm_compute. exact I. Qed.

Lemma flag_names_plain : forallb (fun d : bytes * value => plain_name d.1) flag_defs = true.
Proof. vm_compute. reflexivity. Qed.

(** What [Parse] leaves for a flag of the table. *)
Definition parsed (fs : FlagSet) (given : list (bytes * bytes)) (n : bytes) (d : value) : Prop :=
  fs_values fs !! n = match last_given n given with Some t => flag_Set d t | None => Some d end
  /\ bool_decide (n ∈ fs_actual fs) = (match last_given n given with Some _ => true | None => false end)
  /\ is_Some (fs_values fs !! n).

Lemma new_flags_lookup (n : bytes) (d : value) : (n, d) ∈ flag_defs -> fs_values (new_flags flag_defs) !! n = Some d.
Proof. intros H. apply elem_of_list_to_map_1; [apply flag_names_nodup|done]. Qed.

Lemma accepted_flag (g : bytes * bytes) : accepted g ->
  plain_name g.1 = true /\ exists v, (g.1, v) ∈ flag_defs /\ is_Some (flag_Set v g.2).
Proof.
  unfold accepted. rewrite Exists_exists. intros (s & Hs & -> & Hv).
  assert ((s_flag s, s_default s) ∈ flag_defs) as Hin.
  { rewrite flag_defs_settings. apply list_elem_of_fmap. by exists s. }
  split; [|by exists (s_default s)].
  pose proof (proj1 (forallb_forall _ _) flag_names_plain (s_flag s, s_default s)) as Hp.
  apply Hp. by apply list_elem_of_In.
Qed.

Lemma last_given_in (n t : bytes) (given : list (bytes * bytes)) : last_given n given = Some t -> (n, t) ∈ given.
Proof.
  induction given as [|[m s] given IH]; [done|]. cbn [last_given].
  destruct (last_given n given); [intros [= ->]; right; by apply IH|].
  case_bool_decide as Hm; [|done]. intros [= ->]. subst. left.
Qed.

Lemma parsed_all (given : list (bytes * bytes)) : Forall accepted given ->
  exists fs, Parse (Datatypes.S (length (map flag_arg given))) (new_flags flag_defs) (map flag_arg given) = inr fs
    /\ forall n d, (n, d) ∈ flag_defs -> parsed fs given n d.
Proof.
  intros H.
  destruct (Parse_given (Datatypes.S (length (map flag_arg given))) (new_flags flag_defs) given) as (fs & Hp & Hv & Ha).
  { rewrite length_map. lia. }
  { eapply Forall_impl; [exact H|]. intros g Hg. destruct (accepted_flag g Hg) as (Hn & v & Hin & Hs).
    split; [done|]. exists v. split; [by apply new_flags_lookup|done]. }
  exists fs. split; [done|]. intros n d Hin. pose proof (new_flags_lookup n d Hin) as Hd.
  split_and!; [by apply Hv| |].
  - specialize (Ha n). destruct (last_given n given) eqn:Hl.
    + apply bool_decide_eq_true, Ha. right. by eexists.
    + apply bool_decide_eq_false. rewrite Ha. intros [Hx|[? ?]]; [|done]. by apply not_elem_of_empty in Hx.
  - rewrite (Hv n d Hd). destruct (last_given n given) as [t|] eqn:Hl; [|done].
    apply last_given_in in Hl. rewrite Forall_forall in H. apply H, accepted_flag in Hl as (_ & v & Hin' & Hs).
    apply new_flags_lookup in Hin'. cbn [fst snd] in *. by assert (v = d) as -> by congruence.
Qed.

(** A field read from a flag, then from the environment. *)
Section read_setting.
Context {A : Type} (mk : A -> value) (get : FlagSet -> bytes -> A).
Context (get_mk : forall fs n a, fs_values fs !! n = Some (mk a) -> get fs n = a).
Context (mk_kind : forall d v, same_kind (mk d) v = true -> exists a, v = mk a).

Lemma setting_over (fs : FlagSet) (given : list (bytes * bytes)) (n : bytes) (d : A) (e : Env)
    (shows : Config -> value -> Prop) (env : Env -> option value) (o : option A) :
  parsed fs given n (mk d) -> env e = mk <$> o ->
  expected {| s_flag := n; s_default := mk d; s_env := env; s_shows := shows |} e given
  = Some (mk (over (fun x => bool_decide (x ∈ fs_actual fs)) n o (get fs n))).
Proof.
  intros (Hv & Hx & [w Hw]) Ho. unfold expected, over. cbn [s_flag s_default s_env]. rewrite Hx.
  destruct (last_given n given) as [t|] eqn:Hl.
  - rewrite <-Hv, Hw. rewrite Hw in Hv. symmetry in Hv. apply flag_Set_kind, mk_kind in Hv as [a ->].
    f_equal. f_equal. symmetry. by apply get_mk.
  - rewrite Ho, (get_mk _ _ _ Hv). by destruct o.
Qed.

Lemma setting_flag (fs : FlagSet) (given : list (bytes * bytes)) (n : bytes) (d : A) (e : Env) (shows : Config -> value -> Prop) :
  parsed fs given n (mk d) ->
  expected {| s_flag := n; s_default := mk d; s_env := no_env; s_shows := shows |} e given = Some (mk (get fs n)).
Proof.
  intros H. rewrite (setting_over fs given n d e shows no_env None H eq_refl).
  unfold over. by destruct (bool_decide _).
Qed.
End read_setting.

Lemma get_bool (fs : FlagSet) (n : bytes) (a : bool) : fs_values fs !! n = Some (VBool a) -> flag_bool fs n = a.
Proof. unfold flag_bool. by intros ->. Qed.
Lemma get_int (fs : FlagSet) (n : bytes) (a : Z) : fs_values fs !! n = Some (VInt a) -> flag_int fs n = a.
Proof. unfold flag_int. by intros ->. Qed.
Lemma get_str (fs : FlagSet) (n : bytes) (a : bytes) : fs_values fs !! n = Some (VStr a) -> flag_str fs n = a.
Proof. unfold flag_str. by intros ->. Qed.
Lemma get_dur (fs : FlagSet) (n : bytes) (a : duration) : fs_values fs !! n = Some (VDur a) -> flag_dur fs n = a.
Proof. unfold flag_dur. by intros ->. Qed.

Lemma kind_bool (d : bool) (v : value) : same_kind (VBool d) v = true -> exists a, v = VBool a.
Proof. destruct v; eauto; done. Qed.
Lemma kind_int (d : Z) (v : value) : same_kind (VInt d) v = true -> exists a, v = VInt a.
Proof. destruct v; eauto; done. Qed.
Lemma kind_str (d : bytes) (v : value) : same_kind (VStr d) v = true -> exists a, v = VStr a.
Proof. destruct v; eauto; done. Qed.
Lemma kind_dur (d : duration) (v : value) : same_kind (VDur d) v = true -> exists a, v = VDur a.
Proof. destruct v; eauto; done. Qed.

Ltac read_flag H mk get Hget Hkind :=
  eexists; split;
    [ first [ eapply (setting_flag mk get Hget Hkind); exact H | eapply (setting_over mk get Hget Hkind); [exact H|reflexivity] ]
    | first [ reflexivity | eexists; split; reflexivity ] ].

(** C15: command line before environment before default, for every flag of
    the agent.  Whatever the environment, a command line of settings
    [--flag=text] whose flags exist and whose texts their kinds accept is
    loaded; and each of the 46 settings then shows the text given last for
    it, or what its environment variable says when it is not on the command
    line and the variable holds something usable, or its default. *)
Theorem Load_precedence (e : Env) (given : list (bytes * bytes)) :
  Forall accepted given ->
  exists cfg, Load e (map flag_arg given) = inr cfg
    /\ Forall (fun s => exists v, expected s e given = Some v /\ s_shows s cfg v) settings.
Proof.
  intros H. destruct (parsed_all given H) as (fs & Hp & Hall). unfold Load. rewrite Hp. eexists. split; [reflexivity|].
  assert (Forall (fun s => parsed fs given (s_flag s) (s_default s)) settings) as HQ.
  { apply Forall_forall. intros s Hs. apply Hall. rewrite flag_defs_settings. apply list_elem_of_fmap. by exists s. }
  clear Hall Hp H. unfold settings, row, env_value in *.
  repeat (apply Forall_cons in HQ as [Hs HQ]; apply Forall_cons; split;
    [ unfold shows_bool, shows_int, shows_str, shows_dur, shows_list; cbn [s_shows s_flag s_default] in *;
      first [ read_flag Hs VBool flag_bool get_bool kind_bool
            | read_flag Hs VStr flag_str get_str kind_str
            | read_flag Hs VDur flag_dur get_dur kind_dur
            | read_flag Hs VInt flag_int get_int kind_int ]
    | clear Hs ]).
  constructor.
Qed.

Lemma accepted_dec (given : list (bytes * bytes)) :
  forallb (fun g : bytes * bytes => existsb (fun s => bool_decide (g.1 = s_flag s) && bool_decide (is_Some (flag_Set (s_default s) g.2))) settings) given = true ->
  Forall accepted given.
Proof.
  intros H. apply Forall_forall. intros g Hg. apply list_elem_of_In in Hg.
  pose proof (proj1 (forallb_forall _ _) H g Hg) as Hex. apply existsb_exists in Hex as (s & Hs & Hb).
  apply andb_true_iff in Hb as [H1 H2]. apply Exists_exists. exists s.
  split; [by apply list_elem_of_In|]. split; by eapply bool_decide_eq_true_1.
Qed.

Definition given_sample : list (bytes * bytes) :=
  [(B "interval", B "30s"); (B "logs", B "auto"); (B "interval", B "45s"); (B "disable-events", B "true")].
Definition env_sample : Env := fun n =>
  if bool_decide (n = B "YOMINS_INTERVAL") then Some (B "5m")
  else if bool_decide (n = B "YOMINS_BRUTEFORCE_THRESHOLD") then Some (B "-3")
  else if bool_decide (n = B "YOMINS_LOG_PATHS") then Some (B "/srv/a.log, ,/srv/b.log") else None.

Lemma Load_precedence_witness :
  exists cfg, Load env_sample (map flag_arg given_sample) = inr cfg
    /\ Forall (fun s => exists v, expected s env_sample given_sample = Some v /\ s_shows s cfg v) settings.
Proof.
  apply (Load_precedence env_sample given_sample).
  apply accepted_dec. vm_compute. reflexivity.
Defined.

Example load_sample :
  match Load env_sample (map flag_arg given_sample) with
  | inr c => (Interval c, Logs c, DisableEvents c, BruteforceThreshold c, LogPaths c, IncludeInterfaces c)
  | inl _ => (0, [], false, 0, [], [])
  end = (45 * second, B "auto", true, 5, map B ["/srv/a.log"; "/srv/b.log"], map B ["eth*"; "ens*"; "enp*"; "eno*"; "wlan*"; "wlp*"]).
Proof. vm_compute. reflexivity. Qed.

(** ** Well-formed configurations *)
Definition numbers (c : Config) : list Z :=
  [Interval c; AutoUpgradeInterval c; EventBufferSize c; BruteforceThreshold c; BruteforceWindow c; BruteforceSuppression c;
   EventFlushInterval c; EventBatchSize c].
Definition lists (c : Config) : list (list bytes) :=
  [ExcludeMountpoints c; ExcludeInterfaces c; IncludeInterfaces c; SuspiciousPatterns c; LogPaths c; LogExclude c; LogAllow c;
   LogRedact c; DisabledCollectors c; ScrapeURLs c].
Definition entry_ok (s : bytes) : Prop := s <> [] /\ comma ∉ s.
Definition Config_typed (c : Config) : Prop := Forall is_i64 (numbers c) /\ Forall (Forall entry_ok) (lists c).

Lemma dropwhile_incl {A} (p : A -> bool) (l : list A) (x : A) : x ∈ dropwhile p l -> x ∈ l.
Proof. induction l as [|y l IH]; cbn; [done|]. destruct (p y); [intros ?; right; by apply IH|done]. Qed.

Lemma TrimSpace_incl (l : bytes) (c : ascii) : c ∈ TrimSpace l -> c ∈ l.
Proof.
  unfold TrimSpace, unrunes. intros H. apply list_elem_of_In, in_concat in H as (w & Hw & Hc).
  apply in_map_iff in Hw as (r & <- & Hr). apply list_elem_of_In in Hr.
  apply elem_of_reverse, dropwhile_incl, elem_of_reverse, dropwhile_incl in Hr.
  rewrite <-(unrunes_runes l). unfold unrunes. apply list_elem_of_In, in_concat. exists r.2. split; [|done].
  apply in_map. by apply list_elem_of_In.
Qed.

Lemma parseCSV_entries (s : bytes) : Forall entry_ok (parseCSV s).
Proof.
  unfold parseCSV. destruct s as [|c s]; [constructor|]. apply Forall_forall. intros t Ht.
  apply list_elem_of_In, filter_In in Ht as [Ht Hne]. split; [by intros ->|].
  apply in_map_iff in Ht as (w & <- & Hw). apply list_elem_of_In in Hw. intros Hc.
  apply TrimSpace_incl in Hc. by apply Split_no_sep in Hw.
Qed.

Lemma over_ok {A} (P : A -> Prop) (explicit : bytes -> bool) (n : bytes) (o : option A) (cur : A) :
  P cur -> (forall x, o = Some x -> P x) -> P (over explicit n o cur).
Proof. unfold over. destruct (explicit n); [done|]. destruct o; cbn; eauto. Qed.

Lemma env_dur_ok (e : Env) (n : bytes) (d : duration) : env_dur e n = Some d -> is_i64 d.
Proof. unfold env_dur. destruct (env_str e n); [apply ParseDuration_range|done]. Qed.

Lemma env_count_ok (e : Env) (n : bytes) (k : Z) : env_count e n = Some k -> is_i64 k.
Proof.
  unfold env_count. destruct (env_str e n) as [v|]; [|done]. cbn [mbind option_bind].
  unfold Atoi, ParseInt. destruct (match v with [] => _ | _ => _ end) as [neg r].
  pose proof (ParseUint_range r 10 64 ltac:(lia) ltac:(lia)).
  destruct (ParseUint r 10 64) as [un [[|]|]]; cbn [fst] in *; [done| |];
    (destruct neg; cbn [negb andb];
     [destruct (Z.ltb_spec (2 ^ (64 - 1)) un)|destruct (Z.leb_spec (2 ^ (64 - 1)) un)]); try done;
    match goal with |- context [0 <? ?x] => destruct (Z.ltb_spec 0 x) end; try done; intros [= <-]; go_lia.
Qed.

Lemma flag_dur_ok (fs : FlagSet) (n : bytes) : values_ok (fs_values fs) -> is_i64 (flag_dur fs n).
Proof. intros H. unfold flag_dur. destruct (fs_values fs !! n) as [[]|] eqn:Hv; try (go_lia). by apply H in Hv. Qed.

Lemma flag_int_ok (fs : FlagSet) (n : bytes) : values_ok (fs_values fs) -> is_i64 (flag_int fs n).
Proof. intros H. unfold flag_int. destruct (fs_values fs !! n) as [[]|] eqn:Hv; try (go_lia). by apply H in Hv. Qed.

Lemma flag_defs_ok : values_ok (fs_values (new_flags flag_defs)).
Proof.
  intros n v Hv. apply elem_of_list_to_map_2 in Hv.
  assert (Forall (fun d : bytes * value => value_ok d.2) flag_defs) as H.
  { repeat constructor; cbn; try done; go_lia. }
  rewrite Forall_forall in H. by apply (H (n, v)).
Qed.

(** C39: whatever the command line and the environment hold, a configuration
    [Load] returns is well typed: the sizes, thresholds and durations are
    64-bit integers (a text out of range is refused or ignored, never
    wrapped), and no entry of a list is empty or contains a comma. *)
Theorem Load_typed (e : Env) (args : list bytes) (cfg : Config) : Load e args = inr cfg -> Config_typed cfg.
Proof.
  unfold Load. destruct (Parse _ _ args) as [err|fs] eqn:Hp; [done|]. intros [= <-].
  apply Parse_ok in Hp; [|apply flag_defs_ok]. split.
  - unfold numbers.
    repeat (apply Forall_cons_2; [apply (over_ok is_i64);
      [by first [apply flag_dur_ok | apply flag_int_ok]|eauto using env_dur_ok, env_count_ok]|]).
    apply List.Forall_nil.
  - unfold lists. repeat (apply Forall_cons_2; [first [apply parseCSV_entries | apply List.Forall_nil]|]). apply List.Forall_nil.
Qed.

Definition args_sample : list bytes := map B ["-interval"; "-9223372036854775808ns"; "--event-batch-size=0x10"; "-log-paths=a,,b"].

Lemma Load_typed_witness :
  match Load env_sample args_sample with
  | inr cfg => Config_typed cfg /\ Interval cfg = min_i64 /\ EventBatchSize cfg = 16 /\ LogPaths cfg = [B "a"; B "b"]
  | inl _ => False
  end.
Proof.
  destruct (Load env_sample args_sample) as [err|cfg] eqn:H.
  - vm_compute in H. discriminate.
  - split; [exact (Load_typed env_sample args_sample cfg H)|]. vm_compute in H. injection H as <-. vm_compute. by split_and!.
Defined.

(** ** What validation promises *)
Lemma app_nil_iff {A} (l k : list A) : l ++ k = [] <-> l = [] /\ k = [].
Proof. destruct l; naive_solver. Qed.

Lemma single_nil {A} (b : bool) (x : A) : (if b then [x] else []) = [] <-> b = false.
Proof. by destruct b. Qed.

Lemma single_nil' {A} (b : bool) (x : A) : (if b then [] else [x]) = [] <-> b = true.
Proof. by destruct b. Qed.

Lemma dropwhile_last {A} (p : A -> bool) (l : list A) (x : A) (t : list A) : dropwhile p l = x :: t -> p x = false.
Proof. induction l as [|y l IH]; cbn; [done|]. destruct (p y) eqn:Hy; [done|]. by intros [= <- <-]. Qed.

Lemma TrimRight_last (l t : bytes) (c : ascii) : TrimRight l [slash] = t ++ [c] -> c <> slash.
Proof.
  unfold TrimRight. intros H. apply (f_equal reverse) in H. rewrite reverse_involutive, reverse_app in H. cbn in H.
  apply dropwhile_last, bool_decide_eq_false in H. intros ->. apply H. by left.
Qed.

Lemma in_modes (x a b d : bytes) : (x = a \/ x = b) \/ x = d <-> x ∈ [a; b; d].
Proof. rewrite !elem_of_cons. split; [naive_solver|]. intros [?|[?|[?|H]]]; [tauto..|]. by apply not_elem_of_nil in H. Qed.

Lemma Validate_ok (c : Config) :
  (Validate c).2 = None <->
    (DryRun c = true \/ (Server c <> [] /\ Token c <> []))
    /\ 0 < Interval c
    /\ RemoteConfig c ∈ [[]; B "full"; B "limited"; B "off"]
    /\ Logs c ∈ [[]; B "off"; B "auto"].
Proof.
  assert ((Validate c).2 = None <-> validate_errs c = []) as ->.
  { unfold Validate. cbn [snd]. by destruct (validate_errs c). }
  unfold validate_errs. rewrite !app_nil_iff, single_nil, !single_nil', single_nil.
  rewrite Z.leb_gt, bool_decide_eq_true, !andb_false_iff, !negb_false_iff, !bool_decide_eq_true, in_modes.
  destruct (DryRun c); [tauto|]. rewrite app_nil_iff, !single_nil, !bool_decide_eq_false.
  split; [tauto|]. intros ([?|?] & ?); [done|tauto].
Qed.

(** [Validate] accepts exactly the configurations the agent can run with:
    a server and a token unless it is a dry run, a positive interval, a known
    trust mode and log mode; and the server address it keeps for a run that
    is not dry has no slash at its end, so that the paths appended to it are
    not doubled. *)
Theorem Validate_accepts (c : Config) :
  ((Validate c).2 = None <->
     (DryRun c = true \/ (Server c <> [] /\ Token c <> []))
     /\ 0 < Interval c
     /\ RemoteConfig c ∈ [[]; B "full"; B "limited"; B "off"]
     /\ Logs c ∈ [[]; B "off"; B "auto"])
  /\ (DryRun c = false -> forall t x, Server (Validate c).1 = t ++ [x] -> x <> slash)
  /\ (Validate c).1 = with_Server (Server (Validate c).1) c.
Proof.
  split_and!; [apply Validate_ok| |].
  - intros Hd t x. unfold Validate. cbn [fst]. rewrite Hd. cbn [negb andb].
    case_bool_decide as Hs; cbn [negb]; [rewrite Hs; by destruct t|apply TrimRight_last].
  - unfold Validate. cbn [fst]. destruct (_ && _); by destruct c.
Qed.

(** A server address made of slashes alone is accepted and trimmed to nothing. *)
Example server_of_slashes (c : Config) :
  DryRun c = false -> Server c = B "//" -> Server (Validate c).1 = [].
Proof. intros Hd Hs. unfold Validate. rewrite Hd, Hs. reflexivity. Qed.

(** ** The agent's identifier *)

(** What [os.WriteFile] can leave behind. *)
Inductive write_result := WriteOk | WriteRefused | WriteCut (n : nat).

Section identity.
(** [uuid.Parse] without error, and the text of [uuid.New]. *)
Context (uuid_Parse : bytes -> bool).

Definition agentIDFilename : bytes := B "agent_id".

Definition readID (file : option bytes) : option bytes :=
  data ← file;
  let id := TrimSpace data in
  if uuid_Parse id then Some id else None.

(** The file afterwards; [WriteRefused] covers a directory that cannot be made. *)
Definition writeID (w : write_result) (file : option bytes) (id : bytes) : option bytes :=
  match w with
  | WriteOk => Some (id ++ [newline])
  | WriteRefused => file
  | WriteCut n => Some (take n (id ++ [newline]))
  end.

(** The identifier used and the file afterwards. *)
Definition identity_Load (uuid_New : bytes) (w : write_result) (file : option bytes) : bytes * option bytes :=
  match readID file with
  | Some id => (id, file)
  | None => (uuid_New, writeID w file uuid_New)
  end.

Lemma TrimSpace_line (l : bytes) : Forall plain_byte l -> l <> [] -> TrimSpace (l ++ [newline]) = l.
Proof.
  intros Hp Hne. unfold TrimSpace.
  assert (Forall (fun c => byteval c < 128) (l ++ [newline])) as Ha.
  { apply Forall_app. split; [eapply Forall_impl; [exact Hp|]; by intros c []|]. by repeat constructor. }
  rewrite (runes_ascii _ Ha), map_app. cbn [map].
  assert (forall k, Forall plain_byte k -> dropwhile space_rune (map ascii_rune k) = map ascii_rune k) as Hd.
  { intros k Hk. destruct Hk as [|c k Hc Hk]; [done|]. apply dropwhile_head. by apply plain_not_space. }
  assert (forall k, reverse (map ascii_rune k) = map ascii_rune (reverse k)) as Hr.
  { intros k. symmetry. apply (fmap_reverse ascii_rune). }
  destruct l as [|c l]; [done|]. inversion Hp as [|? ? Hc Hl]; subst. cbn [map app].
  rewrite dropwhile_head by (by apply plain_not_space).
  change (ascii_rune c :: map ascii_rune l ++ [ascii_rune newline]) with (map ascii_rune (c :: l) ++ [ascii_rune newline]).
  rewrite reverse_app, Hr. change (reverse [ascii_rune newline]) with [ascii_rune newline]. cbn [app dropwhile].
  change (space_rune (ascii_rune newline)) with true. cbn iota.
  rewrite Hd, Hr, reverse_involutive by (by apply Forall_reverse). apply unrunes_ascii.
Qed.

(** the identifier survives restarts.  When [uuid.New] gives texts that
    [uuid.Parse] accepts, made of letters, digits and dashes, the identifier
    used is always a valid one; if it was read, the file is unchanged; and
    once it has been written, every later start reads the same one, whatever
    new identifier it would have drawn and whatever its own writes would do. *)
Theorem identity_survives (new1 new2 : bytes) (w1 w2 : write_result) (file : option bytes) :
  uuid_Parse new1 = true -> Forall plain_byte new1 -> new1 <> [] ->
  let '(id, file1) := identity_Load new1 w1 file in
  uuid_Parse id = true
  /\ (readID file = Some id -> file1 = file)
  /\ (w1 = WriteOk \/ is_Some (readID file) -> identity_Load new2 w2 file1 = (id, file1)).
Proof.
  intros Hv Hp Hne. unfold identity_Load. destruct (readID file) as [id|] eqn:Hr.
  - split_and!; [|done|intros _; by rewrite Hr].
    unfold readID in Hr. destruct file as [data|]; [|done]. cbn in Hr. by case_match; simplify_eq.
  - split_and!; [done|done|]. intros [->|[? ?]]; [|done]. cbn [writeID readID mbind option_bind].
    by rewrite TrimSpace_line, Hv.
Qed.
End identity.

(** The texts of 36 bytes, as a stand-in for the UUIDs. *)
Definition uuid_sample : bytes := B "0b1f4c6e-4a53-4e0f-9d5a-0d6d8f3b6a11".

Lemma identity_survives_witness :
  let '(id, file1) := identity_Load (fun s => len s =? 36) uuid_sample WriteOk (Some (B "broken")) in
  id = uuid_sample /\ identity_Load (fun s => len s =? 36) (B "other") WriteRefused file1 = (id, file1).
Proof.
  pose proof (identity_survives (fun s => len s =? 36) uuid_sample (B "other") WriteOk WriteRefused (Some (B "broken"))) as H.
  destruct H as (_ & _ & H); [reflexivity|repeat constructor|discriminate|].
  split; [reflexivity|]. apply H. by left.
Defined.
