(* ===== verification/Remote.v ===== *)
(** * Configuration set in the portal

    [src/internal/remote/remote.go] (the configuration, its file, its
    validation and how it is applied over the local one) and
    [src/internal/remote/fetch.go] (the poller).  JSON is the text of
    [GoJSON]; decoding follows the rules of Go for structures: a key names the
    field it equals, or else equals up to case; [null] clears a pointer or a
    list and leaves a string; a value of another kind is an error.  The
    answers of the server, the file system and the clock are arguments, and
    so is whether [regexp.Compile] accepts a pattern. *)
From S2P Require Import Prelude GoFloat GoStrings GoNum GoFlag GoJSON GoRegexp Session Metrics Config LogTail LogAllow LogDiscover.
Local Open Scope Z_scope.

Definition ModeFull : bytes := B "full".
Definition ModeLimited : bytes := B "limited".
Definition ModeOff : bytes := B "off".

(** ** The configuration *)
Record LogsConfig := { l_Enabled : option bool; l_Paths : list bytes; l_Exclude : list bytes; l_Redact : list bytes }.
Record IntegrationsConfig := { i_Enabled : option bool; i_NginxStatusURL : option bytes; i_ScrapeURLs : list bytes }.
Record EventsConfig := {
  e_Enabled : option bool; e_Auth : option bool; e_Process : option bool; e_Network : option bool; e_System : option bool;
  e_ProcessLifecycle : option bool }.
(** The disabled collectors tell a missing list from an empty one. *)
Record RemoteCfg := {
  r_Interval : option bytes; r_DisabledCollectors : option (list bytes); r_Logs : option LogsConfig;
  r_Integrations : option IntegrationsConfig; r_Events : option EventsConfig }.
Record Stored := { st_Version : bytes; st_Config : RemoteCfg }.

Definition no_logs : LogsConfig := {| l_Enabled := None; l_Paths := []; l_Exclude := []; l_Redact := [] |}.
Definition no_integrations : IntegrationsConfig := {| i_Enabled := None; i_NginxStatusURL := None; i_ScrapeURLs := [] |}.
Definition no_events : EventsConfig :=
  {| e_Enabled := None; e_Auth := None; e_Process := None; e_Network := None; e_System := None; e_ProcessLifecycle := None |}.
Definition no_remote : RemoteCfg :=
  {| r_Interval := None; r_DisabledCollectors := None; r_Logs := None; r_Integrations := None; r_Events := None |}.

(** ** Encoding *)
Definition opt_member {A} (name : string) (f : A -> json) (o : option A) : list (bytes * json) :=
  match o with Some x => [(B name, f x)] | None => [] end.
Definition list_member (name : string) (l : list bytes) : list (bytes * json) :=
  match l with [] => [] | _ => [(B name, JArr (map JStr l))] end.

Definition logs_json (l : LogsConfig) : json :=
  JObj (opt_member "enabled" JBool (l_Enabled l) ++ list_member "paths" (l_Paths l) ++ list_member "exclude" (l_Exclude l)
        ++ list_member "redact" (l_Redact l)).
Definition integrations_json (i : IntegrationsConfig) : json :=
  JObj (opt_member "enabled" JBool (i_Enabled i) ++ opt_member "nginx_status_url" JStr (i_NginxStatusURL i)
        ++ list_member "scrape_urls" (i_ScrapeURLs i)).
Definition events_json (e : EventsConfig) : json :=
  JObj (opt_member "enabled" JBool (e_Enabled e) ++ opt_member "auth" JBool (e_Auth e) ++ opt_member "process" JBool (e_Process e)
        ++ opt_member "network" JBool (e_Network e) ++ opt_member "system" JBool (e_System e)
        ++ opt_member "process_lifecycle" JBool (e_ProcessLifecycle e)).
Definition config_json (c : RemoteCfg) : json :=
  JObj (opt_member "interval" JStr (r_Interval c) ++ list_member "disabled_collectors" (default [] (r_DisabledCollectors c))
        ++ opt_member "logs" logs_json (r_Logs c) ++ opt_member "integrations" integrations_json (r_Integrations c)
        ++ opt_member "events" events_json (r_Events c)).
Definition stored_json (s : Stored) : json := JObj [(B "version", JStr (st_Version s)); (B "config", config_json (st_Config s))].

(** ** Decoding *)

Definition dec_bool : decoder bool := fun j a => match j with JNull => Some a | JBool b => Some b | _ => None end.
Fixpoint dec_strings (l : list json) : option (list bytes) :=
  match l with
  | [] => Some []
  | x :: t => s ← dec_string x []; r ← dec_strings t; Some (s :: r)
  end.
Definition dec_list : decoder (option (list bytes)) := fun j _ =>
  match j with JNull => Some None | JArr l => Some <$> dec_strings l | _ => None end.
Definition dec_list0 : decoder (list bytes) := fun j a => default [] <$> dec_list j (Some a).

Definition logs_fields : list (bytes * decoder LogsConfig) :=
  [ (B "enabled", fun j c => (fun v => {| l_Enabled := v; l_Paths := l_Paths c; l_Exclude := l_Exclude c; l_Redact := l_Redact c |}) <$> dec_ptr false dec_bool j (l_Enabled c));
    (B "paths", fun j c => (fun v => {| l_Enabled := l_Enabled c; l_Paths := v; l_Exclude := l_Exclude c; l_Redact := l_Redact c |}) <$> dec_list0 j (l_Paths c));
    (B "exclude", fun j c => (fun v => {| l_Enabled := l_Enabled c; l_Paths := l_Paths c; l_Exclude := v; l_Redact := l_Redact c |}) <$> dec_list0 j (l_Exclude c));
    (B "redact", fun j c => (fun v => {| l_Enabled := l_Enabled c; l_Paths := l_Paths c; l_Exclude := l_Exclude c; l_Redact := v |}) <$> dec_list0 j (l_Redact c)) ].

Definition integrations_fields : list (bytes * decoder IntegrationsConfig) :=
  [ (B "enabled", fun j c => (fun v => {| i_Enabled := v; i_NginxStatusURL := i_NginxStatusURL c; i_ScrapeURLs := i_ScrapeURLs c |}) <$> dec_ptr false dec_bool j (i_Enabled c));
    (B "nginx_status_url", fun j c => (fun v => {| i_Enabled := i_Enabled c; i_NginxStatusURL := v; i_ScrapeURLs := i_ScrapeURLs c |}) <$> dec_ptr [] dec_string j (i_NginxStatusURL c));
    (B "scrape_urls", fun j c => (fun v => {| i_Enabled := i_Enabled c; i_NginxStatusURL := i_NginxStatusURL c; i_ScrapeURLs := v |}) <$> dec_list0 j (i_ScrapeURLs c)) ].

Definition events_fields : list (bytes * decoder EventsConfig) :=
  let b := dec_ptr false dec_bool in
  [ (B "enabled", fun j c => (fun v => {| e_Enabled := v; e_Auth := e_Auth c; e_Process := e_Process c; e_Network := e_Network c; e_System := e_System c; e_ProcessLifecycle := e_ProcessLifecycle c |}) <$> b j (e_Enabled c));
    (B "auth", fun j c => (fun v => {| e_Enabled := e_Enabled c; e_Auth := v; e_Process := e_Process c; e_Network := e_Network c; e_System := e_System c; e_ProcessLifecycle := e_ProcessLifecycle c |}) <$> b j (e_Auth c));
    (B "process", fun j c => (fun v => {| e_Enabled := e_Enabled c; e_Auth := e_Auth c; e_Process := v; e_Network := e_Network c; e_System := e_System c; e_ProcessLifecycle := e_ProcessLifecycle c |}) <$> b j (e_Process c));
    (B "network", fun j c => (fun v => {| e_Enabled := e_Enabled c; e_Auth := e_Auth c; e_Process := e_Process c; e_Network := v; e_System := e_System c; e_ProcessLifecycle := e_ProcessLifecycle c |}) <$> b j (e_Network c));
    (B "system", fun j c => (fun v => {| e_Enabled := e_Enabled c; e_Auth := e_Auth c; e_Process := e_Process c; e_Network := e_Network c; e_System := v; e_ProcessLifecycle := e_ProcessLifecycle c |}) <$> b j (e_System c));
    (B "process_lifecycle", fun j c => (fun v => {| e_Enabled := e_Enabled c; e_Auth := e_Auth c; e_Process := e_Process c; e_Network := e_Network c; e_System := e_System c; e_ProcessLifecycle := v |}) <$> b j (e_ProcessLifecycle c)) ].

Definition config_fields : list (bytes * decoder RemoteCfg) :=
  [ (B "interval", fun j c => (fun v => {| r_Interval := v; r_DisabledCollectors := r_DisabledCollectors c; r_Logs := r_Logs c; r_Integrations := r_Integrations c; r_Events := r_Events c |}) <$> dec_ptr [] dec_string j (r_Interval c));
    (B "disabled_collectors", fun j c => (fun v => {| r_Interval := r_Interval c; r_DisabledCollectors := v; r_Logs := r_Logs c; r_Integrations := r_Integrations c; r_Events := r_Events c |}) <$> dec_list j (r_DisabledCollectors c));
    (B "logs", fun j c => (fun v => {| r_Interval := r_Interval c; r_DisabledCollectors := r_DisabledCollectors c; r_Logs := v; r_Integrations := r_Integrations c; r_Events := r_Events c |}) <$> dec_ptr no_logs (decode_struct logs_fields) j (r_Logs c));
    (B "integrations", fun j c => (fun v => {| r_Interval := r_Interval c; r_DisabledCollectors := r_DisabledCollectors c; r_Logs := r_Logs c; r_Integrations := v; r_Events := r_Events c |}) <$> dec_ptr no_integrations (decode_struct integrations_fields) j (r_Integrations c));
    (B "events", fun j c => (fun v => {| r_Interval := r_Interval c; r_DisabledCollectors := r_DisabledCollectors c; r_Logs := r_Logs c; r_Integrations := r_Integrations c; r_Events := v |}) <$> dec_ptr no_events (decode_struct events_fields) j (r_Events c)) ].

Definition stored_fields : list (bytes * decoder Stored) :=
  [ (B "version", fun j s => (fun v => {| st_Version := v; st_Config := st_Config s |}) <$> dec_string j (st_Version s));
    (B "config", fun j s => (fun v => {| st_Version := st_Version s; st_Config := v |}) <$> decode_struct config_fields j (st_Config s)) ].

Definition no_stored : Stored := {| st_Version := []; st_Config := no_remote |}.
Definition stored_of_json (j : json) : option Stored := decode_struct stored_fields j no_stored.

(** ** The file *)
Definition fileName : bytes := B "remote_config.json".

Definition Load (file : option bytes) : option Stored :=
  b ← file;
  j ← Unmarshal b;
  s ← stored_of_json j;
  match st_Version s with [] => None | _ => Some s end.

(** The file afterwards and whether there was no error; the temporary file is
    written first, so a failure leaves the file as it was. *)
Definition Save (write_ok rename_ok : bool) (file : option bytes) (s : Stored) : option bytes * bool :=
  if write_ok && rename_ok then (Some (Marshal (stored_json s)), true) else (file, false).

(** ** Validation *)
Inductive refusal := IntervalRange | BadRedact | RelativePath.

Section validate.
Context (re_ok : bytes -> bool).

Definition Validate (c : RemoteCfg) : option refusal :=
  let interval_bad := match r_Interval c with
                      | Some s => match ParseDuration s with Some d => (d <? 10 * second) || (10 * minute <? d) | None => true end
                      | None => false
                      end in
  if interval_bad then Some IntervalRange
  else match r_Logs c with
       | None => None
       | Some l =>
           if negb (forallb re_ok (l_Redact l)) then Some BadRedact
           else if negb (forallb (fun g => IsAbs (SplitTyped g).2) (l_Paths l)) then Some RelativePath
           else if negb (forallb IsAbs (l_Exclude l)) then Some RelativePath
           else None
       end.
End validate.

(** ** Applying *)

(** The closure [set] of [Apply]. *)
Definition set_flag (disable : bool) (dst : bool) (v : option bool) : bool :=
  match v with Some b => if disable then negb b else b | None => dst end.

(** A field of a section that may be missing. *)
Definition field {A B} (o : option A) (f : A -> option B) : option B := match o with Some x => f x | None => None end.

Definition apply_on (mode : bytes) (c : RemoteCfg) (cfg : Config) : Config := {|
  Version := Version cfg;
  Uninstall := Uninstall cfg;
  DryRun := DryRun cfg;
  Server := Server cfg;
  Token := Token cfg;
  Interval := match field (r_Interval c) ParseDuration with Some d => d | None => Interval cfg end;
  LogLevel := LogLevel cfg;
  HostnameOverride := HostnameOverride cfg;
  DisableFilesystems := DisableFilesystems cfg;
  DisableNetwork := DisableNetwork cfg;
  InsecureSkipVerify := InsecureSkipVerify cfg;
  StateDir := StateDir cfg;
  DisableAutoUpgrade := DisableAutoUpgrade cfg;
  AutoUpgradeInterval := AutoUpgradeInterval cfg;
  ExcludeMountpoints := ExcludeMountpoints cfg;
  ExcludeInterfaces := ExcludeInterfaces cfg;
  IncludeInterfaces := IncludeInterfaces cfg;
  DisableKernelCareInfo := DisableKernelCareInfo cfg;
  VirtualizationOverride := VirtualizationOverride cfg;
  DisableEvents := set_flag true (DisableEvents cfg) (field (r_Events c) e_Enabled);
  DisableAuthEvents := set_flag true (DisableAuthEvents cfg) (field (r_Events c) e_Auth);
  DisableProcessEvents := set_flag true (DisableProcessEvents cfg) (field (r_Events c) e_Process);
  DisableNetworkEvents := set_flag true (DisableNetworkEvents cfg) (field (r_Events c) e_Network);
  DisableSystemEvents := set_flag true (DisableSystemEvents cfg) (field (r_Events c) e_System);
  MonitorProcessLifecycle := set_flag false (MonitorProcessLifecycle cfg) (field (r_Events c) e_ProcessLifecycle);
  EventBufferSize := EventBufferSize cfg;
  WtmpPath := WtmpPath cfg;
  AuthLogPath := AuthLogPath cfg;
  SuspiciousPatterns := SuspiciousPatterns cfg;
  BruteforceThreshold := BruteforceThreshold cfg;
  BruteforceWindow := BruteforceWindow cfg;
  BruteforceSuppression := BruteforceSuppression cfg;
  MonitorTmpPaths := MonitorTmpPaths cfg;
  MonitorConfigFiles := MonitorConfigFiles cfg;
  IgnorePrivateIP := IgnorePrivateIP cfg;
  EventFlushInterval := EventFlushInterval cfg;
  EventBatchSize := EventBatchSize cfg;
  Logs := match field (r_Logs c) l_Enabled with Some b => if b then B "auto" else B "off" | None => Logs cfg end;
  LogPaths := LogPaths cfg ++ (if bool_decide (mode = ModeFull) then match r_Logs c with Some l => l_Paths l | None => [] end else []);
  LogExclude := LogExclude cfg ++ match r_Logs c with Some l => l_Exclude l | None => [] end;
  LogAllow := LogAllow cfg;
  LogRedact := LogRedact cfg ++ match r_Logs c with Some l => l_Redact l | None => [] end;
  DisabledCollectors := default (DisabledCollectors cfg) (r_DisabledCollectors c);
  RemoteConfig := RemoteConfig cfg;
  DisableIntegrations := match field (r_Integrations c) i_Enabled with Some b => negb b | None => DisableIntegrations cfg end;
  NginxStatusURL := match field (r_Integrations c) i_NginxStatusURL with
    | Some u => if bool_decide (mode = ModeFull) && bool_decide (NginxStatusURL cfg = []) then u else NginxStatusURL cfg
    | None => NginxStatusURL cfg
    end;
  MySQLDSN := MySQLDSN cfg;
  ScrapeURLs := ScrapeURLs cfg ++ (if bool_decide (mode = ModeFull) then match r_Integrations c with Some i => i_ScrapeURLs i | None => [] end else []) |}.

Definition Apply (cfg : Config) (c : RemoteCfg) (mode : bytes) : Config :=
  if bool_decide (mode = ModeOff) then cfg else apply_on mode c cfg.

(** ** Polling *)
Definition sameEffect (a b : RemoteCfg) : bool := bool_decide (Marshal (config_json a) = Marshal (config_json b)).

(** The fields that change or decide; [f_info] is the version the info
    collector reports. *)
Record Fetcher := {
  f_Mode : bytes; f_Current : bytes; f_Applied : RemoteCfg; f_info : option bytes; f_Started : time; f_MinUptime : duration }.

(** What one turn of the loop sees: whether the session is paused, the
    answer ([None] when there is none), how writing goes, and the clock. *)
Record turn := { t_paused : bool; t_resp : option (Z * bytes); t_write : bool; t_rename : bool; t_now : time }.

Definition body_limit : Z := 2 ^ 20.

(** The file afterwards, and the new configuration when one was saved. *)
Definition check (re_ok : bytes -> bool) (f : Fetcher) (x : turn) (file : option bytes) : option bytes * option Stored :=
  if t_paused x then (file, None)
  else match t_resp x with
       | None => (file, None)
       | Some (status, body) =>
           if negb (status =? 200) then (file, None)
           else match Decode (take (Z.to_nat body_limit) body) ≫= stored_of_json with
                | None => (file, None)
                | Some s =>
                    if bool_decide (st_Version s = []) then (file, None)
                    else if bool_decide (st_Version s = f_Current f) then (file, None)
                    else match Validate re_ok (st_Config s) with
                         | Some _ => (file, None)
                         | None =>
                             let '(file', ok) := Save (t_write x) (t_rename x) file s in
                             if ok then (file', Some s) else (file', None)
                         end
                end
       end.

Inductive verdict := Keep (f : Fetcher) | RestartAfter (wait : duration) (version : bytes).

(** One turn of [Run]. *)
Definition poll (re_ok : bytes -> bool) (f : Fetcher) (x : turn) (file : option bytes) : option bytes * verdict :=
  let '(file', r) := check re_ok f x file in
  (file',
   match r with
   | None => Keep f
   | Some s =>
       if sameEffect (st_Config s) (f_Applied f) then
         Keep {| f_Mode := f_Mode f; f_Current := st_Version s; f_Applied := f_Applied f;
                 f_info := (fun _ => st_Version s) <$> f_info f; f_Started := f_Started f; f_MinUptime := f_MinUptime f |}
       else RestartAfter (Z.max 0 (f_MinUptime f - time_sub (t_now x) (f_Started f))) (st_Version s)
   end).

(** [Run]: its defaults, then turns until a restart; the turns not reached
    are not looked at. *)
Fixpoint poll_all (re_ok : bytes -> bool) (f : Fetcher) (xs : list turn) (file : option bytes) : option bytes * verdict :=
  match xs with
  | [] => (file, Keep f)
  | x :: t =>
      match poll re_ok f x file with
      | (file', Keep f') => poll_all re_ok f' t file'
      | r => r
      end
  end.

Definition Run (re_ok : bytes -> bool) (f : Fetcher) (xs : list turn) (file : option bytes) : option bytes * verdict :=
  if bool_decide (f_Mode f = ModeOff) then (file, Keep f)
  else poll_all re_ok {| f_Mode := f_Mode f; f_Current := f_Current f; f_Applied := f_Applied f; f_info := f_info f; f_Started := f_Started f;
                         f_MinUptime := if f_MinUptime f <=? 0 then 2 * minute else f_MinUptime f |} xs file.

(** [InfoCollector.Collect]. *)
Definition info_Collect (version mode : bytes) : list MetricPoint :=
  let source := if negb (bool_decide (version = [])) && negb (bool_decide (mode = ModeOff)) then "remote"%string else "local"%string in
  [ point "agent_config_info" "Always 1; the configuration the agent applies (version of the remote one, source, trust mode)" Gauge f64_one
      (list_to_map [("version"%string, S version); ("config_source"%string, source); ("mode"%string, S mode)]) ].

(** ** What is written is what is read *)

(** Encoding forgets the difference between a missing and an empty list. *)
Definition norm (c : RemoteCfg) : RemoteCfg :=
  {| r_Interval := r_Interval c; r_DisabledCollectors := match r_DisabledCollectors c with Some [] => None | o => o end;
     r_Logs := r_Logs c; r_Integrations := r_Integrations c; r_Events := r_Events c |}.

Lemma dec_strings_map (l : list bytes) : dec_strings (map JStr l) = Some l.
Proof. induction l as [|s l IH]; [done|]. cbn. by rewrite IH. Qed.

Definition strings_json (l : list bytes) : json := JArr (map JStr l).

Lemma list_member_cons (name : string) (s : bytes) (l : list bytes) : list_member name (s :: l) = [(B name, strings_json (s :: l))].
Proof. done. Qed.

Lemma dec_list_strings (l : list bytes) (o : option (list bytes)) : dec_list (strings_json l) o = Some (Some l).
Proof. unfold dec_list, strings_json. by rewrite dec_strings_map. Qed.

Lemma dec_list0_strings (l k : list bytes) : dec_list0 (strings_json l) k = Some l.
Proof. unfold dec_list0. by rewrite dec_list_strings. Qed.

Ltac decode_all :=
  repeat (erewrite decode_member; [|reflexivity|cbn -[dec_list0 dec_list strings_json]; rewrite ?dec_list0_strings, ?dec_list_strings; reflexivity]); reflexivity.

Lemma logs_back (l : LogsConfig) : decode_struct logs_fields (logs_json l) no_logs = Some l.
Proof.
  destruct l as [[e|] [|p ps] [|x xs] [|r rs]]; unfold logs_json; cbn [l_Enabled l_Paths l_Exclude l_Redact opt_member];
    rewrite ?list_member_cons; cbn [list_member app decode_struct]; decode_all.
Qed.

Lemma integrations_back (i : IntegrationsConfig) : decode_struct integrations_fields (integrations_json i) no_integrations = Some i.
Proof.
  destruct i as [[e|] [u|] [|x xs]]; unfold integrations_json; cbn [i_Enabled i_NginxStatusURL i_ScrapeURLs opt_member];
    rewrite ?list_member_cons; cbn [list_member app decode_struct]; decode_all.
Qed.

Lemma events_back (e : EventsConfig) : decode_struct events_fields (events_json e) no_events = Some e.
Proof. destruct e as [[a|] [b|] [c|] [d|] [f|] [g|]]; reflexivity. Qed.

Lemma ptr_logs (l : LogsConfig) : dec_ptr no_logs (decode_struct logs_fields) (logs_json l) None = Some (Some l).
Proof. unfold dec_ptr. cbn [default]. rewrite logs_back. by unfold logs_json. Qed.
Lemma ptr_integrations (i : IntegrationsConfig) :
  dec_ptr no_integrations (decode_struct integrations_fields) (integrations_json i) None = Some (Some i).
Proof. unfold dec_ptr. cbn [default]. rewrite integrations_back. by unfold integrations_json. Qed.
Lemma ptr_events (e : EventsConfig) : dec_ptr no_events (decode_struct events_fields) (events_json e) None = Some (Some e).
Proof. unfold dec_ptr. cbn [default]. rewrite events_back. by unfold events_json. Qed.

Lemma config_back (c : RemoteCfg) : decode_struct config_fields (config_json c) no_remote = Some (norm c).
Proof.
  destruct c as [[i|] [[|d ds]|] [l|] [n|] [e|]]; unfold config_json, norm;
    cbn [r_Interval r_DisabledCollectors r_Logs r_Integrations r_Events opt_member default from_option id];
    rewrite ?list_member_cons; cbn [list_member app decode_struct];
    repeat (erewrite decode_member;
      [|reflexivity|cbn -[dec_ptr decode_struct dec_list logs_json integrations_json events_json strings_json];
        rewrite ?ptr_logs, ?ptr_integrations, ?ptr_events, ?dec_list_strings; reflexivity]); reflexivity.
Qed.

Lemma stored_back (s : Stored) : stored_of_json (stored_json s) = Some {| st_Version := st_Version s; st_Config := norm (st_Config s) |}.
Proof.
  unfold stored_of_json, stored_json. cbn [decode_struct].
  repeat (erewrite decode_member; [|reflexivity|cbn -[decode_struct config_json]; rewrite ?config_back; reflexivity]). reflexivity.
Qed.

(** ** Texts that are valid UTF-8 *)
Definition texts (c : RemoteCfg) : list bytes :=
  match r_Interval c with Some s => [s] | None => [] end ++ default [] (r_DisabledCollectors c)
  ++ match r_Logs c with Some l => l_Paths l ++ l_Exclude l ++ l_Redact l | None => [] end
  ++ match r_Integrations c with
     | Some i => match i_NginxStatusURL i with Some u => [u] | None => [] end ++ i_ScrapeURLs i
     | None => []
     end.
Definition texts_ok (l : list bytes) : bool := forallb valid_utf8 l.
Definition cfg_ok (c : RemoteCfg) : bool := texts_ok (texts c).
Definition stored_ok (s : Stored) : bool := valid_utf8 (st_Version s) && cfg_ok (st_Config s).

Lemma texts_ok_app (l k : list bytes) : texts_ok (l ++ k) = texts_ok l && texts_ok k.
Proof. apply forallb_app. Qed.

Lemma depth_ok : exists d, max_depth = Datatypes.S (Datatypes.S (Datatypes.S (Datatypes.S d))).
Proof. exists 9996%nat. vm_compute. reflexivity. Qed.

Lemma plain_strings (d : nat) (l : list bytes) : texts_ok l = true -> plain_json (Datatypes.S d) (strings_json l) = true.
Proof.
  unfold texts_ok. intros H. cbn. rewrite forallb_forall in H. apply forallb_forall. intros j [s [<- Hs]]%in_map_iff. by apply H.
Qed.

Lemma plain_list (d : nat) (name : string) (l : list bytes) : valid_utf8 (B name) = true -> texts_ok l = true ->
  forallb (fun m => valid_utf8 m.1 && plain_json (Datatypes.S d) m.2) (list_member name l) = true.
Proof.
  intros Hn Hl. destruct l as [|s l]; [done|]. rewrite list_member_cons. cbn [forallb fst snd]. rewrite Hn, plain_strings by done. done.
Qed.

Lemma plain_opt {A} (d : nat) (name : string) (f : A -> json) (o : option A) : valid_utf8 (B name) = true ->
  (forall x, o = Some x -> plain_json d (f x) = true) ->
  forallb (fun m => valid_utf8 m.1 && plain_json d m.2) (opt_member name f o) = true.
Proof. intros Hn Ho. destruct o as [x|]; [|done]. cbn [opt_member forallb fst snd]. rewrite Hn, Ho by done. done. Qed.

Ltac plain_members :=
  cbn [plain_json]; rewrite ?forallb_app; repeat (apply andb_true_iff; split);
  first [apply plain_list; [vm_compute; reflexivity|] | apply plain_opt; [vm_compute; reflexivity|]].

Lemma plain_config (d : nat) (c : RemoteCfg) : cfg_ok c = true -> plain_json (Datatypes.S (Datatypes.S (Datatypes.S d))) (config_json c) = true.
Proof.
  unfold cfg_ok, texts. rewrite !texts_ok_app. intros (H1 & (H2 & (H3 & H4)%andb_true_iff)%andb_true_iff)%andb_true_iff.
  unfold config_json. plain_members; try done.
  - intros x Hx. rewrite Hx in H1. cbn in H1 |- *. by apply andb_true_iff in H1 as [? _].
  - intros l Hl. rewrite Hl in H3. rewrite !texts_ok_app in H3. apply andb_true_iff in H3 as [H31 (H32 & H33)%andb_true_iff].
    unfold logs_json. plain_members; done.
  - intros i Hi. rewrite Hi in H4. rewrite texts_ok_app in H4. apply andb_true_iff in H4 as [H41 H42].
    unfold integrations_json. plain_members; try done. intros u Hu. rewrite Hu in H41. cbn in H41 |- *. by apply andb_true_iff in H41 as [? _].
  - intros e _. unfold events_json. plain_members; done.
Qed.

Lemma plain_stored (s : Stored) : stored_ok s = true -> plain_json max_depth (stored_json s) = true.
Proof.
  intros [Hv Hc]%andb_true_iff. destruct depth_ok as [d ->]. unfold stored_json.
  change (valid_utf8 (B "version") && valid_utf8 (st_Version s) && (valid_utf8 (B "config") && plain_json (Datatypes.S (Datatypes.S (Datatypes.S d))) (config_json (st_Config s)) && true) = true).
  rewrite Hv, plain_config by done. vm_compute. reflexivity.
Qed.

Lemma dec_string_ok (j : json) (a s : bytes) : strings_ok j = true -> valid_utf8 a = true -> dec_string j a = Some s -> valid_utf8 s = true.
Proof. destruct j; cbn; intros; simplify_eq; done. Qed.

Lemma dec_strings_ok (l : list json) (r : list bytes) : forallb strings_ok l = true -> dec_strings l = Some r -> texts_ok r = true.
Proof.
  revert r. induction l as [|j l IH]; intros r; cbn [forallb dec_strings]; [by intros _ [= <-]|].
  intros [Hj Hl]%andb_true_iff. destruct (dec_string j []) as [s|] eqn:Hs; [|done]. cbn [mbind option_bind].
  destruct (dec_strings l) as [t|]; [|done]. intros [= <-]. cbn [texts_ok forallb].
  apply andb_true_iff. split; [by eapply (dec_string_ok j [])|by apply IH].
Qed.

Lemma dec_list_ok (j : json) (a r : option (list bytes)) : strings_ok j = true -> dec_list j a = Some r -> texts_ok (default [] r) = true.
Proof.
  destruct j; cbn [dec_list strings_ok]; try done; [by intros _ [= <-]|]. intros Hl Hr.
  apply fmap_Some in Hr as (l' & Hl' & ->). by eapply dec_strings_ok.
Qed.

Lemma dec_list0_ok (j : json) (a r : list bytes) : strings_ok j = true -> dec_list0 j a = Some r -> texts_ok r = true.
Proof. unfold dec_list0. intros Hj Hr. apply fmap_Some in Hr as (o & Ho & ->). by eapply dec_list_ok. Qed.

Definition opt_ok {A} (P : A -> Prop) (o : option A) : Prop := forall x, o = Some x -> P x.

Lemma dec_ptr_ok {A} (P : A -> Prop) (zero : A) (d : decoder A) (j : json) (a r : option A) :
  P zero -> (forall x x', P x -> d j x = Some x' -> P x') -> opt_ok P a -> dec_ptr zero d j a = Some r -> opt_ok P r.
Proof.
  intros Hz Hd Ha. unfold dec_ptr. destruct j; try (intros [y [Hy ->]]%fmap_Some x [= <-]; eapply Hd; [|exact Hy]; destruct a; cbn; auto).
  by intros [= <-].
Qed.

Definition logs_ok (l : LogsConfig) : Prop := texts_ok (l_Paths l) = true /\ texts_ok (l_Exclude l) = true /\ texts_ok (l_Redact l) = true.
Definition integrations_ok (i : IntegrationsConfig) : Prop :=
  opt_ok (fun u => valid_utf8 u = true) (i_NginxStatusURL i) /\ texts_ok (i_ScrapeURLs i) = true.
Definition config_ok (c : RemoteCfg) : Prop :=
  opt_ok (fun s => valid_utf8 s = true) (r_Interval c) /\ texts_ok (default [] (r_DisabledCollectors c)) = true
  /\ opt_ok logs_ok (r_Logs c) /\ opt_ok integrations_ok (r_Integrations c).

Lemma config_ok_texts (c : RemoteCfg) : config_ok c -> cfg_ok c = true.
Proof.
  intros (H1 & H2 & H3 & H4). unfold cfg_ok, texts. rewrite !texts_ok_app, H2.
  destruct (r_Interval c) as [s|]; [rewrite (H1 s eq_refl : texts_ok [s] = true) || (cbn [texts_ok forallb]; rewrite (H1 s eq_refl))|];
    (destruct (r_Logs c) as [l|]; [destruct (H3 l eq_refl) as (Ha & Hb & Hc); rewrite !texts_ok_app, Ha, Hb, Hc|]);
    (destruct (r_Integrations c) as [i|]; [destruct (H4 i eq_refl) as [Hu Hs]; rewrite texts_ok_app, Hs;
      destruct (i_NginxStatusURL i) as [u|]; [cbn [texts_ok forallb]; rewrite (Hu u eq_refl)|]|]); reflexivity.
Qed.

Ltac field_cases := repeat (apply Forall_cons_2; [cbn [snd]; intros v x x' Hv Hx H; apply fmap_Some in H as (y & Hy & ->)|]); [..|apply List.Forall_nil].

Lemma logs_decoded (j : json) (l l' : LogsConfig) : strings_ok j = true -> logs_ok l -> decode_struct logs_fields j l = Some l' -> logs_ok l'.
Proof.
  intros Hj. apply decode_struct_keeps; [|done]. unfold logs_fields. field_cases; destruct Hx as (H1 & H2 & H3);
    split_and!; cbn; try done; by eapply dec_list0_ok.
Qed.

Lemma integrations_decoded (j : json) (i i' : IntegrationsConfig) :
  strings_ok j = true -> integrations_ok i -> decode_struct integrations_fields j i = Some i' -> integrations_ok i'.
Proof.
  intros Hj. apply decode_struct_keeps; [|done]. unfold integrations_fields. field_cases; destruct Hx as (H1 & H2); split; cbn; try done.
  - eapply dec_ptr_ok; [|intros s s' Hs Hd|exact H1|exact Hy]; [done|]. by eapply dec_string_ok.
  - by eapply dec_list0_ok.
Qed.

Lemma config_decoded (j : json) (c c' : RemoteCfg) : strings_ok j = true -> config_ok c -> decode_struct config_fields j c = Some c' -> config_ok c'.
Proof.
  intros Hj. apply decode_struct_keeps; [|done]. unfold config_fields.
  field_cases; destruct Hx as (H1 & H2 & H3 & H4); split_and!; cbn [r_Interval r_DisabledCollectors r_Logs r_Integrations]; try done.
  - eapply dec_ptr_ok; [|intros s s' Hs Hd|exact H1|exact Hy]; [done|]. by eapply dec_string_ok.
  - by eapply dec_list_ok.
  - eapply dec_ptr_ok; [|intros s s' Hs Hd|exact H3|exact Hy]; [done|]. by eapply logs_decoded.
  - eapply dec_ptr_ok; [|intros s s' Hs Hd|exact H4|exact Hy]; [done|]. by eapply integrations_decoded.
Qed.

Lemma stored_decoded (j : json) (s : Stored) : strings_ok j = true -> stored_of_json j = Some s -> stored_ok s = true.
Proof.
  intros Hj Hs. assert (valid_utf8 (st_Version s) = true /\ config_ok (st_Config s)) as [Hv Hc].
  { revert Hs. unfold stored_of_json.
    apply (decode_struct_keeps (fun s => valid_utf8 (st_Version s) = true /\ config_ok (st_Config s))); [|done|].
    - unfold stored_fields. field_cases; destruct Hx as [H1 H2]; split; cbn [st_Version st_Config]; try done.
      + by eapply dec_string_ok.
      + by eapply config_decoded.
    - split; [done|]. by split_and!. }
  unfold stored_ok. rewrite Hv. by apply config_ok_texts.
Qed.

(** ** Trust *)

(** What the server can never change. *)
Definition owner_only (c : Config) :=
  (LogAllow c, Server c, Token c, InsecureSkipVerify c, StateDir c, RemoteConfig c, MySQLDSN c, DisableAutoUpgrade c, DryRun c,
   (WtmpPath c, AuthLogPath c, HostnameOverride c)).
(** What chooses the files and addresses that are read. *)
Definition reads (c : Config) := (LogPaths c, ScrapeURLs c, NginxStatusURL c).

(** C24: how far the portal is trusted.  In mode [off] nothing changes; in any
    mode but [full] the log paths, the scrape addresses and the nginx address
    stay the local ones; in every mode the lists of the host owner are
    extended and never shortened, an nginx address set locally stays, and the
    allow list of log paths, the server, the token, the TLS setting, the state
    directory and the trust mode itself are out of the server's reach. *)
Theorem Apply_trust (cfg : Config) (c : RemoteCfg) (mode : bytes) :
  let cfg' := Apply cfg c mode in
  (mode = ModeOff -> cfg' = cfg)
  /\ (mode <> ModeFull -> reads cfg' = reads cfg)
  /\ owner_only cfg' = owner_only cfg
  /\ (exists p x r u, LogPaths cfg' = LogPaths cfg ++ p /\ LogExclude cfg' = LogExclude cfg ++ x
        /\ LogRedact cfg' = LogRedact cfg ++ r /\ ScrapeURLs cfg' = ScrapeURLs cfg ++ u)
  /\ (NginxStatusURL cfg <> [] -> NginxStatusURL cfg' = NginxStatusURL cfg).
Proof.
  cbv zeta. unfold Apply. case_bool_decide as Hoff.
  { split_and!; [done..| |done]. exists [], [], [], []. by rewrite !app_nil_r. }
  split_and!; [done| |done| |].
  - intros Hne. unfold reads, apply_on. cbn [LogPaths ScrapeURLs NginxStatusURL].
    rewrite !(bool_decide_false (mode = ModeFull)) by done. cbn [andb]. rewrite !app_nil_r. by destruct (field _ _).
  - unfold apply_on. cbn [LogPaths LogExclude LogRedact ScrapeURLs]. by eexists _, _, _, _.
  - intros Hn. unfold apply_on. cbn [NginxStatusURL]. rewrite (bool_decide_false (NginxStatusURL cfg = [])) by done.
    rewrite andb_false_r. by destruct (field _ _).
Qed.

(** a configuration that passes the checks of [remote.Validate] leaves a
    valid local configuration valid, whatever the mode: the agent cannot be
    stopped from starting, or given a non-positive interval, from the portal. *)
Theorem Apply_keeps_valid (re_ok : bytes -> bool) (cfg : Config) (c : RemoteCfg) (mode : bytes) :
  (Config.Validate cfg).2 = None -> Validate re_ok c = None -> (Config.Validate (Apply cfg c mode)).2 = None.
Proof.
  rewrite !Validate_ok. intros (H1 & H2 & H3 & H4) Hv. unfold Apply. case_bool_decide; [done|].
  unfold apply_on. cbn [DryRun Server Token RemoteConfig Interval Logs]. split_and!; [done| |done|].
  - unfold Validate in Hv. destruct (r_Interval c) as [s|]; [|done]. cbn [field].
    destruct (ParseDuration s) as [d|]; [|done]. destruct (_ || _) eqn:Hb; [done|]. bool_hyps. go_lia.
  - destruct (field (r_Logs c) l_Enabled) as [[]|]; [..|done]; rewrite !elem_of_cons; tauto.
Qed.

(** ** Polling *)
Lemma Load_Save (file : option bytes) (s : Stored) : stored_ok s = true -> st_Version s <> [] ->
  Load (Save true true file s).1 = Some {| st_Version := st_Version s; st_Config := norm (st_Config s) |}.
Proof.
  intros Hok Hv. unfold Save, Load. cbn [andb fst mbind option_bind]. rewrite Unmarshal_Marshal by (by apply plain_stored).
  cbn [mbind option_bind]. rewrite stored_back. cbn [mbind option_bind st_Version]. by destruct (st_Version s).
Qed.

Lemma Validate_norm (re_ok : bytes -> bool) (c : RemoteCfg) : Validate re_ok (norm c) = Validate re_ok c.
Proof. done. Qed.

(** What a new configuration comes from, and what is then on disk. *)
Lemma check_saved (re_ok : bytes -> bool) (f : Fetcher) (x : turn) (file file' : option bytes) (s : Stored) :
  check re_ok f x file = (file', Some s) ->
  stored_ok s = true /\ st_Version s <> [] /\ st_Version s <> f_Current f /\ Validate re_ok (st_Config s) = None
  /\ (exists body, t_resp x = Some (200, body) /\ Decode (take (Z.to_nat body_limit) body) ≫= stored_of_json = Some s)
  /\ Load file' = Some {| st_Version := st_Version s; st_Config := norm (st_Config s) |}.
Proof.
  unfold check. destruct (t_paused x); [done|]. destruct (t_resp x) as [[status body]|]; [|done].
  destruct (Z.eqb_spec status 200) as [->|]; [cbn [negb]|done].
  destruct (Decode (take (Z.to_nat body_limit) body)) as [j|] eqn:Hj; [|done]. cbn [mbind option_bind].
  destruct (stored_of_json j) as [s'|] eqn:Hs; [|done]. case_bool_decide; [done|]. case_bool_decide; [done|].
  destruct (Validate re_ok (st_Config s')) eqn:Hv; [done|]. unfold Save. destruct (t_write x), (t_rename x); try done. cbn [andb].
  intros [= <- <-]. assert (stored_ok s' = true) as Hok by (eapply stored_decoded; [by eapply Decode_strings|done]).
  split_and!; try done.
  - exists body. split; [done|]. rewrite Hj. done.
  - change (Some (Marshal (stored_json s'))) with (Save true true file s').1. by apply (Load_Save file).
Qed.

Lemma check_none (re_ok : bytes -> bool) (f : Fetcher) (x : turn) (file file' : option bytes) :
  check re_ok f x file = (file', None) -> file' = file.
Proof. unfold check, Save. repeat case_match; intros; simplify_eq; done. Qed.

(** An answer with the version in use changes nothing. *)
Lemma check_current (re_ok : bytes -> bool) (f : Fetcher) (x : turn) (file : option bytes) (body : bytes) (s : Stored) :
  t_resp x = Some (200, body) -> Decode (take (Z.to_nat body_limit) body) ≫= stored_of_json = Some s -> f_Current f = st_Version s ->
  check re_ok f x file = (file, None).
Proof.
  intros Hr Hd Hc. unfold check. destruct (t_paused x); [done|]. rewrite Hr, Hd, Hc. cbn [negb Z.eqb Pos.eqb].
  case_bool_decide; [done|]. by rewrite bool_decide_true.
Qed.

(** C9: a restart settles.  When a turn of the poller asks for a restart, the
    file then holds the new version, which loads, passes validation and is
    the version announced; the agent has run, or waits, for [MinUptime]; and
    the process that starts with that version does not restart again while
    the server gives the same answer, whatever the state of its session, its
    disk and its clock. *)
Theorem restart_settles (re_ok : bytes -> bool) (f : Fetcher) (x : turn) (file file' : option bytes) (w : duration) (v : bytes) :
  poll re_ok f x file = (file', RestartAfter w v) ->
  (exists s, Load file' = Some s /\ st_Version s = v /\ Validate re_ok (st_Config s) = None)
  /\ 0 <= w /\ f_MinUptime f <= w + time_sub (t_now x) (f_Started f)
  /\ (forall g y, f_Current g = v -> t_resp y = t_resp x -> poll re_ok g y file' = (file', Keep g)).
Proof.
  unfold poll at 1. destruct (check re_ok f x file) as [file1 [s|]] eqn:Hc; [|done].
  destruct (sameEffect _ _); [done|]. intros [= <- <- <-].
  apply check_saved in Hc as (_ & _ & _ & Hv & (body & Hr & Hd) & Hl). split_and!; [|lia..|].
  - eexists. split; [exact Hl|]. cbn [st_Version st_Config]. by rewrite Validate_norm.
  - intros g y Hg Hy. unfold poll. rewrite Hr in Hy. by rewrite (check_current re_ok g y file1 body s).
Qed.

Lemma cfg_ok_norm (c : RemoteCfg) : cfg_ok (norm c) = cfg_ok c.
Proof. by destruct c as [? [[]|] ? ? ?]. Qed.

Lemma sameEffect_norm (a b : RemoteCfg) : cfg_ok a = true -> cfg_ok b = true -> sameEffect a b = true -> norm a = norm b.
Proof.
  intros Ha Hb H. unfold sameEffect in H. apply bool_decide_eq_true in H.
  apply Marshal_inj in H; [|destruct depth_ok as [d ->]; by apply plain_config..].
  pose proof (config_back a) as H1. rewrite H, config_back in H1. congruence.
Qed.

Lemma Apply_norm (cfg : Config) (c : RemoteCfg) (mode : bytes) : DisabledCollectors cfg = [] -> Apply cfg (norm c) mode = Apply cfg c mode.
Proof.
  intros H. unfold Apply. case_bool_decide; [done|]. unfold apply_on, norm. cbn [r_Interval r_DisabledCollectors r_Logs r_Integrations r_Events].
  destruct (r_DisabledCollectors c) as [[|d l]|]; [|done..]. cbn [default from_option id]. by rewrite H.
Qed.

(** a version adopted without a restart changes nothing.  When a turn goes
    on with another version, that version is on disk and valid, and applying
    it to any local configuration gives exactly what applying the one in use
    gives; so the running process behaves as a restarted one would. *)
Theorem adopted_same_effect (re_ok : bytes -> bool) (f f' : Fetcher) (x : turn) (file file' : option bytes) :
  poll re_ok f x file = (file', Keep f') -> f_Current f' <> f_Current f -> cfg_ok (f_Applied f) = true ->
  exists s, Load file' = Some s /\ st_Version s = f_Current f' /\ Validate re_ok (st_Config s) = None
    /\ forall cfg mode, DisabledCollectors cfg = [] -> Apply cfg (st_Config s) mode = Apply cfg (f_Applied f) mode.
Proof.
  unfold poll. destruct (check re_ok f x file) as [file1 [s|]] eqn:Hc; [|by intros [= <- <-]].
  destruct (sameEffect _ _) eqn:Hs; [|done]. intros [= <- <-] _ Hok.
  apply check_saved in Hc as (Hsok & _ & _ & Hv & _ & Hl). eexists. split; [exact Hl|]. cbn [st_Version st_Config f_Current].
  split_and!; [done|by rewrite Validate_norm|]. intros cfg mode Hd.
  apply andb_true_iff in Hsok as [_ Hsok]. apply sameEffect_norm in Hs; [|done..]. rewrite Hs. by apply Apply_norm.
Qed.

(** C30: only valid configurations reach the disk.  After any number of turns,
    whatever the server answers, the file is the one the process started
    with, or one that loads and passes validation. *)
Theorem only_valid_saved (re_ok : bytes -> bool) (f : Fetcher) (xs : list turn) (file : option bytes) :
  let file' := (Run re_ok f xs file).1 in
  file' = file \/ exists s, Load file' = Some s /\ Validate re_ok (st_Config s) = None /\ stored_ok s = true.
Proof.
  cbv zeta. unfold Run. case_bool_decide; [by left|]. generalize {| f_Mode := f_Mode f; f_Current := f_Current f; f_Applied := f_Applied f;
    f_info := f_info f; f_Started := f_Started f; f_MinUptime := if f_MinUptime f <=? 0 then 2 * minute else f_MinUptime f |}.
  intros g. revert g file. induction xs as [|x xs IH]; intros g file; [by left|]. cbn [poll_all].
  destruct (check re_ok g x file) as [file1 r] eqn:Hc.
  assert (file1 = file \/ exists s, Load file1 = Some s /\ Validate re_ok (st_Config s) = None /\ stored_ok s = true) as H1.
  { destruct r as [s|]; [right|left; by eapply check_none]. apply check_saved in Hc as (Hok & _ & _ & Hv & _ & Hl).
    eexists. split; [exact Hl|]. split; [exact Hv|]. unfold stored_ok in *. cbn [st_Version st_Config]. by rewrite cfg_ok_norm. }
  unfold poll. rewrite Hc. destruct r as [s|].
  - destruct (sameEffect _ _); [|exact H1].
    match goal with |- context [poll_all _ ?g' xs file1] => destruct (IH g' file1) as [->|H2] end; [exact H1|by right].
  - destruct (IH g file1) as [->|H2]; [exact H1|by right].
Qed.

(** ** Sample runs *)
Definition local_sample : Config :=
  match Config.Load (fun n => if bool_decide (n = B "YOMINS_LOG_PATHS") then Some (B "/srv/own.log") else None)
          (map B ["--server=https://in.example/"; "--token=t"; "--log-allow=/srv/**"]) with
  | inr c => c
  | inl _ => flag_config (new_flags flag_defs)
  end.

Definition remote_sample : RemoteCfg := {|
  r_Interval := Some (B "30s"); r_DisabledCollectors := Some [];
  r_Logs := Some {| l_Enabled := Some true; l_Paths := [B "/etc/*.log"]; l_Exclude := []; l_Redact := [B "secret-[0-9]+"] |};
  r_Integrations := None; r_Events := None |}.

Example apply_runs :
  map (fun m => let c := Apply local_sample remote_sample m in (Interval c, S (Logs c), map S (LogPaths c))) [ModeFull; ModeLimited; ModeOff]
  = [(30 * second, "auto", ["/srv/own.log"; "/etc/*.log"]); (30 * second, "auto", ["/srv/own.log"]); (60 * second, "off", ["/srv/own.log"])]%string.
Proof. vm_compute. reflexivity. Qed.

Definition any_re (s : bytes) : bool := true.
Definition fetcher_sample (v : string) (c : RemoteCfg) : Fetcher := {|
  f_Mode := ModeFull; f_Current := B v; f_Applied := c; f_info := Some (B v); f_Started := 1000 * second; f_MinUptime := 2 * minute |}.
Definition stored_sample : Stored := {| st_Version := B "v2"; st_Config := remote_sample |}.
Definition turn_sample : turn := {|
  t_paused := false; t_resp := Some (200, Marshal (stored_json stored_sample)); t_write := true; t_rename := true; t_now := 1030 * second |}.
Definition saved_sample : option bytes := Some (Marshal (stored_json stored_sample)).

Lemma Apply_keeps_valid_witness :
  (Config.Validate local_sample).2 = None /\ Validate any_re remote_sample = None
  /\ (Config.Validate (Apply local_sample remote_sample ModeFull)).2 = None.
Proof.
  split_and!; [vm_compute; reflexivity|vm_compute; reflexivity|].
  apply (Apply_keeps_valid any_re local_sample remote_sample ModeFull); vm_compute; reflexivity.
Defined.

Lemma restart_settles_witness :
  poll any_re (fetcher_sample "v1" no_remote) turn_sample None = (saved_sample, RestartAfter (90 * second) (B "v2"))
  /\ poll any_re (fetcher_sample "v2" no_remote) turn_sample saved_sample = (saved_sample, Keep (fetcher_sample "v2" no_remote)).
Proof.
  assert (poll any_re (fetcher_sample "v1" no_remote) turn_sample None = (saved_sample, RestartAfter (90 * second) (B "v2"))) as H
    by (vm_compute; reflexivity).
  split; [exact H|].
  destruct (restart_settles any_re (fetcher_sample "v1" no_remote) turn_sample None saved_sample (90 * second) (B "v2") H) as (_ & _ & _ & Hs).
  apply Hs; reflexivity.
Defined.

Lemma adopted_same_effect_witness :
  exists f', poll any_re (fetcher_sample "v1" remote_sample) turn_sample None = (saved_sample, Keep f') /\ f_Current f' = B "v2"
  /\ exists s, Load saved_sample = Some s
       /\ Apply local_sample (st_Config s) ModeFull = Apply local_sample remote_sample ModeFull.
Proof.
  eexists {| f_Mode := ModeFull; f_Current := B "v2"; f_Applied := remote_sample; f_info := Some (B "v2"); f_Started := 1000 * second; f_MinUptime := 2 * minute |}.
  match goal with |- ?P = _ /\ _ => assert (P = (saved_sample, Keep {| f_Mode := ModeFull; f_Current := B "v2"; f_Applied := remote_sample;
    f_info := Some (B "v2"); f_Started := 1000 * second; f_MinUptime := 2 * minute |})) as H by (vm_compute; reflexivity) end.
  split; [exact H|]. split; [reflexivity|].
  destruct (adopted_same_effect any_re (fetcher_sample "v1" remote_sample) _ turn_sample None saved_sample H) as (s & Hl & _ & _ & Ha);
    [discriminate|vm_compute; reflexivity|].
  exists s. split; [exact Hl|]. apply Ha. vm_compute. reflexivity.
Defined.
