(* ===== verification/HostFs.v ===== *)
(** * Metrics read from [/proc] and [/sys]

    [internal/collector/hostfs.go], [diskio.go], [pressure.go], [kernel.go],
    [netstat.go] and [mounts.go].  The file system is a function from a path to
    the content of a file, and the order in which a Go map is visited is a
    parameter. *)
From S2P Require Import Prelude GoFloat GoStrings GoText GoNum GoFloatText Metrics Procfs LogAllow NetworkEvents.
Local Open Scope Z_scope.

(** ** [hostfs.go] *)
Record HostPaths := { Proc : bytes; Sys : bytes; Root : bytes }.

(** [filepath.Join]: from the first element that is not empty. *)
Fixpoint path_join (l : list bytes) : bytes :=
  match l with
  | [] => []
  | [] :: t => path_join t
  | _ => Clean (Join l sep)
  end.

Definition DefaultHostPaths (env : bytes -> bytes) : HostPaths :=
  let or_default k def := match env (B k) with [] => B def | v => v end in
  {| Proc := or_default "HOST_PROC" "/proc"; Sys := or_default "HOST_SYS" "/sys"; Root := or_default "HOST_ROOT" "/" |}.

Definition proc (h : HostPaths) (p : list bytes) : bytes := path_join (Proc h :: p).
Definition sys (h : HostPaths) (p : list bytes) : bytes := path_join (Sys h :: p).
Definition root (h : HostPaths) (p : list bytes) : bytes := path_join (Root h :: p).

(** The scanner of [readLines] has a buffer of 1 MiB. *)
Definition line_limit : Z := 2 ^ 20.
Fixpoint scan_lines (segs : list bytes) : option (list bytes) :=
  match segs with
  | [] => Some []
  | seg :: rest =>
      if line_limit <=? len seg then None
      else match seg, rest with
           | [], [] => Some []
           | _, _ => ls ← scan_lines rest; Some (drop_cr seg :: ls)
           end
  end.

Definition readLines (read : bytes -> option bytes) (path : bytes) : option (list bytes) :=
  data ← read path; scan_lines (Split data newline).

Definition readUint (read : bytes -> option bytes) (path : bytes) : option Z :=
  b ← read path;
  match ParseUint (TrimSpace b) 10 64 with (v, None) => Some v | _ => None end.

Definition gauge (name help : string) (v : float64) (labels : gmap string string) : MetricPoint := point name help Gauge v labels.
Definition counter (name help : string) (v : float64) (labels : gmap string string) : MetricPoint := point name help Counter v labels.

(** [v, _ := strconv.ParseFloat(f[i], 64)]: the value without the error. *)
Definition number_at (f : list bytes) (i : nat) : float64 := (ParseFloat (nth i f [])).1.

(** A table from a name to a metric and its help text. *)
Definition metric_table := list (bytes * (string * string)).
Definition in_table (t : metric_table) (k : bytes) : option (string * string) := snd <$> List.find (fun e => bool_decide (e.1 = k)) t.

(** ** [diskio.go] *)
Definition sectorBytes : Z := 512.

Definition skipped_devices : list bytes := map B ["loop"; "ram"; "zram"; "sr"; "fd"].
(** [exists_] tells whether [os.Stat] succeeds. *)
Definition wanted (h : HostPaths) (exists_ : bytes -> bool) (dev : bytes) : bool :=
  negb (existsb (HasPrefix dev) skipped_devices) && exists_ (sys h [B "block"; dev]).

Definition diskio_line (h : HostPaths) (exists_ : bytes -> bool) (line : bytes) : list MetricPoint :=
  let f := Fields line in
  if (length f <? 14)%nat then []
  else
    let dev := nth 2 f [] in
    if negb (wanted h exists_ dev) then []
    else
      let n := number_at f in
      let l := {["device"%string := S dev]} in
      let ms x := f64_div x (f64_of_Z 1000) in
      let sectors x := f64_mul x (f64_of_Z sectorBytes) in
      [ counter "disk_reads_completed_total" "Reads completed" (n 3%nat) l;
        counter "disk_writes_completed_total" "Writes completed" (n 7%nat) l;
        counter "disk_read_bytes_total" "Bytes read" (sectors (n 5%nat)) l;
        counter "disk_written_bytes_total" "Bytes written" (sectors (n 9%nat)) l;
        counter "disk_read_time_seconds_total" "Time spent on reads (sum over requests)" (ms (n 6%nat)) l;
        counter "disk_write_time_seconds_total" "Time spent on writes (sum over requests)" (ms (n 10%nat)) l;
        counter "disk_io_time_seconds_total" "Time the device was busy; its rate is the utilisation" (ms (n 12%nat)) l;
        counter "disk_io_time_weighted_seconds_total" "Busy time weighted by queue depth" (ms (n 13%nat)) l;
        gauge "disk_io_now" "I/Os in progress" (n 11%nat) l ].

(** [None]: the file cannot be read. *)
Definition diskio_Collect (h : HostPaths) (exists_ : bytes -> bool) (read : bytes -> option bytes) : option (list MetricPoint) :=
  lines ← readLines read (proc h [B "diskstats"]);
  Some (concat (map (diskio_line h exists_) lines)).

(** ** [pressure.go] *)
Definition pressure_value (l : gmap string string) (kv : bytes) : list MetricPoint :=
  let '(k, v) := match Cut kv "="%char with Some p => p | None => (kv, []) end in
  match ParseFloat v with
  | (f, true) =>
      if bool_decide (k = B "total") then
        [counter "pressure_stalled_seconds_total" "Time tasks were stalled on the resource (some: at least one task, full: all)" (f64_div f (f64_of_Z 1000000)) l]
      else if bool_decide (k = B "avg60") then
        [gauge "pressure_stalled_percent" "Share of the last minute tasks were stalled, 0–100" f l]
      else []
  | _ => []
  end.

Definition pressure_line (res line : bytes) : list MetricPoint :=
  match Cut line " "%char with
  | Some (kind, rest) =>
      if bool_decide (kind = B "some") || bool_decide (kind = B "full") then
        concat (map (pressure_value (list_to_map [("resource"%string, S res); ("kind"%string, S kind)])) (Fields rest))
      else []
  | None => []
  end.

Definition pressure_Collect (h : HostPaths) (read : bytes -> option bytes) : list MetricPoint :=
  concat (map (fun res => match readLines read (proc h [B "pressure"; res]) with
                          | Some lines => concat (map (pressure_line res) lines)
                          | None => []
                          end) (map B ["cpu"; "memory"; "io"])).

(** ** [mounts.go] *)
Definition realFS : list bytes := map B ["ext2"; "ext3"; "ext4"; "xfs"; "btrfs"; "zfs"; "f2fs"; "reiserfs"; "jfs"].

(** [is_file]: the path exists and is not a directory. *)
Definition mount_step (h : HostPaths) (is_file : bytes -> bool) (st : list MetricPoint * gset bytes) (line : bytes) : list MetricPoint * gset bytes :=
  let '(pts, seen) := st in
  let f := Fields line in
  let mp := nth 1 f [] in
  if (length f <? 4)%nat || negb (bool_decide (nth 2 f [] ∈ realFS)) || bool_decide (mp ∈ seen) then st
  else if is_file (root h [mp]) then st
  else
    let ro := if existsb (fun o => bool_decide (o = B "ro")) (Split (nth 3 f []) ","%char) then f64_one else f64_zero in
    (pts ++ [gauge "filesystem_readonly" "1 when the filesystem is mounted read-only" ro
               (list_to_map [("mountpoint"%string, S mp); ("device"%string, S (nth 0 f [])); ("fstype"%string, S (nth 2 f []))])],
     {[mp]} ∪ seen).

Definition mounts_Collect (h : HostPaths) (is_file : bytes -> bool) (read : bytes -> option bytes) : option (list MetricPoint) :=
  lines ← readLines read (proc h [B "1"; B "mounts"]);
  Some (foldl (mount_step h is_file) ([], ∅) lines).1.

(** ** [kernel.go] *)
Definition meminfoFields : metric_table :=
  [ (B "Cached", ("memory_cached_bytes", "Page cache"));
    (B "Buffers", ("memory_buffers_bytes", "Block device buffers"));
    (B "Dirty", ("memory_dirty_bytes", "Memory waiting to be written to disk"));
    (B "Writeback", ("memory_writeback_bytes", "Memory being written to disk"));
    (B "Shmem", ("memory_shared_bytes", "Shared memory (tmpfs included)"));
    (B "SReclaimable", ("memory_slab_reclaimable_bytes", "Kernel slab that can be reclaimed"));
    (B "SUnreclaim", ("memory_slab_unreclaimable_bytes", "Kernel slab that cannot be reclaimed"));
    (B "Committed_AS", ("memory_committed_bytes", "Memory promised to processes"));
    (B "CommitLimit", ("memory_commit_limit_bytes", "Commit limit")) ]%string.

Definition vmstatFields : metric_table :=
  [ (B "pgmajfault", ("memory_major_page_faults_total", "Page faults that had to read from disk"));
    (B "pswpin", ("memory_swap_in_pages_total", "Pages swapped in"));
    (B "pswpout", ("memory_swap_out_pages_total", "Pages swapped out"));
    (B "oom_kill", ("memory_oom_kills_total", "Processes killed by the OOM killer")) ]%string.

Definition meminfo_line (line : bytes) : list MetricPoint :=
  match Cut line ":"%char with
  | Some (k, rest) =>
      match in_table meminfoFields k, Fields rest with
      | Some (name, help), f0 :: f =>
          let v := (ParseFloat f0).1 in
          let v := match f with f1 :: _ => if bool_decide (f1 = B "kB") then f64_mul v (f64_of_Z 1024) else v | [] => v end in
          [gauge name help v ∅]
      | _, _ => []
      end
  | None => []
  end.

Definition vmstat_line (line : bytes) : list MetricPoint :=
  match Fields line with
  | [k; v] => match in_table vmstatFields k with
              | Some (name, help) => [counter name help (ParseFloat v).1 ∅]
              | None => []
              end
  | _ => []
  end.

Definition proc_stat_line (line : bytes) : list MetricPoint :=
  match Fields line with
  | k :: v :: _ =>
      let x := (ParseFloat v).1 in
      if bool_decide (k = B "ctxt") then [counter "system_context_switches_total" "Context switches" x ∅]
      else if bool_decide (k = B "intr") then [counter "system_interrupts_total" "Interrupts" x ∅]
      else if bool_decide (k = B "processes") then [counter "system_forks_total" "Processes and threads created" x ∅]
      else []
  | _ => []
  end.

Definition state_name (state : Z) : string :=
  if state =? 82 then "running" else if (state =? 83) || (state =? 73) then "sleeping"
  else if state =? 68 then "blocked" else if state =? 90 then "zombie" else "other".

Definition no_states (names : list string) : gmap string float64 := list_to_map (map (fun n => (n, f64_zero)) names).
Definition count_state (m : gmap string float64) (st : string) : gmap string float64 :=
  <[st := f64_add (default f64_zero (m !! st)) f64_one]> m.
Definition process_states : list string := ["running"; "sleeping"; "blocked"; "zombie"; "other"].

Section Kernel.
Context (visit : gmap string float64 -> list (string * float64)).

(** [states] is the list of processes, or nothing when it cannot be read. *)
Definition state_points (name help : string) (m : gmap string float64) : list MetricPoint :=
  map (fun '(st, n) => gauge name help n {["state"%string := st]}) (visit m).

Definition kernel_Collect (h : HostPaths) (read : bytes -> option bytes) (procs : option (list Sample)) : list MetricPoint :=
  let lines p := default [] (readLines read (proc h p)) in
  concat (map meminfo_line (lines [B "meminfo"]))
  ++ concat (map vmstat_line (lines [B "vmstat"]))
  ++ concat (map proc_stat_line (lines [B "stat"]))
  ++ (match procs with
      | Some l => state_points "system_processes" "Processes by state (blocked: waiting on I/O, uninterruptible)"
                    (foldl (fun m p => count_state m (state_name (sm_State p))) (no_states process_states) l)
      | None => []
      end)
  ++ (match Fields (hd [] (lines [B "sys"; B "fs"; B "file-nr"])) with
      | [a; b; c] => [gauge "system_open_files" "File handles allocated" (ParseFloat a).1 ∅;
                      gauge "system_open_files_limit" "File handle limit (fs.file-max)" (ParseFloat c).1 ∅]
      | _ => []
      end)
  ++ (match readUint read (proc h (map B ["sys"; "net"; "netfilter"; "nf_conntrack_count"]%string)) with
      | Some n => gauge "network_conntrack_entries" "Tracked connections" (f64_of_Z n) ∅
                  :: match readUint read (proc h (map B ["sys"; "net"; "netfilter"; "nf_conntrack_max"]%string)) with
                     | Some m => [gauge "network_conntrack_limit" "Connection tracking table size" (f64_of_Z m) ∅]
                     | None => []
                     end
      | None => []
      end).
End Kernel.

(** ** [netstat.go] *)
Definition netCounters : metric_table :=
  [ (B "Tcp:ActiveOpens", ("tcp_active_opens_total", "Outgoing TCP connections opened"));
    (B "Tcp:PassiveOpens", ("tcp_passive_opens_total", "Incoming TCP connections accepted"));
    (B "Tcp:AttemptFails", ("tcp_attempt_fails_total", "TCP connection attempts that failed"));
    (B "Tcp:EstabResets", ("tcp_established_resets_total", "Established TCP connections reset"));
    (B "Tcp:RetransSegs", ("tcp_retransmitted_segments_total", "TCP segments retransmitted"));
    (B "Tcp:OutSegs", ("tcp_out_segments_total", "TCP segments sent"));
    (B "Tcp:InErrs", ("tcp_in_errors_total", "TCP segments received in error"));
    (B "Tcp:OutRsts", ("tcp_out_resets_total", "TCP resets sent"));
    (B "Udp:InErrors", ("udp_in_errors_total", "UDP datagrams received in error"));
    (B "Udp:RcvbufErrors", ("udp_receive_buffer_errors_total", "UDP datagrams dropped: receive buffer full"));
    (B "Udp:SndbufErrors", ("udp_send_buffer_errors_total", "UDP datagrams dropped: send buffer full"));
    (B "Udp:NoPorts", ("udp_no_ports_total", "UDP datagrams to a port nobody listens on"));
    (B "TcpExt:ListenOverflows", ("tcp_listen_overflows_total", "Connections dropped: the accept queue was full"));
    (B "TcpExt:ListenDrops", ("tcp_listen_drops_total", "Connections dropped while listening"));
    (B "TcpExt:TCPTimeouts", ("tcp_timeouts_total", "TCP retransmission timeouts"));
    (B "TcpExt:TCPSynRetrans", ("tcp_syn_retransmits_total", "SYN retransmits"));
    (B "TcpExt:SyncookiesSent", ("tcp_syncookies_sent_total", "SYN cookies sent (SYN flood or full backlog)"));
    (B "TcpExt:TCPAbortOnMemory", ("tcp_abort_on_memory_total", "Connections aborted: out of socket memory")) ]%string.

Definition tcpStates : list (bytes * string) :=
  [ (B "01", "established"); (B "02", "syn_sent"); (B "03", "syn_recv"); (B "04", "fin_wait1"); (B "05", "fin_wait2");
    (B "06", "time_wait"); (B "07", "close"); (B "08", "close_wait"); (B "09", "last_ack"); (B "0A", "listen"); (B "0B", "closing") ]%string.
Definition tcp_state (code : bytes) : option string := snd <$> List.find (fun e => bool_decide (e.1 = code)) tcpStates.

(** One column: the loop over [j]. *)
Definition column (proto name value : bytes) : list MetricPoint :=
  match in_table netCounters (proto ++ ":"%char :: name), ParseFloat value with
  | Some (m, help), (v, true) => [counter m help v ∅]
  | _, _ => []
  end.

(** A pair of lines: the names and the values of a protocol. *)
Definition pair_points (names_line values_line : bytes) : list MetricPoint :=
  match Fields names_line, Fields values_line with
  | p :: names, q :: values =>
      if (length names =? length values)%nat && negb (bool_decide (names = [])) && bool_decide (p = q)
      then concat (zip_with (column (TrimSuffix p (B ":"))) names values)
      else []
  | _, _ => []
  end.

Fixpoint pairs_points (lines : list bytes) : list MetricPoint :=
  match lines with
  | names :: values :: t => pair_points names values ++ pairs_points t
  | _ => []
  end.

Definition socket_state (line : bytes) : option string := Fields line !! 3%nat ≫= tcp_state.
Definition count_sockets (m : gmap string float64) (lines : list bytes) : gmap string float64 :=
  foldl count_state m (omap socket_state (drop 1 lines)).

Section Netstat.
Context (visit : gmap string float64 -> list (string * float64)).

Definition netstat_Collect (h : HostPaths) (read : bytes -> option bytes) : option (list MetricPoint) :=
  let file f := readLines read (proc h [B "net"; B f]) in
  match file "snmp", file "netstat" with
  | None, None => None
  | snmp, netstat =>
      let counted f m := match file f with Some lines => count_sockets m lines | None => m end in
      Some (pairs_points (default [] snmp) ++ pairs_points (default [] netstat)
            ++ state_points visit "tcp_connections" "TCP sockets by state" (counted "tcp6" (counted "tcp" (no_states (map snd tcpStates)))))
  end.
End Netstat.

(** ** What the kernel writes is what is reported *)

(** A text of lines, each ended by a newline. *)
Definition text_of (ls : list bytes) : bytes := concat (map (fun l => l ++ [newline]) ls).
Definition line_ok (l : bytes) : Prop := newline ∉ l /\ "013"%char ∉ l /\ len l < line_limit.

Lemma Split_line (l t : bytes) : newline ∉ l -> Split (l ++ newline :: t) newline = l :: Split t newline.
Proof.
  induction l as [|c l IH]; intros H; cbn [app Split].
  - by rewrite bool_decide_true.
  - rewrite not_elem_of_cons in H. rewrite bool_decide_false by naive_solver. rewrite IH by naive_solver. done.
Qed.

Lemma drop_cr_none (l : bytes) : "013"%char ∉ l -> drop_cr l = l.
Proof.
  intros H. unfold drop_cr, CutSuffix. destruct (HasSuffix l ["013"%char]) eqn:E; [|done].
  unfold HasSuffix in E. apply HasPrefix_spec in E as [t Ht]. exfalso. apply H. apply (f_equal reverse) in Ht.
  rewrite reverse_involutive, reverse_app in Ht. rewrite Ht. apply elem_of_app. right. rewrite elem_of_reverse; by left.
Qed.

Lemma scan_lines_text (ls : list bytes) : Forall line_ok ls -> scan_lines (Split (text_of ls) newline) = Some ls.
Proof.
  induction 1 as [|l ls (Hn & Hr & Hl) _ IH]; [done|]. cbn [text_of map concat]. rewrite <-app_assoc. cbn [app].
  rewrite Split_line by done. cbn [scan_lines]. destruct (Z.leb_spec line_limit (len l)); [lia|].
  change (concat (map (fun l => l ++ [newline]) ls)) with (text_of ls). destruct (Split (text_of ls) newline) eqn:E; [by destruct (Split_nonempty _ _ E)|].
  rewrite IH. cbn. rewrite drop_cr_none by done. by destruct l.
Qed.

Lemma readLines_text (read : bytes -> option bytes) (path : bytes) (ls : list bytes) :
  Forall line_ok ls -> read path = Some (text_of ls) -> readLines read path = Some ls.
Proof. intros Hl Hr. unfold readLines. rewrite Hr. by apply scan_lines_text. Qed.

Lemma words_no (c : ascii) (n : nat) (ws : list bytes) : is_space (byteval c) = true -> c <> space -> Forall word ws ->
  c ∉ replicate n space ++ Join ws space.
Proof.
  intros Hc Hne Hw. rewrite not_elem_of_app. split; [intros [-> _]%elem_of_replicate; done|].
  apply Join_no; [done|]. eapply Forall_impl; [exact Hw|]. intros w [Hp _] Hin. rewrite Forall_forall in Hp.
  destruct (Hp c Hin) as [_ Hs]. congruence.
Qed.

Lemma words_line_ok (n : nat) (ws : list bytes) : Forall word ws -> len (replicate n space ++ Join ws space) < line_limit ->
  line_ok (replicate n space ++ Join ws space).
Proof. intros Hw Hl. split_and!; [by apply words_no..|done]. Qed.

(** A block of [/proc/net/snmp]: a protocol and its columns, as two lines. *)
Record block := { b_proto : bytes; b_columns : list (bytes * Z) }.
Definition names_line (b : block) : bytes := Join ((b_proto b ++ B ":") :: map fst (b_columns b)) space.
Definition values_line (b : block) : bytes := Join ((b_proto b ++ B ":") :: map (fun c => FormatUint c.2) (b_columns b)) space.
Definition block_lines (b : block) : list bytes := [names_line b; values_line b].
Definition block_ok (b : block) : Prop :=
  Forall plain_byte (b_proto b) /\ Forall (fun c => word c.1 /\ 0 <= c.2 < 2 ^ 64) (b_columns b) /\ b_columns b <> []
  /\ len (names_line b) < line_limit /\ len (values_line b) < line_limit.

(** The counters a block stands for. *)
Definition block_points (b : block) : list MetricPoint :=
  concat (map (fun c => match in_table netCounters (b_proto b ++ ":"%char :: c.1) with
                        | Some (m, help) => [counter m help (f64_of_Z c.2) ∅]
                        | None => []
                        end) (b_columns b)).

Lemma names_words (b : block) : block_ok b -> Forall word ((b_proto b ++ B ":") :: map fst (b_columns b))
  /\ Forall word ((b_proto b ++ B ":") :: map (fun c => FormatUint c.2) (b_columns b)).
Proof.
  intros (Hp & Hc & _). assert (Hw : word (b_proto b ++ B ":")).
  { split; [|by destruct (b_proto b)]. apply Forall_app. split; [done|]. constructor; [done|constructor]. }
  split; (apply Forall_cons_2; [done|]); apply Forall_map; (eapply Forall_impl; [exact Hc|]); intros c [Hx Hy]; cbn; [done|apply FormatUint_word].
Qed.

Lemma TrimSuffix_app (l s : bytes) : TrimSuffix (l ++ s) s = l.
Proof.
  unfold TrimSuffix, CutSuffix, HasSuffix. rewrite reverse_app, HasPrefix_app, length_app.
  replace (length l + length s - length s)%nat with (length l) by lia. cbn. by rewrite take_app_length.
Qed.

Lemma pair_points_block (b : block) : block_ok b -> pair_points (names_line b) (values_line b) = block_points b.
Proof.
  intros Hb. destruct (names_words b Hb) as [H1 H2]. destruct Hb as (Hp & Hc & Hne & _).
  unfold pair_points, names_line, values_line. rewrite !Fields_Join by done. rewrite !length_map, Nat.eqb_refl.
  rewrite (bool_decide_false (map fst (b_columns b) = [])) by (by destruct (b_columns b)). rewrite bool_decide_true by done. cbn [andb negb].
  rewrite TrimSuffix_app. unfold block_points. f_equal. clear H1 H2 Hne.
  induction Hc as [|[k v] cs [Hk Hv] _ IH]; [done|]. cbn [map zip_with fst snd]. rewrite IH. f_equal.
  unfold column. rewrite ParseFloat_FormatUint by done. by destruct (in_table _ _) as [[]|].
Qed.

Lemma pairs_points_blocks (bs : list block) : Forall block_ok bs -> pairs_points (concat (map block_lines bs)) = concat (map block_points bs).
Proof. induction 1 as [|b bs Hb _ IH]; [done|]. cbn [map concat block_lines app pairs_points]. by rewrite pair_points_block, IH. Qed.

Lemma block_lines_ok (bs : list block) : Forall block_ok bs -> Forall line_ok (concat (map block_lines bs)).
Proof.
  induction 1 as [|b bs Hb _ IH]; [constructor|]. destruct (names_words b Hb) as [H1 H2]. destruct Hb as (_ & _ & _ & Hl1 & Hl2).
  cbn [map concat block_lines app]. constructor; [|constructor; [|done]].
  - exact (words_line_ok 0 _ H1 Hl1).
  - exact (words_line_ok 0 _ H2 Hl2).
Qed.

(** ** Counting by state *)
Lemma count_state_lookup (l : list string) (m : gmap string float64) (st : string) (k : nat) : m !! st = Some (f64_count k) ->
  foldl count_state m l !! st = Some (f64_count (k + countb (fun s => bool_decide (s = st)) l)).
Proof.
  revert m k. induction l as [|s l IH]; intros m k Hm; cbn [foldl]; [by rewrite Nat.add_0_r|].
  unfold countb. cbn [List.filter]. destruct (decide (s = st)) as [->|Hne].
  - rewrite bool_decide_true by done. cbn [length]. rewrite Nat.add_succ_r, <-Nat.add_succ_l. apply IH.
    unfold count_state. rewrite lookup_insert_eq, Hm. done.
  - rewrite bool_decide_false by done. apply IH. unfold count_state. by rewrite lookup_insert_ne.
Qed.

Lemma count_state_other (l : list string) (m : gmap string float64) (st : string) : st ∉ l -> foldl count_state m l !! st = m !! st.
Proof.
  revert m. induction l as [|s l IH]; intros m Hs; cbn [foldl]; [done|]. rewrite not_elem_of_cons in Hs.
  rewrite IH by tauto. unfold count_state. rewrite lookup_insert_ne; naive_solver.
Qed.

(** Every state is reported, with the number of its occurrences. *)
Lemma state_points_counts (visit : gmap string float64 -> list (string * float64)) (names l : list string) (name help : string) :
  (forall m, visit m ≡ₚ map_to_list m) -> NoDup names -> Forall (fun s => s ∈ names) l ->
  state_points visit name help (foldl count_state (no_states names) l)
  ≡ₚ map (fun st => gauge name help (f64_count (countb (fun s => bool_decide (s = st)) l)) {["state"%string := st]}) names.
Proof.
  intros Hv Hn Hl. unfold state_points. rewrite Hv.
  set (counts := map (fun st => (st, f64_count (countb (fun s => bool_decide (s = st)) l))) names).
  assert (Hfst : counts.*1 = names). { subst counts. change (fmap fst) with (map (@fst string float64)). rewrite map_map. apply map_id. }
  assert (Hzero : (map (fun n => (n, f64_zero)) names).*1 = names). { change (fmap fst) with (map (@fst string float64)). rewrite map_map. apply map_id. }
  assert (Hmap : foldl count_state (no_states names) l = list_to_map counts).
  { apply map_eq. intros st. destruct (decide (st ∈ names)) as [Hin|Hout].
    - transitivity (Some (f64_count (countb (fun s => bool_decide (s = st)) l))); [|symmetry].
      + apply (count_state_lookup l _ st 0). apply elem_of_list_to_map_1; [by rewrite Hzero|].
        apply list_elem_of_fmap. by exists st.
      + apply elem_of_list_to_map_1; [by rewrite Hfst|]. apply list_elem_of_fmap. by exists st.
    - rewrite count_state_other by (intros Hi; rewrite Forall_forall in Hl; naive_solver).
      transitivity (@None float64); [|symmetry]; apply not_elem_of_list_to_map_1; by rewrite ?Hfst, ?Hzero. }
  rewrite Hmap, map_to_list_to_map by by rewrite Hfst. subst counts. by rewrite map_map.
Qed.

(** The table of sockets: a heading and a padded line per socket. *)
Definition socket_lines (header : bytes) (indent : nat) (g : nat -> nat) (socks : list socket) : list bytes :=
  header :: map (kernel_line indent g) socks.
Definition socket_file_ok (v6 : bool) (header : bytes) (indent : nat) (g : nat -> nat) (socks : list socket) : Prop :=
  line_ok header /\ Forall (fun s => socket_ok v6 s /\ len (kernel_line indent g s) < line_limit) socks.
Definition state_of (s : socket) : option string := tcp_state (hex_upper [byte_of_Z (s_state s)]).

Lemma layout_no (c : ascii) (g : nat -> nat) (ws : list bytes) : is_space (byteval c) = true -> c <> space -> Forall word ws -> c ∉ layout g ws.
Proof.
  intros Hc Hne Hw. assert (Hsp : forall n, c ∉ replicate n space) by (intros n [-> _]%elem_of_replicate; done).
  revert g. induction Hw as [|w ws [Hp _] _ IH]; intros g; [apply Hsp|].
  assert (c ∉ w) by (intros Hin; rewrite Forall_forall in Hp; destruct (Hp c Hin); congruence).
  cbn [layout]. destruct ws; rewrite ?not_elem_of_app, ?not_elem_of_cons, ?not_elem_of_app; auto.
Qed.

Lemma kernel_line_ok (v6 : bool) (indent : nat) (g : nat -> nat) (s : socket) :
  socket_ok v6 s -> len (kernel_line indent g s) < line_limit -> line_ok (kernel_line indent g s).
Proof.
  intros Hok Hl. pose proof (kernel_words v6 s Hok) as Hw. unfold kernel_line in *.
  split_and!; [| |done]; rewrite not_elem_of_app; (split; [by intros [? _]%elem_of_replicate|by apply layout_no]).
Qed.

Lemma socket_lines_ok (v6 : bool) (header : bytes) (indent : nat) (g : nat -> nat) (socks : list socket) : socket_file_ok v6 header indent g socks ->
  Forall line_ok (socket_lines header indent g socks) /\ omap socket_state (drop 1 (socket_lines header indent g socks)) = omap state_of socks.
Proof.
  intros [Hh Hs]. split.
  - constructor; [done|]. apply Forall_map. eapply Forall_impl; [exact Hs|]. intros s [Hok Hl]. by eapply kernel_line_ok.
  - change (drop 1 (socket_lines header indent g socks)) with (map (kernel_line indent g) socks). induction Hs as [|s l [Hok _] _ IH]; [done|].
    assert (Hst : socket_state (kernel_line indent g s) = state_of s).
    { unfold socket_state. rewrite (Fields_kernel_line v6) by done. unfold kernel_fields. rewrite hex_pad_state by apply Hok. done. }
    cbn. rewrite Hst. change (omap socket_state (map (kernel_line indent g) l) = omap state_of l) in IH. cbn in IH. by rewrite IH.
Qed.

Lemma state_names_known (socks : list socket) : Forall (fun st => st ∈ map snd tcpStates) (omap state_of socks).
Proof.
  apply Forall_forall. intros st (s & _ & Hs)%list_elem_of_omap. unfold state_of, tcp_state in Hs.
  apply fmap_Some in Hs as ([c n] & Hf & ->). apply find_some in Hf as [Hin _]. apply list_elem_of_fmap. exists (c, n). split; [done|by apply list_elem_of_In].
Qed.

(** Sockets in a state, over both tables. *)
Definition in_state (st : string) (s : socket) : bool := bool_decide (state_of s = Some st).
Lemma countb_omap (st : string) (socks : list socket) :
  countb (fun x => bool_decide (x = st)) (omap state_of socks) = countb (in_state st) socks.
Proof.
  induction socks as [|s l IH]; [done|]. unfold countb in *. cbn [omap list_omap List.filter]. unfold in_state at 1.
  destruct (state_of s) as [x|]; [|by rewrite bool_decide_false]. cbn [List.filter]. destruct (decide (x = st)) as [->|Hne].
  - rewrite !bool_decide_true by done. cbn. by rewrite IH.
  - rewrite !bool_decide_false by congruence. exact IH.
Qed.

(** the TCP and UDP metrics are the kernel's.  When [/proc/net/snmp] and
    [/proc/net/netstat] hold blocks of columns as the kernel writes them, in
    whatever order, and the socket tables the sockets, the collector reports
    exactly the counters it knows, each with the value of its column, and for
    each of the eleven states the number of sockets in it, zero included. *)
Theorem netstat_kernel (visit : gmap string float64 -> list (string * float64)) (h : HostPaths) (read : bytes -> option bytes)
    (snmp ext : list block) (header : bytes) (indent : nat) (g : nat -> nat) (socks4 socks6 : list socket) :
  (forall m, visit m ≡ₚ map_to_list m) -> Forall block_ok (snmp ++ ext) ->
  socket_file_ok false header indent g socks4 -> socket_file_ok true header indent g socks6 ->
  read (proc h (map B ["net"; "snmp"]%string)) = Some (text_of (concat (map block_lines snmp))) ->
  read (proc h (map B ["net"; "netstat"]%string)) = Some (text_of (concat (map block_lines ext))) ->
  read (proc h (map B ["net"; "tcp"]%string)) = Some (text_of (socket_lines header indent g socks4)) ->
  read (proc h (map B ["net"; "tcp6"]%string)) = Some (text_of (socket_lines header indent g socks6)) ->
  exists pts, netstat_Collect visit h read = Some pts
    /\ pts ≡ₚ concat (map block_points (snmp ++ ext))
         ++ map (fun st => gauge "tcp_connections" "TCP sockets by state" (f64_count (countb (in_state st) (socks4 ++ socks6))) {["state"%string := st]})
              (map snd tcpStates).
Proof.
  intros Hv Hb H4 H6 Rs Re R4 R6. apply Forall_app in Hb as [Hb1 Hb2].
  destruct (socket_lines_ok _ _ _ _ _ H4) as [Hl4 Ho4]. destruct (socket_lines_ok _ _ _ _ _ H6) as [Hl6 Ho6].
  unfold netstat_Collect. change [B "net"; B "snmp"] with (map B ["net"; "snmp"]%string). change [B "net"; B "netstat"] with (map B ["net"; "netstat"]%string).
  change [B "net"; B "tcp"] with (map B ["net"; "tcp"]%string). change [B "net"; B "tcp6"] with (map B ["net"; "tcp6"]%string).
  rewrite (readLines_text _ _ _ (block_lines_ok _ Hb1) Rs), (readLines_text _ _ _ (block_lines_ok _ Hb2) Re), (readLines_text _ _ _ Hl4 R4), (readLines_text _ _ _ Hl6 R6).
  eexists. split; [reflexivity|]. cbn [default from_option id]. rewrite !pairs_points_blocks by done. rewrite map_app, concat_app, <-app_assoc.
  apply Permutation_app_head, Permutation_app_head.
  unfold count_sockets. rewrite Ho4, Ho6, <-foldl_app, <-omap_app.
  rewrite state_points_counts; [|done|apply (bool_decide_eq_true_1 _); vm_compute; reflexivity|apply state_names_known].
  erewrite map_ext; [reflexivity|]. intros st. cbn beta. by rewrite countb_omap.
Qed.

Definition demo_paths : HostPaths := {| Proc := B "/proc"; Sys := B "/sys"; Root := B "/" |}.
Definition demo_block : block := {| b_proto := B "Tcp"; b_columns := [(B "RtoMin", 200); (B "RetransSegs", 7); (B "OutSegs", 12)] |}.
Definition demo_header : bytes := B "  sl  local_address rem_address   st".
Definition demo_read (path : bytes) : option bytes :=
  if bool_decide (path = B "/proc/net/snmp") then Some (text_of (block_lines demo_block))
  else if bool_decide (path = B "/proc/net/netstat") then Some []
  else if bool_decide (path = B "/proc/net/tcp") then Some (text_of (socket_lines demo_header 3 ssh_gaps [ssh; ssh]))
  else if bool_decide (path = B "/proc/net/tcp6") then Some (text_of (socket_lines demo_header 3 ssh_gaps []))
  else None.

Lemma demo_block_ok : block_ok demo_block.
Proof.
  split_and!; [by repeat constructor| |done|vm_compute; reflexivity|vm_compute; reflexivity].
  repeat (apply Forall_cons_2; [split; [plain_word|cbn; lia]|]). constructor.
Qed.

Lemma netstat_kernel_witness :
  exists pts, netstat_Collect map_to_list demo_paths demo_read = Some pts
    /\ pts ≡ₚ concat (map block_points [demo_block])
         ++ map (fun st => gauge "tcp_connections" "TCP sockets by state" (f64_count (countb (in_state st) [ssh; ssh])) {["state"%string := st]})
              (map snd tcpStates).
Proof.
  apply (netstat_kernel map_to_list demo_paths demo_read [demo_block] [] demo_header 3 ssh_gaps [ssh; ssh] []); try reflexivity.
  - apply Forall_cons_2; [apply demo_block_ok|constructor].
  - split; [split_and!; [apply (bool_decide_eq_true_1 _); vm_compute; reflexivity..|vm_compute; reflexivity]|].
    assert (Hs : socket_ok false ssh /\ len (kernel_line 3 ssh_gaps ssh) < line_limit).
    { split; [|vm_compute; reflexivity]. split_and!; [plain_word|plain_word| |done..]. repeat (constructor; [plain_word|]). constructor. }
    apply Forall_cons_2; [done|]. apply Forall_cons_2; [done|]. constructor.
  - split; [split_and!; [apply (bool_decide_eq_true_1 _); vm_compute; reflexivity..|vm_compute; reflexivity]|constructor].
Defined.
