(* ===== verification/SystemMetrics.v ===== *)
(** * Metrics of the host as a whole

    [internal/collector/cpu.go], [memory.go], [system.go], [disk.go],
    [network.go], [procgroups.go], [timesync_linux.go] and the wrapper of
    [cmd.go] that runs a collector at most once per period.  What gopsutil and
    the kernel answer are arguments; the order of a map and of equal elements
    of a sort are parameters. *)
From S2P Require Import Prelude GoFloat GoStrings GoMatch Metrics Procfs Registry HostFs.
Local Open Scope string_scope.
Local Open Scope list_scope.
Local Open Scope Z_scope.

(** ** [cpu.go] *)
Record CPUTimesStat := {
  User : float64; System : float64; Idle : float64; Nice : float64; Iowait : float64; Irq : float64; Softirq : float64; Steal : float64;
  Guest : float64; GuestNice : float64 }.
Record CPUCollector := { c_times : bool; prevTimes : option CPUTimesStat }.
Definition NewCPUCollector : CPUCollector := {| c_times := true; prevTimes := None |}.

Definition cpuTimeTotal (t : CPUTimesStat) : float64 :=
  f64_add (f64_add (f64_add (f64_add (f64_add (f64_add (f64_add (User t) (System t)) (Idle t)) (Nice t)) (Iowait t)) (Irq t)) (Softirq t)) (Steal t).

(** [times] is the answer of the reader: nothing on an error. *)
Definition cpuSecondsTotal (times : option (list CPUTimesStat)) : list MetricPoint :=
  match times with
  | Some (cur :: _) =>
      map (fun '(mode, v) => point "cpu_seconds_total" "Total CPU time spent in each mode since boot" Counter v {["mode" := mode]})
        [("user", User cur); ("system", System cur); ("idle", Idle cur); ("nice", Nice cur); ("iowait", Iowait cur);
         ("irq", Irq cur); ("softirq", Softirq cur); ("steal", Steal cur)]
  | _ => []
  end.

Definition computeIowait (c : CPUCollector) (times : option (list CPUTimesStat)) : CPUCollector * option float64 :=
  match times with
  | Some (cur :: _) =>
      ({| c_times := c_times c; prevTimes := Some cur |},
       match prevTimes c with
       | None => None
       | Some prev =>
           let totalDelta := f64_sub (cpuTimeTotal cur) (cpuTimeTotal prev) in
           if f_le totalDelta f64_zero then None
           else Some (f64_mul (f64_div (f64_sub (Iowait cur) (Iowait prev)) totalDelta) (f64_of_Z 100))
       end)
  | _ => (c, None)
  end.

(** The two reads of the times are separate calls. *)
Definition cpu_Collect (c : CPUCollector) (pcts : option (list float64)) (times1 times2 : option (list CPUTimesStat))
    : CPUCollector * option (list MetricPoint) :=
  match pcts with
  | Some (pct :: _) =>
      let usage := point "cpu_usage_percent" "Total CPU usage percentage (0-100)" Gauge pct ∅ in
      if c_times c then
        let '(c', iowait) := computeIowait c times2 in
        (c', Some (usage :: cpuSecondsTotal times1
                   ++ match iowait with
                      | Some v => [point "cpu_iowait_percent" "CPU time spent waiting for I/O (0-100)" Gauge v ∅]
                      | None => []
                      end))
      else (c, Some [usage])
  | _ => (c, None)
  end.

(** ** [memory.go] *)
Record VirtualMemoryStat := { vm_Total : Z; vm_Available : Z; vm_Used : Z; vm_UsedPercent : float64 }.
Record SwapMemoryStat := { sw_Total : Z; sw_Used : Z; sw_Free : Z; sw_UsedPercent : float64 }.

Definition memory_Collect (vm : option VirtualMemoryStat) (swap : option SwapMemoryStat) : option (list MetricPoint) :=
  vm ← vm;
  Some ([ point "memory_total_bytes" "Total physical memory in bytes" Gauge (f64_of_Z (vm_Total vm)) ∅;
          point "memory_available_bytes" "Available memory in bytes" Gauge (f64_of_Z (vm_Available vm)) ∅;
          point "memory_used_bytes" "Used memory in bytes" Gauge (f64_of_Z (vm_Used vm)) ∅;
          point "memory_used_percent" "Memory usage percentage (0-100)" Gauge (vm_UsedPercent vm) ∅ ]
        ++ match swap with
           | Some s => [ point "swap_total_bytes" "Total swap memory in bytes" Gauge (f64_of_Z (sw_Total s)) ∅;
                         point "swap_used_bytes" "Used swap memory in bytes" Gauge (f64_of_Z (sw_Used s)) ∅;
                         point "swap_free_bytes" "Free swap memory in bytes" Gauge (f64_of_Z (sw_Free s)) ∅;
                         point "swap_used_percent" "Swap usage percentage (0-100)" Gauge (sw_UsedPercent s) ∅ ]
           | None => []
           end).

(** ** [system.go] *)
Record LoadAvgStat := { Load1 : float64; Load5 : float64; Load15 : float64 }.

Definition system_Collect (uptime : option Z) (load : option LoadAvgStat) : option (list MetricPoint) :=
  up ← uptime; l ← load;
  let avg v period := point "system_load_average" "System load average" Gauge v {["period" := period]} in
  Some [ point "system_uptime_seconds" "System uptime in seconds" Gauge (f64_of_Z up) ∅;
         avg (Load1 l) "1m"; avg (Load5 l) "5m"; avg (Load15 l) "15m" ].

(** ** [disk.go] *)
Record PartitionStat := { Mountpoint : string; Fstype : string; Device : string }.
Record DiskUsageStat := {
  du_Total : Z; du_Free : Z; du_Used : Z; du_UsedPercent : float64;
  du_InodesTotal : Z; du_InodesUsed : Z; du_InodesFree : Z; du_InodesUsedPercent : float64 }.

Definition partition_points (p : PartitionStat) (u : DiskUsageStat) : list MetricPoint :=
  let lbls := list_to_map [("mountpoint", Mountpoint p); ("fstype", Fstype p); ("device", Device p)] in
  [ point "disk_total_bytes" "Total disk space in bytes" Gauge (f64_of_Z (du_Total u)) lbls;
    point "disk_free_bytes" "Free disk space in bytes" Gauge (f64_of_Z (du_Free u)) lbls;
    point "disk_used_bytes" "Used disk space in bytes" Gauge (f64_of_Z (du_Used u)) lbls;
    point "disk_used_percent" "Disk usage percentage (0-100)" Gauge (du_UsedPercent u) lbls;
    point "disk_inodes_total" "Total inodes" Gauge (f64_of_Z (du_InodesTotal u)) lbls;
    point "disk_inodes_used" "Used inodes" Gauge (f64_of_Z (du_InodesUsed u)) lbls;
    point "disk_inodes_free" "Free inodes" Gauge (f64_of_Z (du_InodesFree u)) lbls;
    point "disk_inodes_used_percent" "Inode usage percentage (0-100)" Gauge (du_InodesUsedPercent u) lbls ].

Definition disk_Collect (excludes : list string) (partitions : option (list PartitionStat)) (usage : string -> option DiskUsageStat)
    : option (list MetricPoint) :=
  ps ← partitions;
  Some (concat (map (fun p =>
    if isExcluded (Mountpoint p) excludes then []
    else match usage (Mountpoint p) with Some u => partition_points p u | None => [] end) ps)).

(** ** [network.go] *)
Definition DefaultNetworkIncludePatterns : list bytes := map B ["eth*"; "ens*"; "enp*"; "eno*"; "wlan*"; "wlp*"].
Definition DefaultNetworkExcludePatterns : list bytes := map B ["lo"; "docker*"; "veth*"; "br-*"; "tun*"; "wg*"].

(** [matchesAnyGlob] of [collector.go]. *)
Definition matchesAnyGlob (name : bytes) (patterns : list bytes) : bool := existsb (fun p => matches p name) patterns.

Record IOCountersStat := {
  io_Name : bytes; BytesSent : Z; BytesRecv : Z; PacketsSent : Z; PacketsRecv : Z; Errin : Z; Errout : Z; Dropin : Z; Dropout : Z }.
Record NetworkCollector := { n_state : bool; n_includes : list bytes; n_excludes : list bytes }.
Definition NewNetworkCollector : NetworkCollector := {| n_state := true; n_includes := DefaultNetworkIncludePatterns; n_excludes := [] |}.
Definition NewNetworkCollectorWithFilters (includes excludes : list bytes) : NetworkCollector :=
  {| n_state := true; n_includes := includes; n_excludes := excludes |}.

(** [upNames]: nothing when the check is skipped. *)
Definition shouldInclude (c : NetworkCollector) (name : bytes) (upNames : option (gset bytes)) : bool :=
  match n_includes c with
  | _ :: _ => matchesAnyGlob name (n_includes c)
  | [] =>
      let excl := match n_excludes c with [] => DefaultNetworkExcludePatterns | l => l end in
      if matchesAnyGlob name excl then false
      else match upNames with Some up => bool_decide (name ∈ up) | None => true end
  end.

Definition iface_points (i : IOCountersStat) : list MetricPoint :=
  let lbls := {["interface" := S (io_Name i)]} in
  let c name help v := point name help Counter (f64_of_Z v) lbls in
  [ c "network_bytes_sent_total" "Total bytes sent since boot" (BytesSent i);
    c "network_bytes_recv_total" "Total bytes received since boot" (BytesRecv i);
    c "network_packets_sent_total" "Total packets sent since boot" (PacketsSent i);
    c "network_packets_recv_total" "Total packets received since boot" (PacketsRecv i);
    c "network_errors_in_total" "Total inbound network errors since boot" (Errin i);
    c "network_errors_out_total" "Total outbound network errors since boot" (Errout i);
    c "network_drops_in_total" "Total inbound packets dropped since boot" (Dropin i);
    c "network_drops_out_total" "Total outbound packets dropped since boot" (Dropout i) ].

(** The interfaces with their flags, as the library lists them. *)
Definition UpInterfaceNames (ifaces : option (list (bytes * list bytes))) : option (gset bytes) :=
  l ← ifaces; Some (list_to_set (map fst (List.filter (fun i => existsb (fun f => bool_decide (f = B "up")) i.2) l))).

Definition network_Collect (c : NetworkCollector) (counters : option (list IOCountersStat)) (up : option (gset bytes)) : option (list MetricPoint) :=
  ifaces ← counters;
  let upNames := match n_includes c with [] => if n_state c then up else None | _ => None end in
  Some (concat (map (fun i => if shouldInclude c (io_Name i) upNames then iface_points i else []) ifaces)).

(** ** [timesync_linux.go]: the answer of [adjtimex] *)
Definition TIME_ERROR : Z := 5.
Definition STA_UNSYNC : Z := 64.
Definition STA_NANO : Z := 8192.
Record Timex := { tx_state : Z; tx_Status : Z; tx_Offset : Z; tx_Esterror : Z }.
Definition timesync_Collect (tx : option Timex) : option (list MetricPoint) :=
  t ← tx;
  let synced := if (tx_state t =? TIME_ERROR) || negb (Z.land (tx_Status t) STA_UNSYNC =? 0) then f64_zero else f64_one in
  let unit := if negb (Z.land (tx_Status t) STA_NANO =? 0) then 1000000000 else 1000000 in
  Some [ gauge "time_synced" "1 when the clock is synchronised to a time source" synced ∅;
         gauge "time_offset_seconds" "Offset of the clock from its time source" (f64_div (f64_of_Z (tx_Offset t)) (f64_of_Z unit)) ∅;
         gauge "time_estimated_error_seconds" "Estimated error of the clock" (f64_div (f64_of_Z (tx_Esterror t)) (f64_of_Z 1000000)) ∅ ].

(** ** [cmd.go]: [Every] *)
Definition result : Type := list MetricPoint * bool.
(** The time of the last run (zero: never), and its points and whether it
    failed. *)
Record everyCollector := { ev_ttl : duration; ev_at : time; ev_res : result }.
Definition Every (ttl : duration) : everyCollector := {| ev_ttl := ttl; ev_at := time_zero; ev_res := ([], false) |}.

(** A call: the readings of the clock it takes (the check, after the inner
    collection, and the one on the error path), and what the inner collector
    would return. *)
Record ev_call := { t_check : time; t_done : time; t_failed : time; c_res : result }.

Definition retry_after : duration := 5 * minute.

(** The state, the result and whether the inner collector ran. *)
Definition every_Collect (e : everyCollector) (c : ev_call) : everyCollector * (result * bool) :=
  if negb (IsZero (ev_at e)) && (time_sub (t_check c) (ev_at e) <? ev_ttl e) then (e, (ev_res e, false))
  else
    let at_ := if (c_res c).2 then time_add (t_failed c) ((wrap_i64 (- ev_ttl e)) +i retry_after)%go else t_done c in
    ({| ev_ttl := ev_ttl e; ev_at := at_; ev_res := c_res c |}, (c_res c, true)).

Fixpoint every_run (e : everyCollector) (cs : list ev_call) : list (result * bool) :=
  match cs with
  | [] => []
  | c :: t => let '(e', r) := every_Collect e c in r :: every_run e' t
  end.

(** *** What the wrapper promises

    When the collector is due again after a run: the period after it ended, or
    five minutes after it failed. *)
Definition due (ttl : duration) (c : ev_call) : time := if (c_res c).2 then t_failed c + retry_after else t_done c + ttl.

(** The contract: a call runs the inner collector when there was no run before
    or the last one is due again, and reports its result; any other call
    reports the result of the last run. *)
Inductive cached_every (ttl : duration) : option ev_call -> list ev_call -> list (result * bool) -> Prop :=
  | every_end last : cached_every ttl last [] []
  | every_runs last c cs out :
      (forall l, last = Some l -> due ttl l <= t_check c) -> cached_every ttl (Some c) cs out ->
      cached_every ttl last (c :: cs) ((c_res c, true) :: out)
  | every_cached l c cs out :
      t_check c < due ttl l -> cached_every ttl (Some l) cs out ->
      cached_every ttl (Some l) (c :: cs) ((c_res l, false) :: out).

(** The clock shows a time after 1970. *)
Definition clock_set (c : ev_call) : Prop := time_unix 0 0 <= t_check c /\ time_unix 0 0 <= t_done c /\ time_unix 0 0 <= t_failed c.

(** The state after a run, or before the first. *)
Definition every_state (ttl : duration) (e : everyCollector) (last : option ev_call) : Prop :=
  ev_ttl e = ttl /\
  match last with
  | None => ev_at e = time_zero
  | Some l => ev_at e <> time_zero /\ ev_at e + ttl = due ttl l /\ ev_res e = c_res l
  end.

Lemma every_step (ttl : duration) (e : everyCollector) (last : option ev_call) (c : ev_call) :
  0 < ttl <= max_i64 -> clock_set c -> every_state ttl e last ->
  match every_Collect e c with
  | (e', (r, true)) => r = c_res c /\ every_state ttl e' (Some c) /\ (forall l, last = Some l -> due ttl l <= t_check c)
  | (e', (r, false)) => exists l, last = Some l /\ r = c_res l /\ e' = e /\ t_check c < due ttl l
  end.
Proof.
  intros Ht (H1 & H2 & H3) [He Hl]. unfold every_Collect, IsZero. rewrite He.
  assert (Hrun : every_state ttl {| ev_ttl := ttl;
            ev_at := if (c_res c).2 then time_add (t_failed c) (wrap_i64 (wrap_i64 (- ttl) + retry_after)) else t_done c; ev_res := c_res c |} (Some c)).
  { unfold time_add, retry_after, time_unix, unix_epoch_s in *. rewrite !wrap_i64_id by (rewrite ?wrap_i64_id; go_lia).
    split; [done|]. unfold due, retry_after. cbn [ev_at ev_res]. destruct (c_res c).2; (split_and!; [go_lia|go_lia|done]). }
  destruct (Z.eqb_spec (ev_at e) time_zero) as [Hz|Hz]; cbn [negb andb].
  - split; [done|]. split; [done|]. intros l ->. tauto.
  - destruct last as [l|]; [|done]. destruct Hl as (_ & Hd & Hr). unfold time_sub.
    destruct (Z.ltb_spec (Z.max min_i64 (Z.min max_i64 (t_check c - ev_at e))) ttl).
    + exists l. unfold min_i64, max_i64 in *. split_and!; [done|done|done|lia].
    + split; [done|]. split; [done|]. intros l' [= <-]. unfold min_i64, max_i64 in *. lia.
Qed.

Lemma every_run_cached (ttl : duration) (cs : list ev_call) (e : everyCollector) (last : option ev_call) :
  0 < ttl <= max_i64 -> Forall clock_set cs -> every_state ttl e last -> cached_every ttl last cs (every_run e cs).
Proof.
  intros Ht Hc. revert e last. induction Hc as [|c cs Hset _ IH]; intros e last He; cbn [every_run]; [constructor|].
  pose proof (every_step ttl e last c Ht Hset He) as Hs. destruct (every_Collect e c) as [e' [r []]].
  - destruct Hs as (-> & He' & Hd). by constructor; [|apply IH].
  - destruct Hs as (l & -> & -> & -> & Hd). by constructor; [|apply IH].
Qed.

(** C38: an expensive collector (the package manager, the certificates) runs
    when it is due and only then: [Every] implements the contract above, over
    every sequence of calls, with whatever results and failures, and without any
    assumption on how the clock moves. *)
Theorem Every_contract (ttl : duration) (cs : list ev_call) :
  0 < ttl <= max_i64 -> Forall clock_set cs -> cached_every ttl None cs (every_run (Every ttl) cs).
Proof. intros Ht Hc. by apply every_run_cached. Qed.

Definition ev_demo (minutes : Z) (failed : bool) : ev_call :=
  let t := time_unix 1700000000 0 + minutes * minute in
  {| t_check := t; t_done := t + second; t_failed := t + second; c_res := ([], failed) |}.

(** A failure, a call too early, the retry, a cached result and the next run. *)
Lemma Every_contract_witness :
  cached_every hour None (map (fun '(m, f) => ev_demo m f) [(0, true); (4, false); (6, false); (20, true); (67, false)])
    [([], true, true); ([], true, false); ([], false, true); ([], false, false); ([], false, true)].
Proof.
  apply (Every_contract hour (map (fun '(m, f) => ev_demo m f) [(0, true); (4, false); (6, false); (20, true); (67, false)])).
  - vm_compute. split; [reflexivity|discriminate].
  - repeat (constructor; [repeat split; vm_compute; discriminate|]). constructor.
Defined.

(** ** [procgroups.go] *)
Record procTicks := { tk_start : Z; tk_cpu : Z }.
Record procGroup := { g_name : bytes; g_cpu : float64; g_rss : float64; g_count : float64 }.
Record ProcessGroupsCollector := { pg_top : nat; pg_prev : option (gmap Z procTicks); pg_at : time }.
Definition NewProcessGroupsCollector (top : nat) : ProcessGroupsCollector := {| pg_top := top; pg_prev := None; pg_at := time_zero |}.

(** The CPU share of one process since the last pass; [None]: it is new, or
    its PID was reused, or no time passed. *)
Definition cpu_share (prev : gmap Z procTicks) (ticks elapsed : float64) (p : Sample) : option float64 :=
  match prev !! sm_PID p with
  | Some t =>
      if (tk_start t =? sm_Start p) && (tk_cpu t <=? sm_CPU p) && f_gt elapsed f64_zero
      then Some (f64_mul (f64_div (f64_div (f64_of_Z (wrap_u64 (sm_CPU p - tk_cpu t))) ticks) elapsed) (f64_of_Z 100))
      else None
  | None => None
  end.

Definition zombie (p : Sample) : bool := sm_State p =? 90.
Definition new_group (name : bytes) : procGroup := {| g_name := name; g_cpu := f64_zero; g_rss := f64_zero; g_count := f64_zero |}.
Definition add_process (share : Sample -> option float64) (g : procGroup) (p : Sample) : procGroup := {|
  g_name := g_name g;
  g_cpu := match share p with Some x => f64_add (g_cpu g) x | None => g_cpu g end;
  g_rss := f64_add (g_rss g) (f64_of_Z (sm_RSS p));
  g_count := f64_add (g_count g) f64_one |}.

Definition group_step (share : Sample -> option float64) (st : gmap bytes procGroup * gmap Z procTicks) (p : Sample)
    : gmap bytes procGroup * gmap Z procTicks :=
  if zombie p then st
  else (<[sm_Name p := add_process share (default (new_group (sm_Name p)) (st.1 !! sm_Name p)) p]> st.1,
        <[sm_PID p := {| tk_start := sm_Start p; tk_cpu := sm_CPU p |}]> st.2).

Definition pick_groups (pick : gmap bytes procGroup) (l : list procGroup) : gmap bytes procGroup :=
  foldl (fun m g => <[g_name g := g]> m) pick l.

Definition group_points (first : bool) (g : procGroup) : list MetricPoint :=
  let l := {["process" := S (g_name g)]} in
  [ gauge "process_group_memory_bytes" "Resident memory of the processes with this name" (g_rss g) l;
    gauge "process_group_count" "Processes with this name" (g_count g) l ]
  ++ (if first then []
      else [gauge "process_group_cpu_percent" "CPU of the processes with this name since the last collection, percent of one core" (g_cpu g) l]).

Section Groups.
(** The order in which the map of groups is visited, and the two sorts. *)
Context (visit : gmap bytes procGroup -> list procGroup) (sort_rss sort_cpu : list procGroup -> list procGroup).

Definition groups_of (c : ProcessGroupsCollector) (fs : FS) (now : time) (procs : list Sample) : gmap bytes procGroup * gmap Z procTicks :=
  let elapsed := Seconds (time_sub now (pg_at c)) in
  foldl (group_step (cpu_share (default ∅ (pg_prev c)) (ClockTicks fs) elapsed)) (∅, ∅) procs.

Definition procgroups_Collect (c : ProcessGroupsCollector) (fs : FS) (now : time) (procs : option (list Sample))
    : ProcessGroupsCollector * option (list MetricPoint) :=
  match procs with
  | None => (c, None)
  | Some procs =>
      let first := match pg_prev c with None => true | Some _ => false end in
      let '(groups, next) := groups_of c fs now procs in
      let by_rss := sort_rss (visit groups) in
      let pick := pick_groups ∅ (take (pg_top c) by_rss) in
      let pick := if first then pick else pick_groups pick (take (pg_top c) (sort_cpu by_rss)) in
      ({| pg_top := pg_top c; pg_prev := Some next; pg_at := now |}, Some (concat (map (group_points first) (visit pick))))
  end.
End Groups.

(** *** What is reported about a name *)
Definition live_named (name : bytes) (procs : list Sample) : list Sample :=
  List.filter (fun p => negb (zombie p) && bool_decide (sm_Name p = name)) procs.
(** The group of all live processes of a name. *)
Definition group_named (share : Sample -> option float64) (procs : list Sample) (name : bytes) : procGroup :=
  foldl (add_process share) (new_group name) (live_named name procs).

Lemma live_named_snoc (name : bytes) (procs : list Sample) (p : Sample) :
  live_named name (procs ++ [p]) = live_named name procs ++ (if negb (zombie p) && bool_decide (sm_Name p = name) then [p] else []).
Proof. unfold live_named. rewrite List.filter_app. by cbn. Qed.

Lemma groups_fold (share : Sample -> option float64) (procs : list Sample) (name : bytes) :
  (foldl (group_step share) (∅, ∅) procs).1 !! name
  = (if decide (live_named name procs = []) then None else Some (group_named share procs name)).
Proof.
  induction procs as [|p procs IH] using rev_ind; [done|]. rewrite foldl_app. cbn [foldl]. unfold group_named. rewrite live_named_snoc.
  set (st := foldl (group_step share) (∅, ∅) procs) in *. unfold group_step. destruct (zombie p); cbn [negb andb]; [rewrite app_nil_r; exact IH|]. cbn [fst].
  destruct (decide (sm_Name p = name)) as [<-|Hne].
  - rewrite bool_decide_true, lookup_insert_eq, IH by done. destruct (decide (live_named (sm_Name p) procs ++ [p] = [])) as [[_ ?]%app_eq_nil|_]; [done|].
    rewrite foldl_app. cbn [foldl]. case_decide as E; [by rewrite E|done].
  - rewrite bool_decide_false, app_nil_r, lookup_insert_ne by done. exact IH.
Qed.

Lemma group_named_name (share : Sample -> option float64) (l : list Sample) (g : procGroup) : g_name (foldl (add_process share) g l) = g_name g.
Proof. revert g. induction l as [|p l IH]; intros g; [done|]. cbn [foldl]. by rewrite IH. Qed.

(** A map of groups by their own names. *)
Definition by_name (m : gmap bytes procGroup) : Prop := forall n g, m !! n = Some g -> g_name g = n.

Lemma pick_groups_lookup (l : list procGroup) (m : gmap bytes procGroup) (n : bytes) : NoDup (map g_name l) ->
  pick_groups m l !! n = match List.find (fun g => bool_decide (g_name g = n)) l with Some g => Some g | None => m !! n end.
Proof.
  unfold pick_groups. revert m. induction l as [|g l IH]; intros m Hn; [done|]. cbn [map] in Hn. apply NoDup_cons in Hn as [Hg Hn].
  cbn [foldl List.find]. rewrite IH by done. destruct (decide (g_name g = n)) as [<-|Hne].
  - rewrite bool_decide_true by done. destruct (List.find _ l) as [g'|] eqn:E; [|by rewrite lookup_insert_eq].
    apply find_some in E as [Hin Heq]. apply bool_decide_eq_true_1 in Heq. exfalso. apply Hg. rewrite <-Heq. apply list_elem_of_fmap.
    exists g'. split; [done|by apply list_elem_of_In].
  - rewrite bool_decide_false by done. destruct (List.find _ l); [done|]. by rewrite lookup_insert_ne.
Qed.

Lemma pick_groups_size (l : list procGroup) (m : gmap bytes procGroup) : (size (pick_groups m l) <= size m + length l)%nat.
Proof.
  unfold pick_groups. revert m. induction l as [|g l IH]; intros m; cbn [foldl length]; [lia|]. specialize (IH (<[g_name g := g]> m)).
  pose proof (map_size_insert (g_name g) g m) as Hs. destruct (m !! g_name g); cbn in Hs; lia.
Qed.

(** Sorting in descending order of a key. *)
Definition sorts_by (key : procGroup -> float64) (l sorted : list procGroup) : Prop :=
  sorted ≡ₚ l /\ forall i j x y, sorted !! i = Some x -> sorted !! j = Some y -> (i < j)%nat -> f_gt (key y) (key x) = false.
(** [n] of the groups do not use less than [g]. *)
Definition outdone (key : procGroup -> float64) (n : nat) (picked : list procGroup) (g : procGroup) : Prop :=
  exists l, length l = n /\ NoDup l /\ (forall h, h ∈ l -> h ∈ picked /\ f_gt (key g) (key h) = false).

Section TopGroups.
Context (visit : gmap bytes procGroup -> list procGroup) (visit_all : forall m, visit m ≡ₚ map snd (map_to_list m)).
Context (groups : gmap bytes procGroup) (groups_named : by_name groups).

Lemma visit_in (m : gmap bytes procGroup) (g : procGroup) : g ∈ visit m <-> exists n, m !! n = Some g.
Proof.
  rewrite visit_all, list_elem_of_fmap. split.
  - intros ([n g'] & -> & H%elem_of_map_to_list). by exists n.
  - intros [n H]. exists (n, g). split; [done|by apply elem_of_map_to_list].
Qed.

Lemma visit_names (m : gmap bytes procGroup) : by_name m -> NoDup (map g_name (visit m)).
Proof.
  intros Hm. change (NoDup (g_name <$> visit m)). rewrite visit_all. change (NoDup (map g_name (map snd (map_to_list m)))). rewrite map_map.
  assert (He : map (fun x => g_name x.2) (map_to_list m) = (map_to_list m).*1).
  { apply map_ext_in. intros [n g] Hin%list_elem_of_In%elem_of_map_to_list. by apply Hm. }
  rewrite He. apply NoDup_fst_map_to_list.
Qed.

Lemma sorted_in (key : procGroup -> float64) (sorted l : list procGroup) : l ≡ₚ visit groups -> sorts_by key l sorted ->
  NoDup (map g_name sorted) /\ forall g, g ∈ sorted <-> groups !! g_name g = Some g.
Proof.
  intros Hl [Hp _]. split.
  - change (NoDup (g_name <$> sorted)). rewrite Hp, Hl. by apply visit_names.
  - intros g. rewrite Hp, Hl, visit_in. split; [|eauto]. intros [n Hn]. by rewrite (groups_named n g Hn).
Qed.

Lemma take_find (l : list procGroup) (k : nat) (g : procGroup) : NoDup (map g_name l) -> g ∈ take k l ->
  List.find (fun h => bool_decide (g_name h = g_name g)) (take k l) = Some g.
Proof.
  intros Hn Hg. rewrite <-(take_drop k l), map_app in Hn. apply NoDup_app in Hn as (Hn & _ & _). revert Hn Hg.
  induction (take k l) as [|h t IH]; intros Hn Hg; [by apply not_elem_of_nil in Hg|]. cbn [map List.find] in *. apply NoDup_cons in Hn as [Hh Hn].
  apply elem_of_cons in Hg as [->|Hg]; [by rewrite bool_decide_true|]. rewrite bool_decide_false; [by apply IH|].
  intros E. apply Hh. rewrite E. apply list_elem_of_fmap. by exists g.
Qed.

(** What one round of picking adds. *)
Lemma pick_take (key : procGroup -> float64) (top : nat) (sorted l : list procGroup) (m : gmap bytes procGroup) :
  l ≡ₚ visit groups -> sorts_by key l sorted -> (forall n g, m !! n = Some g -> groups !! n = Some g) ->
  let m' := pick_groups m (take top sorted) in
  (forall n g, m' !! n = Some g -> groups !! n = Some g) /\ (forall n g, m !! n = Some g -> m' !! n = Some g)
  /\ (size m' <= size m + top)%nat
  /\ (forall n g, groups !! n = Some g -> m' !! n = None -> exists t, length t = top /\ NoDup t
        /\ forall h, h ∈ t -> m' !! g_name h = Some h /\ f_gt (key g) (key h) = false).
Proof.
  intros Hl Hs Hm m'. destruct (sorted_in key sorted l Hl Hs) as [Hn Hin]. destruct Hs as [_ Hs].
  assert (Hn' : NoDup (map g_name (take top sorted))).
  { pose proof Hn as Hn0. rewrite <-(take_drop top sorted), map_app in Hn0. by apply NoDup_app in Hn0 as (? & _). }
  assert (Hfind : forall n g, List.find (fun g => bool_decide (g_name g = n)) (take top sorted) = Some g -> groups !! n = Some g).
  { intros n g [Hg He]%find_some. apply bool_decide_eq_true_1 in He. rewrite <-He. apply Hin. apply list_elem_of_In in Hg.
    by eapply subseteq_take. }
  assert (Hlook := fun n => pick_groups_lookup (take top sorted) m n Hn'). split_and!.
  - intros n g. subst m'. rewrite Hlook. destruct (List.find _ _) as [h|] eqn:E; [|apply Hm]. intros [= <-]. by apply Hfind.
  - intros n g Hg. subst m'. rewrite Hlook. destruct (List.find _ _) as [h|] eqn:E; [|done]. apply Hfind in E. apply Hm in Hg. congruence.
  - subst m'. pose proof (pick_groups_size (take top sorted) m). rewrite length_take in H. lia.
  - intros n g Hg Hnone. pose proof (groups_named n g Hg) as <-. apply Hin in Hg as Hg'. apply list_elem_of_lookup in Hg' as [i Hi].
    assert (Hout : forall h, h ∈ take top sorted -> m' !! g_name h = Some h).
    { intros h Hh. subst m'. rewrite Hlook. by rewrite take_find. }
    assert (Hge : (top <= i)%nat).
    { destruct (Nat.le_gt_cases top i) as [|Hlt]; [done|]. rewrite Hout in Hnone; [done|]. apply list_elem_of_lookup. exists i. by rewrite lookup_take_lt. }
    exists (take top sorted). pose proof (lookup_lt_Some _ _ _ Hi). split_and!; [rewrite length_take; lia|by eapply NoDup_fmap_1|].
    intros h Hh. split; [by apply Hout|]. apply list_elem_of_lookup in Hh as [k Hk]. apply lookup_take_Some in Hk as [Hk Hlt].
    apply (Hs k i h g Hk Hi). lia.
Qed.
End TopGroups.

Lemma groups_by_name (c : ProcessGroupsCollector) (fs : FS) (now : time) (procs : list Sample) : by_name (groups_of c fs now procs).1.
Proof. intros n g. unfold groups_of. rewrite groups_fold. case_decide; [done|]. intros [= <-]. apply group_named_name. Qed.

Definition share_of (c : ProcessGroupsCollector) (fs : FS) (now : time) : Sample -> option float64 :=
  cpu_share (default ∅ (pg_prev c)) (ClockTicks fs) (Seconds (time_sub now (pg_at c))).

(** the process groups reported.  Whatever the order of the maps and of
    equal elements in the sorts: at most twice the configured number of names
    are reported, each once, and for each the memory, the number and (after the
    first pass) the CPU share are those of all its live processes; a name that
    is not reported is outdone in memory by the configured number of reported
    ones, and after the first pass in CPU as well. *)
Theorem groups_reported (visit : gmap bytes procGroup -> list procGroup) (sort_rss sort_cpu : list procGroup -> list procGroup)
    (c : ProcessGroupsCollector) (fs : FS) (now : time) (procs : list Sample) :
  (forall m, visit m ≡ₚ map snd (map_to_list m)) ->
  (let l := visit (groups_of c fs now procs).1 in sorts_by g_rss l (sort_rss l) /\ sorts_by g_cpu (sort_rss l) (sort_cpu (sort_rss l))) ->
  exists picked, (procgroups_Collect visit sort_rss sort_cpu c fs now (Some procs)).2
                   = Some (concat (map (group_points (bool_decide (pg_prev c = None))) picked))
    /\ NoDup (map g_name picked) /\ (length picked <= 2 * pg_top c)%nat
    /\ (forall g, g ∈ picked -> live_named (g_name g) procs <> [] /\ g = group_named (share_of c fs now) procs (g_name g))
    /\ (forall name, live_named name procs <> [] -> (forall g, g ∈ picked -> g_name g <> name) ->
          outdone g_rss (pg_top c) picked (group_named (share_of c fs now) procs name)
          /\ (pg_prev c <> None -> outdone g_cpu (pg_top c) picked (group_named (share_of c fs now) procs name))).
Proof.
  intros Hv [Hr Hc]. pose proof (groups_by_name c fs now procs) as Hnames.
  unfold procgroups_Collect. destruct (groups_of c fs now procs) as [groups next] eqn:Hg. cbn [fst snd] in *.
  assert (Hlook : forall n g, groups !! n = Some g <-> live_named n procs <> [] /\ g = group_named (share_of c fs now) procs n).
  { intros n g. change groups with (groups, next).1. rewrite <-Hg. unfold groups_of. rewrite groups_fold. fold (share_of c fs now).
    case_decide; [naive_solver|]. split; [naive_solver|]. by intros [_ ->]. }
  destruct (pick_take visit Hv groups Hnames g_rss (pg_top c) (sort_rss (visit groups)) (visit groups) ∅ ltac:(done) Hr ltac:(done)) as (A1 & A2 & A3 & A4).
  set (m1 := pick_groups ∅ _) in *. rewrite map_size_empty in A3.
  destruct (pick_take visit Hv groups Hnames g_cpu (pg_top c) (sort_cpu (sort_rss (visit groups))) (sort_rss (visit groups)) m1 (proj1 Hr) Hc A1) as (B1 & B2 & B3 & B4).
  set (m2 := pick_groups m1 _) in *.
  assert (Hpick : exists m, (if match pg_prev c with None => true | Some _ => false end then m1 else m2) = m
    /\ (forall n g, m !! n = Some g -> groups !! n = Some g) /\ (size m <= 2 * pg_top c)%nat /\ (forall n g, m1 !! n = Some g -> m !! n = Some g)
    /\ (pg_prev c <> None -> m = m2)).
  { destruct (pg_prev c); eexists; (split; [reflexivity|]); split_and!; try done; lia. }
  destruct Hpick as (m & -> & M1 & M2 & M3 & M4). exists (visit m).
  assert (Hfirst : match pg_prev c with None => true | Some _ => false end = bool_decide (pg_prev c = None)).
  { destruct (pg_prev c); [by rewrite bool_decide_false|by rewrite bool_decide_true]. }
  assert (Hmem : forall h, m !! g_name h = Some h -> h ∈ visit m) by (intros; apply (visit_in visit Hv); eauto).
  split_and!.
  - cbn [snd]. by rewrite Hfirst.
  - apply (visit_names visit Hv). intros n g Hn. by apply Hnames, M1.
  - rewrite Hv, length_map, length_map_to_list. exact M2.
  - intros g [n Hn]%(visit_in visit Hv). apply M1 in Hn as Hn'. pose proof (Hnames n g Hn') as <-. by apply Hlook.
  - intros name Hlive Hno. assert (Hgr : groups !! name = Some (group_named (share_of c fs now) procs name)) by by apply Hlook.
    assert (Hnone : m !! name = None).
    { destruct (m !! name) as [g|] eqn:E; [|done]. exfalso. pose proof (Hnames name g (M1 _ _ E)) as Hng. apply (Hno g); [|done].
      apply (visit_in visit Hv). by exists name. }
    split.
    + destruct (A4 name _ Hgr) as (t & T1 & T2 & T3). { destruct (m1 !! name) eqn:E; [|done]. apply M3 in E. congruence. }
      exists t. split_and!; [done|done|]. intros h Hh. destruct (T3 h Hh) as [Ha Hb]. split; [|done]. by apply Hmem, M3.
    + intros Hp. specialize (M4 Hp). subst m. destruct (B4 name _ Hgr Hnone) as (t & T1 & T2 & T3).
      exists t. split_and!; [done|done|]. intros h Hh. destruct (T3 h Hh) as [Ha Hb]. split; [|done]. by apply Hmem.
Qed.

(** A sort, to run the collector on concrete processes. *)
Fixpoint insert_desc (key : procGroup -> float64) (g : procGroup) (l : list procGroup) : list procGroup :=
  match l with
  | [] => [g]
  | h :: t => if f_gt (key h) (key g) then h :: insert_desc key g t else g :: l
  end.
Definition sort_desc (key : procGroup -> float64) (l : list procGroup) : list procGroup := foldr (insert_desc key) [] l.
Fixpoint descending (key : procGroup -> float64) (l : list procGroup) : bool :=
  match l with
  | [] => true
  | g :: t => forallb (fun h => negb (f_gt (key h) (key g))) t && descending key t
  end.

Lemma insert_desc_perm (key : procGroup -> float64) (g : procGroup) (l : list procGroup) : insert_desc key g l ≡ₚ g :: l.
Proof. induction l as [|h t IH]; cbn; [done|]. destruct (f_gt _ _); [|done]. rewrite IH. apply perm_swap. Qed.

Lemma sort_desc_sorts (key : procGroup -> float64) (l : list procGroup) : descending key (sort_desc key l) = true -> sorts_by key l (sort_desc key l).
Proof.
  intros Hd. split.
  - clear Hd. unfold sort_desc. induction l as [|g l IH]; [done|]. cbn [foldr]. by rewrite insert_desc_perm, IH.
  - revert Hd. generalize (sort_desc key l). clear. intros l. induction l as [|g l IH]; intros Hd i j x y Hi Hj Hlt; [by rewrite lookup_nil in Hi|].
    cbn [descending] in Hd. apply andb_true_iff in Hd as [H1 H2]. destruct j as [|j]; [lia|]. destruct i as [|i]; cbn in Hi, Hj.
    + injection Hi as <-. rewrite forallb_forall in H1. apply list_elem_of_lookup_2, list_elem_of_In, H1 in Hj. by apply negb_true_iff.
    + apply (IH H2 i j); [done|done|lia].
Qed.

Definition demo_proc (pid : Z) (name : string) (cpu rss : Z) : Sample :=
  {| sm_PID := pid; sm_PPID := 1; sm_Name := B name; sm_State := 83; sm_CPU := cpu; sm_Start := 5; sm_RSS := rss |}.
Definition demo_procs : list Sample := [demo_proc 10 "php-fpm" 100 4096; demo_proc 11 "nginx" 500 8192; demo_proc 12 "php-fpm" 100 8192].
Definition demo_fs : FS := Procfs.New [] (Some 100) 4096.
Definition demo_groups : ProcessGroupsCollector :=
  {| pg_top := 1; pg_prev := Some (list_to_map [(11, {| tk_start := 5; tk_cpu := 200 |})]); pg_at := time_unix 1700000000 0 |}.
Definition values (m : gmap bytes procGroup) : list procGroup := map snd (map_to_list m).

(** The two php-fpm workers use the most memory, nginx the most CPU. *)
Lemma groups_reported_witness :
  exists picked, (procgroups_Collect values (sort_desc g_rss) (sort_desc g_cpu) demo_groups demo_fs (time_unix 1700000060 0) (Some demo_procs)).2
                   = Some (concat (map (group_points (bool_decide (pg_prev demo_groups = None))) picked))
    /\ NoDup (map g_name picked) /\ (length picked <= 2)%nat.
Proof.
  destruct (groups_reported values (sort_desc g_rss) (sort_desc g_cpu) demo_groups demo_fs (time_unix 1700000060 0) demo_procs) as (picked & H1 & H2 & H3 & _).
  - intros m. reflexivity.
  - split; apply sort_desc_sorts; vm_compute; reflexivity.
  - exists picked. split; [exact H1|]. split; [exact H2|exact H3].
Defined.

Example groups_run : map (fun p => (mp_Name p, mp_Labels p !! "process"))
  (default [] (procgroups_Collect values (sort_desc g_rss) (sort_desc g_cpu) demo_groups demo_fs (time_unix 1700000060 0) (Some demo_procs)).2)
  = [("process_group_memory_bytes", Some "nginx"); ("process_group_count", Some "nginx"); ("process_group_cpu_percent", Some "nginx");
     ("process_group_memory_bytes", Some "php-fpm"); ("process_group_count", Some "php-fpm"); ("process_group_cpu_percent", Some "php-fpm")].
Proof. vm_compute. reflexivity. Qed.

(** ** Interfaces and CPU times *)

(** With the default patterns an interface is reported exactly when its name
    starts with one of six prefixes. *)
Lemma default_interfaces (name : bytes) (up : option (gset bytes)) : slash ∉ name ->
  shouldInclude NewNetworkCollector name up = existsb (HasPrefix name) (map B ["eth"; "ens"; "enp"; "eno"; "wlan"; "wlp"]).
Proof.
  intros Hs. assert (Hp : forall p, forallb literal_byte (B p) = true -> B p <> [] -> matches (B p ++ [star]) name = HasPrefix name (B p)).
  { intros p Hl Hn. rewrite matches_prefix by done. destruct (HasPrefix name (B p)); [|done]. cbn [andb].
    apply bool_decide_eq_true_2. intros Hin. apply Hs. by eapply subseteq_drop. }
  cbn -[matches HasPrefix B]. change (B "eth*") with (B "eth" ++ [star]). change (B "ens*") with (B "ens" ++ [star]).
  change (B "enp*") with (B "enp" ++ [star]). change (B "eno*") with (B "eno" ++ [star]). change (B "wlan*") with (B "wlan" ++ [star]).
  change (B "wlp*") with (B "wlp" ++ [star]). by rewrite !Hp.
Qed.

(** Without patterns the default exclude list applies, not the include list
    the documentation of the collector names. *)
Lemma no_patterns_excludes : shouldInclude (NewNetworkCollectorWithFilters [] []) (B "bond0") None = true
  /\ matchesAnyGlob (B "bond0") DefaultNetworkIncludePatterns = false.
Proof. vm_compute. done. Qed.

(** The kernel's I/O wait counter may step back; the share is then negative. *)
Definition times_at (idle iowait : Z) : CPUTimesStat :=
  {| User := f64_zero; System := f64_zero; Idle := f64_of_Z idle; Nice := f64_zero; Iowait := f64_of_Z iowait; Irq := f64_zero; Softirq := f64_zero;
     Steal := f64_zero; Guest := f64_zero; GuestNice := f64_zero |}.
Lemma iowait_negative :
  match (computeIowait (computeIowait NewCPUCollector (Some [times_at 100 10])).1 (Some [times_at 200 9])).2 with
  | Some v => f_lt v f64_zero
  | None => false
  end = true.
Proof. vm_compute. reflexivity. Qed.
