(* ===== verification/HostInfo.v ===== *)
(** * Services, updates and the identity of the host

    [internal/collector/systemd.go], [updates.go], [certs.go], [backup.go],
    [info.go] and [info_linux.go].  The output of a command, the content of a
    file and what gopsutil answers are arguments; [time.ParseInLocation] and the
    certificate parser are parameters. *)
From S2P Require Import Prelude GoFloat GoStrings GoText GoNum GoFloatText GoRegexp GoMatch GoJSON Metrics Procfs LogTail LogAllow LogRedact LogDiscover SystemMetrics HostFs.
Local Open Scope string_scope.
Local Open Scope list_scope.
Local Open Scope Z_scope.

(** ** [systemd.go] *)
Definition trackedServices : list bytes := map B
  ["nginx.service"; "apache2.service"; "httpd.service"; "caddy.service"; "haproxy.service"; "varnish.service";
   "php*-fpm.service"; "php-fpm.service";
   "mysql.service"; "mysqld.service"; "mariadb.service"; "postgresql*.service"; "redis*.service"; "mongod.service";
   "memcached.service"; "elasticsearch.service"; "rabbitmq-server.service";
   "exim4.service"; "postfix.service"; "dovecot.service"; "spamd.service"; "spamassassin.service"; "clamav-daemon.service";
   "docker.service"; "containerd.service"; "ssh.service"; "sshd.service"; "cron.service"; "crond.service";
   "vsftpd.service"; "proftpd.service"; "pure-ftpd.service"; "fail2ban.service"; "named.service"; "bind9.service"].
Definition maxFailedUnits : Z := 50.

Definition matchesAny (name : bytes) (globs : list bytes) : bool := existsb (fun g => matches g name) globs.

(** The loop over the units: points, tracked units, number of failed ones. *)
Record units := { u_pts : list MetricPoint; u_tracked : list bytes; u_failed : Z }.
Definition unit_step (u : units) (line : bytes) : units :=
  match Fields line with
  | unit :: load :: active :: _ :: _ =>
      let is_failed := bool_decide (active = B "failed") in
      let failed := if is_failed then u_failed u + 1 else u_failed u in
      {| u_pts := if is_failed && (failed <=? maxFailedUnits)
                  then u_pts u ++ [gauge "systemd_unit_failed" "1 for every unit in the failed state" f64_one {["unit" := S unit]}]
                  else u_pts u;
         u_tracked := if bool_decide (load = B "loaded") && negb (bool_decide (active = B "inactive")) && matchesAny unit trackedServices
                      then u_tracked u ++ [unit] else u_tracked u;
         u_failed := failed |}
  | _ => u
  end.
Definition list_units (out : bytes) : units := foldl unit_step {| u_pts := []; u_tracked := []; u_failed := 0 |} (Split out newline).

(** A block of [systemctl show]: the last value of a key counts. *)
Definition show_value (block : list bytes) (key : bytes) : bytes :=
  foldl (fun v line => match Cut line "="%char with Some (k, w) => if bool_decide (k = key) then w else v | None => v end) [] block.

Definition show_block (block : bytes) : list MetricPoint :=
  let lines := Split block newline in
  match show_value lines (B "Id") with
  | [] => []
  | id =>
      let up := if bool_decide (show_value lines (B "ActiveState") = B "active") then f64_one else f64_zero in
      gauge "systemd_service_active" "1 when the service is active" up (list_to_map [("unit", S id); ("state", S (show_value lines (B "SubState")))])
      :: match ParseFloat (show_value lines (B "NRestarts")) with
         | (n, true) => [counter "systemd_service_restarts_total" "Times systemd restarted the service since it was started" n {["unit" := S id]}]
         | _ => []
         end
  end.
Definition parseShow (out : bytes) : list MetricPoint := concat (map show_block (SplitStr out [newline; newline])).

(** [run_show] is the last command, run with the tracked units. *)
Definition systemd_Collect (list_out : option bytes) (state_out : bytes) (state_ok : bool) (run_show : list bytes -> option bytes)
    : option (list MetricPoint) :=
  out ← list_out;
  let u := list_units out in
  let s := TrimSpace state_out in
  Some (u_pts u ++ [gauge "systemd_units_failed" "Units in the failed state" (f64_of_Z (u_failed u)) ∅]
        ++ (if negb (bool_decide (state_out = [])) || state_ok then
              [gauge "systemd_system_degraded" "1 when systemd reports the system degraded (a unit failed)"
                 (if bool_decide (s = B "degraded") || bool_decide (s = B "maintenance") then f64_one else f64_zero) ∅]
            else [])
        ++ match u_tracked u with
           | [] => []
           | tracked => match run_show tracked with Some o => parseShow o | None => [] end
           end).

(** ** [updates.go] *)
Definition apt_step (n : Z * Z) (line : bytes) : Z * Z :=
  if negb (HasPrefix line (B "Inst ")) then n
  else (n.1 + 1, if Contains line (B "-security") || Contains line (B "Debian-Security") then n.2 + 1 else n.2).

Definition package_line (line : bytes) : bool :=
  match Fields line with
  | f0 :: _ :: _ :: _ => negb (HasSuffix f0 (B ":")) && negb (HasPrefix line (B "Obsoleting"))
  | _ => false
  end.
Definition countPackageLines (out : bytes) : Z := Z.of_nat (countb package_line (Split out newline)).

(** The packages that can be upgraded and those with a security fix.  The
    output of dnf is used although its exit status may be an error. *)
Definition pending (has_apt has_dnf : bool) (apt_out : option bytes) (dnf_check dnf_security : bytes) : option (Z * Z) :=
  if has_apt then out ← apt_out; Some (foldl apt_step (0, 0) (Split out newline))
  else if has_dnf then Some (countPackageLines dnf_check, countPackageLines dnf_security)
  else None.

(** The kernel images with their modification times; [sort] orders them from
    the newest. *)
Record kernel_image := { ki_rel : bytes; ki_mod : Z }.
Definition newestKernel (sort : list kernel_image -> list kernel_image) (images : list (bytes * option Z)) : bytes :=
  let ks := omap (fun '(path, mtime) =>
    t ← mtime; if Contains path (B "rescue") then None else Some {| ki_rel := TrimPrefix (Base path) (B "vmlinuz-"); ki_mod := t |}) images in
  match ks with [] => [] | _ => match sort ks with k :: _ => ki_rel k | [] => [] end end.

Definition kernelRelease (osrelease : option bytes) : bytes := match osrelease with Some b => TrimSpace b | None => [] end.

Definition updates_Collect (p : option (Z * Z)) (reboot_file : bool) (newest release : bytes) : list MetricPoint :=
  let count n kind := gauge "system_updates_pending" "Packages with an update available" (f64_of_Z n) {["kind" := kind]} in
  let reboot := if reboot_file then f64_one
                else if negb (bool_decide (newest = [])) && negb (bool_decide (release = [])) && negb (bool_decide (newest = release)) then f64_one
                else f64_zero in
  match p with Some (all, security) => [count all "all"; count security "security"] | None => [] end
  ++ [gauge "system_reboot_required" "1 when installed updates (a kernel, core libraries) need a reboot to take effect" reboot ∅].

(** ** [certs.go] *)
Definition DefaultCertGlobs : list bytes := [B "/etc/letsencrypt/live/*/cert.pem"].
Definition configGlobs : list bytes := map B
  ["/etc/nginx/nginx.conf"; "/etc/nginx/conf.d/*.conf"; "/etc/nginx/sites-enabled/*";
   "/etc/apache2/sites-enabled/*"; "/etc/httpd/conf.d/*.conf";
   "/etc/dovecot/conf.d/10-ssl.conf"; "/etc/exim4/conf.d/main/*"; "/etc/postfix/main.cf"].
Definition reCertDirective : re := Eval vm_compute in MustCompile
  "(?im)^\s*(?:ssl_certificate|SSLCertificateFile|ssl_cert\s*=\s*<|smtpd_tls_cert_file\s*=|MAIN_TLS_CERTIFICATE\s*=)\s*([^\s;]+)".

(** [FindAllStringSubmatch] of an expression that matches no empty text: the
    first group of each match. *)
Fixpoint find_all (fuel : nat) (r : re) (prev : option Z) (l : list (Z * bytes)) : list bytes :=
  match fuel with
  | O => []
  | Datatypes.S f =>
      match search r prev l with
      | None => []
      | Some c =>
          let '(start, w) := group0 c in
          capture_text c 1 :: find_all f r (prev_of prev (take (length l - length start) l ++ take w start)) (drop w start)
      end
  end.
Definition directives (conf : bytes) : list bytes := find_all (Datatypes.S (length (runes conf))) reCertDirective None (runes conf).

Definition cert_path (h : HostPaths) (value : bytes) : option bytes :=
  let p := Trim value (B "'<" ++ [dquote]) in
  if IsAbs p && negb (Contains p (B "$")) then Some (root h [p]) else None.

Record certificate := { ce_CommonName : bytes; ce_DNSNames : list bytes; ce_NotAfter : Z; ce_Issuer : bytes }.

Section Certs.
(** Globbing, reading, resolving links, decoding PEM blocks (type and content,
    with what follows) and parsing a certificate; the order of the files. *)
Context (Glob : bytes -> list bytes) (read : bytes -> option bytes) (EvalSymlinks : bytes -> option bytes).
Context (pem_Decode : bytes -> option (bytes * bytes * bytes)) (ParseCertificate : bytes -> option certificate).
Context (visit : gset bytes -> list bytes).

(** The first block of the right type; every block consumes some text. *)
Fixpoint first_block (fuel : nat) (b : bytes) : option certificate :=
  match fuel with
  | O => None
  | Datatypes.S f =>
      match pem_Decode b with
      | None => None
      | Some (ty, content, rest) => if bool_decide (ty = B "CERTIFICATE") then ParseCertificate content else first_block f rest
      end
  end.
Definition firstCert (path : bytes) : option certificate :=
  b ← read path; if 2 ^ 20 <? len b then None else first_block (Datatypes.S (length b)) b.

Definition cert_files (h : HostPaths) (globs : list bytes) : gset bytes :=
  list_to_set (concat (map (fun g => Glob (root h [g])) globs)
    ++ concat (map (fun g => concat (map (fun conf =>
         match read conf with Some b => omap (cert_path h) (directives b) | None => [] end) (Glob (root h [g])))) configGlobs)).

Definition cert_step (h : HostPaths) (st : list MetricPoint * gset bytes) (f : bytes) : list MetricPoint * gset bytes :=
  match EvalSymlinks f with
  | None => st
  | Some real =>
      if bool_decide (real ∈ st.2) then st
      else
        (match firstCert real with
         | None => st.1
         | Some c =>
             let cn := match ce_CommonName c with [] => hd [] (ce_DNSNames c) | n => n end in
             st.1 ++ [gauge "tls_certificate_expiry_timestamp_seconds" "When the certificate expires (Unix time)" (f64_of_Z (ce_NotAfter c))
                        (list_to_map [("path", S (TrimPrefix f (TrimSuffix (Root h) (B "/")))); ("subject", S cn); ("issuer", S (ce_Issuer c))])]
         end, {[real]} ∪ st.2)
  end.
Definition certs_Collect (h : HostPaths) (extra : list bytes) : list MetricPoint :=
  (foldl (cert_step h) ([], ∅) (visit (cert_files h (DefaultCertGlobs ++ extra)))).1.
End Certs.

(** ** [backup.go] *)
Record backupStat := { TotalFilesProcessed : float64; TotalBytesProcessed : float64 }.
Record backupReport := { bk_Status : bytes; StartTime : time; EndTime : time; bk_Stat : option backupStat }.
Inductive report_file := NoReport | ReportError | Report (data : bytes).

(** Decoding a number and a time; [ParseRFC3339] reads the text of a time. *)
Definition dec_float : decoder float64 := fun j a =>
  match j with JNull => Some a | JNum t => match ParseFloat t with (f, true) => Some f | _ => None end | _ => None end.
Definition dec_time (ParseRFC3339 : bytes -> option time) : decoder time := fun j a =>
  match j with JNull => Some a | JStr s => ParseRFC3339 s | _ => None end.

Definition no_stat : backupStat := {| TotalFilesProcessed := f64_zero; TotalBytesProcessed := f64_zero |}.
Definition no_report : backupReport := {| bk_Status := []; StartTime := time_zero; EndTime := time_zero; bk_Stat := None |}.
Definition stat_fields : list (bytes * decoder backupStat) :=
  [ (B "total_files_processed", fun j s => (fun v => {| TotalFilesProcessed := v; TotalBytesProcessed := TotalBytesProcessed s |}) <$> dec_float j (TotalFilesProcessed s));
    (B "total_bytes_processed", fun j s => (fun v => {| TotalFilesProcessed := TotalFilesProcessed s; TotalBytesProcessed := v |}) <$> dec_float j (TotalBytesProcessed s)) ].
Definition report_fields (rfc : bytes -> option time) : list (bytes * decoder backupReport) :=
  [ (B "status", fun j r => (fun v => {| bk_Status := v; StartTime := StartTime r; EndTime := EndTime r; bk_Stat := bk_Stat r |}) <$> dec_string j (bk_Status r));
    (B "start_time", fun j r => (fun v => {| bk_Status := bk_Status r; StartTime := v; EndTime := EndTime r; bk_Stat := bk_Stat r |}) <$> dec_time rfc j (StartTime r));
    (B "end_time", fun j r => (fun v => {| bk_Status := bk_Status r; StartTime := StartTime r; EndTime := v; bk_Stat := bk_Stat r |}) <$> dec_time rfc j (EndTime r));
    (B "stat", fun j r => (fun v => {| bk_Status := bk_Status r; StartTime := StartTime r; EndTime := EndTime r; bk_Stat := v |})
                 <$> dec_ptr no_stat (decode_struct stat_fields) j (bk_Stat r)) ].

Definition Unix (t : time) : Z := t / second - unix_epoch_s.

Definition backup_Collect (rfc : bytes -> option time) (file : report_file) : option (list MetricPoint) :=
  match file with
  | NoReport => Some []
  | ReportError => None
  | Report data =>
      r ← (j ← Unmarshal data; decode_struct (report_fields rfc) j no_report);
      let success := bool_decide (bk_Status r = B "success") in
      Some ([ point "yomins_backup_last_status" "Status of the last backup run (1=success, 0=error)" Gauge (if success then f64_one else f64_zero) ∅;
              point "yomins_backup_last_duration_seconds" "Duration of the last backup run in seconds" Gauge (Seconds (time_sub (EndTime r) (StartTime r))) ∅ ]
            ++ (if success then
                  point "yomins_backup_last_success_timestamp" "Unix timestamp of the last successful backup" Gauge (f64_of_Z (Unix (EndTime r))) ∅
                  :: match bk_Stat r with
                     | Some s => [ point "yomins_backup_files_total" "Total number of files processed in the last backup" Gauge (TotalFilesProcessed s) ∅;
                                   point "yomins_backup_bytes_total" "Total number of bytes processed in the last backup" Gauge (TotalBytesProcessed s) ∅ ]
                     | None => []
                     end
                else []))
  end.

(** ** [info_linux.go] *)
Record SystemInfoStat := { Distribution : bytes; DistributionVersion : bytes; KernelVersion : bytes; Virtualization : bytes }.
Record CPUInfoStat := { Model : bytes; Cores : Z; Threads : Z }.
Record PackageUpdateTimes := { LastKernelUpdate : Z; LastSoftwareUpdate : Z }.
Record KernelCareInfoStat := { Installed : bool; kc_Version : bytes }.
Record MemoryModuleStat := { SizeMB : Z; mm_Type : bytes; SpeedMhz : Z; Manufacturer : bytes; Locator : bytes }.
Record MemoryInfo := { TotalMB : Z; Modules : list MemoryModuleStat }.
Record DiskHardwareStat := { dh_Device : bytes; dh_Model : bytes; SizeGB : Z; dh_Type : bytes; Transport : bytes }.
Record NetworkHardwareStat := { Interface : bytes; SpeedMbps : Z; nh_State : bytes; Duplex : bytes }.
Record SystemHardwareStat := { Vendor : bytes; Product : bytes }.

Definition os_release_step (st : bytes * bytes) (line : bytes) : bytes * bytes :=
  match Cut line "="%char with
  | Some (k, v) =>
      let v := Trim v [dquote] in
      if bool_decide (k = B "ID") then (v, st.2) else if bool_decide (k = B "VERSION_ID") then (st.1, v) else st
  | None => st
  end.
Definition parseOSRelease (file : option bytes) : bytes * bytes :=
  match file with Some data => foldl os_release_step ([], []) (ScanLines data).1 | None => ([], []) end.

Definition dmi_vendors : list (bytes * bytes) :=
  map (fun '(a, b) => (B a, B b))
    [("QEMU", "kvm"); ("KVM", "kvm"); ("VMware", "vmware"); ("Xen", "xen"); ("Microsoft", "hyperv"); ("VirtualBox", "oracle")].
(** [detect_out]: the output of [systemd-detect-virt], nothing on an error. *)
Definition detectVirtualization (detect_out sys_vendor : option bytes) : bytes :=
  match TrimSpace <$> detect_out with
  | Some (c :: v) => c :: v
  | _ =>
      match sys_vendor with
      | None => B "unknown"
      | Some data =>
          match List.find (fun '(substr, _) => Contains (TrimSpace data) substr) dmi_vendors with
          | Some (_, virt) => virt
          | None => B "none"
          end
      end
  end.

(** The module a [Memory Device] record describes; the flag tells whether the
    locator was read. *)
Definition no_module : MemoryModuleStat := {| SizeMB := 0; mm_Type := []; SpeedMhz := 0; Manufacturer := []; Locator := [] |}.
Definition module_size (v : bytes) (cur : Z) : Z :=
  if bool_decide (v = B "No Module Installed") || bool_decide (v = B "Unknown") then 0
  else match CutSuffix v (B " GB") with
       | Some w => match Atoi w with (n, None) => wrap_i64 (n * 1024) | _ => cur end
       | None => match CutSuffix v (B " MB") with
                 | Some w => match Atoi w with (n, None) => n | _ => cur end
                 | None => cur
                 end
       end.
Definition module_step (st : MemoryModuleStat * bool) (line : bytes) : MemoryModuleStat * bool :=
  let '(m, located) := st in
  match CutStr (TrimSpace line) (B ": ") with
  | None => st
  | Some (k, v) =>
      let v := TrimSpace v in
      if bool_decide (k = B "Size") then
        ({| SizeMB := module_size v (SizeMB m); mm_Type := mm_Type m; SpeedMhz := SpeedMhz m; Manufacturer := Manufacturer m; Locator := Locator m |}, located)
      else if bool_decide (k = B "Type") then
        ({| SizeMB := SizeMB m; mm_Type := if bool_decide (v = B "Unknown") then mm_Type m else v; SpeedMhz := SpeedMhz m; Manufacturer := Manufacturer m; Locator := Locator m |}, located)
      else if bool_decide (k = B "Speed") then
        let speed := if bool_decide (v = B "Unknown") then SpeedMhz m
                     else match Fields v with f0 :: _ => match Atoi f0 with (n, None) => n | _ => SpeedMhz m end | [] => SpeedMhz m end in
        ({| SizeMB := SizeMB m; mm_Type := mm_Type m; SpeedMhz := speed; Manufacturer := Manufacturer m; Locator := Locator m |}, located)
      else if bool_decide (k = B "Manufacturer") then
        ({| SizeMB := SizeMB m; mm_Type := mm_Type m; SpeedMhz := SpeedMhz m;
            Manufacturer := if bool_decide (v = B "Not Specified") || bool_decide (v = B "Unknown") then Manufacturer m else v; Locator := Locator m |}, located)
      else if bool_decide (k = B "Locator") then
        if located then st
        else ({| SizeMB := SizeMB m; mm_Type := mm_Type m; SpeedMhz := SpeedMhz m; Manufacturer := Manufacturer m; Locator := v |}, true)
      else st
  end.
Definition memory_record (rec : bytes) : option MemoryModuleStat :=
  let lines := Split rec newline in
  if existsb (fun l => bool_decide (TrimSpace l = B "Memory Device")) lines then
    let m := (foldl module_step (no_module, false) lines).1 in
    if 0 <? SizeMB m then Some m else None
  else None.
Definition parseDmidecodeMemory (out : bytes) : list MemoryModuleStat := omap memory_record (SplitStr out [newline; newline]).

(** [MemTotal] in MB: the first line with a number counts. *)
Fixpoint memtotal_mb (lines : list bytes) : Z :=
  match lines with
  | [] => 0
  | line :: t =>
      if HasPrefix line (B "MemTotal:") then
        match Fields line with
        | _ :: f1 :: _ => match Atoi f1 with (kb, None) => Z.quot kb 1024 | _ => memtotal_mb t end
        | _ => memtotal_mb t
        end
      else memtotal_mb t
  end.
Definition readMemTotalMB (meminfo : option bytes) : Z :=
  match meminfo with Some data => memtotal_mb (ScanLines data).1 | None => 0 end.

Definition isVirtualBlockDevice (dev : bytes) : bool := existsb (HasPrefix dev) (map B ["loop"; "ram"; "zram"; "dm-"; "md"; "sr"; "nbd"]).

Section InfoReader.
(** The files, links and directories read. *)
Context (read : bytes -> option bytes) (readlink : bytes -> option bytes) (exists_ : bytes -> bool) (ReadDir : bytes -> option (list bytes)).

Definition readTrimmed (path : bytes) : option bytes := TrimSpace <$> read path.
Definition diskTransport (dev : bytes) : bytes :=
  match readlink (B "/sys/block/" ++ dev ++ B "/device/subsystem") with
  | None => B "unknown"
  | Some target =>
      let t := ToLower target in
      if Contains t (B "scsi") then B "sata" else if Contains t (B "nvme") then B "nvme" else B "unknown"
  end.

Definition disk_hardware (dev : bytes) : DiskHardwareStat :=
  let at_ f := B "/sys/block/" ++ dev ++ B f in
  let nvme := HasPrefix dev (B "nvme") in
  {| dh_Device := dev;
     dh_Model := default [] (readTrimmed (at_ "/device/model"));
     SizeGB := match read (at_ "/size") with
               | Some data => match ParseInt (TrimSpace data) 10 64 with
                              | (sectors, None) => Z.quot (sectors *i 512)%go 1000000000
                              | _ => 0
                              end
               | None => 0
               end;
     dh_Type := if nvme then B "nvme"
                else match TrimSpace <$> read (at_ "/queue/rotational") with
                     | Some r => if bool_decide (r = B "0") then B "ssd" else if bool_decide (r = B "1") then B "hdd" else []
                     | None => []
                     end;
     Transport := if nvme then B "nvme" else diskTransport dev |}.
Definition DiskHardware : option (list DiskHardwareStat) :=
  entries ← ReadDir (B "/sys/block");
  Some (map disk_hardware (List.filter (fun d => negb (isVirtualBlockDevice d)) entries)).

Definition network_hardware (iface : bytes) : option NetworkHardwareStat :=
  let at_ f := B "/sys/class/net/" ++ iface ++ B f in
  if negb (exists_ (at_ "/device")) then None
  else Some {| Interface := iface;
               SpeedMbps := match readTrimmed (at_ "/speed") with
                            | Some d => match Atoi d with (v, None) => if 0 <? v then v else 0 | _ => 0 end
                            | None => 0
                            end;
               nh_State := default (B "unknown") (readTrimmed (at_ "/operstate"));
               Duplex := default (B "unknown") (readTrimmed (at_ "/duplex")) |}.
Definition NetworkHardware : option (list NetworkHardwareStat) :=
  entries ← ReadDir (B "/sys/class/net"); Some (omap (M:=list) network_hardware entries).

Definition SystemHardware : SystemHardwareStat :=
  {| Vendor := default [] (readTrimmed (B "/sys/class/dmi/id/sys_vendor")); Product := default [] (readTrimmed (B "/sys/class/dmi/id/product_name")) |}.

(** [ParseLocal layout text]: the Unix time of a local time. *)
Context (ParseLocal : bytes -> bytes -> option Z).

Definition dpkg_step (ts : Z * Z) (line : bytes) : Z * Z :=
  match Fields line with
  | date :: clock :: action :: rest =>
      if bool_decide (action = B "install") || bool_decide (action = B "upgrade") then
        match ParseLocal (B "2006-01-02 15:04:05") (date ++ B " " ++ clock) with
        | None => ts
        | Some t =>
            (match rest with
             | pkg :: _ => if Contains pkg (B "linux-image") && (ts.1 <? t) then t else ts.1
             | [] => ts.1
             end, if ts.2 <? t then t else ts.2)
        end
      else ts
  | _ => ts
  end.
(** The kernel and the general time of the last update. *)
Definition parseDpkgLogs : Z * Z :=
  foldl (fun ts path => match read path with Some data => foldl dpkg_step ts (ScanLines data).1 | None => ts end)
    (0, 0) (map B ["/var/log/dpkg.log.1"; "/var/log/dpkg.log"]).

Definition firstLine (b : bytes) : bytes := TrimSpace (match IndexByte b newline with Some i => take i b | None => b end).
(** [rpm_out]: the output of [rpm -qa --last], nothing on an error. *)
Definition rpmLastUpdate (rpm_out : option bytes) : Z :=
  match rpm_out with
  | None => 0
  | Some out =>
      let fields := Fields (firstLine out) in
      if (length fields <? 5)%nat then 0
      else default 0 (ParseLocal (B "Mon Jan 2 15:04:05 2006") (Join (lastn 5 fields) space))
  end.
Definition PackageUpdates (rpm_kernel rpm_all : option bytes) : PackageUpdateTimes :=
  let '(kernel, software) := parseDpkgLogs in
  if (0 <? kernel) || (0 <? software) then {| LastKernelUpdate := kernel; LastSoftwareUpdate := software |}
  else {| LastKernelUpdate := rpmLastUpdate rpm_kernel; LastSoftwareUpdate := rpmLastUpdate rpm_all |}.
End InfoReader.

(** [kcarectl]: not installed, failing, or its output. *)
Definition KernelCareInfo (installed : bool) (out : option bytes) : KernelCareInfoStat :=
  if negb installed then {| Installed := false; kc_Version := [] |}
  else match out with
       | None => {| Installed := true; kc_Version := B "unknown" |}
       | Some o => {| Installed := true; kc_Version := TrimPrefix (TrimPrefix (TrimSpace o) (B "kcarectl v")) (B "v") |}
       end.
Definition MemoryInfo_ (meminfo : option bytes) (dmidecode : option bytes) : MemoryInfo :=
  {| TotalMB := readMemTotalMB meminfo; Modules := match dmidecode with Some out => parseDmidecodeMemory out | None => [] end |}.
(** The model names of the processors and the two counts, which are zero when
    they cannot be read. *)
Definition CPUInfo_ (models : option (list bytes)) (physical logical : option Z) : option CPUInfoStat :=
  infos ← models;
  Some {| Model := match infos with m :: _ => m | [] => [] end; Cores := default 0 physical; Threads := default 0 logical |}.
Definition SystemInfo (virtOverride : bytes) (os_release : option bytes) (kernel : option bytes) (detect_out sys_vendor : option bytes) : SystemInfoStat :=
  let '(dist, ver) := parseOSRelease os_release in
  {| Distribution := dist; DistributionVersion := ver; KernelVersion := default [] kernel;
     Virtualization := match virtOverride with [] => detectVirtualization detect_out sys_vendor | v => v end |}.

(** ** [info.go] *)
(** What the readers answer; nothing on an error. *)
Record InfoAnswers := {
  an_system : option SystemInfoStat; an_cpu : option CPUInfoStat; an_updates : option PackageUpdateTimes; an_kernelcare : option KernelCareInfoStat;
  an_memory : option MemoryInfo; an_disks : option (list DiskHardwareStat); an_nics : option (list NetworkHardwareStat); an_hardware : option SystemHardwareStat }.

Definition info_point (name help : string) (labels : list (string * bytes)) : MetricPoint :=
  point name help Gauge f64_one (list_to_map (map (fun '(k, v) => (k, S v)) labels)).
Definition Itoa (n : Z) : bytes := FormatInt n.

Definition module_point (i : nat) (m : MemoryModuleStat) : MetricPoint :=
  info_point "memory_module_info" "Physical memory module information"
    [("index", Itoa (Z.of_nat i)); ("size_mb", Itoa (SizeMB m)); ("type", mm_Type m); ("speed_mhz", Itoa (SpeedMhz m)); ("manufacturer", Manufacturer m); ("locator", Locator m)].

Definition info_Collect (disableKernelCare : bool) (a : InfoAnswers) : list MetricPoint :=
  (match an_system a with
   | Some si => [info_point "system_info" "Static system software information"
                   [("distribution", Distribution si); ("distribution_version", DistributionVersion si); ("kernel_version", KernelVersion si); ("virtualization", Virtualization si)]]
   | None => [] end)
  ++ (match an_cpu a with
      | Some ci => [info_point "cpu_info" "CPU hardware information" [("model", Model ci); ("cores", Itoa (Cores ci)); ("threads", Itoa (Threads ci))]]
      | None => [] end)
  ++ (match an_updates a with
      | Some u => (if 0 <? LastKernelUpdate u then [point "system_last_kernel_update_timestamp" "Unix timestamp of last kernel package update" Gauge (f64_of_Z (LastKernelUpdate u)) ∅] else [])
                  ++ (if 0 <? LastSoftwareUpdate u then [point "system_last_software_update_timestamp" "Unix timestamp of last software package update" Gauge (f64_of_Z (LastSoftwareUpdate u)) ∅] else [])
      | None => [] end)
  ++ (match an_kernelcare a with
      | Some kc => if negb disableKernelCare && Installed kc then [info_point "kernelcare_info" "KernelCare installation info (1 if installed)" [("version", kc_Version kc)]] else []
      | None => [] end)
  ++ (match an_memory a with
      | Some m => (if 0 <? TotalMB m then [info_point "memory_hardware_info" "Physical memory total" [("total_mb", Itoa (TotalMB m))]] else [])
                  ++ imap module_point (Modules m)
      | None => [] end)
  ++ (match an_disks a with
      | Some l => map (fun d => info_point "disk_hardware_info" "Physical disk hardware information"
                    [("device", dh_Device d); ("model", dh_Model d); ("size_gb", Itoa (SizeGB d)); ("type", dh_Type d); ("transport", Transport d)]) l
      | None => [] end)
  ++ (match an_nics a with
      | Some l => map (fun n => info_point "network_hardware_info" "Physical network interface hardware information"
                    [("interface", Interface n); ("speed_mbps", Itoa (SpeedMbps n)); ("state", nh_State n); ("duplex", Duplex n)]) l
      | None => [] end)
  ++ (match an_hardware a with
      | Some hw => [info_point "hardware_info" "Server hardware identity" [("vendor", Vendor hw); ("product", Product hw)]]
      | None => [] end).

(** ** The units systemd lists *)

(** A line of [systemctl list-units]: the unit and its load and active state. *)
Definition unit_of (line : bytes) : option (bytes * bytes * bytes) :=
  match Fields line with unit :: load :: active :: _ :: _ => Some (unit, load, active) | _ => None end.
Definition failed_unit (u : bytes * bytes * bytes) : bool := bool_decide (u.2 = B "failed").
Definition tracked_unit (u : bytes * bytes * bytes) : bool :=
  bool_decide (u.1.2 = B "loaded") && negb (bool_decide (u.2 = B "inactive")) && matchesAny u.1.1 trackedServices.
Definition failed_point (unit : bytes) : MetricPoint := gauge "systemd_unit_failed" "1 for every unit in the failed state" f64_one {["unit" := S unit]}.

(** the failed units.  Whatever the listing, the number reported is that of
    all units in the failed state, a series is sent for the first fifty of them
    and no other unit, and the services whose state is asked for are the tracked
    ones that are loaded and not stopped, in the order listed. *)
Theorem list_units_exact (out : bytes) :
  let us := omap unit_of (Split out newline) in
  list_units out = {| u_pts := map (fun u => failed_point u.1.1) (take 50 (List.filter failed_unit us));
                      u_tracked := map (fun u => u.1.1) (List.filter tracked_unit us);
                      u_failed := Z.of_nat (countb failed_unit us) |}.
Proof.
  cbv zeta. unfold list_units, countb. induction (Split out newline) as [|line ls IH] using rev_ind; [done|].
  rewrite foldl_app, IH, omap_app. clear IH. set (us := omap unit_of ls). unfold unit_step, unit_of. cbn [foldl omap list_omap].
  destruct (Fields line) as [|unit [|load [|active [|x rest]]]]; cbn [omap list_omap]; rewrite ?app_nil_r; try done.
  rewrite !List.filter_app. cbn [List.filter]. change (failed_unit (unit, load, active)) with (bool_decide (active = B "failed")).
  change (tracked_unit (unit, load, active)) with (bool_decide (load = B "loaded") && negb (bool_decide (active = B "inactive")) && matchesAny unit trackedServices).
  cbn [fst snd u_pts u_tracked u_failed].
  set (fs := List.filter failed_unit us). rewrite map_app. f_equal.
  - destruct (bool_decide (active = B "failed")); cbn [andb]; [|by rewrite app_nil_r].
    destruct (Z.leb_spec (Z.of_nat (length fs) + 1) maxFailedUnits) as [H|H]; unfold maxFailedUnits in H.
    + rewrite !take_ge by (rewrite ?length_app; cbn; lia). by rewrite map_app.
    + rewrite take_app_le by lia. done.
  - by destruct (_ && _ && _); cbn; rewrite ?app_nil_r.
  - destruct (bool_decide (active = B "failed")); rewrite length_app; cbn; lia.
Qed.

(** ** The state systemd prints for the services *)

Record service := { sv_id : bytes; sv_active : bytes; sv_sub : bytes; sv_restarts : Z }.
Definition property (k : string) (v : bytes) : bytes := B k ++ "="%char :: v.
Definition service_lines (s : service) : list bytes :=
  [property "Id" (sv_id s); property "ActiveState" (sv_active s); property "SubState" (sv_sub s); property "NRestarts" (FormatUint (sv_restarts s))].
Definition service_ok (s : service) : Prop :=
  sv_id s <> [] /\ newline ∉ sv_id s /\ newline ∉ sv_active s /\ newline ∉ sv_sub s /\ 0 <= sv_restarts s < 2 ^ 64.
Definition service_points (s : service) : list MetricPoint :=
  [ gauge "systemd_service_active" "1 when the service is active" (if bool_decide (sv_active s = B "active") then f64_one else f64_zero)
      (list_to_map [("unit", S (sv_id s)); ("state", S (sv_sub s))]);
    counter "systemd_service_restarts_total" "Times systemd restarted the service since it was started" (f64_of_Z (sv_restarts s)) {["unit" := S (sv_id s)]} ].

Definition plain_line (l : bytes) : Prop := l <> [] /\ newline ∉ l.

(** No blank line inside a block. *)
Lemma Join_single_newlines (ls : list bytes) (j : nat) : Forall plain_line ls -> Join ls newline !! j = Some newline ->
  exists c, Join ls newline !! Datatypes.S j = Some c /\ c <> newline.
Proof.
  intros H. revert j. induction H as [|w ws [Hne Hw] Hws IH]; intros j Hj; [cbn [Join] in Hj; by rewrite lookup_nil in Hj|].
  cbn [Join] in *. destruct ws as [|v ws]; [exfalso; apply Hw; by eapply list_elem_of_lookup_2|].
  destruct (decide (j < length w)%nat) as [Hlt|Hge]; [rewrite lookup_app_l in Hj by done; exfalso; apply Hw; by eapply list_elem_of_lookup_2|].
  rewrite lookup_app_r in Hj |- * by lia. replace (Datatypes.S j - length w)%nat with (Datatypes.S (j - length w)) by lia.
  destruct (j - length w)%nat as [|i]; cbn [lookup list_lookup] in *.
  - apply Forall_cons in Hws as [[Hv1 Hv2] _]. destruct v as [|c v]; [done|]. exists c. split; [cbn [Join]; by destruct ws|].
    intros ->. apply Hv2. by left.
  - by apply IH.
Qed.

Lemma no_blank (ls : list bytes) (x : bytes) (j : nat) : Forall plain_line ls -> (j < length (Join ls newline))%nat ->
  HasPrefix (drop j (Join ls newline ++ x)) [newline; newline] = false.
Proof.
  intros Hl Hj. destruct (HasPrefix _ _) eqn:E; [|done]. exfalso. apply HasPrefix_spec in E as [t Ht].
  assert (H0 : (Join ls newline ++ x) !! j = Some newline) by (rewrite <-(Nat.add_0_r j), <-lookup_drop, Ht; done).
  assert (H1 : (Join ls newline ++ x) !! Datatypes.S j = Some newline) by (rewrite <-Nat.add_1_r, <-lookup_drop, Ht; done).
  rewrite lookup_app_l in H0 by done. destruct (Join_single_newlines ls j Hl H0) as (c & Hc & Hne).
  rewrite (lookup_app_l_Some _ _ _ _ Hc) in H1. congruence.
Qed.

Lemma Split_Join_lines (ls : list bytes) : Forall plain_line ls -> ls <> [] -> Split (Join ls newline) newline = ls.
Proof.
  intros H Hne. induction H as [|w ws [Hw Hn] Hws IH]; [done|]. cbn [Join]. destruct ws as [|v ws].
  - clear -Hn. induction w as [|c w IH]; [done|]. cbn [Split]. rewrite not_elem_of_cons in Hn. rewrite bool_decide_false by naive_solver. by rewrite IH by tauto.
  - rewrite Split_line by done. by rewrite IH.
Qed.

Lemma show_value_unique (b : list bytes) (key v : bytes) :
  (forall line w, line ∈ b -> Cut line "="%char = Some (key, w) -> w = v) -> (exists line, line ∈ b /\ Cut line "="%char = Some (key, v)) ->
  show_value b key = v.
Proof.
  intros Hu He. unfold show_value.
  assert (G : forall l v0, l ⊆ b -> v0 = v \/ (exists line, line ∈ l /\ Cut line "="%char = Some (key, v)) ->
    foldl (fun v line => match Cut line "="%char with Some (k, w) => if bool_decide (k = key) then w else v | None => v end) v0 l = v).
  { induction l as [|x l IH]; intros v0 Hs Hv; cbn [foldl].
    - destruct Hv as [->|(line & Hin & _)]; [done|by apply not_elem_of_nil in Hin].
    - assert (Hx : x ∈ b) by (apply Hs; by left). assert (Hl : l ⊆ b) by (intros y Hy; apply Hs; by right). apply IH; [done|].
      destruct (Cut x "="%char) as [[k w]|] eqn:E.
      + case_bool_decide as Hk; [left; subst k; by apply (Hu x)|]. destruct Hv as [Hv|(line & [->|Hin]%elem_of_cons & Hc)]; [by left|congruence|right; eauto].
      + destruct Hv as [Hv|(line & [->|Hin]%elem_of_cons & Hc)]; [by left|congruence|right; eauto]. }
  by apply G; [|right].
Qed.

Lemma Cut_property (k : string) (v : bytes) : "="%char ∉ B k -> Cut (property k v) "="%char = Some (B k, v).
Proof. intros H. by apply Cut_app. Qed.

Lemma service_cut (s : service) (line key w : bytes) : line ∈ service_lines s -> Cut line "="%char = Some (key, w) ->
  (key, w) ∈ [(B "Id", sv_id s); (B "ActiveState", sv_active s); (B "SubState", sv_sub s); (B "NRestarts", FormatUint (sv_restarts s))].
Proof.
  assert (Hn : forall k, k ∈ ["Id"; "ActiveState"; "SubState"; "NRestarts"] -> "="%char ∉ B k).
  { apply Forall_forall. repeat (constructor; [apply (bool_decide_eq_true_1 _); vm_compute; reflexivity|]). constructor. }
  intros Hl Hc. unfold service_lines in Hl. rewrite !elem_of_cons in Hl. rewrite !elem_of_cons.
  destruct Hl as [->|[->|[->|[->|[]%not_elem_of_nil]]]]; rewrite Cut_property in Hc by (apply Hn; rewrite !elem_of_cons; tauto); injection Hc as <- <-; tauto.
Qed.

Lemma show_lines (s : service) (b : list bytes) : service_ok s -> b ≡ₚ service_lines s ->
  show_value b (B "Id") = sv_id s /\ show_value b (B "ActiveState") = sv_active s /\ show_value b (B "SubState") = sv_sub s
  /\ show_value b (B "NRestarts") = FormatUint (sv_restarts s) /\ Forall plain_line b.
Proof.
  intros (Hid & H1 & H2 & H3 & _) Hp.
  assert (Hu : forall k v, (B k, v) ∈ [(B "Id", sv_id s); (B "ActiveState", sv_active s); (B "SubState", sv_sub s); (B "NRestarts", FormatUint (sv_restarts s))] ->
    property k v ∈ service_lines s -> "="%char ∉ B k -> show_value b (B k) = v).
  { intros k v Hkv Hin Hne. apply show_value_unique; [|exists (property k v); split; [by rewrite Hp|by apply Cut_property]].
    intros line w Hl Hc. rewrite Hp in Hl. pose proof (service_cut s line _ _ Hl Hc) as Hw. rewrite !elem_of_cons in Hw. rewrite !elem_of_cons in Hkv. clear -Hw Hkv.
    destruct Hkv as [E|[E|[E|[E|[]%not_elem_of_nil]]]]; apply pair_equal_spec in E as [Ek ->]; rewrite Ek in Hw;
      destruct Hw as [E|[E|[E|[E|[]%not_elem_of_nil]]]]; apply pair_equal_spec in E as [E ->]; solve [done|discriminate E]. }
  assert (Hn : forall k, k ∈ ["Id"; "ActiveState"; "SubState"; "NRestarts"] -> "="%char ∉ B k /\ newline ∉ B k).
  { apply Forall_forall. repeat (constructor; [split; apply (bool_decide_eq_true_1 _); vm_compute; reflexivity|]). constructor. }
  split_and!; try (apply Hu; [set_solver|set_solver|apply Hn; set_solver]).
  rewrite Hp. assert (Hline : forall k v, newline ∉ B k -> newline ∉ v -> B k <> [] -> plain_line (property k v)).
  { intros k v Hk Hv Hne. split; [unfold property; by destruct (B k)|]. unfold property. rewrite not_elem_of_app, not_elem_of_cons. split; [done|]. by split. }
  repeat (constructor; [apply Hline; [apply Hn; set_solver|try done|done]|]); [|constructor].
  apply digits_no. reflexivity.
Qed.

(** The output for several units: blocks separated by a blank line. *)
Fixpoint show_text (bs : list (list bytes)) : bytes :=
  match bs with
  | [] => []
  | [b] => Join b newline ++ [newline]
  | b :: t => Join b newline ++ [newline; newline] ++ show_text t
  end.

Lemma show_block_of (s : service) (b : list bytes) (text : bytes) : service_ok s -> b ≡ₚ service_lines s ->
  Split text newline = b \/ Split text newline = b ++ [[]] -> show_block text = service_points s.
Proof.
  intros Hs Hp Ht. destruct (show_lines s b Hs Hp) as (V1 & V2 & V3 & V4 & _).
  assert (Hv : forall k, show_value (Split text newline) k = show_value b k).
  { intros k. destruct Ht as [-> | ->]; [done|]. unfold show_value. by rewrite foldl_app. }
  unfold show_block. rewrite !Hv, V1, V2, V3, V4. destruct Hs as (Hid & _ & _ & _ & Hr).
  rewrite ParseFloat_FormatUint by done. unfold service_points. by destruct (sv_id s).
Qed.

Lemma Split_last (a : bytes) (c : ascii) : Split (a ++ [c]) c = Split a c ++ [[]].
Proof.
  induction a as [|d a IH]; cbn [app Split]; [by rewrite bool_decide_true|]. rewrite IH. case_bool_decide; [done|].
  by destruct (Split a c) eqn:E; [destruct (Split_nonempty _ _ E)|].
Qed.

(** the state of the services is read back.  For every list of services,
    printed by [systemctl show] as blocks with their properties in any order,
    the collector reports for each, in order, whether it is active with its
    sub-state, and the number of its restarts. *)
Theorem parseShow_services (bs : list (service * list bytes)) :
  Forall (fun x => service_ok x.1 /\ x.2 ≡ₚ service_lines x.1) bs -> bs <> [] ->
  parseShow (show_text (map snd bs)) = concat (map (fun x => service_points x.1) bs).
Proof.
  intros H Hne. unfold parseShow, SplitStr. induction H as [|[s b] bs [Hs Hp] H IH]; [done|]. cbn [fst snd map] in *.
  destruct (show_lines s b Hs Hp) as (_ & _ & _ & _ & Hl).
  assert (Hb : b <> []) by (intros ->; by apply Permutation_nil in Hp).
  pose proof (Split_Join_lines b Hl Hb) as Hsplit. destruct bs as [|[s' b'] bs].
  - cbn [map show_text]. rewrite split_str_end.
    + cbn [app map concat]. rewrite (show_block_of s b); [done|done|done|right].
      by rewrite Split_last, Hsplit.
    + intros j. destruct (decide (j < length (Join b newline))%nat) as [Hj|Hj]; [by apply no_blank|].
      rewrite drop_app_ge by lia. by destruct (j - length (Join b newline))%nat as [|[|]].
  - change (show_text (b :: map snd ((s', b') :: bs))) with (Join b newline ++ [newline; newline] ++ show_text (map snd ((s', b') :: bs))).
    rewrite split_str_piece; [|done|intros j Hj; by apply no_blank]. cbn [app map concat]. rewrite (show_block_of s b); [|done|done|by left].
    f_equal. by apply IH.
Qed.

Definition demo_service : service := {| sv_id := B "nginx.service"; sv_active := B "active"; sv_sub := B "running"; sv_restarts := 3 |}.
Lemma parseShow_services_witness :
  parseShow (show_text [service_lines demo_service; reverse (service_lines demo_service)]) = service_points demo_service ++ service_points demo_service.
Proof.
  assert (Hs : service_ok demo_service). { split_and!; try (apply (bool_decide_eq_true_1 _); vm_compute; reflexivity); done. }
  apply (parseShow_services [(demo_service, service_lines demo_service); (demo_service, reverse (service_lines demo_service))]); [|done].
  constructor; [split; [exact Hs|done]|]. constructor; [split; [exact Hs|]|constructor]. apply reverse_Permutation.
Defined.

(** Two modules of a server, one slot empty. *)
Definition dmi_text : bytes := Join (map B
  ["Handle 0x0011, DMI type 17, 40 bytes"; "Memory Device"; "Size: 16 GB"; "Bank Locator: BANK 0"; "Locator: DIMM_A1"; "Type: DDR4"; "Speed: 2666 MT/s";
   "Manufacturer: Samsung"; ""; "Memory Device"; "Size: No Module Installed"; "Locator: DIMM_A2"; ""; "Memory Device"; "Size: 8192 MB"; "Locator: DIMM_B1"; "Speed: Unknown"]) newline.
Example dmi_run : map (fun m => (SizeMB m, S (mm_Type m), SpeedMhz m, S (Manufacturer m), S (Locator m))) (parseDmidecodeMemory dmi_text)
  = [(16384, "DDR4", 2666, "Samsung", "DIMM_A1"); (8192, "", 0, "", "DIMM_B1")].
Proof. vm_compute. reflexivity. Qed.

Example directives_run : map S (omap (cert_path demo_paths) (directives (Join (map B
  ["server {"; "  ssl_certificate /etc/ssl/a.pem;"; "  # ssl_certificate /etc/ssl/b.pem;"; "  ssl_certificate $cert;"; "smtpd_tls_cert_file = /etc/c.pem"]) newline)))
  = ["/etc/ssl/a.pem"; "/etc/c.pem"].
Proof. vm_compute. reflexivity. Qed.
