(* ===== verification/FastCGI.v ===== *)
(** * PHP-FPM over FastCGI

    [internal/integrations/fastcgi.go], [phpfpm.go] and [status.go]: a minimal
    FastCGI client that asks a pool for its status page.  The connection is a
    function from the request to what is then read until the connection ends;
    the order in which the parameters are written is that of a Go map and an
    argument. *)
From S2P Require Import Prelude GoFloat GoStrings GoText GoNum GoFloatText GoRegexp GoJSON Metrics HostFs HostInfo.
Local Open Scope string_scope.
Local Open Scope list_scope.
Local Open Scope Z_scope.

(** ** [status.go] *)
Definition StatusOK : string := "ok".
Definition StatusUnconfigured : string := "unconfigured".
Definition StatusError : string := "error".
Definition status (integration state instance : string) : MetricPoint :=
  let l := list_to_map [("integration", integration); ("status", state)] in
  point "agent_integration_status" "1 per integration and instance, labelled with how reading it went (ok, unconfigured, error)" Gauge f64_one
    (if bool_decide (instance = "") then l else <["instance" := instance]> l).

(** ** [fastcgi.go] *)
Definition fcgiVersion : Z := 1.
Definition fcgiBeginRequest : Z := 1.
Definition fcgiEndRequest : Z := 3.
Definition fcgiParams : Z := 4.
Definition fcgiStdin : Z := 5.
Definition fcgiStdout : Z := 6.
Definition fcgiStderr : Z := 7.
Definition fcgiResponder : Z := 1.

Definition bytes_of (l : list Z) : bytes := map byte_of_Z l.
Definition zeros (n : Z) : bytes := replicate (Z.to_nat n) (byte_of_Z 0).

Definition fcgiRecord (typ : Z) (content : bytes) : bytes :=
  let n := len content in
  let pad := Z.rem (8 - Z.rem n 8) 8 in
  bytes_of [fcgiVersion; typ; 0; 1; Z.shiftr n 8; n; pad; 0] ++ content ++ zeros pad.

Definition fcgiLength (n : Z) : bytes :=
  if n <? 128 then [byte_of_Z n]
  else let v := Z.lor (n mod 2 ^ 32) (Z.shiftl 1 31) in
       bytes_of [Z.shiftr v 24; Z.shiftr v 16; Z.shiftr v 8; v].
Definition fcgiPair (k v : bytes) : bytes := fcgiLength (len k) ++ fcgiLength (len v) ++ k ++ v.

Definition fcgi_params (path query : bytes) : list (bytes * bytes) :=
  [ (B "SCRIPT_NAME", path); (B "SCRIPT_FILENAME", path); (B "REQUEST_URI", path ++ B "?" ++ query);
    (B "QUERY_STRING", query); (B "REQUEST_METHOD", B "GET"); (B "SERVER_PROTOCOL", B "HTTP/1.1"); (B "GATEWAY_INTERFACE", B "CGI/1.1") ].

(** The request, the parameters being written in the order [ps]. *)
Definition fcgi_request (ps : list (bytes * bytes)) : bytes :=
  fcgiRecord fcgiBeginRequest (bytes_of [0; fcgiResponder; 0; 0; 0; 0; 0; 0])
  ++ fcgiRecord fcgiParams (concat (map (fun '(k, v) => fcgiPair k v) ps))
  ++ fcgiRecord fcgiParams [] ++ fcgiRecord fcgiStdin [].

Inductive fcgi_result := FcgiBody (body : bytes) | FcgiNotEnabled | FcgiError.

Definition crlf2 : bytes := bytes_of [13; 10; 13; 10].
(** The page without its headers, when the request ended. *)
Definition cgi_body (out : bytes) : fcgi_result :=
  match CutStr out crlf2 with
  | Some (head, rest) =>
      if Contains head (B "Status: 404") || Contains head (B "Status: 403") then FcgiNotEnabled else FcgiBody rest
  | None => FcgiBody out
  end.

(** The loop over the records of the answer; a read past the end of the
    stream is an error. *)
Fixpoint fcgi_read (fuel : nat) (s stdout : bytes) : fcgi_result :=
  match fuel with
  | O => FcgiError
  | Datatypes.S f =>
      match s with
      | _ :: typ :: _ :: _ :: l1 :: l0 :: p :: _ :: rest =>
          let n := byteval l1 * 256 + byteval l0 in
          let m := n + byteval p in
          if len rest <? m then FcgiError
          else
            let content := take (Z.to_nat n) rest in
            let rest' := drop (Z.to_nat m) rest in
            if byteval typ =? fcgiStdout then fcgi_read f rest' (stdout ++ content)
            else if byteval typ =? fcgiEndRequest then cgi_body stdout
            else fcgi_read f rest' stdout
      | _ => FcgiError
      end
  end.

(** [conn]: no connection, or for a request the bytes read after it ([None]: the
    write failed). *)
Definition fcgiGet (conn : option (bytes -> option bytes)) (ps : list (bytes * bytes)) : fcgi_result :=
  match conn with
  | None => FcgiError
  | Some server =>
      match server (fcgi_request ps) with
      | None => FcgiError
      | Some s => fcgi_read (Datatypes.S (length s)) s []
      end
  end.

(** ** The protocol, from the side of the server

    Records and name-value pairs as the FastCGI specification defines them. *)
Fixpoint spec_records (fuel : nat) (s : bytes) : option (list (Z * bytes)) :=
  match fuel with
  | O => None
  | Datatypes.S f =>
      match s with
      | [] => Some []
      | v :: typ :: i1 :: i0 :: l1 :: l0 :: p :: _ :: rest =>
          let n := byteval l1 * 256 + byteval l0 in
          let m := n + byteval p in
          if (byteval v =? 1) && (byteval i1 * 256 + byteval i0 =? 1) && (m <=? len rest) then
            (fun l => (byteval typ, take (Z.to_nat n) rest) :: l) <$> spec_records f (drop (Z.to_nat m) rest)
          else None
      | _ => None
      end
  end.

(** A length: one byte, or four when the high bit of the first is set. *)
Definition spec_length (s : bytes) : option (Z * bytes) :=
  match s with
  | b :: rest =>
      if byteval b <? 128 then Some (byteval b, rest)
      else match rest with
           | c :: d :: e :: rest' => Some (((byteval b - 128) * 256 + byteval c) * 65536 + byteval d * 256 + byteval e, rest')
           | _ => None
           end
  | [] => None
  end.

Fixpoint spec_pairs (fuel : nat) (s : bytes) : option (list (bytes * bytes)) :=
  match fuel, s with
  | _, [] => Some []
  | O, _ => None
  | Datatypes.S f, _ =>
      '(n, s1) ← spec_length s; '(m, s2) ← spec_length s1;
      if n + m <=? len s2
      then (fun l => (take (Z.to_nat n) s2, take (Z.to_nat m) (drop (Z.to_nat n) s2)) :: l) <$> spec_pairs f (drop (Z.to_nat (n + m)) s2)
      else None
  end.

(** A responder request: its begin record, the parameters as a stream that an
    empty record ends, and no input. *)
Definition spec_request (s : bytes) : option (list (bytes * bytes)) :=
  match spec_records (Datatypes.S (length s)) s with
  | Some [(1, begin_); (4, params); (4, []); (5, [])] =>
      if bool_decide (take 2 begin_ = bytes_of [0; 1]) then spec_pairs (length params) params else None
  | _ => None
  end.

(** What a server may send: records of output and errors, split and padded as
    it likes, and the end of the request. *)
Record frame := { fr_type : Z; fr_content : bytes; fr_pad : bytes; fr_id : Z * Z; fr_reserved : ascii; fr_version : ascii }.
Definition frame_ok (f : frame) : Prop := 0 <= fr_type f < 256 /\ len (fr_content f) < 65536 /\ len (fr_pad f) < 256.
Definition frame_bytes (f : frame) : bytes :=
  fr_version f :: byte_of_Z (fr_type f) :: byte_of_Z (fst (fr_id f)) :: byte_of_Z (snd (fr_id f))
  :: byte_of_Z (len (fr_content f) / 256) :: byte_of_Z (len (fr_content f)) :: byte_of_Z (len (fr_pad f)) :: fr_reserved f :: fr_content f ++ fr_pad f.
Definition stdout_of (fs : list frame) : bytes := concat (map fr_content (List.filter (fun f => fr_type f =? fcgiStdout) fs)).

(** ** Reading the answer *)
Lemma two_bytes (n : Z) : 0 <= n < 65536 -> byteval (byte_of_Z (n / 256)) * 256 + byteval (byte_of_Z n) = n.
Proof. intros H. rewrite !byteval_of_Z. Z.to_euclidean_division_equations. lia. Qed.

Lemma len_nonneg {A} (l : list A) : 0 <= len l.
Proof. unfold len. lia. Qed.

Lemma fcgi_read_frame (fuel : nat) (f : frame) (t out : bytes) : frame_ok f ->
  fcgi_read (Datatypes.S fuel) (frame_bytes f ++ t) out
  = if fr_type f =? fcgiStdout then fcgi_read fuel t (out ++ fr_content f)
    else if fr_type f =? fcgiEndRequest then cgi_body out else fcgi_read fuel t out.
Proof.
  intros (Ht & Hc & Hp). unfold frame_bytes. cbn [app fcgi_read].
  pose proof (len_nonneg (fr_content f)). pose proof (len_nonneg (fr_pad f)).
  rewrite two_bytes by lia. rewrite !byteval_of_Z, (Z.mod_small (fr_type f)), (Z.mod_small (len (fr_pad f))) by lia.
  rewrite <-app_assoc. destruct (Z.ltb_spec (len (fr_content f ++ fr_pad f ++ t)) (len (fr_content f) + len (fr_pad f))) as [Hl|Hl].
  { unfold len in Hl. rewrite !length_app in Hl. lia. }
  replace (Z.to_nat (len (fr_content f))) with (length (fr_content f)) by (unfold len; lia). rewrite take_app_length.
  replace (Z.to_nat (len (fr_content f) + len (fr_pad f))) with (length (fr_content f ++ fr_pad f)) by (unfold len; rewrite length_app; lia).
  rewrite app_assoc, drop_app_length. done.
Qed.

Lemma fcgi_read_frames (fs : list frame) (fuel : nat) (t out : bytes) :
  Forall (fun f => frame_ok f /\ fr_type f <> fcgiEndRequest) fs ->
  fcgi_read (length fs + fuel) (concat (map frame_bytes fs) ++ t) out = fcgi_read fuel t (out ++ stdout_of fs).
Proof.
  intros H. revert out. induction H as [|f fs [Hf Hne] _ IH]; intros out; cbn [length Nat.add map concat app]; [by rewrite app_nil_r|].
  rewrite <-app_assoc, fcgi_read_frame by done. unfold stdout_of. cbn [List.filter].
  destruct (Z.eqb_spec (fr_type f) fcgiStdout) as [E|E]; [cbn [map concat]; rewrite app_assoc; apply IH|].
  destruct (Z.eqb_spec (fr_type f) fcgiEndRequest); [done|]. apply IH.
Qed.

Lemma frames_length (fs : list frame) : (length fs <= length (concat (map frame_bytes fs)))%nat.
Proof.
  induction fs as [|f fs IH]; [done|]. cbn [map concat length]. rewrite length_app.
  assert (1 <= length (frame_bytes f))%nat by (unfold frame_bytes; cbn [length]; lia). lia.
Qed.

Lemma fcgi_read_answer (fs : list frame) (e : frame) (t : bytes) (fuel : nat) :
  Forall (fun f => frame_ok f /\ fr_type f <> fcgiEndRequest) fs -> frame_ok e -> fr_type e = fcgiEndRequest ->
  (length (concat (map frame_bytes fs) ++ frame_bytes e ++ t) <= fuel)%nat ->
  fcgi_read fuel (concat (map frame_bytes fs) ++ frame_bytes e ++ t) [] = cgi_body (stdout_of fs).
Proof.
  intros Hf He Ht Hl. pose proof (frames_length fs). rewrite !length_app in Hl. unfold frame_bytes at 2 in Hl. cbn [length] in Hl.
  replace fuel with (length fs + Datatypes.S (fuel - length fs - 1))%nat by lia.
  rewrite fcgi_read_frames, fcgi_read_frame by done. by rewrite Ht.
Qed.

(** ** Writing the request *)
Lemma pad_range (n : Z) : 0 <= n -> 0 <= Z.rem (8 - Z.rem n 8) 8 < 8.
Proof. intros H. Z.to_euclidean_division_equations. lia. Qed.

Lemma length_zeros (n : Z) : length (zeros n) = Z.to_nat n.
Proof. apply length_replicate. Qed.

Lemma spec_records_record (fuel : nat) (typ : Z) (content t : bytes) : 0 <= typ < 256 -> len content < 65536 ->
  spec_records (Datatypes.S fuel) (fcgiRecord typ content ++ t) = (fun l => (typ, content) :: l) <$> spec_records fuel t.
Proof.
  intros Ht Hc. pose proof (len_nonneg content) as Hn. pose proof (pad_range (len content) Hn) as Hp.
  unfold fcgiRecord. set (pad := Z.rem (8 - Z.rem (len content) 8) 8) in *. clearbody pad. cbn [bytes_of map app spec_records].
  rewrite Z.shiftr_div_pow2 by lia. change (2 ^ 8) with 256. rewrite two_bytes by lia.
  rewrite !byteval_of_Z. unfold fcgiVersion. rewrite (Z.mod_small typ), (Z.mod_small pad) by lia. cbn [Z.eqb Pos.eqb andb].
  rewrite <-app_assoc. assert (Hl : (len content + pad <=? len (content ++ zeros pad ++ t)) = true).
  { unfold len. rewrite !length_app, length_zeros. apply Z.leb_le. lia. }
  change (1 mod 256) with 1. change (0 mod 256) with 0. cbn [Z.mul Z.add Z.eqb Pos.eqb andb]. rewrite Hl.
  replace (Z.to_nat (len content)) with (length content) by (unfold len; lia). rewrite take_app_length.
  replace (Z.to_nat (len content + pad)) with (length (content ++ zeros pad)) by (unfold len; rewrite length_app, length_zeros; lia).
  by rewrite app_assoc, drop_app_length.
Qed.

Lemma lor_high (n : Z) : 0 <= n < 2 ^ 31 -> Z.lor n (Z.shiftl 1 31) = n + 2 ^ 31.
Proof.
  intros H. rewrite Z.shiftl_1_l. 
  assert (Hland : Z.land n (2 ^ 31) = 0).
  { apply Z.bits_inj'. intros i Hi. rewrite Z.land_spec, Z.bits_0, Z.pow2_bits_eqb by lia.
    destruct (Z.eqb_spec 31 i) as [<-|]; [|by rewrite andb_false_r]. rewrite andb_true_r.
    destruct (decide (n = 0)) as [->|]; [apply Z.bits_0|]. apply Z.bits_above_log2; [lia|apply Z.log2_lt_pow2; lia]. }
  by rewrite <-Z.lxor_lor, <-Z.add_nocarry_lxor.
Qed.

Lemma spec_length_of (n : Z) (t : bytes) : 0 <= n < 2 ^ 31 -> spec_length (fcgiLength n ++ t) = Some (n, t).
Proof.
  intros Hn. unfold fcgiLength. destruct (Z.ltb_spec n 128) as [H|H]; cbn [app spec_length].
  - rewrite byteval_of_Z, Z.mod_small by lia. by destruct (Z.ltb_spec n 128); [|lia].
  - rewrite (Z.mod_small n) by lia. rewrite lor_high by done. cbn [bytes_of map app spec_length].
    rewrite !Z.shiftr_div_pow2, !byteval_of_Z by lia. change (2 ^ 24) with 16777216. change (2 ^ 16) with 65536. change (2 ^ 8) with 256. change (2 ^ 31) with 2147483648 in *.
    destruct (Z.ltb_spec (((n + 2147483648) / 16777216) mod 256) 128) as [Hb|Hb].
    + Z.to_euclidean_division_equations. lia.
    + f_equal. f_equal. Z.to_euclidean_division_equations. lia.
Qed.

Definition pair_ok (p : bytes * bytes) : Prop := len p.1 < 2 ^ 31 /\ len p.2 < 2 ^ 31.

Lemma fcgiPair_length (k v : bytes) : (1 <= length (fcgiPair k v))%nat.
Proof. unfold fcgiPair, fcgiLength. rewrite !length_app. destruct (_ <? _); cbn [length bytes_of map]; lia. Qed.

Lemma spec_pairs_of (ps : list (bytes * bytes)) (fuel : nat) : Forall pair_ok ps ->
  (length (concat (map (fun '(k, v) => fcgiPair k v) ps)) <= fuel)%nat ->
  spec_pairs fuel (concat (map (fun '(k, v) => fcgiPair k v) ps)) = Some ps.
Proof.
  intros H. revert fuel. induction H as [|[k v] ps [Hk Hv] _ IH]; intros fuel Hf; [by destruct fuel|]. cbn [fst snd] in *.
  cbn [map concat] in *. rewrite length_app in Hf. pose proof (fcgiPair_length k v) as Hl1.
  destruct fuel as [|fuel]; [lia|]. cbn [spec_pairs].
  destruct (fcgiPair k v ++ _) as [|c s] eqn:E; [apply (f_equal length) in E; rewrite length_app in E; cbn in E; lia|]. rewrite <-E. clear E c s.
  unfold fcgiPair at 1. rewrite <-!app_assoc. rewrite spec_length_of by (pose proof (len_nonneg k); lia). cbn [mbind option_bind].
  rewrite spec_length_of by (pose proof (len_nonneg v); lia). cbn [mbind option_bind].
  set (rest := concat _) in *. assert (Hle : (len k + len v <=? len (k ++ v ++ rest)) = true) by (unfold len; rewrite !length_app; apply Z.leb_le; lia). rewrite Hle.
  replace (Z.to_nat (len k)) with (length k) by (unfold len; lia). replace (Z.to_nat (len v)) with (length v) by (unfold len; lia).
  replace (Z.to_nat (len k + len v)) with (length (k ++ v)) by (unfold len; rewrite length_app; lia).
  rewrite take_app_length, drop_app_length, take_app_length. rewrite app_assoc, drop_app_length. rewrite IH by lia. done.
Qed.

Lemma pairs_ok_total (ps : list (bytes * bytes)) : len (concat (map (fun '(k, v) => fcgiPair k v) ps)) < 65536 -> Forall pair_ok ps.
Proof.
  intros H. apply Forall_forall. intros [k v] Hin. assert (Hle : (length k + length v <= length (concat (map (fun '(k, v) => fcgiPair k v) ps)))%nat).
  { clear H. induction ps as [|[k' v'] ps IH]; [by apply not_elem_of_nil in Hin|]. cbn [map concat]. rewrite length_app.
    apply elem_of_cons in Hin as [[= <- <-]|Hin]; [unfold fcgiPair; rewrite !length_app; lia|]. specialize (IH Hin). lia. }
  unfold pair_ok, len in *. cbn [fst snd]. lia.
Qed.

Lemma spec_request_of (ps : list (bytes * bytes)) : len (concat (map (fun '(k, v) => fcgiPair k v) ps)) < 65536 -> spec_request (fcgi_request ps) = Some ps.
Proof.
  intros H. unfold spec_request, fcgi_request. set (params := concat _) in *.
  set (b := fcgiRecord fcgiBeginRequest _). set (n := length _).
  assert (Hn : (4 <= n)%nat) by (subst n; rewrite length_app; subst b; unfold fcgiRecord; rewrite length_app; cbn; lia).
  replace (Datatypes.S n) with (5 + (n - 4))%nat by lia. clearbody n. subst b. cbn [Nat.add]. rewrite spec_records_record by (vm_compute; intuition discriminate).
  rewrite spec_records_record by (done || (unfold fcgiParams; lia)).
  rewrite spec_records_record by (vm_compute; intuition discriminate). rewrite <-(app_nil_r (fcgiRecord fcgiStdin [])).
  rewrite spec_records_record by (vm_compute; intuition discriminate). cbn [spec_records fmap option_fmap option_map].
  rewrite bool_decide_true by reflexivity. apply spec_pairs_of; [by apply pairs_ok_total|done].
Qed.

(** A server that reads the request by the specification and answers with the
    records of [handler]; what it sends after the end is not read. *)
Definition fcgi_server (handler : list (bytes * bytes) -> list frame * frame * bytes) (req : bytes) : option bytes :=
  match spec_request req with
  | Some ps => let '(fs, e, t) := handler ps in Some (concat (map frame_bytes fs) ++ frame_bytes e ++ t)
  | None => None
  end.

(** C37: the client and a server that follows the FastCGI specification
    understand each other.  The request decodes to exactly the parameters, in
    whatever order they were written; the answer may be split into records,
    padded and mixed with error output in any way: what is returned depends only
    on the output put together, and is the page after its headers unless they
    say that it is not there. *)
Theorem fcgi_roundtrip (handler : list (bytes * bytes) -> list frame * frame * bytes) (path query : bytes) (ps : list (bytes * bytes)) :
  ps ≡ₚ fcgi_params path query -> len (concat (map (fun '(k, v) => fcgiPair k v) ps)) < 65536 ->
  Forall (fun f => frame_ok f /\ fr_type f <> fcgiEndRequest) (handler ps).1.1 -> frame_ok (handler ps).1.2 -> fr_type (handler ps).1.2 = fcgiEndRequest ->
  let out := stdout_of (handler ps).1.1 in
  fcgiGet (Some (fcgi_server handler)) ps = cgi_body out
  /\ (forall head body, out = head ++ crlf2 ++ body -> (forall j, (j < length head)%nat -> HasPrefix (drop j out) crlf2 = false) ->
        Contains head (B "Status: 404") = false -> Contains head (B "Status: 403") = false ->
        fcgiGet (Some (fcgi_server handler)) ps = FcgiBody body).
Proof.
  intros Hp Hl Hfs He Ht out.
  assert (Hget : fcgiGet (Some (fcgi_server handler)) ps = cgi_body out).
  { unfold fcgiGet, fcgi_server. rewrite spec_request_of by done. subst out. destruct (handler ps) as [[fs e] t]. cbn [fst snd] in *.
    apply fcgi_read_answer; [done|done|done|lia]. }
  split; [done|]. intros head body Ho Hfirst H4 H3. rewrite Hget. unfold cgi_body, CutStr. rewrite Ho in *.
  rewrite IndexStr_at by done. cbn [fmap option_fmap option_map]. rewrite take_app_length, H4, H3. cbn [orb].
  by rewrite app_assoc, <-length_app, drop_app_length.
Qed.

(** An answer that ends before the end record, inside a record or between two,
    is an error and never a part of a page. *)
Lemma fcgi_cut_off (fs : list frame) (f : frame) (part t : bytes) : Forall (fun f => frame_ok f /\ fr_type f <> fcgiEndRequest) fs -> frame_ok f ->
  frame_bytes f = part ++ t -> t <> [] -> fcgi_read (Datatypes.S (length (concat (map frame_bytes fs) ++ part))) (concat (map frame_bytes fs) ++ part) [] = FcgiError.
Proof.
  intros Hfs (Ht & Hc & Hpd) Hb Hne. pose proof (frames_length fs) as Hlen. rewrite length_app.
  replace (Datatypes.S (length (concat (map frame_bytes fs)) + length part))
    with (length fs + Datatypes.S (length (concat (map frame_bytes fs)) + length part - length fs))%nat by lia.
  rewrite fcgi_read_frames by done. set (fuel := (_ - _)%nat). clearbody fuel. unfold frame_bytes in Hb.
  do 8 (destruct part as [|? part]; [done|]; cbn [app] in Hb; injection Hb as <- Hb). cbn [fcgi_read].
  pose proof (len_nonneg (fr_content f)). pose proof (len_nonneg (fr_pad f)).
  rewrite two_bytes by lia. rewrite (byteval_of_Z (len (fr_pad f))), (Z.mod_small (len (fr_pad f))) by lia.
  apply (f_equal length) in Hb. rewrite !length_app in Hb. destruct t; [done|]. cbn [length] in Hb.
  destruct (Z.ltb_spec (len part) (len (fr_content f) + len (fr_pad f))); [done|]. unfold len in *. lia.
Qed.

(** A status page in two records of output with an error record between. *)
Definition demo_frame (ty : Z) (c : bytes) (pad : nat) : frame :=
  {| fr_type := ty; fr_content := c; fr_pad := replicate pad (byte_of_Z 0); fr_id := (0, 1); fr_reserved := byte_of_Z 0; fr_version := byte_of_Z 1 |}.
Definition demo_handler (ps : list (bytes * bytes)) : list frame * frame * bytes :=
  ([demo_frame 6 (B "Content-type: x" ++ bytes_of [13; 10]) 3; demo_frame 7 (B "oops") 0; demo_frame 6 (bytes_of [13; 10] ++ B "{}") 1],
   demo_frame 3 (zeros 8) 0, B "ignored").

Lemma fcgi_roundtrip_witness : fcgiGet (Some (fcgi_server demo_handler)) (fcgi_params (B "/status") (B "json")) = FcgiBody (B "{}").
Proof.
  assert (Hok : forall ty c n, 0 <= ty < 256 -> len c < 65536 -> (n < 256)%nat -> frame_ok (demo_frame ty c n)).
  { intros ty c n H1 H2 H3. unfold frame_ok, demo_frame; cbn [fr_type fr_content fr_pad]. split_and!; [lia|lia|done|]. unfold len. rewrite length_replicate. lia. }
  destruct (fcgi_roundtrip demo_handler (B "/status") (B "json") (fcgi_params (B "/status") (B "json"))) as [H _].
  - reflexivity.
  - vm_compute. reflexivity.
  - repeat (constructor; [split; [apply Hok; [lia|vm_compute; reflexivity|lia]|discriminate]|]). constructor.
  - apply Hok; [lia|vm_compute; reflexivity|lia].
  - reflexivity.
  - rewrite H. vm_compute. reflexivity.
Defined.

(** ** [phpfpm.go] *)
Record fpmPool := { p_name : bytes; p_listen : bytes; p_status : bytes }.
Definition DefaultPHPFPMPoolGlobs : list bytes :=
  map B ["/etc/php/*/fpm/pool.d/*.conf"; "/etc/php-fpm.d/*.conf"; "/etc/opt/remi/php*/php-fpm.d/*.conf"; "/usr/local/etc/php-fpm.d/*.conf"].
Definition reVersion : re := MustCompile "/php/?([0-9.]+)/".

(** Setting a field of the current pool, the last one found. *)
Fixpoint set_last (f : fpmPool -> fpmPool) (l : list fpmPool) : list fpmPool :=
  match l with
  | [] => []
  | [p] => [f p]
  | p :: t => p :: set_last f t
  end.

(** A line of a pool configuration; the flag tells whether the file has a
    current section. *)
Definition pool_line (version : bytes) (st : list fpmPool * bool) (line : bytes) : list fpmPool * bool :=
  let '(out, cur) := st in
  let line := TrimSpace line in
  match line with
  | [] => st
  | c :: _ =>
      if bool_decide (c = ";"%char) || bool_decide (c = "#"%char) then st
      else if HasPrefix line (B "[") && HasSuffix line (B "]") then
        (out ++ [{| p_name := version ++ Trim line (B "[]"); p_listen := []; p_status := [] |}], true)
      else match Cut line "="%char with
           | Some (k, v) =>
               if negb cur then st
               else if bool_decide (TrimSpace k = B "listen") then
                 (set_last (fun p => {| p_name := p_name p; p_listen := TrimSpace v; p_status := p_status p |}) out, cur)
               else if bool_decide (TrimSpace k = B "pm.status_path") then
                 (set_last (fun p => {| p_name := p_name p; p_listen := p_listen p; p_status := TrimSpace v |}) out, cur)
               else st
           | None => st
           end
  end.

Definition pool_file (read : bytes -> option bytes) (out : list fpmPool) (f : bytes) : list fpmPool :=
  match read f with
  | None => out
  | Some b =>
      let version := match FindStringSubmatch reVersion 1 f with Some m => nth 1 m [] ++ B "/" | None => [] end in
      (foldl (pool_line version) (out, false) (Split b newline)).1
  end.
Definition pools (Glob : bytes -> list bytes) (read : bytes -> option bytes) (globs : list bytes) : list fpmPool :=
  foldl (pool_file read) [] (concat (map Glob globs)).

Record fpmStatus := { AcceptedConn : float64; ListenQueue : float64; MaxListenQueue : float64; ListenQueueLen : float64; IdleProcesses : float64; ActiveProcesses : float64; TotalProcesses : float64; MaxActiveProcesses : float64; MaxChildrenReached : float64; SlowRequests : float64 }.
Definition no_status : fpmStatus := {| AcceptedConn := f64_zero; ListenQueue := f64_zero; MaxListenQueue := f64_zero; ListenQueueLen := f64_zero; IdleProcesses := f64_zero; ActiveProcesses := f64_zero; TotalProcesses := f64_zero; MaxActiveProcesses := f64_zero; MaxChildrenReached := f64_zero; SlowRequests := f64_zero |}.
Definition fpm_fields : list (bytes * decoder fpmStatus) :=
  [ (B "accepted conn", fun j s => (fun v => {| AcceptedConn := v; ListenQueue := ListenQueue s; MaxListenQueue := MaxListenQueue s; ListenQueueLen := ListenQueueLen s; IdleProcesses := IdleProcesses s; ActiveProcesses := ActiveProcesses s; TotalProcesses := TotalProcesses s; MaxActiveProcesses := MaxActiveProcesses s; MaxChildrenReached := MaxChildrenReached s; SlowRequests := SlowRequests s |}) <$> dec_float j (AcceptedConn s));
    (B "listen queue", fun j s => (fun v => {| AcceptedConn := AcceptedConn s; ListenQueue := v; MaxListenQueue := MaxListenQueue s; ListenQueueLen := ListenQueueLen s; IdleProcesses := IdleProcesses s; ActiveProcesses := ActiveProcesses s; TotalProcesses := TotalProcesses s; MaxActiveProcesses := MaxActiveProcesses s; MaxChildrenReached := MaxChildrenReached s; SlowRequests := SlowRequests s |}) <$> dec_float j (ListenQueue s));
    (B "max listen queue", fun j s => (fun v => {| AcceptedConn := AcceptedConn s; ListenQueue := ListenQueue s; MaxListenQueue := v; ListenQueueLen := ListenQueueLen s; IdleProcesses := IdleProcesses s; ActiveProcesses := ActiveProcesses s; TotalProcesses := TotalProcesses s; MaxActiveProcesses := MaxActiveProcesses s; MaxChildrenReached := MaxChildrenReached s; SlowRequests := SlowRequests s |}) <$> dec_float j (MaxListenQueue s));
    (B "listen queue len", fun j s => (fun v => {| AcceptedConn := AcceptedConn s; ListenQueue := ListenQueue s; MaxListenQueue := MaxListenQueue s; ListenQueueLen := v; IdleProcesses := IdleProcesses s; ActiveProcesses := ActiveProcesses s; TotalProcesses := TotalProcesses s; MaxActiveProcesses := MaxActiveProcesses s; MaxChildrenReached := MaxChildrenReached s; SlowRequests := SlowRequests s |}) <$> dec_float j (ListenQueueLen s));
    (B "idle processes", fun j s => (fun v => {| AcceptedConn := AcceptedConn s; ListenQueue := ListenQueue s; MaxListenQueue := MaxListenQueue s; ListenQueueLen := ListenQueueLen s; IdleProcesses := v; ActiveProcesses := ActiveProcesses s; TotalProcesses := TotalProcesses s; MaxActiveProcesses := MaxActiveProcesses s; MaxChildrenReached := MaxChildrenReached s; SlowRequests := SlowRequests s |}) <$> dec_float j (IdleProcesses s));
    (B "active processes", fun j s => (fun v => {| AcceptedConn := AcceptedConn s; ListenQueue := ListenQueue s; MaxListenQueue := MaxListenQueue s; ListenQueueLen := ListenQueueLen s; IdleProcesses := IdleProcesses s; ActiveProcesses := v; TotalProcesses := TotalProcesses s; MaxActiveProcesses := MaxActiveProcesses s; MaxChildrenReached := MaxChildrenReached s; SlowRequests := SlowRequests s |}) <$> dec_float j (ActiveProcesses s));
    (B "total processes", fun j s => (fun v => {| AcceptedConn := AcceptedConn s; ListenQueue := ListenQueue s; MaxListenQueue := MaxListenQueue s; ListenQueueLen := ListenQueueLen s; IdleProcesses := IdleProcesses s; ActiveProcesses := ActiveProcesses s; TotalProcesses := v; MaxActiveProcesses := MaxActiveProcesses s; MaxChildrenReached := MaxChildrenReached s; SlowRequests := SlowRequests s |}) <$> dec_float j (TotalProcesses s));
    (B "max active processes", fun j s => (fun v => {| AcceptedConn := AcceptedConn s; ListenQueue := ListenQueue s; MaxListenQueue := MaxListenQueue s; ListenQueueLen := ListenQueueLen s; IdleProcesses := IdleProcesses s; ActiveProcesses := ActiveProcesses s; TotalProcesses := TotalProcesses s; MaxActiveProcesses := v; MaxChildrenReached := MaxChildrenReached s; SlowRequests := SlowRequests s |}) <$> dec_float j (MaxActiveProcesses s));
    (B "max children reached", fun j s => (fun v => {| AcceptedConn := AcceptedConn s; ListenQueue := ListenQueue s; MaxListenQueue := MaxListenQueue s; ListenQueueLen := ListenQueueLen s; IdleProcesses := IdleProcesses s; ActiveProcesses := ActiveProcesses s; TotalProcesses := TotalProcesses s; MaxActiveProcesses := MaxActiveProcesses s; MaxChildrenReached := v; SlowRequests := SlowRequests s |}) <$> dec_float j (MaxChildrenReached s));
    (B "slow requests", fun j s => (fun v => {| AcceptedConn := AcceptedConn s; ListenQueue := ListenQueue s; MaxListenQueue := MaxListenQueue s; ListenQueueLen := ListenQueueLen s; IdleProcesses := IdleProcesses s; ActiveProcesses := ActiveProcesses s; TotalProcesses := TotalProcesses s; MaxActiveProcesses := MaxActiveProcesses s; MaxChildrenReached := MaxChildrenReached s; SlowRequests := v |}) <$> dec_float j (SlowRequests s)) ].

(** Where a pool listens: a socket, or an address with the local host when
    there is only a port. *)
Definition pool_address (listen : bytes) : bytes * bytes :=
  if HasPrefix listen (B "/") then (B "unix", listen)
  else (B "tcp", if Contains listen (B ":") then listen else B "127.0.0.1:" ++ listen).

(** [get network address path]: the page, or nothing on an error. *)
Definition pool_points (get : bytes -> bytes -> bytes -> option bytes) (p : fpmPool) : list MetricPoint :=
  let name := S (p_name p) in
  if bool_decide (p_status p = []) || bool_decide (p_listen p = []) then [status "php_fpm" StatusUnconfigured name]
  else
    let '(network, address) := pool_address (p_listen p) in
    match (body ← get network address (p_status p); j ← Unmarshal body; decode_struct fpm_fields j no_status) with
    | None => [status "php_fpm" StatusError name]
    | Some st =>
        let l := {["pool" := name]} in
        let workers state v := gauge "phpfpm_processes" "Workers by state" v (list_to_map [("pool", name); ("state", state)]) in
        [ status "php_fpm" StatusOK name;
          counter "phpfpm_accepted_connections_total" "Requests the pool accepted" (AcceptedConn st) l;
          gauge "phpfpm_listen_queue" "Requests waiting for a free worker" (ListenQueue st) l;
          gauge "phpfpm_listen_queue_max" "Most requests ever waiting since the pool started" (MaxListenQueue st) l;
          workers "active" (ActiveProcesses st);
          workers "idle" (IdleProcesses st);
          gauge "phpfpm_processes_max_active" "Most workers ever busy at once" (MaxActiveProcesses st) l;
          counter "phpfpm_max_children_reached_total" "Times every worker was busy (pm.max_children reached)" (MaxChildrenReached st) l;
          counter "phpfpm_slow_requests_total" "Requests slower than request_slowlog_timeout" (SlowRequests st) l ]
    end.
Definition phpfpm_Collect (Glob : bytes -> list bytes) (read : bytes -> option bytes) (get : bytes -> bytes -> bytes -> option bytes) : list MetricPoint :=
  concat (map (pool_points get) (pools Glob read DefaultPHPFPMPoolGlobs)).

Example pools_run : map (fun p => (S (p_name p), S (p_listen p), S (p_status p)))
  (pools (fun g => if bool_decide (g = B "/etc/php/*/fpm/pool.d/*.conf") then [B "/etc/php/8.2/fpm/pool.d/www.conf"] else [])
     (fun _ => Some (Join (map B ["listen = /nowhere"; "[www]"; "; listen = old"; "listen = /run/php.sock "; "pm.status_path = /status"; "[b]"; "listen = 9000"]) newline))
     DefaultPHPFPMPoolGlobs)
  = [("8.2/www", "/run/php.sock", "/status"); ("8.2/b", "9000", "")].
Proof. vm_compute. reflexivity. Qed.
