(* ===== verification/Integrations.v ===== *)
(** * nginx, the mail queue and MySQL

    [internal/integrations/nginx.go], [mailqueue.go] and [mysql.go].  What a
    server answers is an argument: a page with its status code, the rows of a
    query, a directory tree.  The sort of [sort.Slice], which leaves equal
    elements in no particular order, is one too. *)
From S2P Require Import Prelude GoFloat GoStrings GoText GoNum GoFloatText GoRegexp GoJSON Metrics HostFs FastCGI.
Local Open Scope string_scope.
Local Open Scope list_scope.
Local Open Scope Z_scope.

(** ** [nginx.go] *)
Definition DefaultNginxStatusURLs : list bytes := map B
  ["http://127.0.0.1:8099/nginx_status"; "http://127.0.0.1/nginx_status"; "http://127.0.0.1/stub_status";
   "http://127.0.0.1:8080/nginx_status"; "http://127.0.0.1/basic_status"].

Record Nginx := { ng_urls : list bytes; ng_found : bytes }.
Definition NewNginx (url : bytes) : Nginx :=
  {| ng_urls := match url with [] => DefaultNginxStatusURLs | _ => [url] end; ng_found := [] |}.

Definition reStub : re := Eval vm_compute in MustCompile
  "(?s)Active connections:\s*(\d+).*?(\d+)\s+(\d+)\s+(\d+).*?Reading:\s*(\d+)\s+Writing:\s*(\d+)\s+Waiting:\s*(\d+)".

(** An answer: its status code and the body as far as it could be read. *)
Record response := { rs_StatusCode : Z; rs_Body : bytes }.
Definition page_limit : nat := 4096.

Definition nginx_read (get : bytes -> option response) (url : bytes) : option (list MetricPoint) :=
  resp ← get url;
  match FindStringSubmatch reStub 7 (take page_limit (rs_Body resp)) with
  | Some m =>
      if negb (rs_StatusCode resp =? 200) then None
      else
        let v := number_at m in
        Some [ gauge "nginx_connections_active" "Open client connections" (v 1%nat) ∅;
               counter "nginx_connections_accepted_total" "Accepted client connections" (v 2%nat) ∅;
               counter "nginx_connections_handled_total" "Handled client connections (less than accepted when a limit is hit)" (v 3%nat) ∅;
               counter "nginx_requests_total" "Client requests" (v 4%nat) ∅;
               gauge "nginx_connections" "Connections by state" (v 5%nat) {["state" := "reading"]};
               gauge "nginx_connections" "Connections by state" (v 6%nat) {["state" := "writing"]};
               gauge "nginx_connections" "Connections by state" (v 7%nat) {["state" := "waiting"]} ]
  | None => None
  end.

Fixpoint first_page (get : bytes -> option response) (urls : list bytes) : option (bytes * list MetricPoint) :=
  match urls with
  | [] => None
  | u :: t => match nginx_read get u with Some pts => Some (u, pts) | None => first_page get t end
  end.

(** The page that answered before is the only one asked for again. *)
Definition candidates (n : Nginx) : list bytes := match ng_found n with [] => ng_urls n | f => [f] end.

Definition nginx_Collect (n : Nginx) (installed : bool) (get : bytes -> option response) : Nginx * list MetricPoint :=
  if negb installed then (n, [])
  else
    match first_page get (candidates n) with
    | Some (u, pts) => ({| ng_urls := ng_urls n; ng_found := u |}, pts ++ [status "nginx" StatusOK ""])
    | None => (n, [status "nginx" (match ng_found n with [] => StatusUnconfigured | _ => StatusError end) ""])
    end.

(** ** Directory trees

    A file has its size unless it cannot be read; a directory has the entries
    that could be listed and whether the listing was complete. *)
Inductive tree := File (name : bytes) (size : option Z) | Dir (name : bytes) (complete : bool) (entries : list tree).
Definition tree_name (t : tree) : bytes := match t with File n _ => n | Dir n _ _ => n end.

(** ** [mailqueue.go] *)

(** The walk of [countFiles] ends with an error at the first directory that
    cannot be listed. *)
Fixpoint count_tree (match_ : bytes -> bool) (t : tree) : option Z :=
  match t with
  | File name _ => Some (if match_ name then 1 else 0)
  | Dir _ complete entries =>
      if complete then
        (fix go (l : list tree) : option Z :=
           match l with
           | [] => Some 0
           | e :: r => n ← count_tree match_ e; m ← go r; Some (n + m)
           end) entries
      else None
  end.
Definition countFiles (lookup : bytes -> option tree) (dir : bytes) (match_ : bytes -> bool) : option Z :=
  t ← lookup dir; count_tree match_ t.

Definition queue_point (n : Z) (mta queue : string) : MetricPoint :=
  gauge "mail_queue_messages" "Messages in the mail queue" (f64_of_Z n) (list_to_map [("mta", mta); ("queue", queue)]).

(** The first spool of Exim that exists. *)
Fixpoint exim_points (lookup : bytes -> option tree) (dirs : list bytes) : list MetricPoint :=
  match dirs with
  | [] => []
  | dir :: t =>
      match lookup dir with
      | None => exim_points lookup t
      | Some _ =>
          match countFiles lookup dir (fun name => HasSuffix name (B "-H")) with
          | None => [status "mail_queue" StatusError "exim"]
          | Some n => [status "mail_queue" StatusOK "exim"; queue_point n "exim" "all"]
          end
      end
  end.

Definition postfix_points (lookup : bytes -> option tree) (pf : bytes) : list MetricPoint :=
  match lookup pf with
  | None => []
  | Some _ =>
      let counts := map (fun q => (q, countFiles lookup (path_join [pf; B q]) (fun _ => true))) ["incoming"; "active"; "deferred"; "hold"] in
      omap (fun '(q, n) => (fun n => queue_point n "postfix" q) <$> n) counts
      ++ [status "mail_queue" (if forallb (fun c => match c.2 with Some _ => true | None => false end) counts then StatusOK else StatusError) "postfix"]
  end.

Definition mailqueue_Collect (root_ : bytes) (lookup : bytes -> option tree) : list MetricPoint :=
  exim_points lookup (map (fun s => path_join [root_; B s]) ["var/spool/exim4/input"; "var/spool/exim/input"])
  ++ postfix_points lookup (path_join [root_; B "var/spool/postfix"]).

(** ** [mysql.go] *)
Definition DefaultMySQLSockets : list bytes := map B
  ["/run/mysqld/mysqld.sock"; "/var/run/mysqld/mysqld.sock"; "/var/lib/mysql/mysql.sock"; "/tmp/mysql.sock"].

(** The open database is represented by the data source it was opened with. *)
Record MySQL := {
  my_dsn : bytes; my_user : bytes; my_sockets : list bytes; my_db : option bytes;
  my_sizesAt : time; my_sizes : list MetricPoint; my_sizeEvery : duration }.
Definition NewMySQL (dsn osUser : bytes) : MySQL := {|
  my_dsn := dsn; my_user := osUser; my_sockets := DefaultMySQLSockets; my_db := None;
  my_sizesAt := time_zero; my_sizes := []; my_sizeEvery := hour |}.

Definition statusVars : metric_table := map (fun e => (B e.1.1, (e.1.2, e.2)))
  [ ("Threads_connected", "mysql_threads_connected", "Open connections");
    ("Threads_running", "mysql_threads_running", "Threads executing a query");
    ("Max_used_connections", "mysql_max_used_connections", "Most connections open at once since start");
    ("Connections", "mysql_connections_total", "Connection attempts");
    ("Aborted_connects", "mysql_aborted_connects_total", "Failed connection attempts");
    ("Aborted_clients", "mysql_aborted_clients_total", "Connections dropped without closing");
    ("Questions", "mysql_queries_total", "Statements sent by clients");
    ("Slow_queries", "mysql_slow_queries_total", "Queries slower than long_query_time");
    ("Created_tmp_disk_tables", "mysql_tmp_disk_tables_total", "Temporary tables created on disk");
    ("Table_locks_waited", "mysql_table_locks_waited_total", "Table lock requests that had to wait");
    ("Innodb_buffer_pool_read_requests", "mysql_innodb_buffer_pool_read_requests_total", "Logical reads from the buffer pool");
    ("Innodb_buffer_pool_reads", "mysql_innodb_buffer_pool_disk_reads_total", "Reads the buffer pool could not serve (went to disk)");
    ("Innodb_row_lock_waits", "mysql_innodb_row_lock_waits_total", "Row locks waited for");
    ("Innodb_row_lock_time", "mysql_innodb_row_lock_time_ms_total", "Time spent waiting for row locks, ms");
    ("Innodb_deadlocks", "mysql_innodb_deadlocks_total", "Deadlocks (MariaDB)");
    ("Bytes_received", "mysql_received_bytes_total", "Bytes received from clients");
    ("Bytes_sent", "mysql_sent_bytes_total", "Bytes sent to clients");
    ("Uptime", "mysql_uptime_seconds", "Seconds since the server started");
    ("Innodb_buffer_pool_pages_dirty", "mysql_innodb_buffer_pool_pages_dirty", "Dirty pages in the buffer pool");
    ("Innodb_buffer_pool_pages_total", "mysql_innodb_buffer_pool_pages_total", "Pages in the buffer pool");
    ("Innodb_buffer_pool_pages_free", "mysql_innodb_buffer_pool_pages_free", "Free pages in the buffer pool");
    ("Open_tables", "mysql_open_tables", "Tables open");
    ("Opened_tables", "mysql_opened_tables_total", "Tables opened (a fast rise means table_open_cache is too small)") ].

Definition commands : list bytes := map B ["select"; "insert"; "update"; "delete"; "replace"; "commit"; "rollback"].

Inductive opened := NotInstalled | OpenError | Opened.

Section Database.
(** [mysql.Config.FormatDSN] for a user and a socket, and [sql.Open], which
    checks the data source name. *)
Context (FormatDSN : bytes -> bytes -> bytes) (sql_Open : bytes -> bool) (exists_ : bytes -> bool).

Definition open (m : MySQL) : MySQL * opened :=
  let use (dsn : bytes) :=
    if sql_Open dsn
    then ({| my_dsn := my_dsn m; my_user := my_user m; my_sockets := my_sockets m; my_db := Some dsn;
             my_sizesAt := my_sizesAt m; my_sizes := my_sizes m; my_sizeEvery := my_sizeEvery m |}, Opened)
    else (m, OpenError) in
  match my_db m with
  | Some _ => (m, Opened)
  | None =>
      match my_dsn m with
      | [] => match List.find exists_ (my_sockets m) with
              | None | Some [] => (m, NotInstalled)
              | Some sock => use (FormatDSN (my_user m) sock)
              end
      | dsn => use dsn
      end
  end.

Inductive my_error := MySQLError (number : Z) | OtherError.

(** What the server answers: the rows of [SHOW GLOBAL STATUS] ([None]: a row
    that cannot be scanned), the connection limit, [SHOW SLAVE STATUS] with its
    columns and its first row, if any and if it can be scanned, and the data
    directory. *)
Record answers := {
  an_status : my_error + list (option (bytes * bytes));
  an_max_connections : option float64;
  an_slave : option (list bytes * option (option (list (option bytes))));
  an_datadir : option bytes }.

Definition status_row (row : option (bytes * bytes)) : list MetricPoint :=
  match row with
  | None => []
  | Some (name, value) =>
      match ParseFloat value with
      | (v, true) =>
          match in_table statusVars name with
          | Some (n, h) => [if HasSuffix (B n) (B "_total") then counter n h v ∅ else gauge n h v ∅]
          | None =>
              match CutPrefix name (B "Com_") with
              | Some c => if bool_decide (c ∈ commands)
                          then [counter "mysql_commands_total" "Statements executed, by kind" v {["command" := S c]}] else []
              | None => []
              end
          end
      | _ => []
      end
  end.

(** The last column of a name counts; NULL reads as the empty string. *)
Definition column_of (cols : list bytes) (vals : list (option bytes)) (k : bytes) : option bytes :=
  match List.find (fun p => bool_decide (p.1 = k)) (reverse (zip cols vals)) with Some (_, v) => v | None => None end.

Definition replication (slave : option (list bytes * option (option (list (option bytes))))) : list MetricPoint :=
  match slave with
  | Some (cols, Some (Some vals)) =>
      let yes k := if bool_decide (default [] (column_of cols vals (B k)) = B "Yes") then f64_one else f64_zero in
      [ gauge "mysql_replica_io_running" "1 when the replica's I/O thread runs" (yes "Slave_IO_Running") ∅;
        gauge "mysql_replica_sql_running" "1 when the replica's SQL thread runs" (yes "Slave_SQL_Running") ∅ ]
      ++ match column_of cols vals (B "Seconds_Behind_Master") with
         | Some lag => [gauge "mysql_replica_lag_seconds" "How far the replica is behind" (ParseFloat lag).1 ∅]
         | None => []
         end
  | _ => []
  end.

Definition systemSchemas : list bytes := map B ["mysql"; "performance_schema"; "sys"; "information_schema"].
Record sized := { sz_name : bytes; sz_size : Z }.

(** The sum of the sizes of the files that can be read, in 64 bits. *)
Fixpoint tree_size (t : tree) : Z :=
  match t with
  | File _ size => default 0 size
  | Dir _ _ entries =>
      (fix go (l : list tree) (acc : Z) : Z :=
         match l with [] => acc | e :: r => go r (acc +i tree_size e)%go end) entries 0
  end.

Fixpoint decode_go (fuel : nat) (n : bytes) : bytes :=
  match fuel, n with
  | O, _ | _, [] => []
  | Datatypes.S f, c :: t =>
      let plain := fun _ : unit => c :: decode_go f t in
      if bool_decide (c = "@"%char) && (4 <=? len t) then
        match ParseUint (take 4 t) 16 32 with
        | (v, None) => (if is_surrogate v then append_rune rune_error else append_rune v) ++ decode_go f (drop 4 t)
        | _ => plain tt
        end
      else plain tt
  end.
Definition decodeSchemaName (n : bytes) : bytes := decode_go (length n) n.

Definition schema (t : tree) : option sized :=
  match t with
  | File _ _ => None
  | Dir name _ _ =>
      if bool_decide (name ∈ systemSchemas) || HasPrefix name (B "#") || HasPrefix name (B ".") then None
      else Some {| sz_name := decodeSchemaName name; sz_size := tree_size t |}
  end.

Definition size_point (s : sized) : MetricPoint :=
  gauge "mysql_database_size_bytes" "Size of a database's files in the data directory" (f64_of_Z (sz_size s)) {["database" := S (sz_name s)]}.

Context (sort : list sized -> list sized) (ReadDir : bytes -> option (list tree)).
Definition dirSizes (datadir : bytes) (top : nat) : list MetricPoint :=
  match ReadDir datadir with
  | None => []
  | Some entries => map size_point (take top (sort (omap schema entries)))
  end.

(** [checked] and [started] are the two readings of the clock. *)
Definition databaseSizes (m : MySQL) (checked started : time) (datadir : option bytes) : MySQL * list MetricPoint :=
  if negb (IsZero (my_sizesAt m)) && (time_sub checked (my_sizesAt m) <? my_sizeEvery m) then (m, my_sizes m)
  else
    let sizes := match datadir with None | Some [] => [] | Some d => dirSizes d 20 end in
    ({| my_dsn := my_dsn m; my_user := my_user m; my_sockets := my_sockets m; my_db := my_db m;
        my_sizesAt := started; my_sizes := sizes; my_sizeEvery := my_sizeEvery m |}, sizes).

Definition mysql_up (v : float64) : MetricPoint := gauge "mysql_up" "1 when the agent could read the server's status" v ∅.

Definition mysql_Collect (m : MySQL) (a : answers) (checked started : time) : MySQL * list MetricPoint :=
  match open m with
  | (m, NotInstalled) => (m, [])
  | (m, OpenError) => (m, [status "mysql" StatusError ""])
  | (m, Opened) =>
      match an_status a with
      | inl e =>
          let denied := match e with MySQLError n => (n =? 1045) || (n =? 1698) | OtherError => false end in
          (m, [status "mysql" (if denied then StatusUnconfigured else StatusError) ""; mysql_up f64_zero])
      | inr rows =>
          let '(m', sizes) := databaseSizes m checked started (an_datadir a) in
          (m', concat (map status_row rows)
               ++ match an_max_connections a with Some v => [gauge "mysql_max_connections" "Connection limit" v ∅] | None => [] end
               ++ replication (an_slave a) ++ sizes ++ [mysql_up f64_one; status "mysql" StatusOK ""])
      end
  end.
End Database.

(** ** The status page of nginx *)

(** Matching of repeated characters whose end is plain from the text: a greedy
    run takes all it can, a lazy one stops where the rest can go on. *)
Section Runs.
Context (fold neg : bool) (rs : ranges) (k : cont).

Definition ends_run (rest : list (Z * bytes)) : Prop :=
  match rest with [] => True | x :: _ => char_ok fold neg rs x.1 = false end.

Lemma greedy_run (w rest : list (Z * bytes)) (prev : option Z) (caps c : captures) :
  Forall (fun x => char_ok fold neg rs x.1 = true) w -> ends_run rest -> (forall p, k (p, rest) caps = Some c) ->
  bt (RStar true (RChar fold neg rs)) k (prev, w ++ rest) caps = Some c.
Proof.
  intros Hw Hr Hk. cbn [bt snd]. revert prev. induction Hw as [|x w Hx Hw IH]; intros prev.
  - cbn [app]. destruct rest as [|y rest]; [apply Hk|]. cbn [length star_loop snd bt ends_run] in *. by rewrite Hr.
  - cbn [app length star_loop snd bt]. rewrite Hx. destruct (Nat.ltb_spec (length (w ++ rest)) (Datatypes.S (length (w ++ rest)))); [|lia].
    by rewrite IH.
Qed.

Lemma lazy_run (w rest : list (Z * bytes)) (prev : option Z) (caps c : captures) :
  Forall (fun x => char_ok fold neg rs x.1 = true) w -> Forall (fun x => forall p t, k (p, x :: t) caps = None) w ->
  (forall p, k (p, rest) caps = Some c) ->
  bt (RStar false (RChar fold neg rs)) k (prev, w ++ rest) caps = Some c.
Proof.
  intros Hw Hn Hk. cbn [bt snd]. revert prev. induction Hw as [|x w Hx Hw IH]; intros prev; inversion_clear Hn as [|? ? Hx' Hn'].
  - cbn [app]. destruct rest; cbn [length star_loop snd]; by rewrite ?Hk.
  - cbn [app length star_loop snd]. rewrite Hx'. cbn [bt snd]. rewrite Hx. destruct (Nat.ltb_spec (length (w ++ rest)) (Datatypes.S (length (w ++ rest)))); [|lia].
    by apply IH.
Qed.
End Runs.

Definition text (l : bytes) : list (Z * bytes) := map ascii_rune l.
Lemma text_app (a b : bytes) : text (a ++ b) = text a ++ text b.
Proof. apply map_app. Qed.

Definition digit_char : re := RChar false false digit_class.
Definition number_group (n : nat) : re := RGroup n (RSeq (RSeq digit_char (RStar true digit_char)) REmpty).
Definition digit_free (rest : list (Z * bytes)) : Prop := ends_run false false digit_class rest.

Lemma digit_ok (c : ascii) : is_digit c -> char_ok false false digit_class (byteval c) = true.
Proof. unfold is_digit, char_ok, in_ranges. cbn. intros H. destruct (Z.leb_spec 48 (byteval c)), (Z.leb_spec (byteval c) 57); try lia; done. Qed.

(** A group of digits takes the whole number. *)
Lemma number_run (n : nat) (d : bytes) (rest : list (Z * bytes)) (k : cont) (prev : option Z) (caps c : captures) :
  Forall is_digit d -> d <> [] -> digit_free rest ->
  (forall p, k (p, rest) ((n, (text d ++ rest, length d)) :: caps) = Some c) ->
  bt (number_group n) k (prev, text d ++ rest) caps = Some c.
Proof.
  intros Hd Hne Hr Hk. destruct d as [|x d]; [done|]. inversion_clear Hd as [|? ? Hx Hd'].
  unfold number_group, digit_char. cbn [bt]. unfold text at 1. cbn [map app snd ascii_rune fst]. rewrite digit_ok by done.
  fold (text d). change (star_loop (bt ?a) true ?k0 (length (text d ++ rest)) ?p caps) with (bt (RStar true a) k0 p caps).
  apply greedy_run; [|done|].
  - apply Forall_map. eapply Forall_impl; [exact Hd'|]. intros y Hy. by apply digit_ok.
  - intros p. cbn [bt]. rewrite <-(Hk p). do 4 f_equal.
    cbn [text map app length snd]. rewrite length_app. unfold text. rewrite length_map. lia.
Qed.

(** Space before a number. *)
Definition space_star : re := RStar true (RChar false false space_class).
Definition space_plus : re := RSeq (RChar false false space_class) space_star.
Lemma one_space (k : cont) (rest : list (Z * bytes)) (prev : option Z) (caps c : captures) :
  ends_run false false space_class rest -> (forall p, k (p, rest) caps = Some c) ->
  bt space_star k (prev, text (B " ") ++ rest) caps = Some c /\ bt space_plus k (prev, text (B " ") ++ rest) caps = Some c.
Proof.
  intros Hr Hk. split.
  - apply greedy_run; [by repeat constructor|done|done].
  - unfold space_plus. cbn [bt text map app snd B String.list_ascii_of_string ascii_rune fst].
    replace (char_ok false false space_class (byteval " ")) with true by reflexivity. by apply (greedy_run _ _ _ _ []).
Qed.

Lemma number_no_space (d : bytes) (rest : list (Z * bytes)) : Forall is_digit d -> d <> [] -> ends_run false false space_class (text d ++ rest).
Proof.
  intros Hd Hne. destruct d as [|x d]; [done|]. inversion_clear Hd as [|? ? Hx _]. unfold is_digit in Hx. cbn.
  unfold char_ok, in_ranges. cbn. destruct (Z.leb_spec 9 (byteval x)), (Z.leb_spec (byteval x) 10), (Z.leb_spec 12 (byteval x)), (Z.leb_spec (byteval x) 13), (Z.leb_spec 32 (byteval x)), (Z.leb_spec (byteval x) 32); done || lia.
Qed.

(** What [ngx_http_stub_status_module] writes. *)
Record stub := { st_active : Z; st_accepts : Z; st_handled : Z; st_requests : Z; st_reading : Z; st_writing : Z; st_waiting : Z }.
Definition stub_numbers (s : stub) : list Z := [st_active s; st_accepts s; st_handled s; st_requests s; st_reading s; st_writing s; st_waiting s].
Definition stub_page (s : stub) : bytes :=
  B "Active connections: " ++ FormatUint (st_active s) ++ B " " ++ [newline] ++ B "server accepts handled requests" ++ [newline]
  ++ B " " ++ FormatUint (st_accepts s) ++ B " " ++ FormatUint (st_handled s) ++ B " " ++ FormatUint (st_requests s) ++ B " " ++ [newline]
  ++ B "Reading: " ++ FormatUint (st_reading s) ++ B " Writing: " ++ FormatUint (st_writing s) ++ B " Waiting: " ++ FormatUint (st_waiting s)
  ++ B " " ++ [newline].

Lemma pretty_length (x : N) (k : nat) (t : string) : (x < 10 ^ N.of_nat k)%N -> (length (B (pretty_N_go x t)) <= k + length (B t))%nat.
Proof.
  revert x t. induction k as [|k IH]; intros x t Hx.
  - assert (x = 0%N) as -> by (cbn in Hx; lia). rewrite pretty_N_go_0. lia.
  - destruct (decide (0 < x)%N) as [Hpos|]; [|assert (x = 0%N) as -> by lia; rewrite pretty_N_go_0; lia].
    rewrite pretty_N_go_step by lia. etrans; [apply IH|].
    + rewrite Nat2N.inj_succ, N.pow_succ_r' in Hx. apply N.Div0.div_lt_upper_bound. lia.
    + unfold B. cbn [String.list_ascii_of_string length]. lia.
Qed.
Lemma FormatUint_length (n : Z) : 0 <= n < 2 ^ 64 -> (length (FormatUint n) <= 20)%nat.
Proof.
  intros Hn. unfold FormatUint, pretty, pretty_N. case_decide; [cbn; lia|].
  etrans; [apply (pretty_length _ 20)|cbn; lia]. apply (N.lt_trans _ (2 ^ 64)%N); [|by vm_compute]. lia.
Qed.

Lemma digits_ascii (n : Z) : Forall (fun c => byteval c < 128) (FormatUint n).
Proof. eapply Forall_impl; [apply FormatUint_digits|]. unfold is_digit. intros c ?. lia. Qed.
Lemma stub_page_ascii (s : stub) : Forall (fun c => byteval c < 128) (stub_page s).
Proof. unfold stub_page. rewrite !Forall_app. split_and!; try apply digits_ascii; repeat constructor; vm_compute; reflexivity. Qed.
Lemma stub_page_length (s : stub) : Forall (fun n => 0 <= n < 2 ^ 64) (stub_numbers s) -> (length (stub_page s) <= page_limit)%nat.
Proof.
  unfold stub_numbers, stub_page. rewrite !Forall_cons. intros (H1 & H2 & H3 & H4 & H5 & H6 & H7 & _).
  rewrite !length_app. unfold page_limit. apply FormatUint_length in H1, H2, H3, H4, H5, H6, H7. cbn [length B String.list_ascii_of_string]. lia.
Qed.

Definition lits_then (w : bytes) (r : re) : re := foldr (fun c => RSeq (RChar false false [(byteval c, byteval c)])) r w.
Definition any_lazy : re := RStar false (RChar false false [(0, max_rune)]).

Lemma reStub_parts : reStub =
  lits_then (B "Active connections:") (RSeq space_star (RSeq (number_group 1) (RSeq any_lazy (RSeq (number_group 2)
    (RSeq space_plus (RSeq (number_group 3) (RSeq space_plus (RSeq (number_group 4) (RSeq any_lazy
      (lits_then (B "Reading:") (RSeq space_star (RSeq (number_group 5) (RSeq space_plus
        (lits_then (B "Writing:") (RSeq space_star (RSeq (number_group 6) (RSeq space_plus
          (lits_then (B "Waiting:") (RSeq space_star (RSeq (number_group 7) REmpty)))))))))))))))))))).
Proof. reflexivity. Qed.

Section Parts.
Context (k : cont) (r : re).

Lemma lits_run (w : bytes) (rest : list (Z * bytes)) (prev : option Z) (caps c : captures) :
  (forall p, bt r k (p, rest) caps = Some c) -> bt (lits_then w r) k (prev, text w ++ rest) caps = Some c.
Proof.
  intros Hk. revert prev. induction w as [|x w IH]; intros prev; [apply Hk|]. cbn [lits_then foldr bt text map app snd ascii_rune fst].
  unfold char_ok, in_ranges. cbn [existsb xorb]. rewrite Z.leb_refl. apply IH.
Qed.

Lemma lits_fail (x y : ascii) (w : bytes) (t : list (Z * bytes)) (prev : option Z) (caps : captures) :
  byteval x <> byteval y -> bt (lits_then (x :: w) r) k (prev, ascii_rune y :: t) caps = None.
Proof.
  intros Hne. cbn [lits_then foldr bt snd ascii_rune fst]. unfold char_ok, in_ranges. cbn [existsb xorb].
  destruct (Z.leb_spec (byteval x) (byteval y)), (Z.leb_spec (byteval y) (byteval x)); done || lia.
Qed.

Lemma number_fail (n : nat) (y : ascii) (t : list (Z * bytes)) (prev : option Z) (caps : captures) :
  char_ok false false digit_class (byteval y) = false -> bt (RSeq (number_group n) r) k (prev, ascii_rune y :: t) caps = None.
Proof. intros H. unfold number_group, digit_char. cbn [bt snd ascii_rune fst]. by rewrite H. Qed.
End Parts.

Lemma search_first (r : re) (prev : option Z) (l : list (Z * bytes)) (c : captures) :
  bt (RGroup 0 r) (fun _ caps => Some caps) (prev, l) [] = Some c -> search r prev l = Some c.
Proof. intros H. destruct l; cbn [search]; by rewrite H. Qed.

Definition gap1 : bytes := B " " ++ [newline] ++ B "server accepts handled requests" ++ [newline] ++ B " ".
Definition gap2 : bytes := B " " ++ [newline].

Lemma stub_page_parts (s : stub) : text (stub_page s) =
  text (B "Active connections:") ++ text (B " ") ++ text (FormatUint (st_active s)) ++ text gap1
  ++ text (FormatUint (st_accepts s)) ++ text (B " ") ++ text (FormatUint (st_handled s)) ++ text (B " ") ++ text (FormatUint (st_requests s)) ++ text gap2
  ++ text (B "Reading:") ++ text (B " ") ++ text (FormatUint (st_reading s)) ++ text (B " ")
  ++ text (B "Writing:") ++ text (B " ") ++ text (FormatUint (st_writing s)) ++ text (B " ")
  ++ text (B "Waiting:") ++ text (B " ") ++ text (FormatUint (st_waiting s)) ++ text gap2.
Proof. rewrite <-!text_app. reflexivity. Qed.

Lemma bt_seq (a b : re) (k : cont) (p : position) (caps : captures) : bt (RSeq a b) k p caps = bt a (bt b k) p caps.
Proof. reflexivity. Qed.

(** Steps over the parts of the page. *)
Ltac numeral := intros ?; rewrite bt_seq; apply number_run; [apply FormatUint_digits|apply FormatUint_nonempty|reflexivity|].
Ltac blank := intros ?; rewrite bt_seq; apply one_space; [first [reflexivity|apply number_no_space; [apply FormatUint_digits|apply FormatUint_nonempty]]|].
Ltac word := intros ?; apply lits_run.
Ltac skip fails := intros ?; rewrite bt_seq; apply lazy_run; [repeat constructor|repeat constructor; intros ??; apply fails; vm_compute; congruence|].

Lemma capture_number (n : nat) (d : bytes) (rest : list (Z * bytes)) (c : captures) : capture_text ((n, (text d ++ rest, length d)) :: c) n = d.
Proof.
  unfold capture_text. cbn [list_find fst]. rewrite decide_True by done.
  replace (length d) with (length (text d)) by apply length_map. rewrite take_app_length. apply unrunes_ascii.
Qed.
Lemma capture_next (m n : nat) (x : list (Z * bytes) * nat) (c : captures) : m <> n -> capture_text ((m, x) :: c) n = capture_text c n.
Proof. intros H. unfold capture_text. cbn [list_find fst]. rewrite decide_False by done. by destruct (list_find _ c) as [[? [? [? ?]]]|]. Qed.

Lemma stub_submatch (s : stub) :
  exists whole, FindStringSubmatch reStub 7 (stub_page s) = Some (whole :: map FormatUint (stub_numbers s)).
Proof.
  unfold FindStringSubmatch. rewrite runes_ascii by apply stub_page_ascii. fold (text (stub_page s)).
  eassert (Hs : search reStub None (text (stub_page s)) = Some _).
  { apply search_first. rewrite reStub_parts, stub_page_parts.
    generalize (@None Z). word. blank. numeral. skip number_fail. numeral. blank. numeral. blank. numeral. skip lits_fail.
    word. blank. numeral. blank. word. blank. numeral. blank. word. blank. numeral.
    intros ?. cbn [bt snd]. reflexivity. }
  rewrite Hs. eexists. cbn [fmap option_fmap option_map seq map stub_numbers].
  repeat match goal with |- context [capture_text ((?m, _) :: _) ?n] => assert_fails (constr_eq m n); rewrite (capture_next m n) by done end.
  rewrite !capture_number. reflexivity.
Qed.

Definition stub_points (s : stub) : list MetricPoint :=
  let v n := f64_of_Z n in
  [ gauge "nginx_connections_active" "Open client connections" (v (st_active s)) ∅;
    counter "nginx_connections_accepted_total" "Accepted client connections" (v (st_accepts s)) ∅;
    counter "nginx_connections_handled_total" "Handled client connections (less than accepted when a limit is hit)" (v (st_handled s)) ∅;
    counter "nginx_requests_total" "Client requests" (v (st_requests s)) ∅;
    gauge "nginx_connections" "Connections by state" (v (st_reading s)) {["state" := "reading"]};
    gauge "nginx_connections" "Connections by state" (v (st_writing s)) {["state" := "writing"]};
    gauge "nginx_connections" "Connections by state" (v (st_waiting s)) {["state" := "waiting"]} ].

Lemma nginx_read_page (get : bytes -> option response) (url : bytes) (s : stub) :
  Forall (fun n => 0 <= n < 2 ^ 64) (stub_numbers s) -> get url = Some {| rs_StatusCode := 200; rs_Body := stub_page s |} ->
  nginx_read get url = Some (stub_points s).
Proof.
  intros Hn Hget. unfold nginx_read. rewrite Hget. cbn [mbind option_bind rs_Body rs_StatusCode].
  rewrite take_ge by by apply stub_page_length. destruct (stub_submatch s) as [whole ->].
  cbn [Z.eqb Pos.eqb negb]. f_equal. unfold stub_points, number_at, stub_numbers in *. cbn [map nth].
  rewrite !Forall_cons in Hn. destruct Hn as (? & ? & ? & ? & ? & ? & ? & _). by rewrite !ParseFloat_FormatUint.
Qed.

Lemma first_page_at (get : bytes -> option response) (before after : list bytes) (u : bytes) (pts : list MetricPoint) :
  Forall (fun v => nginx_read get v = None) before -> nginx_read get u = Some pts -> first_page get (before ++ u :: after) = Some (u, pts).
Proof. intros Hb Hu. induction Hb as [|v l Hv _ IH]; cbn [app first_page]; [by rewrite Hu|by rewrite Hv]. Qed.

(** the page of nginx is found and read.  When the first candidate address
    that answers with a status page serves the page nginx writes for some
    figures of 64 bits, exactly these figures are reported; from then on only
    that address is asked, and when it stops to serve a page, an error is
    reported and the address is kept. *)
Theorem nginx_reported (n : Nginx) (get : bytes -> option response) (before after : list bytes) (u : bytes) (s : stub) :
  candidates n = before ++ u :: after -> Forall (fun v => nginx_read get v = None) before -> u <> [] ->
  Forall (fun x => 0 <= x < 2 ^ 64) (stub_numbers s) -> get u = Some {| rs_StatusCode := 200; rs_Body := stub_page s |} ->
  exists n', nginx_Collect n true get = (n', stub_points s ++ [status "nginx" StatusOK ""])
    /\ candidates n' = [u]
    /\ forall get' : bytes -> option response, nginx_read get' u = None -> nginx_Collect n' true get' = (n', [status "nginx" StatusError ""]).
Proof.
  intros Hc Hb Hu Hs Hget. unfold nginx_Collect. cbn [negb]. rewrite Hc.
  rewrite (first_page_at get before after u (stub_points s)) by (done || by apply nginx_read_page).
  eexists. split; [reflexivity|]. assert (Hcand : candidates {| ng_urls := ng_urls n; ng_found := u |} = [u]) by (unfold candidates; cbn; by destruct u).
  split; [done|]. intros get' Hg. rewrite Hcand. cbn [first_page]. rewrite Hg. cbn. by destruct u.
Qed.

Definition demo_stub : stub := {| st_active := 3; st_accepts := 1200; st_handled := 1199; st_requests := 18446744073709551615; st_reading := 0; st_writing := 1; st_waiting := 2 |}.
Definition demo_get (u : bytes) : option response :=
  if bool_decide (u = B "http://127.0.0.1/stub_status") then Some {| rs_StatusCode := 200; rs_Body := stub_page demo_stub |}
  else if bool_decide (u = B "http://127.0.0.1/nginx_status") then Some {| rs_StatusCode := 404; rs_Body := stub_page demo_stub |} else None.
Lemma nginx_reported_witness :
  exists n', nginx_Collect (NewNginx []) true demo_get = (n', stub_points demo_stub ++ [status "nginx" StatusOK ""]) /\ candidates n' = [B "http://127.0.0.1/stub_status"].
Proof.
  destruct (nginx_reported (NewNginx []) demo_get (take 2 DefaultNginxStatusURLs) (drop 3 DefaultNginxStatusURLs) (B "http://127.0.0.1/stub_status") demo_stub)
    as (n' & H1 & H2 & _).
  - reflexivity.
  - repeat constructor; vm_compute; reflexivity.
  - discriminate.
  - repeat constructor; try (intros [=]); vm_compute; reflexivity.
  - reflexivity.
  - exists n'. split; [exact H1|exact H2].
Defined.

(** ** The sizes of the databases *)

(** The file name of a schema: letters, digits and the underscore stand for
    themselves, any other rune is written as its code in four hexadecimal
    digits. *)
Definition schema_char (r : Z) : bool := ((48 <=? r) && (r <=? 57)) || ((65 <=? r) && (r <=? 90)) || (r =? 95) || ((97 <=? r) && (r <=? 122)).
Definition schema_filename (name : list Z) : bytes :=
  concat (map (fun r => if schema_char r then [byte_of_Z r] else "@"%char :: hex4 r) name).
Definition schema_rune (r : Z) : Prop := 0 <= r < 65536 /\ is_surrogate r = false.

Lemma schema_char_range (r : Z) : schema_char r = true -> 48 <= r < 128 /\ r <> 64.
Proof.
  unfold schema_char. rewrite !orb_true_iff, !andb_true_iff, !Z.leb_le, Z.eqb_eq. lia.
Qed.

Lemma ParseUint_hex4 (r : Z) : 0 <= r < 65536 -> ParseUint (hex4 r) 16 32 = (r, None).
Proof.
  intros Hr. unfold ParseUint, hex4. cbn [map parse_digits]. rewrite !digit_val_hex_lower by (apply Z.mod_pos_bound; lia).
  assert (E : r = ((r / 4096 mod 16 * 16 + r / 256 mod 16) * 16 + r / 16 mod 16) * 16 + r mod 16) by (Z.to_euclidean_division_equations; lia).
  pose proof (Z.mod_pos_bound r 16 ltac:(lia)). pose proof (Z.mod_pos_bound (r / 16) 16 ltac:(lia)).
  pose proof (Z.mod_pos_bound (r / 256) 16 ltac:(lia)). pose proof (Z.mod_pos_bound (r / 4096) 16 ltac:(lia)).
  change (2 ^ 32 - 1) with 4294967295. generalize dependent (r / 4096 mod 16). generalize dependent (r / 256 mod 16).
  generalize dependent (r / 16 mod 16). generalize dependent (r mod 16). intros d Hd c Hc b Hb a E Ha.
  repeat match goal with |- context [?x <? ?y] => destruct (Z.ltb_spec x y); [lia|] end. f_equal. lia.
Qed.

Lemma decode_schema (name : list Z) (fuel : nat) :
  Forall schema_rune name -> (length (schema_filename name) <= fuel)%nat -> decode_go fuel (schema_filename name) = concat (map append_rune name).
Proof.
  intros Hn. revert fuel. induction Hn as [|r name [Hr Hs] Hn IH]; intros fuel Hf; [by destruct fuel|].
  unfold schema_filename in *. cbn [map concat] in *. rewrite length_app in Hf. destruct (schema_char r) eqn:Hc.
  - apply schema_char_range in Hc. cbn [length app] in *. destruct fuel as [|fuel]; [lia|]. cbn [decode_go].
    rewrite bool_decide_eq_false_2.
    + cbn [andb]. rewrite IH by lia. unfold append_rune. destruct (Z.ltb_spec r 128); [done|lia].
    + intros He. apply (f_equal byteval) in He. rewrite byteval_byte in He by lia. vm_compute in He. lia.
  - cbn [app length] in *. destruct fuel as [|fuel]; [lia|]. cbn [decode_go]. rewrite bool_decide_eq_true_2 by done. cbn [andb].
    replace (4 <=? len (hex4 r ++ _)) with true by (symmetry; apply Z.leb_le; unfold len; rewrite length_app; change (length (hex4 r)) with 4%nat; lia).
    change 4%nat with (length (hex4 r)). rewrite take_app_length, drop_app_length, ParseUint_hex4, Hs by done.
    rewrite IH; [done|]. change (length (hex4 r)) with 4%nat in Hf. lia.
Qed.
Lemma decodeSchemaName_filename (name : list Z) : Forall schema_rune name -> decodeSchemaName (schema_filename name) = concat (map append_rune name).
Proof. intros H. by apply decode_schema. Qed.

(** A database: its name and its directory. *)
Record database := { db_name : list Z; db_complete : bool; db_files : list tree }.
Definition db_tree (d : database) : tree := Dir (schema_filename (db_name d)) (db_complete d) (db_files d).
Definition db_ok (d : database) : Prop := Forall schema_rune (db_name d) /\ schema_filename (db_name d) ∉ systemSchemas.
Definition db_sized (d : database) : sized := {| sz_name := concat (map append_rune (db_name d)); sz_size := tree_size (db_tree d) |}.

(** A data directory with these databases among files, the schemas of the
    server, hidden and temporary directories. *)
Inductive data_directory : list tree -> list database -> Prop :=
  | dd_nil : data_directory [] []
  | dd_file name size l ds : data_directory l ds -> data_directory (File name size :: l) ds
  | dd_other name complete files l ds : (name ∈ systemSchemas \/ exists t, name = "#"%char :: t \/ name = "."%char :: t) ->
      data_directory l ds -> data_directory (Dir name complete files :: l) ds
  | dd_db d l ds : db_ok d -> data_directory l ds -> data_directory (db_tree d :: l) (d :: ds).

Lemma filename_head (name : list Z) (c : ascii) : Forall schema_rune name -> c = "#"%char \/ c = "."%char -> HasPrefix (schema_filename name) [c] = false.
Proof.
  intros Hn Hc. destruct Hn as [|r name [Hr _] _]; [by destruct Hc as [-> | ->]|]. unfold schema_filename. cbn [map concat].
  destruct (schema_char r) eqn:Hs; [|by destruct Hc as [-> | ->]]. apply schema_char_range in Hs as [Hs _]. cbn [app HasPrefix].
  rewrite bool_decide_eq_false_2; [done|]. intros He. apply (f_equal byteval) in He. rewrite byteval_byte in He by lia.
  destruct Hc as [-> | ->]; [change (byteval "#") with 35 in He|change (byteval ".") with 46 in He]; lia.
Qed.

Lemma schema_db (d : database) : db_ok d -> schema (db_tree d) = Some (db_sized d).
Proof.
  intros [Hn Hs]. unfold schema, db_tree. rewrite bool_decide_eq_false_2 by done. cbn [orb]. unfold B. cbn [String.list_ascii_of_string].
  rewrite !filename_head by auto. cbn [orb]. unfold db_sized. by rewrite decodeSchemaName_filename.
Qed.

Lemma schemas_of (entries : list tree) (ds : list database) : data_directory entries ds -> omap schema entries = map db_sized ds.
Proof.
  induction 1 as [|name size l ds _ IH|name complete files l ds Hname _ IH|d l ds Hd _ IH]; cbn [omap list_omap map]; [done|done| |].
  - cbn [schema]. rewrite IH. destruct Hname as [Hin|(t & [-> | ->])].
    + by rewrite bool_decide_eq_true_2.
    + cbn. by rewrite orb_true_r.
    + cbn. by rewrite orb_true_r.
  - by rewrite schema_db, IH.
Qed.

(** the largest databases.  Of a data directory that holds some databases
    among files, system schemas and temporary directories, at most twenty
    databases are reported, each with its own name and the size of its files,
    and none that is left out is larger than one that is reported. *)
Theorem largest_databases (sort : list sized -> list sized) (ReadDir : bytes -> option (list tree)) (datadir : bytes) (entries : list tree) (ds : list database) :
  (forall l, sort l ≡ₚ l /\ StronglySorted (fun a b => sz_size b <= sz_size a) (sort l)) ->
  ReadDir datadir = Some entries -> data_directory entries ds ->
  exists reported omitted, dirSizes sort ReadDir datadir 20 = map (fun d => size_point (db_sized d)) reported
    /\ ds ≡ₚ reported ++ omitted /\ length reported = Nat.min 20 (length ds)
    /\ forall d o, d ∈ reported -> o ∈ omitted -> tree_size (db_tree o) <= tree_size (db_tree d).
Proof.
  intros Hsort Hread Hd. unfold dirSizes. rewrite Hread, (schemas_of _ _ Hd). destruct (Hsort (map db_sized ds)) as [Hp Hs].
  apply Permutation_map_inv in Hp as (ds' & Hds & Hp). rewrite Hds in *. exists (take 20 ds'), (drop 20 ds'). split_and!.
  - change (@take) with (@firstn). by rewrite firstn_map, map_map.
  - by rewrite take_drop.
  - by rewrite length_take, Hp.
  - intros d o Hin Ho. rewrite <-(take_drop 20 ds'), map_app in Hs. apply StronglySorted_app_1_elem_of with (x1 := db_sized d) (x2 := db_sized o) in Hs; [exact Hs| |];
      apply list_elem_of_fmap; eauto.
Qed.

Definition by_size (a b : sized) : Prop := sz_size b <= sz_size a.
#[export] Instance by_size_dec : RelDecision by_size.
Proof. intros a b. unfold by_size. apply _. Defined.
#[export] Instance by_size_total : Total by_size.
Proof. intros a b. unfold by_size. lia. Qed.
#[export] Instance by_size_trans : Transitive by_size.
Proof. intros a b c. unfold by_size. lia. Qed.
Lemma merge_sort_sizes (l : list sized) : merge_sort by_size l ≡ₚ l /\ StronglySorted by_size (merge_sort by_size l).
Proof. split; [apply merge_sort_Permutation|apply (StronglySorted_merge_sort by_size)]. Qed.

Definition demo_db (name : string) (size : Z) : database :=
  {| db_name := map byteval (B name); db_complete := true; db_files := [File (B "t.ibd") (Some size); File (B "u.ibd") None] |}.
Definition demo_entries : list tree :=
  [ db_tree (demo_db "my-shop" 10); File (B "ibdata1") (Some 1000); Dir (B "mysql") true [File (B "x") (Some 99)];
    Dir (B "#innodb_temp") true []; db_tree (demo_db "blog" 70) ].
Lemma largest_databases_witness :
  exists reported omitted, dirSizes (merge_sort by_size) (fun _ => Some demo_entries) (B "/var/lib/mysql") 20 = map (fun d => size_point (db_sized d)) reported
    /\ [demo_db "my-shop" 10; demo_db "blog" 70] ≡ₚ reported ++ omitted.
Proof.
  destruct (largest_databases (merge_sort by_size) (fun _ => Some demo_entries) (B "/var/lib/mysql") demo_entries
    [demo_db "my-shop" 10; demo_db "blog" 70]) as (reported & omitted & H1 & H2 & _).
  - apply merge_sort_sizes.
  - reflexivity.
  - unfold demo_entries. apply dd_db; [|apply dd_file, dd_other; [|apply dd_other; [|apply dd_db; [|apply dd_nil]]]].
    + split; [repeat constructor; (discriminate || reflexivity)|apply (bool_decide_eq_false_1 _); vm_compute; reflexivity].
    + left. left.
    + right. eexists. left. reflexivity.
    + split; [repeat constructor; (discriminate || reflexivity)|apply (bool_decide_eq_false_1 _); vm_compute; reflexivity].
  - exists reported, omitted. split; [exact H1|exact H2].
Defined.

(** The size of the buffer pool is a constant, but its metric is a counter,
    because the name ends in [_total]. *)
Lemma pages_total_counter : map mp_Type (status_row (Some (B "Innodb_buffer_pool_pages_total", B "8192"))) = [Counter]
  /\ map mp_Type (status_row (Some (B "Innodb_buffer_pool_pages_free", B "8192"))) = [Gauge].
Proof. split; vm_compute; reflexivity. Qed.

(** An account that does not exist yet is reported as not configured, and the
    open connection is used again. *)
Lemma mysql_denied (FormatDSN : bytes -> bytes -> bytes) (sql_Open exists_ : bytes -> bool) (sort : list sized -> list sized) (ReadDir : bytes -> option (list tree))
    (m : MySQL) (a : answers) (t1 t2 : time) (number : Z) :
  (open FormatDSN sql_Open exists_ m).2 = Opened -> an_status a = inl (MySQLError number) -> number = 1045 \/ number = 1698 ->
  exists m', mysql_Collect FormatDSN sql_Open exists_ sort ReadDir m a t1 t2 = (m', [status "mysql" StatusUnconfigured ""; mysql_up f64_zero])
    /\ is_Some (my_db m') /\ my_sizesAt m' = my_sizesAt m.
Proof.
  intros Ho Ha Hn. unfold mysql_Collect. destruct (open _ _ _ m) as [m' o] eqn:E. cbn in Ho. subst o. rewrite Ha. exists m'. split.
  - by destruct Hn as [-> | ->].
  - revert E. unfold open. destruct (my_db m) eqn:Hdb; [intros [= <-]; by rewrite Hdb|]. repeat case_match; intros [= <-]; split; done || eauto.
Qed.
