(* ===== verification/Scrape.v ===== *)
(** * Local Prometheus endpoints

    [internal/integrations/scrape.go]: the series of local endpoints are
    forwarded with a [scrape_target] label.  The parser of the text format and
    its data types are a library's; [expfmt] and [url.Parse] are arguments, and
    so is the printing of floats. *)
From S2P Require Import Prelude GoFloat GoStrings Metrics HostFs FastCGI Integrations.
Local Open Scope string_scope.
Local Open Scope list_scope.
Local Open Scope Z_scope.

Definition maxScrapeSeries : nat := 5000.
Definition reservedLabels : list string :=
  ["agent_id"; "hostname"; "source"; "target_name"; "target_type"; "project_id"; "customer_id"; "environment"; "scrape_target"].

(** A metric of a family as the getters of the library return it: what is not
    set reads as zero or empty. *)
Record summary := { su_quantiles : list (float64 * float64); su_sum : float64; su_count : Z }.
Record histogram := { hi_buckets : list (float64 * Z); hi_sum : float64; hi_count : Z }.
Record metric := {
  me_labels : list (string * string); me_counter : float64; me_gauge : float64; me_untyped : float64;
  me_summary : summary; me_histogram : histogram }.
Inductive family_type := COUNTER | GAUGE | SUMMARY | UNTYPED | HISTOGRAM | GAUGE_HISTOGRAM.
Record family := { fa_name : string; fa_help : string; fa_type : family_type; fa_metrics : list metric }.

Definition is_reserved (k : string) : bool := bool_decide (k ∈ reservedLabels).
Definition exported (k : string) : string := if is_reserved k then "exported_" +:+ k else k.
Definition metric_labels (target : string) (ls : list (string * string)) : gmap string string :=
  foldl (fun m l => <[exported l.1 := l.2]> m) {["scrape_target" := target]} ls.

Definition IsInf (x : float64) : bool := match x with S754_infinity false => true | _ => false end.
Definition inf_bucket (b : float64 * Z) : bool := IsInf b.1.

Section Scraping.
(** [strconv.FormatFloat] with the shortest digits that read back. *)
Context (FormatFloat : float64 -> string).

Definition bucket_le (bound : float64) : string := if IsInf bound then "+Inf" else FormatFloat bound.

Definition flatten_metric (f : family) (target : string) (m : metric) : list MetricPoint :=
  let name := fa_name f in
  let help := fa_help f in
  let labels := metric_labels target (me_labels m) in
  match fa_type f with
  | COUNTER => [counter name help (me_counter m) labels]
  | GAUGE => [gauge name help (me_gauge m) labels]
  | UNTYPED => [gauge name help (me_untyped m) labels]
  | SUMMARY =>
      let sm := me_summary m in
      map (fun q => gauge name help q.2 (<["quantile" := FormatFloat q.1]> labels)) (su_quantiles sm)
      ++ [counter (name +:+ "_sum") help (su_sum sm) labels; counter (name +:+ "_count") help (f64_of_Z (su_count sm)) labels]
  | HISTOGRAM =>
      let h := me_histogram m in
      map (fun b => counter (name +:+ "_bucket") help (f64_of_Z b.2) (<["le" := bucket_le b.1]> labels)) (hi_buckets h)
      ++ (if existsb inf_bucket (hi_buckets h) then []
          else [counter (name +:+ "_bucket") help (f64_of_Z (hi_count h)) (<["le" := "+Inf"]> labels)])
      ++ [counter (name +:+ "_sum") help (hi_sum h) labels; counter (name +:+ "_count") help (f64_of_Z (hi_count h)) labels]
  | GAUGE_HISTOGRAM => []
  end.
Definition flatten (f : family) (target : string) : list MetricPoint := concat (map (flatten_metric f target) (fa_metrics f)).

Fixpoint add_families (fams : gmap string family) (target : string) (names : list string) (pts : list MetricPoint) : list MetricPoint :=
  match names with
  | [] => pts
  | n :: t =>
      let pts' := pts ++ match fams !! n with Some f => flatten f target | None => [] end in
      if (maxScrapeSeries <? length pts')%nat then take maxScrapeSeries pts' else add_families fams target t pts'
  end.

(** [expfmt.TextParser.TextToMetricFamilies], and the part of the answer it is
    given. *)
Context (TextToMetricFamilies : bytes -> option (gmap string family)).
Definition body_limit : Z := 32 * 2 ^ 20.

Definition scrape (get : bytes -> option response) (u : bytes) (target : string) : option (list MetricPoint) :=
  resp ← get u;
  if negb (rs_StatusCode resp =? 200) then None
  else fams ← TextToMetricFamilies (take (Z.to_nat body_limit) (rs_Body resp));
       Some (add_families fams target (sorted_keys fams) []).

(** The host of a URL, when it parses. *)
Context (url_Host : bytes -> option bytes).
Definition scrape_up (v : float64) (target : string) : MetricPoint :=
  gauge "scrape_up" "1 when the endpoint answered with metrics" v {["scrape_target" := target]}.
Definition scrape_one (get : bytes -> option response) (u : bytes) : list MetricPoint :=
  let target := S (default u (url_Host u)) in
  match scrape get u target with
  | None => [status "scrape" StatusError target; scrape_up f64_zero target]
  | Some got => got ++ [status "scrape" StatusOK target; scrape_up f64_one target]
  end.
Definition scrape_Collect (urls : list bytes) (get : bytes -> option response) : list MetricPoint := concat (map (scrape_one get) urls).

(** ** Labels *)
Lemma exported_reserved (k : string) : exported k ∉ reservedLabels.
Proof.
  unfold exported, is_reserved. case_bool_decide as H; [|done]. clear H. unfold reservedLabels. rewrite !not_elem_of_cons.
  split_and!; try (intros [=]; fail). apply not_elem_of_nil.
Qed.

Definition confined (target : string) (labels : gmap string string) : Prop :=
  labels !! "scrape_target" = Some target /\ forall k, k ∈ reservedLabels -> k <> "scrape_target" -> labels !! k = None.

Lemma confined_insert (target k v : string) (labels : gmap string string) :
  k ∉ reservedLabels -> confined target labels -> confined target (<[k := v]> labels).
Proof.
  intros Hk [H1 H2]. split.
  - rewrite lookup_insert_ne; [done|]. intros ->. apply Hk. apply (bool_decide_eq_true_1 _). reflexivity.
  - intros j Hj Hne. rewrite lookup_insert_ne; [by apply H2|]. by intros ->.
Qed.

Lemma metric_labels_confined (target : string) (ls : list (string * string)) : confined target (metric_labels target ls).
Proof.
  unfold metric_labels. assert (H0 : confined target {["scrape_target" := target]}).
  { split; [apply lookup_singleton_eq|]. intros k _ Hne. apply lookup_singleton_ne. congruence. }
  revert H0. generalize ({["scrape_target" := target]} : gmap string string). induction ls as [|l ls IH]; intros m Hm; [done|].
  cbn [foldl]. apply IH, confined_insert; [apply exported_reserved|done].
Qed.

Lemma metric_labels_lookup (target : string) (ls : list (string * string)) (k v : string) :
  NoDup (map (fun l => exported l.1) ls) -> (k, v) ∈ ls -> metric_labels target ls !! exported k = Some v.
Proof.
  unfold metric_labels. generalize ({["scrape_target" := target]} : gmap string string).
  induction ls as [|l ls IH] using rev_ind; intros m Hnd Hin; [by apply not_elem_of_nil in Hin|].
  rewrite foldl_app. cbn [foldl]. rewrite map_app in Hnd. apply NoDup_app in Hnd as (Hnd & Hdis & _).
  apply elem_of_app in Hin as [Hin|Hin%list_elem_of_singleton].
  - rewrite lookup_insert_ne; [by apply IH|]. intros He. apply (Hdis (exported k)); [apply list_elem_of_fmap; by exists (k, v)|]. rewrite <-He. by left.
  - subst l. apply lookup_insert_eq.
Qed.

Lemma flatten_confined (f : family) (target : string) (p : MetricPoint) : p ∈ flatten f target -> confined target (mp_Labels p).
Proof.
  unfold flatten. intros Hp. apply list_elem_of_In, in_concat in Hp as (l & Hl & Hp). apply in_map_iff in Hl as (m & <- & _).
  pose proof (metric_labels_confined target (me_labels m)) as Hc.
  assert (Hw : forall k v, k ∉ reservedLabels -> confined target (<[k := v]> (metric_labels target (me_labels m)))) by (intros; by apply confined_insert).
  assert (Hq : "quantile" ∉ reservedLabels /\ "le" ∉ reservedLabels) by (split; apply (bool_decide_eq_true_1 _); vm_compute; reflexivity). destruct Hq as [Hq Hle].
  unfold flatten_metric in Hp.
  destruct (fa_type f); rewrite ?in_app_iff, ?in_map_iff in Hp; cbn [In] in Hp; try tauto;
    repeat match goal with
           | H : _ \/ _ |- _ => destruct H
           | H : exists _, _ |- _ => destruct H as (? & <- & _)
           | H : In _ (if ?b then _ else _) |- _ => destruct b; cbn [In] in H
           | H : False |- _ => destruct H
           | H : _ = p |- _ => subst p
           end; cbn; auto.
Qed.
End Scraping.

(** Every label of the endpoint is kept, as long as no two are renamed alike
    and none is a label of the buckets or quantiles. *)
Lemma labels_kept (FormatFloat : float64 -> string) (f : family) (target : string) (m : metric) (p : MetricPoint) (k v : string) :
  NoDup (map (fun l => exported l.1) (me_labels m)) -> (k, v) ∈ me_labels m -> k <> "quantile" -> k <> "le" ->
  p ∈ flatten_metric FormatFloat f target m -> mp_Labels p !! exported k = Some v.
Proof.
  intros Hnd Hin Hq Hle Hp. pose proof (metric_labels_lookup target _ k v Hnd Hin) as Hl.
  assert (Hw : forall j w, j = "quantile" \/ j = "le" -> <[j := w]> (metric_labels target (me_labels m)) !! exported k = Some v).
  { intros j w Hj. rewrite lookup_insert_ne; [done|]. unfold exported. destruct (is_reserved k); intros He; destruct Hj as [-> | ->]; (discriminate He || congruence). }
  apply list_elem_of_In in Hp. unfold flatten_metric in Hp.
  destruct (fa_type f); rewrite ?in_app_iff, ?in_map_iff in Hp; cbn [In] in Hp; try tauto;
    repeat match goal with
           | H : _ \/ _ |- _ => destruct H
           | H : exists _, _ |- _ => destruct H as (? & <- & _)
           | H : In _ (if ?b then _ else _) |- _ => destruct b; cbn [In] in H
           | H : False |- _ => destruct H
           | H : _ = p |- _ => subst p
           end; cbn; auto.
Qed.

(** A label and its exported spelling: one of them is lost. *)
Lemma exported_label_lost :
  metric_labels "localhost:9100" [("exported_source", "a"); ("source", "b")] = <["exported_source" := "b"]> {["scrape_target" := "localhost:9100"]}.
Proof. vm_compute. reflexivity. Qed.

Definition family_points (FormatFloat : float64 -> string) (fams : gmap string family) (target : string) (n : string) : list MetricPoint :=
  match fams !! n with Some f => flatten FormatFloat f target | None => [] end.

(** The loop with its early exit reports the first points of all families. *)
Lemma add_families_prefix (FormatFloat : float64 -> string) (fams : gmap string family) (target : string) (names : list string) (pts : list MetricPoint) :
  (length pts <= maxScrapeSeries)%nat ->
  add_families FormatFloat fams target names pts = take maxScrapeSeries (pts ++ concat (map (family_points FormatFloat fams target) names)).
Proof.
  revert pts. induction names as [|n names IH]; intros pts Hp; cbn [add_families map concat].
  - by rewrite app_nil_r, take_ge.
  - fold (family_points FormatFloat fams target n). destruct (Nat.ltb_spec maxScrapeSeries (length (pts ++ family_points FormatFloat fams target n))) as [Hlt|Hge].
    + rewrite app_assoc. by rewrite (take_app_le (pts ++ _)) by lia.
    + rewrite IH by done. by rewrite <-app_assoc.
Qed.

(** C22: what an endpoint can do.  Whatever it answers, the points forwarded are
    the first five thousand of its series in the order of their names; each
    carries the target it came from and none of the labels that identify the
    agent, the host, the project or the customer, so that encoding a point puts
    the agent's labels in front of its own ones unchanged, all names
    distinct. *)
Theorem scrape_confined (FormatFloat : float64 -> string) (TextToMetricFamilies : bytes -> option (gmap string family))
    (get : bytes -> option response) (u : bytes) (target : string) (pts : list MetricPoint) :
  scrape FormatFloat TextToMetricFamilies get u target = Some pts ->
  (exists fams, pts = take 5000 (concat (map (family_points FormatFloat fams target) (sorted_keys fams))))
  /\ (length pts <= 5000)%nat
  /\ forall p, p ∈ pts -> confined target (mp_Labels p)
     /\ forall ms, dm_Label (dtoMetric p (agentLabelPairs ms))
                   = agentLabelPairs ms ++ map (fun k => (k, default "" (mp_Labels p !! k))) (sorted_keys (mp_Labels p))
                   /\ NoDup (map fst (dm_Label (dtoMetric p (agentLabelPairs ms)))).
Proof.
  unfold scrape. intros H. destruct (get u) as [resp|]; [|done]. cbn [mbind option_bind] in H. destruct (negb _); [done|].
  destruct (TextToMetricFamilies _) as [fams|]; [|done]. cbn [mbind option_bind] in H. injection H as <-.
  rewrite add_families_prefix by (cbn; lia). cbn [app]. change maxScrapeSeries with 5000%nat. split_and!; [by exists fams|rewrite length_take; lia|].
  intros p Hp. assert (Hc : confined target (mp_Labels p)).
  { assert (Hp' : p ∈ concat (map (family_points FormatFloat fams target) (sorted_keys fams))).
    { rewrite <-(take_drop 5000 (concat _)). apply elem_of_app. by left. }
    clear Hp. apply list_elem_of_In, in_concat in Hp' as (l & Hl & Hp). apply in_map_iff in Hl as (n & <- & _). unfold family_points in Hp.
    destruct (fams !! n) as [f|]; [|done]. eapply flatten_confined. by apply list_elem_of_In. }
  split; [done|]. intros ms. destruct Hc as [_ Hc].
  assert (Hno : forall k, is_Some (mp_Labels p !! k) -> k ∉ map fst (agentLabelPairs ms)).
  { intros k Hk Hin. rewrite Hc in Hk; [by destruct Hk| |].
    - cbn in Hin. unfold reservedLabels. set_solver.
    - intros ->. cbn in Hin. rewrite !elem_of_cons in Hin. destruct Hin as [H|[H|[H|[H|[H|H]]]]]; try discriminate H. by apply not_elem_of_nil in H. }
  split.
  - cbn [dtoMetric dm_Label]. f_equal. apply map_ext_in. intros k Hk. f_equal.
    destruct (label_name_cases (agentLabelPairs ms) k) as [[Hin _]|[_ ->]]; [|done].
    destruct (Hno k); [by apply elem_of_sorted_keys, list_elem_of_In|by apply list_elem_of_In].
  - apply labels_identity. intros k Hk Hs. destruct (Hno k Hs). by apply list_elem_of_In.
Qed.

(** A parser for one small text, to run the collector on. *)
Definition demo_family : family :=
  {| fa_name := "jobs_total"; fa_help := "Jobs"; fa_type := COUNTER;
     fa_metrics := [{| me_labels := [("queue", "mail"); ("hostname", "elsewhere")]; me_counter := f64_of_Z 7; me_gauge := f64_zero; me_untyped := f64_zero;
                       me_summary := {| su_quantiles := []; su_sum := f64_zero; su_count := 0 |};
                       me_histogram := {| hi_buckets := []; hi_sum := f64_zero; hi_count := 0 |} |}] |}.
Definition demo_text : bytes := B "jobs_total".
Definition demo_parse (b : bytes) : option (gmap string family) := if bool_decide (b = demo_text) then Some {["jobs_total" := demo_family]} else None.
Definition demo_endpoint (u : bytes) : option response := Some {| rs_StatusCode := 200; rs_Body := demo_text |}.
Lemma scrape_confined_witness :
  confined "localhost:9100" (<["exported_hostname" := "elsewhere"]> (<["queue" := "mail"]> {["scrape_target" := "localhost:9100"]})).
Proof.
  destruct (scrape_confined (fun _ => "0.5") demo_parse demo_endpoint (B "http://localhost:9100/metrics") "localhost:9100"
    [counter "jobs_total" "Jobs" (f64_of_Z 7) (metric_labels "localhost:9100" [("queue", "mail"); ("hostname", "elsewhere")])]) as (_ & _ & H).
  - unfold scrape, demo_endpoint. cbn [mbind option_bind rs_StatusCode rs_Body Z.eqb Pos.eqb negb]. rewrite take_ge by (change (length demo_text) with 10%nat; unfold body_limit; lia). reflexivity.
  - destruct (H _ ltac:(by left)) as [Hc _]. exact Hc.
Defined.

(** An endpoint that does not answer is reported as down, and the others are
    not affected. *)
Lemma scrape_isolated (FormatFloat : float64 -> string) (parse : bytes -> option (gmap string family)) (host : bytes -> option bytes)
    (before after : list bytes) (u : bytes) (get : bytes -> option response) :
  get u = None ->
  scrape_Collect FormatFloat parse host (before ++ u :: after) get
  = scrape_Collect FormatFloat parse host before get
    ++ [status "scrape" StatusError (S (default u (host u))); scrape_up f64_zero (S (default u (host u)))]
    ++ scrape_Collect FormatFloat parse host after get.
Proof.
  intros Hu. unfold scrape_Collect. rewrite map_app, concat_app. cbn [map concat]. unfold scrape_one at 2, scrape. rewrite Hu. done.
Qed.
