(* ===== verification/Journal.v ===== *)
(** * The systemd journal as a log source

    [internal/logs/journal.go], with the interleavings of [pipeline.go]: a
    [journalctl] process is followed line by line, restarted when it exits, and
    resumed after the cursor of the last acknowledged entry.  How [journalctl]
    chooses the first line it prints is a parameter with the documented
    behaviour of its options; the text [fmt.Sprint] gives a float is another. *)
From S2P Require Import Prelude GoFloat GoStrings GoNum GoFloatText GoJSON LogTail LogDiscover LogParse.
Local Open Scope string_scope.
Local Open Scope list_scope.
Local Open Scope Z_scope.

(** ** [journal.go] *)
Record JournalSource := { js_units : list bytes; js_positions : Positions; js_command : bytes }.
Definition NewJournalSource (units : list bytes) (positions : Positions) : JournalSource :=
  {| js_units := units; js_positions := positions; js_command := B "journalctl" |}.

Definition args (j : JournalSource) : list bytes :=
  map B ["--follow"; "--output=json"; "--no-pager"; "--quiet"]
  ++ [match Journal (js_positions j) with [] => B "--lines=0" | c => B "--after-cursor=" ++ c end]
  ++ map (fun u => B "--unit=" ++ u) (js_units j).

Definition decode_number (t : bytes) : option float64 := match ParseFloat t with (f, true) => Some f | _ => None end.
Definition max_wait : duration := 5 * minute.

(** The restart loop: the wait after a run of [journalctl] that lasted
    [elapsed], and the wait after the next one. *)
Definition restart_wait (wait elapsed : duration) : duration * duration :=
  let wait := if minute <? elapsed then second else wait in (wait, Z.min (2 * wait) max_wait).
Fixpoint restart_waits (wait : duration) (runs : list duration) : list duration :=
  match runs with
  | [] => []
  | r :: t => let '(w, next) := restart_wait wait r in w :: restart_waits next t
  end.

Section Source.
Context (Sprint_float : float64 -> bytes).

Definition byte_element (x : json) : list ascii :=
  match x with
  | JNum t => match decode_number t with Some f => [byte_of_Z (f64_trunc f)] | None => [] end
  | _ => []
  end.
Definition journalString (v : option json) : bytes :=
  match v with
  | Some (JStr s) => s
  | Some (JArr l) => concat (map byte_element l)
  | Some JNull | None => []
  | Some j => Sprint decode_number Sprint_float j
  end.

Definition priority_level (p msg : bytes) : bytes :=
  if bool_decide (p ∈ map B ["0"; "1"; "2"; "3"]) then LevelError
  else if bool_decide (p = B "4") then LevelWarn
  else if bool_decide (p ∈ map B ["5"; "6"]) then LevelInfo
  else if bool_decide (p = B "7") then LevelDebug
  else guessLevel msg.

Definition field_unless_empty (k v : bytes) (f : gmap bytes bytes) : gmap bytes bytes := match v with [] => f | _ => <[k := v]> f end.

Definition parseJournalJSON (b : bytes) : option (Entry * bytes) :=
  raw ← Unmarshal_map decode_number b;
  let cursor := match raw !! B "__CURSOR" with Some (JStr c) => c | _ => [] end in
  let msg := journalString (raw !! B "MESSAGE") in
  if bool_decide (cursor = []) || bool_decide (msg = []) then None
  else
    let msg := if MaxLineBytes <? len msg then take (Z.to_nat MaxLineBytes) msg ++ truncated_mark else msg in
    let t := match ParseInt (journalString (raw !! B "__REALTIME_TIMESTAMP")) 10 64 with
             | (us, None) => time_unix 0 (us * 1000)
             | _ => time_zero
             end in
    let fields := field_unless_empty (B "pid") (journalString (raw !! B "_PID"))
                    (field_unless_empty (B "program") (journalString (raw !! B "SYSLOG_IDENTIFIER")) ∅) in
    Some ({| e_Time := t; e_Msg := msg; e_Source := B "journal"; e_Path := []; e_Unit := journalString (raw !! B "_SYSTEMD_UNIT");
             e_Level := priority_level (journalString (raw !! B "PRIORITY")) msg; e_Fields := fields; e_ack := None |}, cursor).

(** The entry sent for a line, with its acknowledgement. *)
Definition journal_entry (line : bytes) : option Entry :=
  '(e, cursor) ← parseJournalJSON line;
  Some {| e_Time := e_Time e; e_Msg := e_Msg e; e_Source := e_Source e; e_Path := e_Path e; e_Unit := e_Unit e; e_Level := e_Level e;
          e_Fields := e_Fields e; e_ack := Some (AckJournal cursor) |}.

(** [follow]: the entries sent and whether the scanner gave up, which it does at
    a line that does not fit its buffer. *)
Definition scan_limit : Z := 4 * MaxLineBytes.
Fixpoint follow (lines : list bytes) : list Entry * bool :=
  match lines with
  | [] => ([], false)
  | line :: t =>
      if scan_limit <=? len line then ([], true)
      else let '(es, err) := follow t in (match journal_entry line with Some e => e :: es | None => es end, err)
  end.
End Source.

(** The restarts are between a second and five minutes apart. *)
Lemma restart_waits_bounds (wait : duration) (runs : list duration) :
  second <= wait <= max_wait -> Forall (fun w => second <= w <= max_wait) (restart_waits wait runs).
Proof.
  revert wait. induction runs as [|r t IH]; intros wait Hw; cbn [restart_waits]; [constructor|].
  unfold restart_wait. unfold max_wait, minute, second in *. cbn zeta.
  constructor; [|apply IH]; destruct (_ <? r); lia.
Qed.

(** A line over the limit is never passed: whatever was acknowledged before it,
    following again from the line stops there again. *)
Lemma overlong_line_blocks (Sprint_float : float64 -> bytes) (before after : list bytes) (line : bytes) :
  Forall (fun l => len l < scan_limit) before -> scan_limit <= len line ->
  follow Sprint_float (before ++ line :: after) = (omap (journal_entry Sprint_float) before, true)
  /\ follow Sprint_float (line :: after) = ([], true).
Proof.
  intros Hb Hl. assert (H2 : follow Sprint_float (line :: after) = ([], true)).
  { cbn [follow]. destruct (Z.leb_spec scan_limit (len line)); [done|lia]. }
  split; [|done]. induction Hb as [|l t Hlt Hb IH]; [done|]. cbn [app follow omap list_omap].
  destruct (Z.leb_spec scan_limit (len l)); [lia|]. rewrite IH. by destruct (journal_entry Sprint_float l).
Qed.

(** ** A journal record as it is printed *)
Record jrecord := {
  jr_cursor : bytes; jr_micros : Z; jr_message : bytes; jr_binary : bool; jr_unit : bytes; jr_identifier : bytes; jr_pid : bytes;
  jr_priority : bytes }.

(** The message is a string, or an array of its bytes when it is not text;
    fields a record does not have are not printed. *)
Definition byte_array (l : bytes) : json := JArr (map (fun c => JNum (FormatUint (byteval c))) l).
Definition printed (k : string) (v : bytes) : list (bytes * json) := match v with [] => [] | _ => [(B k, JStr v)] end.
Definition record_members (r : jrecord) : list (bytes * json) :=
  [ (B "__CURSOR", JStr (jr_cursor r)); (B "__REALTIME_TIMESTAMP", JStr (FormatUint (jr_micros r)));
    (B "MESSAGE", if jr_binary r then byte_array (jr_message r) else JStr (jr_message r)) ]
  ++ printed "_SYSTEMD_UNIT" (jr_unit r) ++ printed "SYSLOG_IDENTIFIER" (jr_identifier r) ++ printed "_PID" (jr_pid r)
  ++ printed "PRIORITY" (jr_priority r).
Definition journal_keys : list bytes :=
  map B ["__CURSOR"; "__REALTIME_TIMESTAMP"; "MESSAGE"; "_SYSTEMD_UNIT"; "SYSLOG_IDENTIFIER"; "_PID"; "PRIORITY"].

Definition record_entry (r : jrecord) : Entry :=
  let msg := if MaxLineBytes <? len (jr_message r) then take (Z.to_nat MaxLineBytes) (jr_message r) ++ truncated_mark else jr_message r in
  {| e_Time := time_unix 0 (jr_micros r * 1000); e_Msg := msg; e_Source := B "journal"; e_Path := []; e_Unit := jr_unit r;
     e_Level := priority_level (jr_priority r) msg;
     e_Fields := field_unless_empty (B "pid") (jr_pid r) (field_unless_empty (B "program") (jr_identifier r) ∅);
     e_ack := Some (AckJournal (jr_cursor r)) |}.

Lemma byte_element_byte (c : ascii) : byte_element (JNum (FormatUint (byteval c))) = [c].
Proof. destruct c as [[] [] [] [] [] [] [] []]; vm_compute; reflexivity. Qed.
Lemma byte_array_string (Sprint_float : float64 -> bytes) (l : bytes) : journalString Sprint_float (Some (byte_array l)) = l.
Proof.
  cbn [journalString byte_array]. rewrite map_map. induction l as [|c l IH]; [done|]. cbn [map concat]. by rewrite byte_element_byte, IH.
Qed.
Lemma byte_array_numbers (l : bytes) : numbers_ok decode_number (byte_array l) = true.
Proof.
  unfold byte_array. cbn [numbers_ok]. induction l as [|c l IH]; [done|]. cbn [map forallb]. rewrite IH, andb_true_r. cbn [numbers_ok].
  unfold decode_number. pose proof (byteval_range c). by rewrite ParseFloat_FormatUint by lia.
Qed.
Lemma record_numbers (r : jrecord) : forallb (fun m => numbers_ok decode_number m.2) (record_members r) = true.
Proof.
  unfold record_members, printed. destruct (jr_binary r), (jr_unit r), (jr_identifier r), (jr_pid r), (jr_priority r); cbn [app forallb snd];
    rewrite ?byte_array_numbers; reflexivity.
Qed.

Section Printed.
Context (Sprint_float : float64 -> bytes) (r : jrecord) (other : list (bytes * json)).
Hypothesis Hother : Forall (fun m => m.1 ∉ journal_keys) other.
Context (l : list (bytes * json)).
Hypothesis Hl : l ≡ₚ record_members r ++ other.
Hypothesis Hnd : NoDup (map fst l).

Lemma printed_absent (k : bytes) : k ∈ journal_keys -> k ∉ map fst (record_members r) -> (list_to_map (reverse l) : gmap bytes json) !! k = None.
Proof.
  intros Hk Hn. apply not_elem_of_list_to_map_1. rewrite list_elem_of_fmap. intros ([k' v] & -> & Hin). cbn [fst] in *.
  rewrite elem_of_reverse, Hl, elem_of_app in Hin. destruct Hin as [Hin|Hin].
  - apply Hn. apply list_elem_of_fmap. by exists (k', v).
  - rewrite Forall_forall in Hother. by apply (Hother _ Hin).
Qed.
Lemma printed_member (k : bytes) (v : json) : (k, v) ∈ record_members r -> (list_to_map (reverse l) : gmap bytes json) !! k = Some v.
Proof.
  intros Hin. apply elem_of_list_to_map_1.
  - change (reverse l).*1 with (map fst (reverse l)). by rewrite reverse_Permutation.
  - rewrite elem_of_reverse, Hl, elem_of_app. by left.
Qed.
Lemma printed_value (k : string) (v : bytes) :
  B k ∈ journal_keys -> (v = [] -> B k ∉ map fst (record_members r)) -> (forall m, m ∈ printed k v -> m ∈ record_members r) ->
  journalString Sprint_float ((list_to_map (reverse l) : gmap bytes json) !! B k) = v.
Proof.
  intros Hk Habs Hin. destruct v as [|c v]; [by rewrite printed_absent by auto|].
  rewrite (printed_member (B k) (JStr (c :: v))); [done|]. apply Hin. by left.
Qed.

Lemma fields_read :
  let m : gmap bytes json := list_to_map (reverse l) in
  journalString Sprint_float (m !! B "_SYSTEMD_UNIT") = jr_unit r /\ journalString Sprint_float (m !! B "SYSLOG_IDENTIFIER") = jr_identifier r
  /\ journalString Sprint_float (m !! B "_PID") = jr_pid r /\ journalString Sprint_float (m !! B "PRIORITY") = jr_priority r.
Proof.
  cbn zeta. split_and!; apply printed_value;
    first [ apply (bool_decide_eq_true_1 _); vm_compute; reflexivity
          | intros E; unfold record_members, printed; rewrite E; repeat case_match; apply (bool_decide_eq_true_1 _); vm_compute; reflexivity
          | intros m Hm; unfold record_members; rewrite !elem_of_app; tauto ].
Qed.
End Printed.

(** a journal record is read as it was written.  A line that decodes to an
    object with the fields journald prints for a record, in any order and among
    any others, the message as text or as an array of bytes, becomes the entry
    with this message (cut at the limit), time, unit, program, process and the
    level of its priority, to be acknowledged with the cursor of the record. *)
Theorem journal_record_read (Sprint_float : float64 -> bytes) (r : jrecord) (other l : list (bytes * json)) (line : bytes) :
  Unmarshal line = Some (JObj l) -> l ≡ₚ record_members r ++ other -> NoDup (map fst l) ->
  Forall (fun m => m.1 ∉ journal_keys /\ numbers_ok decode_number m.2 = true) other ->
  jr_cursor r <> [] -> jr_message r <> [] -> 0 <= jr_micros r < 2 ^ 63 ->
  journal_entry Sprint_float line = Some (record_entry r).
Proof.
  intros Hu Hl Hnd Hother Hc Hm Ht. unfold journal_entry, parseJournalJSON, Unmarshal_map. rewrite Hu. cbn [mbind option_bind numbers_ok].
  assert (Hnum : forallb (fun m => numbers_ok decode_number m.2) l = true).
  { apply forallb_forall. intros m Hin. apply list_elem_of_In in Hin. rewrite Hl, elem_of_app in Hin. destruct Hin as [Hin|Hin].
    - pose proof (record_numbers r) as Hr. rewrite forallb_forall in Hr. by apply Hr, list_elem_of_In.
    - rewrite Forall_forall in Hother. by apply Hother. }
  rewrite Hnum. cbn [mbind option_bind].
  assert (Ho : Forall (fun m : bytes * json => m.1 ∉ journal_keys) other) by (eapply Forall_impl; [exact Hother|by intros ? []]).
  destruct (fields_read Sprint_float r other Ho l Hl Hnd) as (F1 & F2 & F3 & F4). cbn zeta in *.
  rewrite F1, F2, F3, F4. rewrite (printed_member r other l Hl Hnd (B "__CURSOR") (JStr (jr_cursor r))) by (unfold record_members; left).
  rewrite (printed_member r other l Hl Hnd (B "__REALTIME_TIMESTAMP") (JStr (FormatUint (jr_micros r)))) by (unfold record_members; right; left).
  rewrite (printed_member r other l Hl Hnd (B "MESSAGE") (if jr_binary r then byte_array (jr_message r) else JStr (jr_message r))) by (unfold record_members; right; right; left).
  assert (Hmsg : journalString Sprint_float (Some (if jr_binary r then byte_array (jr_message r) else JStr (jr_message r))) = jr_message r).
  { destruct (jr_binary r); [apply byte_array_string|done]. }
  rewrite Hmsg. rewrite !bool_decide_eq_false_2 by done. cbn [orb journalString]. change (ParseInt ?x 10 64) with (Atoi x). rewrite Atoi_FormatUint by (unfold max_i64; lia). done.
Qed.

Definition demo_record : jrecord := {|
  jr_cursor := B "s=1;i=2"; jr_micros := 1700000000000000; jr_message := B "Failed to start"; jr_binary := true; jr_unit := B "nginx.service";
  jr_identifier := B "systemd"; jr_pid := B "1"; jr_priority := B "3" |}.
Lemma journal_record_read_witness :
  journal_entry (fun _ => []) (Marshal (JObj ((B "_BOOT_ID", JStr (B "b")) :: record_members demo_record))) = Some (record_entry demo_record).
Proof.
  apply (journal_record_read (fun _ => []) demo_record [(B "_BOOT_ID", JStr (B "b"))] ((B "_BOOT_ID", JStr (B "b")) :: record_members demo_record)).
  - vm_compute. reflexivity.
  - apply (Permutation_app_comm [_] (record_members demo_record)).
  - apply (bool_decide_eq_true_1 _). vm_compute. reflexivity.
  - constructor; [|constructor]. split; [apply (bool_decide_eq_true_1 _); vm_compute; reflexivity|reflexivity].
  - discriminate.
  - discriminate.
  - split; [intros [=]|reflexivity].
Defined.

(** ** The journal over restarts

    The lines journald has written so far, the number of the line the running
    [journalctl] prints next, the entries sent and not yet acknowledged, the
    positions in memory and on disk, and the entries acknowledged.  [z_from] is
    the end of the journal at the last start that found no cursor: the source
    does not read history. *)
Record jsystem := {
  z_journal : list bytes; z_from : nat; z_run : option nat; z_queue : list Entry; z_pos : Positions; z_saved : positions_file;
  z_done : list Entry }.

Lemma omap_NoDup_lookup {A B} (f : A -> option B) (l : list A) (i i' : nat) (x y : A) (c : B) :
  NoDup (omap f l) -> l !! i = Some x -> l !! i' = Some y -> f x = Some c -> f y = Some c -> i = i'.
Proof.
  revert i i'. induction l as [|z l IH]; intros i i' Hnd Hi Hi' Hx Hy; [done|]. cbn [omap list_omap] in Hnd.
  assert (Hin : forall k w, l !! k = Some w -> f w = Some c -> c ∈ omap f l).
  { intros k w Hk Hw. apply list_elem_of_omap. exists w. split; [by eapply list_elem_of_lookup_2|done]. }
  destruct i as [|i], i' as [|i']; cbn in Hi, Hi'; [done| | |].
  - injection Hi as ->. rewrite Hx in Hnd. apply NoDup_cons in Hnd as [Hn _]. destruct Hn. by eapply Hin.
  - injection Hi' as ->. rewrite Hy in Hnd. apply NoDup_cons in Hnd as [Hn _]. destruct Hn. by eapply Hin.
  - f_equal. destruct (f z); [apply NoDup_cons in Hnd as [_ Hnd]|]; by apply IH.
Qed.

Section JournalRestarts.
Context (Sprint_float : float64 -> bytes) (stateDir : bytes).
Context (journalctl : list bytes -> list bytes -> nat).
Notation entry := (journal_entry Sprint_float).
Notation source p := (NewJournalSource [] p).

Definition cursor_of (line : bytes) : option bytes := snd <$> parseJournalJSON Sprint_float line.

(** What [journalctl] documents for the whole journal: output starts after the
    record of the cursor, or, with no lines of history, at the end. *)
Definition options : list bytes := map B ["--follow"; "--output=json"; "--no-pager"; "--quiet"].
Class JournalctlSpec : Prop := {
  after_cursor j i line c : j !! i = Some line -> cursor_of line = Some c ->
    (forall i' line', j !! i' = Some line' -> cursor_of line' = Some c -> i' = i) ->
    journalctl j (options ++ [B "--after-cursor=" ++ c]) = Datatypes.S i;
  no_history j : journalctl j (options ++ [B "--lines=0"]) = length j }.
Context `{JournalctlSpec}.

Definition with_run (z : jsystem) (from : nat) (run : option nat) (queue : list Entry) : jsystem :=
  {| z_journal := z_journal z; z_from := from; z_run := run; z_queue := queue; z_pos := z_pos z; z_saved := z_saved z; z_done := z_done z |}.

(** The pipeline and the source: journald writes a line with a new cursor,
    [journalctl] prints a line and the source sends its entry, the shipper
    acknowledges the oldest entry, the positions are saved, [journalctl] exits
    and is started again, the agent crashes. *)
Inductive jsys_step : jsystem -> jsystem -> Prop :=
  | Z_append z line :
      (forall c line', cursor_of line = Some c -> line' ∈ z_journal z -> cursor_of line' <> Some c) ->
      jsys_step z {| z_journal := z_journal z ++ [line]; z_from := z_from z; z_run := z_run z; z_queue := z_queue z; z_pos := z_pos z;
                     z_saved := z_saved z; z_done := z_done z |}
  | Z_read z i line :
      z_run z = Some i -> z_journal z !! i = Some line -> len line < scan_limit ->
      jsys_step z (with_run z (z_from z) (Some (Datatypes.S i)) (z_queue z ++ match entry line with Some e => [e] | None => [] end))
  | Z_ack z e rest a :
      z_queue z = e :: rest -> e_ack e = Some a ->
      jsys_step z {| z_journal := z_journal z; z_from := z_from z; z_run := z_run z; z_queue := rest; z_pos := do_ack (z_pos z) a;
                     z_saved := z_saved z; z_done := z_done z ++ [e] |}
  | Z_save z ok :
      jsys_step z {| z_journal := z_journal z; z_from := z_from z; z_run := z_run z; z_queue := z_queue z; z_pos := (Save (z_pos z) (z_saved z) ok).1;
                     z_saved := (Save (z_pos z) (z_saved z) ok).2; z_done := z_done z |}
  | Z_exit z : jsys_step z (with_run z (z_from z) None (z_queue z))
  | Z_start z :
      z_run z = None ->
      jsys_step z (with_run z (match Journal (z_pos z) with [] => length (z_journal z) | _ => z_from z end)
                     (Some (journalctl (z_journal z) (args (source (z_pos z))))) (z_queue z))
  | Z_crash z :
      jsys_step z {| z_journal := z_journal z; z_from := z_from z; z_run := None; z_queue := []; z_pos := LoadPositions stateDir (z_saved z);
                     z_saved := z_saved z; z_done := z_done z |}.

Inductive jsys_reach : jsystem -> jsystem -> Prop :=
  | jreach_refl z : jsys_reach z z
  | jreach_step z z' z'' : jsys_reach z z' -> jsys_step z' z'' -> jsys_reach z z''.

(** Every line from [from] to before [n] that has an entry has it in [d]. *)
Definition sent_in (j : list bytes) (from : nat) (d : list Entry) (n : nat) : Prop :=
  forall i line e, (from <= i < n)%nat -> j !! i = Some line -> entry line = Some e -> e ∈ d.

(** A cursor that may be resumed from. *)
Definition safe_cursor (j : list bytes) (from : nat) (d : list Entry) (c : bytes) : Prop :=
  c = [] \/ exists i line, j !! i = Some line /\ cursor_of line = Some c /\ sent_in j from d (Datatypes.S i).

Definition saved_cursor (f : positions_file) : bytes := match f with PSaved _ c => c | _ => [] end.

Record jinv (z : jsystem) : Prop := {
  j_fresh : forall i i' l l' c, z_journal z !! i = Some l -> z_journal z !! i' = Some l' -> cursor_of l = Some c -> cursor_of l' = Some c -> i = i';
  j_run : forall n, z_run z = Some n -> (n <= length (z_journal z))%nat /\ sent_in (z_journal z) (z_from z) (z_done z ++ z_queue z) n;
  j_queue : forall a e b, z_queue z = a ++ e :: b -> exists i line, z_journal z !! i = Some line /\ entry line = Some e
              /\ sent_in (z_journal z) (z_from z) (z_done z ++ a) i;
  j_mem : safe_cursor (z_journal z) (z_from z) (z_done z) (Journal (z_pos z));
  j_disk : safe_cursor (z_journal z) (z_from z) (z_done z) (saved_cursor (z_saved z)) }.

Lemma sent_mono (j : list bytes) (from from' : nat) (d d' : list Entry) (n : nat) :
  (from <= from')%nat -> d ⊆ d' -> sent_in j from d n -> sent_in j from' d' n.
Proof. intros Hf Hd Hs i line e Hi Hl He. apply Hd. apply (Hs i line e); [lia|done|done]. Qed.
Lemma sent_app (j k : list bytes) (from : nat) (d : list Entry) (n : nat) :
  (n <= length j)%nat -> sent_in j from d n -> sent_in (j ++ k) from d n.
Proof. intros Hn Hs i line e Hi Hl He. rewrite lookup_app_l in Hl by lia. by apply (Hs i line e). Qed.
Lemma safe_mono (j : list bytes) (from from' : nat) (d d' : list Entry) (c : bytes) :
  (from <= from')%nat -> d ⊆ d' -> safe_cursor j from d c -> safe_cursor j from' d' c.
Proof. intros Hf Hd [->|(i & line & H1 & H2 & H3)]; [by left|]. right. exists i, line. eauto using sent_mono. Qed.
Lemma safe_app (j k : list bytes) (from : nat) (d : list Entry) (c : bytes) : safe_cursor j from d c -> safe_cursor (j ++ k) from d c.
Proof.
  intros [->|(i & line & H1 & H2 & H3)]; [by left|]. right. exists i, line. pose proof (lookup_lt_Some _ _ _ H1).
  split_and!; [by rewrite lookup_app_l|done|by apply sent_app].
Qed.

Lemma entry_cursor (line : bytes) (e : Entry) : entry line = Some e -> exists c, e_ack e = Some (AckJournal c) /\ cursor_of line = Some c /\ c <> [].
Proof.
  unfold journal_entry, cursor_of. destruct (parseJournalJSON Sprint_float line) as [[e0 c]|] eqn:E; [|done]. cbn. intros [= <-]. exists c. split_and!; [done|done|].
  unfold parseJournalJSON in E. destruct (Unmarshal_map _ _) as [raw|]; [|done]. cbn [mbind option_bind] in E.
  destruct (bool_decide _) eqn:Hb in E; [done|]. cbn [orb] in E. apply bool_decide_eq_false in Hb. destruct (bool_decide _) in E; [done|]. injection E as _ <-. done.
Qed.

Ltac zcbn := cbn [with_run z_journal z_from z_run z_queue z_pos z_saved z_done saved_cursor].

Lemma jinv_append (z : jsystem) (line : bytes) :
  (forall c line', cursor_of line = Some c -> line' ∈ z_journal z -> cursor_of line' <> Some c) -> jinv z ->
  jinv {| z_journal := z_journal z ++ [line]; z_from := z_from z; z_run := z_run z; z_queue := z_queue z; z_pos := z_pos z; z_saved := z_saved z; z_done := z_done z |}.
Proof.
  intros Hnew [Hf Hr Hq Hm Hd]. constructor; zcbn.
  - intros i i' l l' c Hi Hi' Hc Hc'. apply lookup_app_Some in Hi as [Hi|[Hn Hi]]; apply lookup_app_Some in Hi' as [Hi'|[Hn' Hi']].
    + eauto.
    + apply list_lookup_singleton_Some in Hi' as [_ <-]. destruct (Hnew c l Hc'); [by eapply list_elem_of_lookup_2|done].
    + apply list_lookup_singleton_Some in Hi as [_ <-]. destruct (Hnew c l' Hc); [by eapply list_elem_of_lookup_2|done].
    + apply list_lookup_singleton_Some in Hi as [? _], Hi' as [? _]. lia.
  - intros n Hn. destruct (Hr n Hn) as [H1 H2]. rewrite length_app. split; [lia|by apply sent_app].
  - intros a e b Hab. destruct (Hq a e b Hab) as (i & l & Hi & He & Hs). pose proof (lookup_lt_Some _ _ _ Hi).
    exists i, l. split_and!; [by rewrite lookup_app_l|done|apply sent_app; [lia|done]].
  - by apply safe_app.
  - by apply safe_app.
Qed.

Lemma jinv_read (z : jsystem) (i : nat) (line : bytes) :
  z_run z = Some i -> z_journal z !! i = Some line -> jinv z ->
  jinv (with_run z (z_from z) (Some (Datatypes.S i)) (z_queue z ++ match entry line with Some e => [e] | None => [] end)).
Proof.
  intros Hrun Hl [Hf Hr Hq Hm Hd]. destruct (Hr i Hrun) as [Hle Hs]. pose proof (lookup_lt_Some _ _ _ Hl). constructor; zcbn; try done.
  - intros n [= <-]. split; [lia|]. intros k l e Hk Hkl He. destruct (decide (k = i)) as [->|Hne].
    + rewrite Hl in Hkl. injection Hkl as <-. rewrite He. rewrite !elem_of_app. right. right. by left.
    + rewrite app_assoc, elem_of_app. left. apply (Hs k l e); [lia|done|done].
  - intros a e b Hab. destruct (entry line) as [e0|] eqn:He; [|rewrite app_nil_r in Hab; by apply (Hq a e b)].
    destruct b as [|x b _] using rev_ind.
    + apply app_inj_tail in Hab as [<- <-]. by exists i, line.
    + rewrite app_comm_cons, app_assoc in Hab. apply app_inj_tail in Hab as [Hab _]. by apply (Hq a e b).
Qed.

Lemma jinv_ack (z : jsystem) (e : Entry) (rest : list Entry) (a : ack_action) :
  z_queue z = e :: rest -> e_ack e = Some a -> jinv z ->
  jinv {| z_journal := z_journal z; z_from := z_from z; z_run := z_run z; z_queue := rest; z_pos := do_ack (z_pos z) a; z_saved := z_saved z; z_done := z_done z ++ [e] |}.
Proof.
  intros Hqe Ha [Hf Hr Hq Hm Hd]. constructor; zcbn; try done.
  - intros n Hn. rewrite <-app_assoc. cbn. rewrite <-Hqe. by apply Hr.
  - intros a' e' b Hab. destruct (Hq (e :: a') e' b) as (i & l & Hi & He & Hs); [by rewrite Hqe, Hab|]. exists i, l. by rewrite <-app_assoc.
  - destruct (Hq [] e rest Hqe) as (i & l & Hi & He & Hs). destruct (entry_cursor l e He) as (c & Hc & Hcur & _). rewrite Ha in Hc. injection Hc as ->.
    assert (Hj : Journal (do_ack (z_pos z) (AckJournal c)) = c) by (cbn; unfold SetJournalCursor; by case_bool_decide).
    rewrite Hj. right. exists i, l. split_and!; [done|done|]. intros k l' e' Hk Hl' He'. destruct (decide (k = i)) as [->|Hne].
    + rewrite Hi in Hl'. injection Hl' as <-. rewrite He in He'. injection He' as <-. apply elem_of_app. right. by left.
    + apply elem_of_app. left. rewrite app_nil_r in Hs. apply (Hs k l' e'); [lia|done|done].
  - eapply safe_mono; [reflexivity| |exact Hd]. intros x Hx. apply elem_of_app. by left.
Qed.

Lemma jinv_save (z : jsystem) (ok : bool) : jinv z ->
  jinv {| z_journal := z_journal z; z_from := z_from z; z_run := z_run z; z_queue := z_queue z; z_pos := (Save (z_pos z) (z_saved z) ok).1;
          z_saved := (Save (z_pos z) (z_saved z) ok).2; z_done := z_done z |}.
Proof.
  intros [Hf Hr Hq Hm Hd]. unfold Save. destruct (negb (dirty (z_pos z)) || _); [by constructor|]. constructor; zcbn; try done. by destruct ok.
Qed.

Lemma source_args (p : Positions) :
  args (source p) = options ++ [match Journal p with [] => B "--lines=0" | c => B "--after-cursor=" ++ c end].
Proof. reflexivity. Qed.

Lemma jinv_start (z : jsystem) : z_run z = None -> jinv z ->
  jinv (with_run z (match Journal (z_pos z) with [] => length (z_journal z) | _ => z_from z end)
          (Some (journalctl (z_journal z) (args (source (z_pos z))))) (z_queue z)).
Proof.
  intros Hrun [Hf Hr Hq Hm Hd]. destruct (Journal (z_pos z)) as [|c0 c] eqn:Hc.
  - assert (Hj : journalctl (z_journal z) (args (source (z_pos z))) = length (z_journal z)).
    { rewrite source_args, Hc. apply no_history. }
    constructor; zcbn; try done.
    + intros n [= <-]. rewrite Hj. split; [lia|]. intros i l e Hi. lia.
    + intros a e b Hab. destruct (Hq a e b Hab) as (i & l & Hi & He & _). pose proof (lookup_lt_Some _ _ _ Hi).
      exists i, l. split_and!; [done|done|]. intros k l' e' Hk. lia.
    + rewrite Hc. by left.
    + destruct Hd as [->|(i & l & Hi & Hcur & _)]; [by left|]. right. exists i, l. split_and!; [done|done|]. pose proof (lookup_lt_Some _ _ _ Hi). intros k l' e' Hk. lia.
  - destruct Hm as [Hm|(i & l & Hi & Hcur & Hs)]; [congruence|]. pose proof (lookup_lt_Some _ _ _ Hi).
    assert (Hj : journalctl (z_journal z) (args (source (z_pos z))) = Datatypes.S i).
    { rewrite source_args, Hc. apply (after_cursor _ i l (c0 :: c)); [done|done|]. intros i' l' Hi' Hc'. by eapply Hf. }
    constructor; zcbn; try done.
    + intros n [= <-]. rewrite Hj. split; [lia|]. eapply sent_mono; [reflexivity| |exact Hs]. intros x Hx. apply elem_of_app. by left.
    + rewrite Hc. right. by exists i, l.
Qed.

Lemma load_cursor (f : positions_file) : Journal (LoadPositions stateDir f) = match stateDir with [] => [] | _ => saved_cursor f end.
Proof. by destruct stateDir, f. Qed.

Lemma jinv_crash (z : jsystem) : jinv z ->
  jinv {| z_journal := z_journal z; z_from := z_from z; z_run := None; z_queue := []; z_pos := LoadPositions stateDir (z_saved z); z_saved := z_saved z; z_done := z_done z |}.
Proof.
  intros [Hf Hr Hq Hm Hd]. constructor; zcbn; try done.
  - intros [|? ?] ? ? Hab; done.
  - rewrite load_cursor. destruct stateDir; [by left|done].
Qed.

Lemma jsys_step_inv (z z' : jsystem) : jsys_step z z' -> jinv z -> jinv z'.
Proof.
  destruct 1; intros Hi; eauto using jinv_append, jinv_read, jinv_ack, jinv_save, jinv_start, jinv_crash.
  destruct Hi as [Hf Hr Hq Hm Hd]. by constructor.
Qed.

(** *** Once there is a cursor

    The cursor [c] is that of a record from which reading goes on at [b] or
    later. *)
Definition beyond (b : nat) (j : list bytes) (c : bytes) : Prop :=
  c <> [] /\ exists i line, j !! i = Some line /\ cursor_of line = Some c /\ (b <= Datatypes.S i)%nat.

(** An agent that started from a cursor never reads before it, nor again from
    the end of the journal. *)
Record jafter (b : nat) (z : jsystem) : Prop := {
  ja_from : z_from z = b;
  ja_run : forall n, z_run z = Some n -> (b <= n)%nat;
  ja_queue : forall e, e ∈ z_queue z -> exists c, e_ack e = Some (AckJournal c) /\ beyond b (z_journal z) c;
  ja_mem : beyond b (z_journal z) (Journal (z_pos z));
  ja_disk : beyond b (z_journal z) (saved_cursor (z_saved z)) }.

Lemma beyond_app (b : nat) (j k : list bytes) (c : bytes) : beyond b j c -> beyond b (j ++ k) c.
Proof.
  intros (Hc & i & line & Hi & Hl & Hb). split; [done|]. exists i, line. pose proof (lookup_lt_Some _ _ _ Hi).
  split_and!; [by rewrite lookup_app_l|done|done].
Qed.

Lemma start_after_cursor (z : jsystem) (b : nat) (c : bytes) (p : Positions) :
  jinv z -> Journal p = c -> beyond b (z_journal z) c ->
  exists i line, z_journal z !! i = Some line /\ cursor_of line = Some c /\ (b <= Datatypes.S i)%nat
    /\ journalctl (z_journal z) (args (source p)) = Datatypes.S i.
Proof.
  intros Hi Hj (Hc & i & line & Hl & Hcur & Hb). exists i, line. split_and!; [done..|]. rewrite source_args, Hj. destruct c as [|c0 c]; [done|].
  apply (after_cursor _ i line (c0 :: c)); [done|done|]. intros i' l' Hi' Hc'. by eapply (j_fresh z Hi).
Qed.

Lemma jafter_step (b : nat) (z z' : jsystem) : stateDir <> [] -> jsys_step z z' -> jinv z -> jafter b z -> jafter b z'.
Proof.
  intros Hdir Hs Hi [Hf Hr Hq Hm Hd].
  destruct Hs as [z line Hnew|z i line Hrun Hl Hlen|z e rest a Hqe Ha|z ok|z|z Hrun|z]; constructor; zcbn; try done.
  - intros e He. destruct (Hq e He) as (c & Hc & Hb). exists c. split; [done|by apply beyond_app].
  - by apply beyond_app.
  - by apply beyond_app.
  - intros n [= <-]. specialize (Hr i Hrun). lia.
  - intros e [He|He]%elem_of_app; [by apply Hq|]. destruct (entry line) as [e0|] eqn:E; [|by apply not_elem_of_nil in He].
    apply list_elem_of_singleton in He as ->. destruct (entry_cursor line e0 E) as (c & Hc & Hcur & Hne). exists c. split; [done|].
    split; [done|]. exists i, line. split_and!; [done..|]. specialize (Hr i Hrun). lia.
  - intros x Hx. apply Hq. rewrite Hqe. by right.
  - destruct (Hq e) as (c & Hc & Hb); [rewrite Hqe; by left|]. rewrite Ha in Hc. injection Hc as ->.
    assert (Hj : Journal (do_ack (z_pos z) (AckJournal c)) = c) by (cbn; unfold SetJournalCursor; by case_bool_decide). by rewrite Hj.
  - unfold Save. by destruct (negb (dirty (z_pos z)) || _).
  - unfold Save. destruct (negb (dirty (z_pos z)) || _); [done|]. by destruct ok.
  - destruct (Journal (z_pos z)) eqn:Hc; [by destruct Hm|done].
  - intros n [= <-]. destruct (start_after_cursor z b _ _ Hi eq_refl Hm) as (i & line & _ & _ & Hb & ->). done.
  - intros e He. by apply not_elem_of_nil in He.
  - rewrite load_cursor. by destruct stateDir.
Qed.

(** C14: once a cursor is saved the journal is delivered at least once.  The
    agent starts with the cursor of record [i0] in its state file and follows
    the whole journal (no units are chosen, as the program builds its source);
    then come, in any order, new records, lines read, acknowledgements, saves
    (failing ones too), exits and restarts of [journalctl], crashes and
    restarts of the agent.  At any point the state file holds the cursor of
    [i0] or of a later record, every record after [i0] up to that one that has
    an entry was acknowledged, and a restart makes [journalctl] resume with
    the record after it: no record after [i0] is ever passed without having
    been delivered. *)
Theorem journal_at_least_once (journal : list bytes) (f : positions_file) (i0 : nat) (line0 : bytes) (z : jsystem) :
  NoDup (omap cursor_of journal) -> stateDir <> [] ->
  journal !! i0 = Some line0 -> cursor_of line0 = Some (saved_cursor f) -> saved_cursor f <> [] ->
  jsys_reach {| z_journal := journal; z_from := Datatypes.S i0; z_run := None; z_queue := []; z_pos := LoadPositions stateDir f;
                z_saved := f; z_done := [] |} z ->
  exists i line, z_journal z !! i = Some line /\ cursor_of line = Some (saved_cursor (z_saved z)) /\ (i0 <= i)%nat
    /\ (forall k l e, (i0 < k <= i)%nat -> z_journal z !! k = Some l -> entry l = Some e -> e ∈ z_done z)
    /\ journalctl (z_journal z) (args (source (LoadPositions stateDir (z_saved z)))) = Datatypes.S i.
Proof.
  intros Hnd Hdir H0 Hc0 Hne0 Hreach.
  assert (Hload : Journal (LoadPositions stateDir f) = saved_cursor f) by (rewrite load_cursor; by destruct stateDir).
  assert (Hinv : jinv z /\ jafter (Datatypes.S i0) z).
  { remember {| z_journal := journal |} as z0 eqn:Hz0. induction Hreach as [z|z z' z'' Hr IH Hstep]; subst.
    - assert (Hsafe : safe_cursor journal (Datatypes.S i0) [] (saved_cursor f)).
      { right. exists i0, line0. split_and!; [done..|]. intros k l e Hk. lia. }
      assert (Hbey : beyond (Datatypes.S i0) journal (saved_cursor f)) by (split; [done|]; by exists i0, line0).
      split; constructor; zcbn; rewrite ?Hload; try done.
      + intros i i' l l' c. by apply omap_NoDup_lookup.
      + intros [|? ?] ? ? Hab; done.
      + intros e He. by apply not_elem_of_nil in He.
    - destruct (IH eq_refl) as [Hi Ha]. split; [by eapply jsys_step_inv|by eapply jafter_step]. }
  destruct Hinv as [Hi [Hfrom _ _ _ Hd]].
  assert (Hl' : Journal (LoadPositions stateDir (z_saved z)) = saved_cursor (z_saved z)) by (rewrite load_cursor; by destruct stateDir).
  destruct (start_after_cursor z _ _ _ Hi Hl' Hd) as (i & line & Hl & Hcur & Hb & Hj). exists i, line. split_and!; [done|done|lia| |done].
  intros k l e Hk Hkl He. destruct (j_disk z Hi) as [Hs|(i' & l' & Hi' & Hc' & Hs)]; [by destruct Hd|].
  assert (i' = i) as -> by (by eapply (j_fresh z Hi)). rewrite Hfrom in Hs. apply (Hs k l e); [lia|done|done].
Qed.
End JournalRestarts.

(** A [journalctl] for the witness: it looks the cursor up. *)
Definition find_line (j : list bytes) (c : bytes) : nat :=
  match list_find (fun l => cursor_of (fun _ => []) l = Some c) j with Some (i, _) => Datatypes.S i | None => length j end.
Definition demo_journalctl (j a : list bytes) : nat :=
  match last a with
  | Some o => match CutPrefix o (B "--after-cursor=") with Some c => find_line j c | None => length j end
  | None => length j
  end.
#[export] Instance demo_journalctl_spec : JournalctlSpec (fun _ => []) demo_journalctl.
Proof.
  constructor.
  - intros j i line c Hi Hc Hu. unfold demo_journalctl. rewrite last_snoc.
    assert (CutPrefix (B "--after-cursor=" ++ c) (B "--after-cursor=") = Some c) as -> by reflexivity.
    unfold find_line. destruct (list_find _ j) as [[k l]|] eqn:E.
    + apply list_find_Some in E as (Hk & Hl & _). by rewrite (Hu k l Hk Hl).
    + apply list_find_None in E. rewrite Forall_forall in E. destruct (E line); [by eapply list_elem_of_lookup_2|done].
  - intros j. reflexivity.
Qed.

Definition demo_line : bytes := Marshal (JObj (record_members demo_record)).
Definition demo_empty : Positions := LoadPositions (B "/state") PNone.
Definition demo_z0 : jsystem := {| z_journal := []; z_from := 0%nat; z_run := None; z_queue := []; z_pos := demo_empty; z_saved := PNone; z_done := [] |}.
Lemma demo_line_entry : journal_entry (fun _ => []) demo_line = Some (record_entry demo_record).
Proof. vm_compute. reflexivity. Qed.

(** The witness starts from the cursor of an older record. *)
Definition old_record : jrecord := {|
  jr_cursor := B "s=1;i=1"; jr_micros := 1600000000000000; jr_message := B "Started"; jr_binary := false; jr_unit := B "nginx.service";
  jr_identifier := B "systemd"; jr_pid := B "1"; jr_priority := B "6" |}.
Definition old_line : bytes := Marshal (JObj (record_members old_record)).
Definition old_file : positions_file := PSaved (Some ∅) (B "s=1;i=1").
Definition old_pos : Positions := LoadPositions (B "/state") old_file.
Definition demo_z : jsystem := {|
  z_journal := [old_line; demo_line]; z_from := 1%nat; z_run := Some 2%nat; z_queue := []; z_pos := (Save (SetJournalCursor old_pos (B "s=1;i=2")) old_file true).1;
  z_saved := (Save (SetJournalCursor old_pos (B "s=1;i=2")) old_file true).2; z_done := [record_entry demo_record] |}.
Lemma demo_z_reached : jsys_reach (fun _ => []) (B "/state") demo_journalctl
  {| z_journal := [old_line]; z_from := 1%nat; z_run := None; z_queue := []; z_pos := old_pos; z_saved := old_file; z_done := [] |} demo_z.
Proof.
  eapply jreach_step; [eapply jreach_step; [eapply jreach_step; [eapply jreach_step; [eapply jreach_step; [apply jreach_refl|]|]|]|]|].
  - apply Z_start. reflexivity.
  - apply (Z_append _ _ _ _ demo_line). intros c l Hc Hl. apply list_elem_of_singleton in Hl as ->. intros Ho.
    assert (cursor_of (fun _ => []) demo_line = Some (B "s=1;i=2")) as Hd by (vm_compute; reflexivity).
    assert (cursor_of (fun _ => []) old_line = Some (B "s=1;i=1")) as Hold by (vm_compute; reflexivity). rewrite Hd in Hc. rewrite Hold, <-Hc in Ho. discriminate Ho.
  - apply (Z_read _ _ _ _ 1%nat demo_line); [vm_compute; reflexivity|reflexivity|vm_compute; reflexivity].
  - cbn [with_run z_queue z_journal z_from z_run z_pos z_saved z_done app]. rewrite demo_line_entry.
    apply (Z_ack _ _ _ _ (record_entry demo_record) [] (AckJournal (B "s=1;i=2"))); reflexivity.
  - refine (eq_ind _ (jsys_step _ _ _ _) (Z_save _ _ _ _ true) demo_z _). reflexivity.
Qed.
Lemma journal_at_least_once_witness :
  exists i line, z_journal demo_z !! i = Some line
    /\ (forall k l e, (0 < k <= i)%nat -> z_journal demo_z !! k = Some l -> journal_entry (fun _ => []) l = Some e -> e ∈ z_done demo_z).
Proof.
  destruct (journal_at_least_once (fun _ => []) (B "/state") demo_journalctl [old_line] old_file 0 old_line demo_z) as (i & line & H1 & _ & _ & H2 & _).
  - vm_compute. apply NoDup_singleton.
  - discriminate.
  - reflexivity.
  - vm_compute. reflexivity.
  - discriminate.
  - exact demo_z_reached.
  - exists i, line. split; [exact H1|exact H2].
Defined.

(** Until a cursor is saved, a restart skips what was read and not yet
    delivered: the record is not acknowledged, not on its way, and will not be
    read again. *)
Lemma first_records_skipped :
  exists z, jsys_reach (fun _ => []) (B "/state") demo_journalctl demo_z0 z
    /\ z_journal z = [demo_line] /\ is_Some (journal_entry (fun _ => []) demo_line) /\ z_run z = Some 1%nat /\ z_queue z = [] /\ z_done z = [].
Proof.
  eexists. split; [|split_and!; [| rewrite demo_line_entry; eauto | | |]].
  - eapply jreach_step; [eapply jreach_step; [eapply jreach_step; [eapply jreach_step; [eapply jreach_step; [apply jreach_refl|]|]|]|]|].
    + apply Z_start. reflexivity.
    + apply (Z_append _ _ _ _ demo_line). intros c l _ Hl. by apply not_elem_of_nil in Hl.
    + apply (Z_read _ _ _ _ 0%nat demo_line); [reflexivity|reflexivity|vm_compute; reflexivity].
    + apply Z_crash.
    + apply Z_start. reflexivity.
  - reflexivity.
  - reflexivity.
  - reflexivity.
  - reflexivity.
Qed.
