(* ===== verification/Stdout.v ===== *)
(** * Printing metrics in a dry run

    [internal/transport/stdout.go]: every push is printed, its points grouped by
    the first word of their names.  The format of times and of floats is an
    argument, and so is the order [sort.Slice] leaves equal points in. *)
From S2P Require Import Prelude GoFloat GoStrings GoNum Metrics.
Local Open Scope string_scope.
Local Open Scope list_scope.
Local Open Scope Z_scope.

(** The number of pushes so far, in 64 bits. *)
Record StdoutTransport := { so_tick : Z }.
Definition NewStdoutTransport : StdoutTransport := {| so_tick := 0 |}.

(** Strings are compared byte by byte. *)
Fixpoint bytes_lt (a b : bytes) : bool :=
  match a, b with
  | _, [] => false
  | [], _ :: _ => true
  | x :: a', y :: b' => (byteval x <? byteval y) || ((byteval x =? byteval y) && bytes_lt a' b')
  end.

Definition labelString (labels : gmap string string) : bytes :=
  Join (map (fun k => B k ++ B "=" ++ B (default "" (labels !! k))) (sorted_keys labels)) ","%char.

(** [SplitN(name, "_", 2)[0]]. *)
Definition group_of (p : MetricPoint) : string :=
  S (match Cut (B (mp_Name p)) "_"%char with Some (a, _) => a | None => B (mp_Name p) end).
Definition add_point (groups : gmap string (list MetricPoint)) (p : MetricPoint) : gmap string (list MetricPoint) :=
  <[group_of p := default [] (groups !! group_of p) ++ [p]]> groups.
Definition by_group (pts : list MetricPoint) : gmap string (list MetricPoint) := foldl add_point ∅ pts.

(** The order in a group: by name, then by labels. *)
Definition point_less (p q : MetricPoint) : bool :=
  if bool_decide (mp_Name p = mp_Name q) then bytes_lt (labelString (mp_Labels p)) (labelString (mp_Labels q))
  else bytes_lt (B (mp_Name p)) (B (mp_Name q)).

Definition blanks (n : nat) : bytes := replicate n space.
Definition pad_right (n : nat) (l : bytes) : bytes := l ++ blanks (n - length (runes l)).
Definition pad_left (n : nat) (l : bytes) : bytes := blanks (n - length (runes l)) ++ l.

Section Printing.
Context (Format : time -> bytes) (Format_g : float64 -> bytes) (sort : list MetricPoint -> list MetricPoint).

Definition point_line (p : MetricPoint) : bytes :=
  let labels := if bool_decide (mp_Labels p = ∅) then [] else B "{" ++ labelString (mp_Labels p) ++ B "}" in
  B "  " ++ pad_right 60 (B (mp_Name p) ++ labels) ++ B " " ++ pad_left 20 (Format_g (mp_Value p)) ++ [newline].
Definition group_text (g : string) (pts : list MetricPoint) : bytes :=
  [newline] ++ B "[" ++ B g ++ B "]" ++ [newline] ++ concat (map point_line (sort pts)).
Definition heading (at_ : time) (n : Z) (hostname : string) : bytes :=
  [newline] ++ B "=== [" ++ Format at_ ++ B "] Tick #" ++ FormatUint n ++ B " " ++ map byte_of_Z [226; 128; 148] ++ B " hostname: " ++ B hostname ++ B " ===" ++ [newline].

(** The transport afterwards and what is printed. *)
Definition Push (t : StdoutTransport) (now : time) (ms : MetricSet) : StdoutTransport * bytes :=
  let n := wrap_u64 (so_tick t + 1) in
  let ts := if IsZero (ms_CollectedAt ms) then now else ms_CollectedAt ms in
  let groups := by_group (ms_Points ms) in
  ({| so_tick := n |},
   heading ts n (ms_Hostname ms) ++ concat (map (fun g => group_text g (default [] (groups !! g))) (sorted_keys groups)) ++ [newline] ++ B "---" ++ [newline]).
End Printing.

(** ** Every point is printed once *)
Lemma by_group_lookup (pts : list MetricPoint) (g : string) :
  by_group pts !! g = match List.filter (fun p => bool_decide (group_of p = g)) pts with [] => None | l => Some l end.
Proof.
  unfold by_group. induction pts as [|p pts IH] using rev_ind; [done|]. rewrite foldl_app, List.filter_app. cbn [foldl List.filter].
  unfold add_point at 1. destruct (decide (group_of p = g)) as [<-|Hne].
  - rewrite lookup_insert_eq, IH, bool_decide_eq_true_2 by done. by destruct (List.filter _ pts).
  - rewrite lookup_insert_ne, IH, bool_decide_eq_false_2 by done. rewrite app_nil_r. done.
Qed.

Lemma filter_partition {A} (f : A -> bool) (l : list A) : List.filter f l ++ List.filter (fun x => negb (f x)) l ≡ₚ l.
Proof.
  induction l as [|x l IH]; [done|]. cbn [List.filter]. destruct (f x); cbn [negb app]; [by rewrite IH|]. by rewrite <-Permutation_middle, IH.
Qed.

Lemma filter_filter {A} (f g : A -> bool) (l : list A) : (forall x, f x = true -> g x = true) -> List.filter f (List.filter g l) = List.filter f l.
Proof.
  intros Hfg. induction l as [|x l IH]; [done|]. cbn [List.filter]. destruct (g x) eqn:Hg; cbn [List.filter]; [by rewrite IH|].
  rewrite IH. destruct (f x) eqn:Hf; [|done]. rewrite (Hfg x Hf) in Hg. done.
Qed.

Lemma regroup {A} (key : A -> string) (ks : list string) (l : list A) :
  NoDup ks -> (forall x, x ∈ l -> key x ∈ ks) -> concat (map (fun k => List.filter (fun x => bool_decide (key x = k)) l) ks) ≡ₚ l.
Proof.
  intros Hnd. revert l. induction Hnd as [|k ks Hk Hnd IH]; intros l Hl.
  - destruct l as [|x l]; [done|]. destruct (not_elem_of_nil (key x)). apply Hl. by left.
  - cbn [map concat]. etrans; [|apply (filter_partition (fun x => bool_decide (key x = k)) l)]. apply Permutation_app_head.
    etrans; [|apply (IH (List.filter (fun x => negb (bool_decide (key x = k))) l))].
    + replace (map (fun k' => List.filter (fun x => bool_decide (key x = k')) l) ks)
        with (map (fun k' => List.filter (fun x => bool_decide (key x = k')) (List.filter (fun x => negb (bool_decide (key x = k))) l)) ks); [done|].
      apply map_ext_in. intros k' Hk'. apply filter_filter. intros x Hx%bool_decide_eq_true. subst k'.
      rewrite bool_decide_eq_false_2; [done|]. intros <-. by apply Hk, list_elem_of_In.
    + intros x Hx. apply list_elem_of_In, filter_In in Hx as [Hin Hx]. apply list_elem_of_In, Hl, elem_of_cons in Hin as [Heq|Hin]; [|done].
      by rewrite bool_decide_eq_true_2 in Hx.
Qed.

(** The text of a push: the sections and what is in them. *)
Definition section_text (Format_g : float64 -> bytes) (s : string * list MetricPoint) : bytes :=
  [newline] ++ B "[" ++ B s.1 ++ B "]" ++ [newline] ++ concat (map (point_line Format_g) s.2).

(** a dry run prints every point once.  The text of a push is a heading
    with the number of the push, sections in ascending order of their names and
    a closing line; the points of the sections are those of the push, each in
    the section its name belongs to, no section is empty, and within a section
    no point comes after one that is less. *)
Theorem stdout_every_point (Format : time -> bytes) (Format_g : float64 -> bytes) (sort : list MetricPoint -> list MetricPoint)
    (t : StdoutTransport) (now : time) (ms : MetricSet) :
  (forall l, sort l ≡ₚ l /\ forall i j x y, sort l !! i = Some x -> sort l !! j = Some y -> (i < j)%nat -> point_less y x = false) ->
  exists sections, (Push Format Format_g sort t now ms).2
      = heading Format (if IsZero (ms_CollectedAt ms) then now else ms_CollectedAt ms) (wrap_u64 (so_tick t + 1)) (ms_Hostname ms)
        ++ concat (map (section_text Format_g) sections) ++ [newline] ++ B "---" ++ [newline]
    /\ concat (map snd sections) ≡ₚ ms_Points ms
    /\ NoDup (map fst sections) /\ StronglySorted String.le (map fst sections)
    /\ Forall (fun s => s.2 <> [] /\ Forall (fun p => group_of p = s.1) s.2
               /\ forall i j x y, s.2 !! i = Some x -> s.2 !! j = Some y -> (i < j)%nat -> point_less y x = false) sections.
Proof.
  intros Hsort. set (groups := by_group (ms_Points ms)). set (members g := List.filter (fun p => bool_decide (group_of p = g)) (ms_Points ms)).
  assert (Hmem : forall g, g ∈ sorted_keys groups -> groups !! g = Some (members g) /\ members g <> []).
  { intros g Hg. apply elem_of_sorted_keys in Hg as [l Hg]. unfold groups in *. rewrite by_group_lookup in *. unfold members. by destruct (List.filter _ _). }
  exists (map (fun g => (g, sort (members g))) (sorted_keys groups)). rewrite !map_map. cbn [fst snd]. rewrite map_id. split_and!.
  - unfold Push. cbn [snd]. fold groups. f_equal. f_equal. f_equal. apply map_ext_in. intros g Hg. apply list_elem_of_In in Hg.
    unfold group_text, section_text. cbn [fst snd]. destruct (Hmem g Hg) as [-> _]. done.
  - transitivity (concat (map members (sorted_keys groups))).
    + induction (sorted_keys groups) as [|g gs IH]; [done|]. cbn [map concat]. rewrite IH; [by rewrite (proj1 (Hsort (members g)))|]. intros g' Hg'. apply Hmem. by right.
    + apply regroup; [apply sorted_keys_NoDup|]. intros p Hp. apply elem_of_sorted_keys. unfold groups. rewrite by_group_lookup.
      destruct (List.filter _ _) as [|q l] eqn:E; [|eauto]. exfalso. enough (Hin : In p []) by done. rewrite <-E. apply filter_In.
      split; [by apply list_elem_of_In|by apply bool_decide_eq_true].
  - apply sorted_keys_NoDup.
  - apply sorted_keys_sorted.
  - rewrite Forall_map. apply Forall_forall. intros g Hg. destruct (Hmem g Hg) as [_ Hne]. cbn [fst snd]. destruct (Hsort (members g)) as [Hp Hs]. split_and!.
    + intros Hnil. rewrite Hnil in Hp. apply Permutation_nil_l in Hp. done.
    + rewrite Hp. apply Forall_forall. intros p Hin. apply list_elem_of_In, filter_In in Hin as [_ Hin]. by apply bool_decide_eq_true in Hin.
    + exact Hs.
Qed.

(** ** A sort for concrete points *)
Lemma bytes_lt_trans (a b c : bytes) : bytes_lt a b = true -> bytes_lt b c = true -> bytes_lt a c = true.
Proof.
  revert b c. induction a as [|x a IH]; intros [|y b] [|z c]; cbn; try done. rewrite !orb_true_iff, !andb_true_iff, !Z.ltb_lt, !Z.eqb_eq.
  intros [H1|[H1 H1']] [H2|[H2 H2']]; [left; lia..|]. right. split; [lia|]. by eapply IH.
Qed.
Lemma bytes_lt_irrefl (a : bytes) : bytes_lt a a = false.
Proof. induction a as [|x a IH]; [done|]. cbn. rewrite IH, Z.ltb_irrefl. by destruct (_ =? _). Qed.
Lemma bytes_lt_total (a b : bytes) : bytes_lt a b = true \/ a = b \/ bytes_lt b a = true.
Proof.
  revert b. induction a as [|x a IH]; intros [|y b]; cbn; auto. rewrite !orb_true_iff, !andb_true_iff, !Z.ltb_lt, !Z.eqb_eq.
  destruct (Z.lt_trichotomy (byteval x) (byteval y)) as [H|[H|H]]; [auto| |auto].
  assert (x = y) as -> by by rewrite <-(byte_of_byteval x), H, byte_of_byteval. destruct (IH b) as [H1|[->|H1]]; auto.
Qed.

Definition point_key (p : MetricPoint) : bytes * bytes := (B (mp_Name p), labelString (mp_Labels p)).
Definition key_less (a b : bytes * bytes) : Prop := bytes_lt a.1 b.1 = true \/ (a.1 = b.1 /\ bytes_lt a.2 b.2 = true).
Lemma point_less_key (p q : MetricPoint) : point_less p q = true <-> key_less (point_key p) (point_key q).
Proof.
  unfold point_less, key_less, point_key. cbn [fst snd]. case_bool_decide as H.
  - rewrite H, bytes_lt_irrefl. intuition done.
  - split; [auto|]. intros [|[Hn _]]; [done|]. destruct H. apply (f_equal S) in Hn. unfold S, B in Hn. by rewrite !String.string_of_list_ascii_of_string in Hn.
Qed.
Lemma key_less_total (a b : bytes * bytes) : key_less a b \/ a = b \/ key_less b a.
Proof.
  destruct a as [a1 a2], b as [b1 b2]. unfold key_less. cbn [fst snd].
  destruct (bytes_lt_total a1 b1) as [|[->|]]; [auto| |auto]. destruct (bytes_lt_total a2 b2) as [|[->|]]; auto.
Qed.
Lemma key_less_trans (a b c : bytes * bytes) : key_less a b -> key_less b c -> key_less a c.
Proof.
  unfold key_less. intros [H1|[H1 H1']] [H2|[H2 H2']]; [left; by eapply bytes_lt_trans|left; congruence|left; congruence|].
  right. split; [congruence|by eapply bytes_lt_trans].
Qed.
Lemma key_less_irrefl (a : bytes * bytes) : ~ key_less a a.
Proof. unfold key_less. rewrite !bytes_lt_irrefl. intuition discriminate. Qed.

Definition not_after (p q : MetricPoint) : Prop := point_less q p = false.
Lemma not_after_key (p q : MetricPoint) : not_after p q <-> key_less (point_key p) (point_key q) \/ point_key p = point_key q.
Proof.
  unfold not_after. rewrite <-not_true_iff_false, point_less_key. split.
  - intros H. destruct (key_less_total (point_key p) (point_key q)) as [|[|]]; auto. done.
  - intros [H|H] H'; [by apply (key_less_irrefl (point_key p)), (key_less_trans _ (point_key q))|]. rewrite H in H'. by apply key_less_irrefl in H'.
Qed.
#[export] Instance not_after_dec : RelDecision not_after.
Proof. intros p q. unfold not_after. apply _. Defined.
#[export] Instance not_after_total : Total not_after.
Proof. intros p q. rewrite !not_after_key. destruct (key_less_total (point_key p) (point_key q)) as [|[|]]; auto. Qed.
#[export] Instance not_after_trans : Transitive not_after.
Proof.
  intros p q r. rewrite !not_after_key. intros [H1|H1] [H2|H2]; [left; by eapply key_less_trans|left; congruence|left; congruence|right; congruence].
Qed.
Lemma sorts_points (l : list MetricPoint) :
  merge_sort not_after l ≡ₚ l
  /\ forall i j x y, merge_sort not_after l !! i = Some x -> merge_sort not_after l !! j = Some y -> (i < j)%nat -> point_less y x = false.
Proof.
  split; [apply merge_sort_Permutation|]. pose proof (StronglySorted_merge_sort not_after l) as Hs. revert Hs. generalize (merge_sort not_after l).
  intros l0 Hs. induction Hs as [|z l0 Hs IH Hz]; intros i j x y Hi Hj Hij; [done|]. destruct i as [|i], j as [|j]; try lia; cbn in Hi, Hj.
  - injection Hi as <-. rewrite Forall_forall in Hz. apply (Hz y). by eapply list_elem_of_lookup_2.
  - apply (IH i j); [done|done|lia].
Qed.

Definition demo_set : MetricSet := {|
  ms_Points := [point "disk_free_bytes" "h" Gauge f64_one {["mountpoint" := "/"]}; point "cpu_usage" "h" Gauge f64_zero ∅; point "disk_free_bytes" "h" Gauge f64_one {["mountpoint" := "/a"]}];
  ms_AgentID := "a"; ms_Hostname := "web1"; ms_Version := "1"; ms_Source := "agent"; ms_CollectedAt := time_zero |}.
Lemma stdout_every_point_witness :
  exists sections : list (string * list MetricPoint), concat (map snd sections) ≡ₚ ms_Points demo_set /\ NoDup (map fst sections).
Proof.
  destruct (stdout_every_point (fun _ => B "now") (fun _ => B "1") (merge_sort not_after) NewStdoutTransport (time_unix 0 0) demo_set sorts_points)
    as (sections & _ & H1 & H2 & _).
  exists sections. split; [exact H1|exact H2].
Defined.
