(* ===== verification/Main.v ===== *)
(** * The command

    [cmd/yomins-agent]: [main.go], [logs.go] and [events_linux.go].  A run of
    the program reads its configuration, applies the one stored for the host and
    builds the parts; what it builds is a plan, and the outcome of [run] is the
    plan or the reason there is none.  The environment, the arguments, files and
    what the system answers are fields of a record. *)
From S2P Require Import Prelude GoFloat GoStrings GoNum GoFlag GoRegexp GoJSON Metrics Events EventTransport LogTail LogAllow LogDiscover LogRedact Registry Agent.
From S2P Require NetworkEvents ProcessEvents SystemEvents AuthEvents Upgrade HostFs SystemMetrics Integrations Remote.
From S2P Require Import Config.
Local Open Scope string_scope.
Local Open Scope list_scope.
Local Open Scope Z_scope.

(** ** Small parts of [main.go] *)
Definition resolveHostname (cfg : Config) (hostname : option bytes) : bytes :=
  match HostnameOverride cfg with [] => default [] hostname | h => h end.
Definition currentUser (current : option bytes) : bytes := default (B "yomins-agent") current.

Inductive level := LevelDebug | LevelInfo | LevelWarn | LevelError.
Definition setupLogger (l : bytes) : level :=
  if bool_decide (l = B "debug") then LevelDebug
  else if bool_decide (l = B "warn") then LevelWarn
  else if bool_decide (l = B "error") then LevelError else LevelInfo.

(** ** The collectors *)
Inductive collector :=
  | CPU | Memory | System | Backup | Info (disableKernelCare : bool) (virtualization : bytes)
  | DiskIO (p : HostFs.HostPaths) | Pressure (p : HostFs.HostPaths) | Kernel (p : HostFs.HostPaths) | Netstat (p : HostFs.HostPaths)
  | Mounts (p : HostFs.HostPaths) | TimeSync | Systemd | ProcessGroups (c : SystemMetrics.ProcessGroupsCollector)
  | EveryUpdates (e : SystemMetrics.everyCollector) (p : HostFs.HostPaths) | EveryCerts (e : SystemMetrics.everyCollector) (p : HostFs.HostPaths)
  | Nginx (n : Integrations.Nginx) | PHPFPM | MySQL (m : Integrations.MySQL) | MailQueue (root : bytes)
  | Scrape (urls : list bytes) | Disk (excludes : list bytes) | Network (c : SystemMetrics.NetworkCollector)
  | ConfigInfo (version mode : bytes) | EventCounter | LogStats.

(** The [Name] methods. *)
Definition Name (c : collector) : string :=
  match c with
  | CPU => "cpu" | Memory => "memory" | System => "system" | Backup => "backup" | Info _ _ => "info"
  | DiskIO _ => "diskio" | Pressure _ => "pressure" | Kernel _ => "kernel" | Netstat _ => "netstat" | Mounts _ => "mounts"
  | TimeSync => "timesync" | Systemd => "systemd" | ProcessGroups _ => "process_groups" | EveryUpdates _ _ => "updates" | EveryCerts _ _ => "certs"
  | Nginx _ => "nginx" | PHPFPM => "php_fpm" | MySQL _ => "mysql" | MailQueue _ => "mail_queue" | Scrape _ => "scrape"
  | Disk _ => "disk" | Network _ => "network" | ConfigInfo _ _ => "remote_config" | EventCounter => "security_events" | LogStats => "logs"
  end.

Section Collectors.
Context (linux : bool) (env : bytes -> bytes) (user : option bytes).

Definition allCollectors (cfg : Config) : list collector :=
  [CPU; Memory; System; Backup; Info (DisableKernelCareInfo cfg) (VirtualizationOverride cfg)]
  ++ (if linux then
        let paths := HostFs.DefaultHostPaths env in
        [DiskIO paths; Pressure paths; Kernel paths; Netstat paths; Mounts paths; TimeSync; Systemd;
         ProcessGroups (SystemMetrics.NewProcessGroupsCollector 10); EveryUpdates (SystemMetrics.Every (6 * hour)) paths;
         EveryCerts (SystemMetrics.Every hour) paths]
      else [])
  ++ (if negb (DisableIntegrations cfg) && linux then
        [Nginx (Integrations.NewNginx (NginxStatusURL cfg)); PHPFPM; MySQL (Integrations.NewMySQL (MySQLDSN cfg) (currentUser user)); MailQueue (B "/")]
      else [])
  ++ match ScrapeURLs cfg with [] => [] | urls => [Scrape urls] end
  ++ (if DisableFilesystems cfg then [] else [Disk (ExcludeMountpoints cfg)])
  ++ (if DisableNetwork cfg then [] else [Network (SystemMetrics.NewNetworkCollectorWithFilters (IncludeInterfaces cfg) (ExcludeInterfaces cfg))]).

Definition buildCollectors (cfg : Config) : list collector :=
  List.filter (fun c => negb (existsb (fun n => bool_decide (n = B (Name c))) (DisabledCollectors cfg))) (allCollectors cfg).
End Collectors.

(** ** [events_linux.go] *)

(** The interfaces: loopback, up, and the addresses, unless they cannot be
    read; an address of another kind has no IP. *)
Record iface := { if_loopback : bool; if_up : bool; if_addrs : option (list (option bytes)) }.
Definition To4 (ip : bytes) : option bytes := match ip with [_; _; _; _] => Some ip | _ => v4in6 ip end.
Definition host_address (ip : option bytes) : option bytes :=
  ip ← ip; v4 ← To4 ip;
  match v4 with c :: _ => if byteval c =? 127 then None else Some (IPString ip) | [] => None end.
Fixpoint first_some {A} (l : list (option A)) : option A :=
  match l with [] => None | Some x :: _ => Some x | None :: t => first_some t end.
Definition iface_address (i : iface) : option bytes :=
  if if_loopback i || negb (if_up i) then None else addrs ← if_addrs i; first_some (map host_address addrs).
Definition resolveHostIP (ifaces : option (list iface)) : bytes :=
  match ifaces with None => [] | Some l => default [] (first_some (map iface_address l)) end.

Inductive event_collector :=
  | AuthCollector (c : AuthEvents.Config) | ProcessCollector (c : ProcessEvents.Config)
  | NetworkCollector (c : NetworkEvents.Config) | SystemCollector (c : SystemEvents.Config).

(** What is started: the collectors, the size of the buffer, and the transport
    that drains it. *)
Record event_pipeline := { ep_collectors : list event_collector; ep_BufferSize : Z; ep_transport : option EventFlushConfig }.

Definition event_collectors (cfg : Config) (host : HostInfo) (agent : AgentInfo) : list event_collector :=
  (if DisableAuthEvents cfg then [] else [AuthCollector {|
     AuthEvents.WtmpPath := S (WtmpPath cfg); AuthEvents.AuthLogPath := S (AuthLogPath cfg); AuthEvents.StateDir := S (StateDir cfg);
     AuthEvents.BruteforceThreshold := BruteforceThreshold cfg; AuthEvents.BruteforceWindow := BruteforceWindow cfg;
     AuthEvents.BruteforceSuppression := BruteforceSuppression cfg; AuthEvents.IgnorePrivateIP := IgnorePrivateIP cfg;
     AuthEvents.cfg_Host := host; AuthEvents.cfg_Agent := agent |}])
  ++ (if DisableProcessEvents cfg then [] else [ProcessCollector {|
        ProcessEvents.PollInterval := 2 * second; ProcessEvents.SuspiciousPatterns := map S (SuspiciousPatterns cfg);
        ProcessEvents.CPUAlertThreshold := f64_zero; ProcessEvents.CPUAlertMultiplier := f64_zero; ProcessEvents.MemAlertThreshold := f32_zero;
        ProcessEvents.MemAlertMultiplier := f32_zero; ProcessEvents.AlertCooldown := 0; ProcessEvents.MonitorLifecycle := MonitorProcessLifecycle cfg;
        ProcessEvents.MonitorTmpPaths := MonitorTmpPaths cfg; ProcessEvents.cfg_Host := host; ProcessEvents.cfg_Agent := agent |}])
  ++ (if DisableNetworkEvents cfg then [] else [NetworkCollector {|
        NetworkEvents.PollInterval := 0; NetworkEvents.ScanDeltaThreshold := 0; NetworkEvents.ScanMultiplier := f64_zero;
        NetworkEvents.cfg_Host := host; NetworkEvents.cfg_Agent := agent |}])
  ++ (if DisableSystemEvents cfg then [] else [SystemCollector {|
        SystemEvents.StateDir := S (StateDir cfg); SystemEvents.MonitorConfigFiles := MonitorConfigFiles cfg;
        SystemEvents.cfg_Host := host; SystemEvents.cfg_Agent := agent |}]).

Definition startEventPipeline (linux : bool) (ifaces : option (list iface)) (version : string) (cfg : Config) (hostname : bytes) : option event_pipeline :=
  if negb linux || DisableEvents cfg then None
  else
    let host := {| host_Hostname := S hostname; host_IP := S (resolveHostIP ifaces) |} in
    let agent := {| agent_Name := "yomins-agent"; agent_Version := version |} in
    match event_collectors cfg host agent with
    | [] => None
    | cs => Some {|
        ep_collectors := cs; ep_BufferSize := EventBufferSize cfg;
        ep_transport :=
          if negb (bool_decide (Server cfg = [])) && negb (bool_decide (Token cfg = []))
          then Some (NewEventHTTPTransport {| fc_Server := S (Server cfg); fc_Token := S (Token cfg); fc_FlushInterval := EventFlushInterval cfg; fc_BatchSize := EventBatchSize cfg |})
          else None |}
    end.

(** ** [logs.go] *)
Record log_pipeline := {
  lp_files : list FileSpec; lp_allow : list bytes; lp_journal : bool; lp_positions : Positions; lp_redactor : Redactor;
  lp_hostname : bytes; lp_agentID : bytes }.

(** The host's logs: the arguments of [LogDiscover.Discover]. *)
Record log_host := { lh_Glob : bytes -> list bytes; lh_exists : bytes -> bool; lh_rsyslog : list (option bytes); lh_config : bytes -> option raw_container;
                     lh_positions : positions_file }.

Definition startLogPipeline (h : log_host) (cfg : Config) (hostname agentID : bytes) : option log_pipeline :=
  if negb (bool_decide (Logs cfg = B "auto")) || bool_decide (Server cfg = []) || bool_decide (Token cfg = []) then None
  else
    redactor ← NewRedactor (Config.LogRedact cfg);
    let plan := Discover (lh_Glob h) (lh_exists h) (lh_rsyslog h) (lh_config h) (LogPaths cfg) (LogExclude cfg) in
    Some {| lp_files := p_Files plan;
            lp_allow := match Config.LogAllow cfg with [] => DefaultAllow ++ p_ContainerAllow plan | l => l end;
            lp_journal := p_Journal plan; lp_positions := LoadPositions (StateDir cfg) (lh_positions h); lp_redactor := redactor;
            lp_hostname := hostname; lp_agentID := agentID |}.

(** ** [runUninstall] *)
Inductive uninstall_action := Command (argv : list bytes) | Remove (path : bytes) | RemoveAll (path : bytes).
(** Every step is tried; a failing one is only reported. *)
Definition uninstall_steps : list uninstall_action :=
  [ Command (map B ["systemctl"; "stop"; "yomins-agent"]); Command (map B ["systemctl"; "disable"; "yomins-agent"]);
    Remove (B "/etc/systemd/system/yomins-agent.service"); Command (map B ["systemctl"; "daemon-reload"]);
    RemoveAll (B "/etc/yomins-agent"); RemoveAll (B "/usr/local/lib/yomins-agent"); RemoveAll (B "/var/lib/yomins/agent");
    Remove (B "/usr/local/bin/yomins-agent"); Command (map B ["userdel"; "yomins-agent"]) ].
Inductive uninstall := NotRoot | Cancelled | Removed (steps : list uninstall_action).

(** [tty] is the line read from the terminal, when there is one. *)
Definition runUninstall (root : bool) (tty : option bytes) : uninstall :=
  if negb root then NotRoot
  else match tty with
       | Some line => let answer := TrimSpace line in
                      if bool_decide (answer = B "y") || bool_decide (answer = B "Y") then Removed uninstall_steps else Cancelled
       | None => Removed uninstall_steps
       end.

(** ** [run] *)
Record inputs := {
  in_env : Env; in_args : list bytes; in_linux : bool; in_root : bool; in_tty : option bytes; in_hostname : option bytes; in_user : option bytes;
  in_ifaces : option (list iface); in_version : string; in_id_file : option bytes; in_id_write : write_result; in_uuid : bytes;
  in_remote : option bytes; in_world : Upgrade.world; in_disk : Upgrade.disk; in_logs : log_host; in_now : time }.

(** The HTTP transport, or standard output. *)
Inductive transport := Stdout | HTTP (server token : bytes) (interval : duration) (insecure : bool).
Record plan := {
  pn_cfg : Config; pn_hostname : bytes; pn_agent : Agent.Config; pn_collectors : list collector; pn_registry : Registry;
  pn_events : option event_pipeline; pn_logs : option log_pipeline; pn_transport : transport; pn_fetcher : option Remote.Fetcher }.

Inductive outcome :=
  | LoadFailed (e : flag_error) | ShowVersion | Uninstalled (u : uninstall) | Invalid (msg : bytes)
  | UpgradeExit | UpgradePanic | Running (p : plan).

(** [Compile] accepts a redaction pattern. *)
Definition re_ok (p : bytes) : bool := match Compile p with Some _ => true | None => false end.

Section Command.
Context (uuid_Parse : bytes -> bool) (sha256hex : bytes -> bytes) (i : inputs).

Definition optional {A} (o : option A) (c : collector) : list collector := match o with Some _ => [c] | None => [] end.
Definition os_Getenv (n : bytes) : bytes := Getenv (in_env i) n.

Definition dry_run (cfg : Config) (hostname : bytes) : plan :=
  let events := startEventPipeline (in_linux i) (in_ifaces i) (in_version i) cfg hostname in
  let cs := buildCollectors (in_linux i) os_Getenv (in_user i) cfg ++ optional events EventCounter in
  {| pn_cfg := cfg; pn_hostname := hostname;
     pn_agent := {| Agent.Interval := Interval cfg; cfg_AgentID := "dry-run"; cfg_Hostname := S hostname; cfg_Version := in_version i;
                    ShutdownTimeout := 5 * second; OnFirstPushSuccess := false |};
     pn_collectors := cs; pn_registry := NewRegistry (map Name cs); pn_events := events; pn_logs := None; pn_transport := Stdout; pn_fetcher := None |}.

(** The configuration with the stored one applied, and the version and the
    configuration that were. *)
Definition with_remote (cfg : Config) : Config * bytes * Remote.RemoteCfg :=
  match Remote.Load (in_remote i) with
  | Some s =>
      if bool_decide (RemoteConfig cfg = Remote.ModeOff) then (cfg, [], Remote.no_remote)
      else match Remote.Validate re_ok (Remote.st_Config s) with
           | Some _ => (cfg, [], Remote.no_remote)
           | None => (Remote.Apply cfg (Remote.st_Config s) (RemoteConfig cfg), Remote.st_Version s, Remote.st_Config s)
           end
  | None => (cfg, [], Remote.no_remote)
  end.

Definition collect_timeout (interval : duration) : duration := Z.min (Z.quot interval 2) DefaultCollectTimeout.

Definition serve (cfg : Config) (hostname agentID version : bytes) (applied : Remote.RemoteCfg) : plan :=
  let events := startEventPipeline (in_linux i) (in_ifaces i) (in_version i) cfg hostname in
  let logs := startLogPipeline (in_logs i) cfg hostname agentID in
  let cs := buildCollectors (in_linux i) os_Getenv (in_user i) cfg ++ [ConfigInfo version (RemoteConfig cfg)] ++ optional events EventCounter ++ optional logs LogStats in
  {| pn_cfg := cfg; pn_hostname := hostname;
     pn_agent := {| Agent.Interval := Interval cfg; cfg_AgentID := S agentID; cfg_Hostname := S hostname; cfg_Version := in_version i;
                    ShutdownTimeout := 10 * second; OnFirstPushSuccess := true |};
     pn_collectors := cs; pn_registry := WithTimeout (NewRegistry (map Name cs)) (collect_timeout (Interval cfg));
     pn_events := events; pn_logs := logs; pn_transport := HTTP (Server cfg) (Token cfg) (Interval cfg) (InsecureSkipVerify cfg);
     pn_fetcher := Some {| Remote.f_Mode := RemoteConfig cfg; Remote.f_Current := version; Remote.f_Applied := applied; Remote.f_info := Some version;
                           Remote.f_Started := in_now i; Remote.f_MinUptime := 0 |} |}.

Definition upgrade_config (cfg : Config) : Upgrade.Config :=
  {| Upgrade.CurrentVersion := B (in_version i); Upgrade.Interval := AutoUpgradeInterval cfg; Upgrade.Disabled := DisableAutoUpgrade cfg |}.

Definition run : outcome :=
  match Config.Load (in_env i) (in_args i) with
  | inl e => LoadFailed e
  | inr cfg =>
      if Version cfg then ShowVersion
      else if Uninstall cfg then Uninstalled (runUninstall (in_root i) (in_tty i))
      else match Config.Validate cfg with
           | (_, Some msg) => Invalid msg
           | (cfg, None) =>
               let hostname := resolveHostname cfg (in_hostname i) in
               if DryRun cfg then Running (dry_run cfg hostname)
               else
                 let id := (identity_Load uuid_Parse (in_uuid i) (in_id_write i) (in_id_file i)).1 in
                 let '(cfg, version, applied) := with_remote cfg in
                 match (Upgrade.RunOnce sha256hex (upgrade_config cfg) (in_world i) (in_disk i)).2 with
                 | Upgrade.RExit => UpgradeExit
                 | Upgrade.RPanic => UpgradePanic
                 | Upgrade.RReturn => Running (serve cfg hostname id version applied)
                 end
           end
  end.

(** [main]: the exit status.  The agent itself ends with the cancellation of
    its context, which is not a failure. *)
Definition exit_status (o : outcome) : Z :=
  match o with
  | LoadFailed _ | Invalid _ | Uninstalled NotRoot => 1
  | UpgradePanic => 2
  | _ => 0
  end.
End Command.

(** ** What a start guarantees *)

(** The collectors of every configuration are among these, in this order. *)
Definition all_names : list string :=
  ["cpu"; "memory"; "system"; "backup"; "info"; "diskio"; "pressure"; "kernel"; "netstat"; "mounts"; "timesync"; "systemd"; "process_groups";
   "updates"; "certs"; "nginx"; "php_fpm"; "mysql"; "mail_queue"; "scrape"; "disk"; "network"].

Lemma all_collectors_names (linux : bool) (env : bytes -> bytes) (user : option bytes) (cfg : Config) :
  sublist (map Name (allCollectors linux env user cfg)) all_names.
Proof.
  unfold allCollectors. destruct linux, (DisableIntegrations cfg), (ScrapeURLs cfg), (DisableFilesystems cfg), (DisableNetwork cfg); cbn [negb andb app map Name];
    unfold all_names; repeat constructor.
Qed.

Lemma built_names (linux : bool) (env : bytes -> bytes) (user : option bytes) (cfg : Config) (extra : list collector) :
  sublist (map Name extra) ["remote_config"; "security_events"; "logs"] ->
  NoDup (map Name (buildCollectors linux env user cfg ++ extra)).
Proof.
  intros He. apply (sublist_NoDup _ (all_names ++ ["remote_config"; "security_events"; "logs"])); [apply (bool_decide_eq_true_1 _); vm_compute; reflexivity|].
  rewrite map_app. apply sublist_app; [|done]. etrans; [|apply all_collectors_names]. apply (fmap_sublist Name), sublist_keep.
Qed.

(** A collector is left out exactly when its name is disabled. *)
Lemma buildCollectors_disabled (linux : bool) (env : bytes -> bytes) (user : option bytes) (cfg : Config) (c : collector) :
  c ∈ buildCollectors linux env user cfg <-> c ∈ allCollectors linux env user cfg /\ B (Name c) ∉ DisabledCollectors cfg.
Proof.
  unfold buildCollectors. rewrite !list_elem_of_In, filter_In. f_equiv. rewrite negb_true_iff, <-not_true_iff_false, existsb_exists.
  split; intros H Hin; apply H.
  - exists (B (Name c)). split; [done|]. by apply bool_decide_eq_true.
  - destruct Hin as (n & Hn & Hd). apply bool_decide_eq_true in Hd as ->. done.
Qed.

Section Guarantees.
Context (uuid_Parse : bytes -> bool) (sha256hex : bytes -> bytes) (i : inputs).

(** What a configuration that passed [Validate] keeps when the stored one is
    applied. *)
Lemma with_remote_ok (local : Config) :
  0 < Interval local -> Logs local ∈ [[]; B "off"; B "auto"] ->
  let cfg := (with_remote i local).1.1 in
  Remote.owner_only cfg = Remote.owner_only local /\ 0 < Interval cfg /\ Logs cfg ∈ [[]; B "off"; B "auto"].
Proof.
  intros Hi Hl. cbv zeta. unfold with_remote. destruct (Remote.Load (in_remote i)) as [s|]; [|done]. case_bool_decide; [done|].
  destruct (Remote.Validate re_ok (Remote.st_Config s)) eqn:Hv; [done|]. cbn [fst]. unfold Remote.Apply. rewrite bool_decide_eq_false_2 by done.
  unfold Remote.apply_on. split_and!; [done| |].
  - cbn [Interval]. unfold Remote.Validate in Hv. destruct (Remote.r_Interval (Remote.st_Config s)) as [t|]; [|done]. cbn [Remote.field].
    destruct (ParseDuration t) as [d|]; [|done]. destruct (_ || _) eqn:Hb; [done|]. bool_hyps. go_lia.
  - cbn [Logs]. destruct (Remote.field _ _) as [[]|]; [..|done]; rewrite !elem_of_cons; tauto.
Qed.

Lemma validated_fields (cfg : Config) : let v := (Config.Validate cfg).1 in Interval v = Interval cfg /\ Logs v = Logs cfg /\ RemoteConfig v = RemoteConfig cfg /\ DryRun v = DryRun cfg.
Proof. cbv zeta. unfold Config.Validate. cbn [fst]. by destruct (negb (DryRun cfg) && _). Qed.

(** C10: what a start guarantees.  Whatever the command line, the environment
    and the configuration stored by the portal: an agent that starts was given a
    configuration that loads and passes validation; the server, the token, the
    TLS setting, the allow list and the trust mode it runs with are those of
    the local configuration; its interval is positive; its collectors have
    distinct names, so that the registry never takes one for another; the
    registry's timeout is positive and at most twenty seconds, and at most half
    the interval unless that is less than two nanoseconds; and a dry run sends
    no metrics and no logs and does not poll the portal. *)
Theorem start_guarantees (p : plan) :
  run uuid_Parse sha256hex i = Running p ->
  exists local, Config.Load (in_env i) (in_args i) = inr local /\ Version local = false /\ Uninstall local = false
    /\ (Config.Validate local).2 = None
    /\ Remote.owner_only (pn_cfg p) = Remote.owner_only (Config.Validate local).1
    /\ 0 < Interval (pn_cfg p) /\ Agent.Interval (pn_agent p) = Interval (pn_cfg p)
    /\ NoDup (map Name (pn_collectors p)) /\ r_collectors (pn_registry p) = map Name (pn_collectors p)
    /\ 0 < r_timeout (pn_registry p) <= 20 * second
    /\ (DryRun local = false -> 2 <= Interval (pn_cfg p) -> 2 * r_timeout (pn_registry p) <= Interval (pn_cfg p))
    /\ (DryRun local = true -> pn_transport p = Stdout /\ pn_logs p = None /\ pn_fetcher p = None).
Proof.
  unfold run. destruct (Config.Load _ _) as [e|local] eqn:Hload; [done|]. destruct (Version local) eqn:Hver; [done|]. destruct (Uninstall local) eqn:Hun; [done|].
  destruct (Config.Validate local) as [cfg [msg|]] eqn:Hv; [done|]. destruct (validated_fields local) as (Vi & Vl & Vr & Vd). rewrite Hv in Vi, Vl, Vr, Vd. cbn [fst] in *.
  assert (Hok : (Config.Validate local).2 = None) by by rewrite Hv. apply Validate_ok in Hok as (_ & Hi & Hr & Hl). rewrite <-Vi in Hi. rewrite <-Vl in Hl.
  destruct (DryRun cfg) eqn:Hdry.
  - intros [= <-]. exists local. rewrite Hv. cbn [fst snd]. split_and!; try done.
    + apply built_names. destruct (startEventPipeline _ _ _ _ _); cbn; repeat constructor.
    + congruence.
  - pose proof (with_remote_ok cfg Hi Hl) as Hrem. cbv zeta in Hrem. destruct (with_remote i cfg) as [[cfg' version] applied]. cbn [fst] in Hrem.
    destruct (Upgrade.RunOnce _ _ _ _) as [d []]; cbn [snd]; [|done|done]. intros [= <-]. destruct Hrem as (Ho & Hi' & Hl').
    assert (Ht : 0 < r_timeout (WithTimeout (NewRegistry []) (collect_timeout (Interval cfg'))) <= 20 * second
              /\ (2 <= Interval cfg' -> 2 * r_timeout (WithTimeout (NewRegistry []) (collect_timeout (Interval cfg'))) <= Interval cfg')).
    { cbn [WithTimeout r_timeout NewRegistry]. unfold collect_timeout, DefaultCollectTimeout. pose proof (Z.quot_pos (Interval cfg') 2 ltac:(lia) ltac:(lia)).
      rewrite Z.quot_div_nonneg in * by lia. pose proof (Z.mul_div_le (Interval cfg') 2 ltac:(lia)). unfold second in *.
      destruct (Z.ltb_spec 0 (Z.min (Interval cfg' / 2) (20 * 1000000000))) as [Hlt|Hge]; [lia|]. split; [lia|]. intros H2.
      pose proof (Z.div_le_mono 2 (Interval cfg') 2 ltac:(lia) H2) as Hd. change (2 / 2) with 1 in Hd. lia. }
    exists local. rewrite Hv. cbn [fst snd]. split_and!; try done; try apply Ht.
    + apply built_names. unfold optional. destruct (startEventPipeline _ _ _ _ _), (startLogPipeline _ _ _ _); cbn; repeat constructor.
    + intros _. apply Ht.
    + congruence.
Qed.
End Guarantees.

(** a restart applies the new configuration and stays up.  When the poller
    of a running agent asks for a restart, the process started with the file it
    left behind, unless that is a dry run or its trust mode is off, runs with
    the new configuration applied over its local one, reports and polls with
    the new version, and keeps running while the server gives the same
    answer. *)
Theorem restart_applies (uuid_Parse : bytes -> bool) (sha256hex : bytes -> bytes) (f : Remote.Fetcher) (x : Remote.turn) (file : option bytes)
    (wait : duration) (version : bytes) (i : inputs) (p : plan) :
  Remote.poll re_ok f x file = (in_remote i, Remote.RestartAfter wait version) ->
  run uuid_Parse sha256hex i = Running p -> DryRun (pn_cfg p) = false -> RemoteConfig (pn_cfg p) <> Remote.ModeOff ->
  exists local s g, Config.Load (in_env i) (in_args i) = inr local
    /\ Remote.Load (in_remote i) = Some s /\ Remote.st_Version s = version
    /\ pn_cfg p = Remote.Apply (Config.Validate local).1 (Remote.st_Config s) (RemoteConfig local)
    /\ ConfigInfo version (RemoteConfig local) ∈ pn_collectors p
    /\ pn_fetcher p = Some g /\ Remote.f_Current g = version
    /\ forall y, Remote.t_resp y = Remote.t_resp x -> Remote.poll re_ok g y (in_remote i) = (in_remote i, Remote.Keep g).
Proof.
  intros Hpoll Hrun Hdry Hoff. unfold Remote.poll in Hpoll. destruct (Remote.check re_ok f x file) as [file1 [s|]] eqn:Hc; [|done].
  destruct (Remote.sameEffect _ _); [done|]. injection Hpoll as -> _ <-.
  apply Remote.check_saved in Hc as (_ & _ & _ & Hv & (body & Hr & Hd) & Hl).
  unfold run in Hrun. destruct (Config.Load _ _) as [e|local] eqn:Hload; [done|]. destruct (Version local); [done|]. destruct (Uninstall local); [done|].
  destruct (Config.Validate local) as [cfg [msg|]] eqn:Hval; [done|]. destruct (validated_fields local) as (_ & _ & Vr & _). rewrite Hval in Vr. cbn [fst] in Vr.
  destruct (DryRun cfg) eqn:Hdc; [injection Hrun as <-; cbn in Hdry; congruence|].
  assert (Hne : RemoteConfig cfg <> Remote.ModeOff).
  { intros He. apply Hoff. destruct (with_remote i cfg) as [[cfg' v'] a'] eqn:Hw. destruct (Upgrade.RunOnce _ _ _ _) as [? []]; [|done|done]. injection Hrun as <-.
    cbn [serve pn_cfg]. unfold with_remote in Hw. rewrite Hl in Hw. rewrite bool_decide_eq_true_2 in Hw by done. injection Hw as <- _ _. done. }
  unfold with_remote in Hrun. rewrite Hl, bool_decide_eq_false_2 in Hrun by done. cbn [Remote.st_Config Remote.st_Version] in Hrun.
  rewrite Remote.Validate_norm, Hv in Hrun. destruct (Upgrade.RunOnce _ _ _ _) as [? []]; [|done|done]. injection Hrun as <-.
  exists local. eexists. eexists. rewrite Hval, <-Vr. cbn [fst]. split_and!; [done|exact Hl|done|done| |reflexivity|done|].
  - cbn [serve pn_collectors]. rewrite !elem_of_app. right. left. cbn [Remote.Apply]. unfold Remote.Apply. case_bool_decide; [done|]. by left.
  - intros y Hy. unfold Remote.poll. rewrite Hr in Hy. rewrite (Remote.check_current re_ok _ y _ body s); done.
Qed.

(** ** Runs *)
Definition is_running (o : outcome) : bool := match o with Running _ => true | _ => false end.
Definition demo_loghost : log_host := {|
  lh_Glob := fun _ => []; lh_exists := fun p => bool_decide (p = B "/run/systemd/journal"); lh_rsyslog := []; lh_config := fun _ => None; lh_positions := PNone |}.
Definition demo_world : Upgrade.world := {|
  Upgrade.goos := "linux"; Upgrade.goarch := "amd64"; Upgrade.mkdir_ok := true; Upgrade.dl_binary := Upgrade.DlOk []; Upgrade.dl_checksum := Upgrade.DlOk [];
  Upgrade.rename_ok := true; Upgrade.write_pending_ok := true; Upgrade.api := Upgrade.api Upgrade.demo_world |}.
Definition demo_inputs (args : list string) (remote : option bytes) : inputs := {|
  in_env := fun _ => None; in_args := map B args; in_linux := true; in_root := false; in_tty := None; in_hostname := Some (B "web1"); in_user := None;
  in_ifaces := Some [{| if_loopback := true; if_up := true; if_addrs := Some [Some (bytes_of_Zs [127; 0; 0; 1])] |};
                     {| if_loopback := false; if_up := true; if_addrs := Some [None; Some (bytes_of_Zs [10; 0; 0; 5])] |}];
  in_version := "dev"; in_id_file := None; in_id_write := WriteOk; in_uuid := B "u"; in_remote := remote; in_world := demo_world; in_disk := ∅;
  in_logs := demo_loghost; in_now := time_unix 1700000000 0 |}.
Definition demo_args : list string := ["--server=https://ingest/"; "--token=t"; "--logs=auto"; "--interval=60s"].
Definition demo_run (args : list string) (remote : option bytes) : outcome := run (fun _ => false) (fun b => b) (demo_inputs args remote).

Example host_ip : S (resolveHostIP (in_ifaces (demo_inputs [] None))) = "10.0.0.5".
Proof. vm_compute. reflexivity. Qed.

Lemma start_guarantees_witness :
  exists p, demo_run demo_args Remote.saved_sample = Running p /\ NoDup (map Name (pn_collectors p)).
Proof.
  assert (Hr : is_running (demo_run demo_args Remote.saved_sample) = true) by (vm_compute; reflexivity).
  destruct (demo_run demo_args Remote.saved_sample) as [e| |u|m| | |p] eqn:E; try discriminate Hr. exists p. split; [reflexivity|].
  destruct (start_guarantees (fun _ => false) (fun b => b) (demo_inputs demo_args Remote.saved_sample) p E) as (local & _ & _ & _ & _ & _ & _ & _ & H & _).
  exact H.
Defined.

Definition demo_fetcher : Remote.Fetcher := Remote.fetcher_sample "v1" Remote.no_remote.
Lemma restart_applies_witness :
  exists p g, demo_run demo_args Remote.saved_sample = Running p /\ pn_fetcher p = Some g
    /\ Remote.poll re_ok g Remote.turn_sample Remote.saved_sample = (Remote.saved_sample, Remote.Keep g).
Proof.
  assert (Hr : match demo_run demo_args Remote.saved_sample with
               | Running p => negb (DryRun (pn_cfg p)) && negb (bool_decide (RemoteConfig (pn_cfg p) = Remote.ModeOff)) | _ => false end = true) by (vm_compute; reflexivity).
  destruct (demo_run demo_args Remote.saved_sample) as [e| |u|m| | |p] eqn:E; try discriminate Hr. apply andb_true_iff in Hr as [H1 H2]. apply negb_true_iff in H1, H2.
  apply bool_decide_eq_false in H2.
  assert (Hp : Remote.poll re_ok demo_fetcher Remote.turn_sample None = (Remote.saved_sample, Remote.RestartAfter (90 * second) (B "v2"))) by (vm_compute; reflexivity).
  destruct (restart_applies (fun _ => false) (fun b => b) demo_fetcher Remote.turn_sample None (90 * second) (B "v2") (demo_inputs demo_args Remote.saved_sample) p Hp E H1 H2)
    as (local & s & g & _ & _ & _ & _ & _ & Hg & _ & Hk).
  exists p, g. split; [reflexivity|]. split; [exact Hg|]. apply Hk. reflexivity.
Defined.

(** A dry run that is given a server and a token starts the transport that
    sends the security events of the host to that server. *)
Lemma dry_run_sends_events :
  match demo_run ("--dry-run" :: demo_args) None with
  | Running p => DryRun (pn_cfg p) = true /\ pn_transport p = Stdout
      /\ match pn_events p with Some e => is_Some (ep_transport e) | None => False end
  | _ => False
  end.
Proof. vm_compute. split_and!; [reflexivity|reflexivity|eexists; reflexivity]. Qed.

(** The files the log source may open: those of the allow list of the local
    configuration or, without one, of the default list and the known logs in
    the mounts of containers. *)
Lemma log_allow_list (h : log_host) (cfg : Config) (hostname agentID : bytes) (l : log_pipeline) :
  startLogPipeline h cfg hostname agentID = Some l ->
  Logs cfg = B "auto" /\ Server cfg <> [] /\ Token cfg <> []
  /\ (Config.LogAllow cfg <> [] -> lp_allow l = Config.LogAllow cfg)
  /\ (Config.LogAllow cfg = [] -> lp_allow l = DefaultAllow ++ concat (map Globs (containerLogSpecs (lh_Glob h) (dockerContainers (lh_Glob h) (lh_config h))))).
Proof.
  unfold startLogPipeline. case_bool_decide; [|done]. case_bool_decide; [done|]. case_bool_decide; [done|]. cbn [negb orb].
  destruct (NewRedactor _); [|done]. cbn [mbind option_bind]. intros <-%(inj Some). cbn [lp_allow]. split_and!; [done..| |]; by destruct (Config.LogAllow cfg).
Qed.
