(* ===== verification/Platform.v ===== *)
(** * What the collectors read from the platform

    [internal/collector]: the reader interfaces of [memory.go], [system.go],
    [cpu.go], [disk.go], [network.go] and [info.go] are classes, the readers of
    the [*_gopsutil.go] files and of [info_other.go] their instances, and the
    collectors of the components before run against the classes.  The library
    gopsutil is the class [Gopsutil]: its structures are types of which only the
    fields that are read are known, and its functions may fail. *)
From S2P Require Import Prelude GoFloat GoStrings GoNum GoMatch Metrics Registry SystemMetrics HostInfo.
Local Open Scope string_scope.
Local Open Scope list_scope.
Local Open Scope Z_scope.

(** ** The interfaces *)
Class MemoryReader := {
  VirtualMemoryWithContext : option VirtualMemoryStat;
  SwapMemoryWithContext : option SwapMemoryStat }.
Class SystemReader := {
  UptimeWithContext : option Z;
  LoadAvgWithContext : option LoadAvgStat }.
Class CPUReader := { PercentWithContext : duration -> bool -> option (list float64) }.
(** The first argument numbers the calls of a pass. *)
Class CPUTimesReader := { TimesWithContext : nat -> bool -> option (list CPUTimesStat) }.
Class DiskReader := {
  PartitionsWithContext : bool -> option (list PartitionStat);
  UsageWithContext : string -> option DiskUsageStat }.
Class NetworkReader := { IOCountersWithContext : bool -> option (list IOCountersStat) }.
Class InterfaceStateReader := { UpInterfaceNamesWithContext : option (gset bytes) }.
Class InfoReader := {
  SystemInfoWithContext : option SystemInfoStat;
  CPUInfoWithContext : option CPUInfoStat;
  PackageUpdateTimesWithContext : option PackageUpdateTimes;
  KernelCareInfoWithContext : option KernelCareInfoStat;
  MemoryInfoWithContext : option MemoryInfo;
  DiskHardwareWithContext : option (list DiskHardwareStat);
  NetworkHardwareWithContext : option (list NetworkHardwareStat);
  SystemHardwareWithContext : option SystemHardwareStat }.

(** ** The collectors against the interfaces *)
Definition MemoryCollector_Collect `{MemoryReader} : option (list MetricPoint) := memory_Collect VirtualMemoryWithContext SwapMemoryWithContext.
Definition SystemCollector_Collect `{SystemReader} : option (list MetricPoint) := system_Collect UptimeWithContext LoadAvgWithContext.
Definition CPUCollector_Collect `{CPUReader} `{CPUTimesReader} (c : CPUCollector) : CPUCollector * option (list MetricPoint) :=
  cpu_Collect c (PercentWithContext 0 false) (TimesWithContext 0 false) (TimesWithContext 1 false).
Definition DiskCollector_Collect `{DiskReader} (excludes : list string) : option (list MetricPoint) :=
  disk_Collect excludes (PartitionsWithContext false) UsageWithContext.
Definition NetworkCollector_Collect `{NetworkReader} `{InterfaceStateReader} (c : NetworkCollector) : option (list MetricPoint) :=
  network_Collect c (IOCountersWithContext true) UpInterfaceNamesWithContext.
Definition InfoCollector_Collect `{InfoReader} (disableKernelCare : bool) : list MetricPoint :=
  info_Collect disableKernelCare {|
    an_system := SystemInfoWithContext; an_cpu := CPUInfoWithContext; an_updates := PackageUpdateTimesWithContext;
    an_kernelcare := KernelCareInfoWithContext; an_memory := MemoryInfoWithContext; an_disks := DiskHardwareWithContext;
    an_nics := NetworkHardwareWithContext; an_hardware := SystemHardwareWithContext |}.

(** ** The library *)
Class Gopsutil := {
  mem_VM : Type; VM_Total : mem_VM -> Z; VM_Available : mem_VM -> Z; VM_Used : mem_VM -> Z; VM_UsedPercent : mem_VM -> float64;
  mem_Swap : Type; Swap_Total : mem_Swap -> Z; Swap_Used : mem_Swap -> Z; Swap_Free : mem_Swap -> Z; Swap_UsedPercent : mem_Swap -> float64;
  load_Avg : Type; Avg_Load1 : load_Avg -> float64; Avg_Load5 : load_Avg -> float64; Avg_Load15 : load_Avg -> float64;
  cpu_Times : Type; T_User : cpu_Times -> float64; T_System : cpu_Times -> float64; T_Idle : cpu_Times -> float64; T_Nice : cpu_Times -> float64;
  T_Iowait : cpu_Times -> float64; T_Irq : cpu_Times -> float64; T_Softirq : cpu_Times -> float64; T_Steal : cpu_Times -> float64;
  T_Guest : cpu_Times -> float64; T_GuestNice : cpu_Times -> float64;
  cpu_Info : Type; I_ModelName : cpu_Info -> bytes;
  disk_Part : Type; P_Mountpoint : disk_Part -> string; P_Fstype : disk_Part -> string; P_Device : disk_Part -> string;
  disk_Usage : Type; U_Total : disk_Usage -> Z; U_Free : disk_Usage -> Z; U_Used : disk_Usage -> Z; U_UsedPercent : disk_Usage -> float64;
  U_InodesTotal : disk_Usage -> Z; U_InodesUsed : disk_Usage -> Z; U_InodesFree : disk_Usage -> Z; U_InodesUsedPercent : disk_Usage -> float64;
  net_IO : Type; N_Name : net_IO -> bytes; N_BytesSent : net_IO -> Z; N_BytesRecv : net_IO -> Z; N_PacketsSent : net_IO -> Z; N_PacketsRecv : net_IO -> Z;
  N_Errin : net_IO -> Z; N_Errout : net_IO -> Z; N_Dropin : net_IO -> Z; N_Dropout : net_IO -> Z;
  net_Iface : Type; F_Name : net_Iface -> bytes; F_Flags : net_Iface -> list bytes;
  mem_VirtualMemory : option mem_VM; mem_SwapMemory : option mem_Swap; host_Uptime : option Z; load_Avg_ : option load_Avg;
  cpu_Percent : duration -> bool -> option (list float64); cpu_TimesOf : nat -> bool -> option (list cpu_Times);
  cpu_InfoOf : option (list cpu_Info); cpu_Counts : bool -> option Z;
  disk_Partitions : bool -> option (list disk_Part); disk_UsageOf : string -> option disk_Usage;
  net_IOCounters : bool -> option (list net_IO); net_Interfaces : option (list net_Iface) }.

(** ** The readers of the [*_gopsutil.go] files *)
Section Real.
Context {G : Gopsutil}.

#[export] Instance realMemoryReader : MemoryReader := {
  VirtualMemoryWithContext :=
    v ← mem_VirtualMemory;
    Some {| vm_Total := VM_Total v; vm_Available := VM_Available v; vm_Used := VM_Used v; vm_UsedPercent := VM_UsedPercent v |};
  SwapMemoryWithContext :=
    s ← mem_SwapMemory;
    Some {| sw_Total := Swap_Total s; sw_Used := Swap_Used s; sw_Free := Swap_Free s; sw_UsedPercent := Swap_UsedPercent s |} }.

#[export] Instance realSystemReader : SystemReader := {
  UptimeWithContext := host_Uptime;
  LoadAvgWithContext := l ← load_Avg_; Some {| Load1 := Avg_Load1 l; Load5 := Avg_Load5 l; Load15 := Avg_Load15 l |} }.

Definition times_stat (t : cpu_Times) : CPUTimesStat := {|
  User := T_User t; System := T_System t; Idle := T_Idle t; Nice := T_Nice t; Iowait := T_Iowait t; Irq := T_Irq t; Softirq := T_Softirq t;
  Steal := T_Steal t; Guest := T_Guest t; GuestNice := T_GuestNice t |}.
#[export] Instance realCPUReader : CPUReader := { PercentWithContext := cpu_Percent }.
#[export] Instance realCPUTimesReader : CPUTimesReader := {
  TimesWithContext k percpu := times ← cpu_TimesOf k percpu; Some (map times_stat times) }.

Definition partition_stat (p : disk_Part) : PartitionStat := {| Mountpoint := P_Mountpoint p; Fstype := P_Fstype p; Device := P_Device p |}.
Definition usage_stat (u : disk_Usage) : DiskUsageStat := {|
  du_Total := U_Total u; du_Free := U_Free u; du_Used := U_Used u; du_UsedPercent := U_UsedPercent u; du_InodesTotal := U_InodesTotal u;
  du_InodesUsed := U_InodesUsed u; du_InodesFree := U_InodesFree u; du_InodesUsedPercent := U_InodesUsedPercent u |}.
#[export] Instance realDiskReader : DiskReader := {
  PartitionsWithContext all := parts ← disk_Partitions all; Some (map partition_stat parts);
  UsageWithContext path := u ← disk_UsageOf path; Some (usage_stat u) }.

Definition io_stat (c : net_IO) : IOCountersStat := {|
  io_Name := N_Name c; BytesSent := N_BytesSent c; BytesRecv := N_BytesRecv c; PacketsSent := N_PacketsSent c; PacketsRecv := N_PacketsRecv c;
  Errin := N_Errin c; Errout := N_Errout c; Dropin := N_Dropin c; Dropout := N_Dropout c |}.
#[export] Instance realNetworkReader : NetworkReader := {
  IOCountersWithContext pernic := counters ← net_IOCounters pernic; Some (map io_stat counters) }.
#[export] Instance realInterfaceStateReader : InterfaceStateReader := {
  UpInterfaceNamesWithContext := UpInterfaceNames (map (fun i => (F_Name i, F_Flags i)) <$> net_Interfaces) }.

(** ** [info_other.go], [timesync_other.go]: platforms other than Linux *)
Definition otherInfoReader (virtOverride : bytes) : InfoReader := {|
  SystemInfoWithContext := Some {| Distribution := []; DistributionVersion := []; KernelVersion := []; Virtualization := virtOverride |};
  CPUInfoWithContext :=
    match cpu_InfoOf with
    | None => Some {| Model := []; Cores := 0; Threads := 0 |}
    | Some infos => Some {| Model := match infos with i :: _ => I_ModelName i | [] => [] end;
                            Cores := default 0 (cpu_Counts false); Threads := default 0 (cpu_Counts true) |}
    end;
  PackageUpdateTimesWithContext := Some {| LastKernelUpdate := 0; LastSoftwareUpdate := 0 |};
  KernelCareInfoWithContext := Some {| Installed := false; kc_Version := [] |};
  MemoryInfoWithContext :=
    match mem_VirtualMemory with
    | None => Some {| TotalMB := 0; Modules := [] |}
    | Some vm => Some {| TotalMB := wrap_i64 (VM_Total vm / (1024 * 1024)); Modules := [] |}
    end;
  DiskHardwareWithContext := Some [];
  NetworkHardwareWithContext := Some [];
  SystemHardwareWithContext := Some {| Vendor := []; Product := [] |} |}.

Definition other_timesync_Collect : option (list MetricPoint) := None.

(** ** [info_linux.go]: the reader of a Linux host

    Files, links and directories; the answers of the commands, nothing when one
    is missing or fails. *)
Record LinuxHost := {
  lx_read : bytes -> option bytes; lx_readlink : bytes -> option bytes; lx_exists : bytes -> bool; lx_ReadDir : bytes -> option (list bytes);
  lx_ParseLocal : bytes -> bytes -> option Z; lx_kernel : option bytes; lx_detect_virt : option bytes; lx_rpm_kernel : option bytes; lx_rpm_all : option bytes;
  lx_kcarectl : bool; lx_kcarectl_out : option bytes; lx_dmidecode : option bytes }.

Definition linuxInfoReader (virtOverride : bytes) (h : LinuxHost) : InfoReader := {|
  SystemInfoWithContext :=
    Some (SystemInfo virtOverride (lx_read h (B "/etc/os-release")) (lx_kernel h) (lx_detect_virt h) (lx_read h (B "/sys/class/dmi/id/sys_vendor")));
  CPUInfoWithContext := CPUInfo_ (map I_ModelName <$> cpu_InfoOf) (cpu_Counts false) (cpu_Counts true);
  PackageUpdateTimesWithContext := Some (PackageUpdates (lx_read h) (lx_ParseLocal h) (lx_rpm_kernel h) (lx_rpm_all h));
  KernelCareInfoWithContext := Some (KernelCareInfo (lx_kcarectl h) (lx_kcarectl_out h));
  MemoryInfoWithContext := Some (MemoryInfo_ (lx_read h (B "/proc/meminfo")) (lx_dmidecode h));
  DiskHardwareWithContext := DiskHardware (lx_read h) (lx_readlink h) (lx_ReadDir h);
  NetworkHardwareWithContext := NetworkHardware (lx_read h) (lx_exists h) (lx_ReadDir h);
  SystemHardwareWithContext := Some (SystemHardware (lx_read h)) |}.

(** [newRealInfoReader]: the reader of the platform the agent is built for. *)
Definition newRealInfoReader (linux : option LinuxHost) (virtOverride : bytes) : InfoReader :=
  match linux with Some h => linuxInfoReader virtOverride h | None => otherInfoReader virtOverride end.

(** ** The interfaces that are reported *)
Definition is_up (name : bytes) : Prop :=
  forall l, net_Interfaces = Some l -> exists i, i ∈ l /\ F_Name i = name /\ B "up" ∈ F_Flags i.

Lemma up_names (name : bytes) : match UpInterfaceNamesWithContext with Some up => bool_decide (name ∈ up) | None => true end = true <-> is_up name.
Proof.
  unfold is_up. cbn [UpInterfaceNamesWithContext realInterfaceStateReader]. unfold UpInterfaceNames.
  destruct net_Interfaces as [l|]; cbn [fmap option_fmap option_map mbind option_bind]; [|naive_solver].
  rewrite bool_decide_eq_true, elem_of_list_to_set, list_elem_of_fmap. split.
  - intros ([n f] & -> & [Hin Hf]%list_elem_of_In%filter_In) l' [= <-]. apply in_map_iff in Hin as (i & [= <- <-] & Hi).
    apply existsb_exists in Hf as (x & Hx & ->%bool_decide_eq_true). exists i. rewrite !list_elem_of_In. done.
  - intros H. destruct (H l eq_refl) as (i & Hi & <- & Hf). exists (F_Name i, F_Flags i). split; [done|]. apply list_elem_of_In, filter_In.
    split; [apply in_map_iff; exists i; by rewrite <- list_elem_of_In|]. apply existsb_exists. exists (B "up"). rewrite <- list_elem_of_In.
    split; [done|by apply bool_decide_eq_true].
Qed.

(** What the comments of [NetworkCollector] promise: the include patterns, or
    else everything but the exclude patterns that is up. *)
Definition selected (includes excludes : list bytes) (name : bytes) : Prop :=
  (includes <> [] /\ matchesAnyGlob name includes = true)
  \/ (includes = [] /\ matchesAnyGlob name (match excludes with [] => DefaultNetworkExcludePatterns | l => l end) = false /\ is_up name).

Lemma shouldInclude_selected (includes excludes : list bytes) (name : bytes) :
  let c := NewNetworkCollectorWithFilters includes excludes in
  shouldInclude c name (match n_includes c with [] => if n_state c then UpInterfaceNamesWithContext else None | _ => None end) = true
  <-> selected includes excludes name.
Proof.
  cbv zeta. unfold shouldInclude, selected. cbn [NewNetworkCollectorWithFilters n_includes n_excludes n_state].
  destruct includes as [|p ps]; [|naive_solver]. rewrite <- up_names.
  destruct excludes; destruct (matchesAnyGlob name _); naive_solver.
Qed.

(** the interfaces reported.  When the counters can be read, the network
    collector of the running agent reports eight counters, the library's own,
    for every interface of the counters that is selected and for no other:
    one that matches an include pattern if there are any, and otherwise one
    that matches no exclude pattern (the built-in ones if none is given) and
    that the library lists with the flag up, unless it cannot list them. *)
Theorem interfaces_reported (includes excludes : list bytes) (counters : list net_IO) :
  net_IOCounters true = Some counters ->
  exists reported, NetworkCollector_Collect (NewNetworkCollectorWithFilters includes excludes)
      = Some (concat (map (fun c => iface_points (io_stat c)) reported))
    /\ sublist reported counters
    /\ (forall c, c ∈ reported <-> c ∈ counters /\ selected includes excludes (N_Name c)).
Proof.
  intros Hc. unfold NetworkCollector_Collect, network_Collect. cbn [IOCountersWithContext realNetworkReader]. rewrite Hc. cbn [mbind option_bind].
  set (nc := NewNetworkCollectorWithFilters includes excludes).
  set (keep := fun c : net_IO => shouldInclude nc (N_Name c)
    (match n_includes nc with [] => if n_state nc then UpInterfaceNamesWithContext else None | _ => None end)).
  exists (List.filter keep counters). split_and!.
  - f_equal. rewrite map_map. exact (concat_filter keep (fun c => iface_points (io_stat c)) counters).
  - apply sublist_keep.
  - intros c. rewrite !list_elem_of_In, filter_In. f_equiv. apply shouldInclude_selected.
Qed.
End Real.

(** ** The host's identity *)

(** On a platform other than Linux the collector reports the override, the
    processor and the memory as the library gives them, in whole mebibytes, and
    an empty identity; nothing else. *)
Lemma other_info_points `{G : Gopsutil} (virt : bytes) (nokc : bool) (infos : list cpu_Info) (vm : mem_VM) :
  cpu_InfoOf = Some infos -> mem_VirtualMemory = Some vm -> 1024 * 1024 <= VM_Total vm < 2 ^ 64 ->
  InfoCollector_Collect (H := otherInfoReader virt) nokc =
  [ info_point "system_info" "Static system software information" [("distribution", []); ("distribution_version", []); ("kernel_version", []); ("virtualization", virt)];
    info_point "cpu_info" "CPU hardware information"
      [("model", match infos with i :: _ => I_ModelName i | [] => [] end); ("cores", Itoa (default 0 (cpu_Counts false))); ("threads", Itoa (default 0 (cpu_Counts true)))];
    info_point "memory_hardware_info" "Physical memory total" [("total_mb", Itoa (VM_Total vm / (1024 * 1024)))];
    info_point "hardware_info" "Server hardware identity" [("vendor", []); ("product", [])] ].
Proof.
  intros Hc Hm Ht. unfold InfoCollector_Collect, info_Collect.
  cbn [an_system an_cpu an_updates an_kernelcare an_memory an_disks an_nics an_hardware otherInfoReader SystemInfoWithContext CPUInfoWithContext
       PackageUpdateTimesWithContext KernelCareInfoWithContext MemoryInfoWithContext DiskHardwareWithContext NetworkHardwareWithContext SystemHardwareWithContext].
  rewrite Hc, Hm. cbn [Installed LastKernelUpdate LastSoftwareUpdate TotalMB Modules]. rewrite andb_false_r.
  assert (Hq : 0 < VM_Total vm / (1024 * 1024)) by (apply Z.div_str_pos; lia).
  assert (Hu : VM_Total vm / (1024 * 1024) <= VM_Total vm / 2) by (apply Z.div_le_compat_l; lia).
  assert (Hd : 2 * (VM_Total vm / 2) <= VM_Total vm) by (apply Z.mul_div_le; lia).
  rewrite wrap_i64_id by (unfold is_i64, min_i64, max_i64; lia). by rewrite (proj2 (Z.ltb_lt _ _) Hq).
Qed.

(** On every platform an override is what the host reports as its
    virtualization, whatever the host itself looks like. *)
Lemma virtualization_override `{G : Gopsutil} (linux : option LinuxHost) (virt : bytes) (nokc : bool) : virt <> [] ->
  exists pt rest, InfoCollector_Collect (H := newRealInfoReader linux virt) nokc = pt :: rest
    /\ mp_Name pt = "system_info" /\ mp_Labels pt !! "virtualization" = Some (S virt).
Proof.
  intros Hv. unfold InfoCollector_Collect, info_Collect. cbn [an_system]. destruct linux as [h|]; cbn [newRealInfoReader linuxInfoReader otherInfoReader SystemInfoWithContext].
  - eexists _, _. split; [reflexivity|]. split; [done|]. unfold SystemInfo. destruct (parseOSRelease _) as [dist ver]. cbn [Virtualization]. by destruct virt.
  - by eexists _, _.
Qed.

(** ** A host, to run the collectors on *)
Definition demo_lib : Gopsutil := {|
  mem_VM := Z; VM_Total := id; VM_Available := id; VM_Used := id; VM_UsedPercent := f64_of_Z;
  mem_Swap := Z; Swap_Total := id; Swap_Used := id; Swap_Free := id; Swap_UsedPercent := f64_of_Z;
  load_Avg := Z; Avg_Load1 := f64_of_Z; Avg_Load5 := f64_of_Z; Avg_Load15 := f64_of_Z;
  cpu_Times := Z; T_User := f64_of_Z; T_System := f64_of_Z; T_Idle := f64_of_Z; T_Nice := f64_of_Z; T_Iowait := f64_of_Z; T_Irq := f64_of_Z; T_Softirq := f64_of_Z;
  T_Steal := f64_of_Z; T_Guest := f64_of_Z; T_GuestNice := f64_of_Z;
  cpu_Info := bytes; I_ModelName := id;
  disk_Part := string; P_Mountpoint := id; P_Fstype := fun _ => "ext4"; P_Device := id;
  disk_Usage := Z; U_Total := id; U_Free := id; U_Used := id; U_UsedPercent := f64_of_Z; U_InodesTotal := id; U_InodesUsed := id; U_InodesFree := id;
  U_InodesUsedPercent := f64_of_Z;
  net_IO := bytes; N_Name := id; N_BytesSent := len; N_BytesRecv := len; N_PacketsSent := len; N_PacketsRecv := len; N_Errin := len; N_Errout := len;
  N_Dropin := len; N_Dropout := len;
  net_Iface := bytes * list bytes; F_Name := fst; F_Flags := snd;
  mem_VirtualMemory := Some (8 * 2 ^ 30); mem_SwapMemory := None; host_Uptime := Some 60; load_Avg_ := Some 1;
  cpu_Percent := fun _ _ => Some [f64_one]; cpu_TimesOf := fun _ _ => Some [1]; cpu_InfoOf := Some [B "Xeon"]; cpu_Counts := fun logical => if logical then Some 8 else Some 4;
  disk_Partitions := fun _ => Some ["/"]; disk_UsageOf := fun _ => Some 100;
  net_IOCounters := fun _ => Some (map B ["lo"; "bond0"; "bond1"; "veth12"]);
  net_Interfaces := Some [(B "lo", map B ["up"; "loopback"]); (B "bond0", map B ["broadcast"; "up"]); (B "bond1", map B ["broadcast"])] |}.

(** Without patterns the one that is up and not of a built-in pattern. *)
Example bond_reported : map (fun q => mp_Labels q !! "interface")
  (default [] (@NetworkCollector_Collect (@realNetworkReader demo_lib) (@realInterfaceStateReader demo_lib) (NewNetworkCollectorWithFilters [] [])))
  = replicate 8 (Some "bond0").
Proof. vm_compute. reflexivity. Qed.

Lemma interfaces_reported_witness :
  exists reported, @NetworkCollector_Collect (@realNetworkReader demo_lib) (@realInterfaceStateReader demo_lib) (NewNetworkCollectorWithFilters [] [])
      = Some (concat (map (fun c => iface_points (@io_stat demo_lib c)) reported))
    /\ sublist reported (map B ["lo"; "bond0"; "bond1"; "veth12"]).
Proof.
  destruct (@interfaces_reported demo_lib [] [] (map B ["lo"; "bond0"; "bond1"; "veth12"]) eq_refl) as (r & H1 & H2 & _).
  exists r. exact (conj H1 H2).
Defined.
