(* ===== verification/Process.v ===== *)
(** * The running process

    What [run] of [cmd/yomins-agent/main.go] starts, until the process ends:
    the loop of the agent ([internal/agent/agent.go]), the event pipeline with
    the goroutines of the auth and the system collector
    ([internal/events/pipeline.go], [auth/collector.go], [system/collector.go])
    and the transport that drains it, the poller of the remote configuration and
    the periodic upgrade check, next to the signals that cancel their common
    context.  A goroutine acts in atomic steps; a schedule is a list of actions
    and [pstep] says what an action does and when it can happen.  A tick of the
    agent begins and ends in different steps, between which everything else may
    happen, for as long as its collection and its retries take.  A goroutine that has returned is one that does not act any
    more, so returning is no action where nobody waits for it.  A [select] with
    several ready cases may take any of them: a tick can still be taken after
    the context is done, and so can a send on a channel that is closed, which
    panics. *)
From S2P Require Import Prelude GoFloat GoStrings Metrics Events RingBuffer EventPipeline Agent.
From S2P Require SystemEvents SystemRun AuthEvents AuthRun Upgrade Remote Config Main.
Import Main (plan, inputs, event_collector).
Local Open Scope list_scope.
Local Open Scope Z_scope.

(** ** The state *)

(** Where [Agent.Run] is: before its first tick, in a tick, at its [select], in
    its final tick, or returned. *)
Inductive agent_pc := Starting | Ticking | Looping | Finishing | Stopped.
#[export] Instance agent_pc_eq_dec : EqDecision agent_pc.
Proof. solve_decision. Defined.
Record agent_part := { ap_pc : agent_pc; ap_agent : Agent.Agent; ap_pushed : list (MetricSet * bool) }.

#[export] Instance watcher_eq_dec : EqDecision SystemRun.watcher.
Proof. solve_decision. Defined.
(** The pipeline, the watchers the system collector has started, the state of
    the auth collector, and that of the watcher of the files once it runs. *)
Record event_part := {
  vp_pipe : Pipeline; vp_watchers : list SystemRun.watcher; vp_auth : option AuthRun.shared; vp_files : option SystemRun.files_state }.
Definition with_pipe (v : event_part) (pl : Pipeline) : event_part := {|
  vp_pipe := pl; vp_watchers := vp_watchers v; vp_auth := vp_auth v; vp_files := vp_files v |}.
Definition with_auth (v : event_part) (st : AuthRun.shared) : event_part := {|
  vp_pipe := vp_pipe v; vp_watchers := vp_watchers v; vp_auth := Some st; vp_files := vp_files v |}.
Definition with_files (v : event_part) (st : SystemRun.files_state) : event_part := {|
  vp_pipe := vp_pipe v; vp_watchers := vp_watchers v; vp_auth := vp_auth v; vp_files := Some st |}.

(** What the collectors find in the file system when they are made: whether
    the log files exist, the known addresses, and the state of the files. *)
Record collector_files := {
  cf_stat : string -> option bool; cf_ips : AuthEvents.ip_file; cf_states : SystemEvents.json_file SystemEvents.file_states }.

(** The poller: not running (any more), polling, or about to restart. *)
Inductive fetch_state := NoFetch | Polling (f : Remote.Fetcher) | Pending (wait : duration) (version : bytes).
Record fetch_part := { fp_state : fetch_state; fp_file : option bytes }.

(** How a process ends: [main] returns or something calls [os.Exit], or a
    goroutine panics. *)
Inductive ending := Exited (status : Z) | Crashed.

Record process := {
  ps_cancelled : bool; ps_restart : option bytes; ps_agent : agent_part; ps_events : option event_part; ps_fetch : fetch_part;
  ps_disk : Upgrade.disk; ps_end : option ending }.

Definition with_agent (s : process) (a : agent_part) (d : Upgrade.disk) : process := {|
  ps_cancelled := ps_cancelled s; ps_restart := ps_restart s; ps_agent := a; ps_events := ps_events s; ps_fetch := ps_fetch s; ps_disk := d; ps_end := ps_end s |}.
(** A pipeline that panicked takes the process with it. *)
Definition with_events (s : process) (v : event_part) : process := {|
  ps_cancelled := ps_cancelled s; ps_restart := ps_restart s; ps_agent := ps_agent s; ps_events := Some v; ps_fetch := ps_fetch s; ps_disk := ps_disk s;
  ps_end := match pl_status (vp_pipe v) with Panicked => Some Crashed | _ => ps_end s end |}.
Definition with_fetch (s : process) (f : fetch_part) : process := {|
  ps_cancelled := ps_cancelled s; ps_restart := ps_restart s; ps_agent := ps_agent s; ps_events := ps_events s; ps_fetch := f; ps_disk := ps_disk s; ps_end := ps_end s |}.
Definition with_disk_end (s : process) (d : Upgrade.disk) (e : option ending) : process := {|
  ps_cancelled := ps_cancelled s; ps_restart := ps_restart s; ps_agent := ps_agent s; ps_events := ps_events s; ps_fetch := ps_fetch s; ps_disk := d; ps_end := e |}.

(** ** The actions *)
Inductive paction :=
  | PSignal                                        (* SIGINT or SIGTERM *)
  | PTick                                          (* the first tick of the agent begins, or one of its ticker *)
  | PTicked (e : tick_env) (commit_ok : bool)      (* and ends *)
  | PFinal                                         (* its context is done: the final tick begins *)
  | PFinished (e : tick_env) (commit_ok : bool)    (* and ends *)
  | PReturn                                        (* [run] and then [main] return *)
  | PPoll (x : Remote.turn)                        (* a turn of the poller *)
  | PApply                                         (* its callback [Restart] *)
  | PCheck (w : Upgrade.world)                     (* a periodic upgrade check *)
  | PEvents (a : EventPipeline.action)             (* a step of the event pipeline *)
  | PRequeue (ev : Event)                          (* the event transport puts an unsent event back *)
  | PWatchers                                      (* the system collector starts its watchers *)
  | PWatch (w : SystemRun.watcher) (ev : Event)    (* a watcher's [out <- ev] *)
  | PAuth (a : AuthRun.act)                        (* a goroutine of the auth collector handles a record or line *)
  | PBaseline (files : string -> option (bytes * Z)) (write_ok : bool)  (* the file watcher starts *)
  | PLook (l : SystemRun.files_look).              (* and looks at the files *)

(** The error of [ag.Run], that of [run], and the status [main] exits with. *)
Inductive run_error := Canceled | Failure.
Definition agent_error (s : process) : option run_error := if ps_cancelled s then Some Canceled else None.
Definition run_result (s : process) : option run_error := match ps_restart s with Some _ => None | None => agent_error s end.
Definition main_status (e : option run_error) : Z := match e with None | Some Canceled => 0 | Some Failure => 1 end.

Definition is_system (c : event_collector) : bool := match c with Main.SystemCollector _ => true | _ => false end.
Definition is_auth (c : event_collector) : bool := match c with Main.AuthCollector _ => true | _ => false end.

Section Process.
Context (b : build) (sha256hex : bytes -> bytes) (i : inputs) (p : plan) (h : collector_files).

(** Only a dry run has no poller. *)
Definition serving : bool := match Main.pn_fetcher p with Some _ => true | None => false end.
Definition upgrades : Upgrade.Config := Main.upgrade_config i (Main.pn_cfg p).
Definition collectors : list event_collector := match Main.pn_events p with Some e => Main.ep_collectors e | None => [] end.
Definition flushes : bool := match Main.pn_events p with Some e => match Main.ep_transport e with Some _ => true | None => false end | None => false end.

(** ** The start: the goroutines are started and nothing has happened *)
Definition auth_config : option AuthEvents.Config :=
  omap (fun c => match c with Main.AuthCollector cfg => Some cfg | _ => None end) collectors !! 0%nat.
Definition start_auth : option AuthRun.shared :=
  cfg ← auth_config;
  Some {| AuthRun.sh_c := AuthEvents.NewCollector cfg (cf_stat h) (AuthEvents.loadLastIPByUser (cf_ips h)); AuthRun.sh_ipfile := cf_ips h |}.

Definition start_events : option event_part :=
  e ← Main.pn_events p;
  pl ← NewPipeline {| BufferSize := Main.ep_BufferSize e; FanInDepth := 0; pc_Counter := Some NewCounter |} (length (Main.ep_collectors e));
  Some {| vp_pipe := pl; vp_watchers := []; vp_auth := start_auth; vp_files := None |}.

Definition start_fetch : fetch_state :=
  match Main.pn_fetcher p with
  | None => NoFetch
  | Some f =>
      if bool_decide (Remote.f_Mode f = Remote.ModeOff) then NoFetch
      else Polling {| Remote.f_Mode := Remote.f_Mode f; Remote.f_Current := Remote.f_Current f; Remote.f_Applied := Remote.f_Applied f;
                      Remote.f_info := Remote.f_info f; Remote.f_Started := Remote.f_Started f;
                      Remote.f_MinUptime := if Remote.f_MinUptime f <=? 0 then 2 * minute else Remote.f_MinUptime f |}
  end.

Definition first_agent : Agent.Agent := Agent.New (Main.pn_agent p) (NewSelfMetricsCollector (cfg_AgentID (Main.pn_agent p)) (Main.in_now i)).

Definition start_process : process := {|
  ps_cancelled := false; ps_restart := None;
  ps_agent := {| ap_pc := Starting; ap_agent := first_agent; ap_pushed := [] |};
  ps_events := start_events; ps_fetch := {| fp_state := start_fetch; fp_file := Main.in_remote i |};
  ps_disk := if serving then (Upgrade.RunOnce sha256hex upgrades (Main.in_world i) (Main.in_disk i)).1 else Main.in_disk i;
  ps_end := None |}.

(** ** The steps *)

(** The agent moves on; and the end of a tick: the first push that succeeds
    commits a staged upgrade. *)
Definition at_pc (s : process) (pc : agent_pc) : process :=
  with_agent s {| ap_pc := pc; ap_agent := ap_agent (ps_agent s); ap_pushed := ap_pushed (ps_agent s) |} (ps_disk s).
Definition do_tick (s : process) (pc : agent_pc) (e : tick_env) (commit_ok : bool) : process :=
  let '(a, ms, commit) := tick b (ap_agent (ps_agent s)) e in
  with_agent s {| ap_pc := pc; ap_agent := a; ap_pushed := ap_pushed (ps_agent s) ++ [(ms, commit)] |}
    (if commit then (Upgrade.Commit commit_ok (ps_disk s)).1 else ps_disk s).

(** What the parts of the pipeline may do: a collector returns when the context
    is done, and the network collector also when its first scan fails; the
    system collector sends only before it starts its watchers; only the
    transport drains the buffer; the goroutines are the watchers ([PWatchers],
    [PWatch]). *)
Definition event_allowed (s : process) (v : event_part) (a : EventPipeline.action) : bool :=
  match a with
  | ASend k _ => match collectors !! k with Some (Main.SystemCollector _) => bool_decide (vp_watchers v = []) | Some _ => true | None => false end
  | AExit k => match collectors !! k with Some (Main.NetworkCollector _) => true | Some _ => ps_cancelled s | None => false end
  | ADrain => flushes
  | AClose | ARecv | AReturn => true
  | AGo _ | AGoSend _ => false
  end.

(** The watchers the system collector starts, when it is one of the running
    collectors: each is a goroutine on the channel. *)
Definition system_collector : option (nat * SystemEvents.Config) :=
  '(k, c) ← list_find is_system collectors;
  match c with Main.SystemCollector cfg => Some (k, cfg) | _ => None end.
Definition start_watcher (k : nat) (pl : option Pipeline) (_ : SystemRun.watcher) : option Pipeline :=
  q ← pl; '(q', _) ← EventPipeline.step q (AGo k); Some q'.
Definition start_watchers (v : event_part) : option event_part :=
  '(k, cfg) ← system_collector;
  pl ← foldl (start_watcher k) (Some (vp_pipe v)) (SystemRun.watchers cfg);
  Some {| vp_pipe := pl; vp_watchers := SystemRun.watchers cfg; vp_auth := vp_auth v; vp_files := vp_files v |}.

(** [fmt.Sprintf] of the digest with [%x]. *)
Definition sha256 (data : bytes) : string := S (sha256hex data).

(** A goroutine panicked. *)
Definition crash (s : process) : process := with_disk_end s (ps_disk s) (Some Crashed).

(** An act of the auth collector's goroutines; its events go to [ASend]. *)
Definition auth_step (s : process) (v : event_part) (a : AuthRun.act) : option process :=
  st ← vp_auth v;
  if AuthRun.allowed (AuthRun.source_of (AuthRun.sh_c st) (cf_stat h)) a then
    match AuthRun.act_step st a with
    | Some (st', _) => Some (with_events s (with_auth v st'))
    | None => Some (crash s)
    end
  else None.

(** The start of [pollFileState], and a tick of it; its events go to [PWatch]. *)
Definition baseline_step (s : process) (v : event_part) (files : string -> option (bytes * Z)) (ok : bool) : option process :=
  match vp_files v with
  | Some _ => None
  | None =>
      if bool_decide (SystemRun.WatchFiles ∈ vp_watchers v) then
        match SystemEvents.file_baseline sha256 files (cf_states h) ok with
        | Some (state, file) => Some (with_events s (with_files v {| SystemRun.fs_map := state; SystemRun.fs_unreadable := ∅; SystemRun.fs_file := file |}))
        | None => Some (crash s)
        end
      else None
  end.
Definition look_step (s : process) (v : event_part) (l : SystemRun.files_look) : option process :=
  st ← vp_files v;
  '(_, cfg) ← system_collector;
  match SystemRun.files_tick cfg sha256 st l with
  | Some (st', _) => Some (with_events s (with_files v st'))
  | None => Some (crash s)
  end.

Definition requeue_one (pl : Pipeline) (ev : Event) : Pipeline :=
  match Push (pl_buf pl) ev with
  | None => set_status pl Panicked
  | Some r => {| pl_collectors := pl_collectors pl; pl_background := pl_background pl; pl_buf := r; pl_fanIn := pl_fanIn pl; pl_depth := pl_depth pl; pl_closed := pl_closed pl;
                 pl_counter := pl_counter pl; pl_status := pl_status pl |}
  end.

(** [None]: the action cannot happen now. *)
Definition live_step (s : process) (a : paction) : option process :=
  match a with
  | PSignal => Some {| ps_cancelled := true; ps_restart := ps_restart s; ps_agent := ps_agent s; ps_events := ps_events s; ps_fetch := ps_fetch s;
                       ps_disk := ps_disk s; ps_end := ps_end s |}
  | PTick => match ap_pc (ps_agent s) with Starting | Looping => Some (at_pc s Ticking) | _ => None end
  | PTicked e ok => match ap_pc (ps_agent s) with Ticking => Some (do_tick s Looping e ok) | _ => None end
  | PFinal => match ap_pc (ps_agent s) with Looping => if ps_cancelled s then Some (at_pc s Finishing) else None | _ => None end
  | PFinished e ok => match ap_pc (ps_agent s) with Finishing => Some (do_tick s Stopped e ok) | _ => None end
  | PReturn => match ap_pc (ps_agent s) with Stopped => Some (with_disk_end s (ps_disk s) (Some (Exited (main_status (run_result s))))) | _ => None end
  | PPoll x =>
      match fp_state (ps_fetch s) with
      | Polling f => let '(file, v) := Remote.poll Main.re_ok f x (fp_file (ps_fetch s)) in
                     Some (with_fetch s {| fp_state := match v with Remote.Keep f' => Polling f' | Remote.RestartAfter w n => Pending w n end; fp_file := file |})
      | _ => None
      end
  | PApply =>
      match fp_state (ps_fetch s) with
      | Pending _ n => Some {| ps_cancelled := true; ps_restart := Some n; ps_agent := ps_agent s; ps_events := ps_events s;
                               ps_fetch := {| fp_state := NoFetch; fp_file := fp_file (ps_fetch s) |}; ps_disk := ps_disk s; ps_end := ps_end s |}
      | _ => None
      end
  | PCheck w =>
      if serving && Upgrade.periodic_on upgrades then
        let '(d, e) := Upgrade.RunOnce sha256hex upgrades w (ps_disk s) in
        Some (with_disk_end s d (match e with Upgrade.RReturn => ps_end s | Upgrade.RExit => Some (Exited 0) | Upgrade.RPanic => Some Crashed end))
      else None
  | PEvents act =>
      v ← ps_events s;
      if event_allowed s v act then '(pl, _) ← EventPipeline.step (vp_pipe v) act; Some (with_events s (with_pipe v pl))
      else None
  | PRequeue ev =>
      v ← ps_events s;
      if flushes then Some (with_events s (with_pipe v (requeue_one (vp_pipe v) ev))) else None
  | PWatchers =>
      v ← ps_events s;
      if bool_decide (vp_watchers v = []) then v' ← start_watchers v; Some (with_events s v') else None
  | PWatch w ev =>
      v ← ps_events s;
      if bool_decide (w ∈ vp_watchers v) then '(pl, _) ← EventPipeline.step (vp_pipe v) (AGoSend ev); Some (with_events s (with_pipe v pl))
      else None
  | PAuth act => v ← ps_events s; auth_step s v act
  | PBaseline files ok => v ← ps_events s; baseline_step s v files ok
  | PLook l => v ← ps_events s; look_step s v l
  end.

Definition pstep (s : process) (a : paction) : option process := match ps_end s with None => live_step s a | Some _ => None end.

Fixpoint prun (s : process) (acts : list paction) : option process :=
  match acts with
  | [] => Some s
  | a :: t => s' ← pstep s a; prun s' t
  end.

(** ** What a trace says *)

(** The ticks of the agent, in order. *)
Definition tick_of (a : paction) : option tick_env := match a with PTicked e _ | PFinished e _ => Some e | _ => None end.
Definition ticks (acts : list paction) : list tick_env := omap tick_of acts.
Definition is_final (a : paction) : bool := match a with PFinal | PFinished _ _ => true | _ => false end.
Definition no_final (acts : list paction) : Prop := Forall (fun a => is_final a = false) acts.
(** A signal arrived or the poller asked for a restart. *)
Definition cancels (acts : list paction) : Prop := PSignal ∈ acts \/ PApply ∈ acts.

(** The final tick has begun, after the context was done and after at least one
    tick; and the agent has returned: that tick has ended, and there is none
    after it. *)
Definition finishing (acts : list paction) : Prop :=
  exists pre mid, acts = pre ++ PFinal :: mid /\ cancels pre /\ ticks pre <> [] /\ no_final pre /\ ticks mid = [].
Definition stopped (acts : list paction) : Prop :=
  exists past e ok post, acts = past ++ PFinished e ok :: post /\ finishing past /\ ticks post = [].

Definition pc_ok (acts : list paction) (pc : agent_pc) : Prop :=
  match pc with
  | Starting => ticks acts = [] /\ no_final acts
  | Ticking => no_final acts
  | Looping => ticks acts <> [] /\ no_final acts
  | Finishing => finishing acts
  | Stopped => stopped acts
  end.

(** The file is the one a poll left that asked for a restart for [version]. *)
Definition polled (acts : list paction) (version : bytes) (file : option bytes) : Prop :=
  exists f x before wait, PPoll x ∈ acts /\ Remote.poll Main.re_ok f x before = (file, Remote.RestartAfter wait version).

(** The pipeline: its buffer is well formed, it has not panicked, its channel
    is closed only after all collectors have returned, the system collector
    only after the context was done, and only it has watchers; the two maps
    the collectors write to are nil only when their files were [null]. *)
Record pipe_ok (cancelled : bool) (v : event_part) : Prop := {
  po_wf : wf (pl_buf (vp_pipe v));
  po_status : pl_status (vp_pipe v) <> Panicked;
  po_closed : pl_closed (vp_pipe v) = true -> existsb id (pl_collectors (vp_pipe v)) = false;
  po_len : length (pl_collectors (vp_pipe v)) = length collectors;
  po_system : forall k c, collectors !! k = Some (Main.SystemCollector c) -> pl_collectors (vp_pipe v) !! k = Some false -> cancelled = true;
  po_watch : vp_watchers v <> [] -> existsb is_system collectors = true;
  po_auth : forall st, vp_auth v = Some st ->
    existsb is_auth collectors = true /\ (AuthEvents.lastIPByUser (AuthRun.sh_c st) = None -> cf_ips h = AuthEvents.IPNull);
  po_files : forall st, vp_files v = Some st ->
    existsb is_system collectors = true /\ (SystemRun.fs_map st = None -> cf_states h = SystemEvents.JSONNull) }.

(** What holds after the trace [past]: of the agent, the context and the
    poller, however the process ended; and of the pipeline while it runs. *)
Record core_inv (past : list paction) (s : process) : Prop := {
  iv_agent : Agent.Run b first_agent (ticks past) = (ap_agent (ps_agent s), ap_pushed (ps_agent s));
  iv_pc : pc_ok past (ap_pc (ps_agent s));
  iv_cancel : ps_cancelled s = true <-> cancels past;
  iv_fetch : match fp_state (ps_fetch s) with Pending _ n => polled past n (fp_file (ps_fetch s)) | _ => True end;
  iv_restart : forall n, ps_restart s = Some n -> fp_state (ps_fetch s) = NoFetch /\ polled past n (fp_file (ps_fetch s)) /\ ps_cancelled s = true }.
Definition events_inv (s : process) : Prop := forall v, ps_events s = Some v -> pipe_ok (ps_cancelled s) v.

(** ** Lemmas on traces *)
Lemma Run_snoc (a : Agent.Agent) (l : list tick_env) (e : tick_env) :
  Agent.Run b a (l ++ [e]) = let '(a1, out) := Agent.Run b a l in let '(a2, ms, c) := tick b a1 e in (a2, out ++ [(ms, c)]).
Proof.
  revert a. induction l as [|x l IH]; intros a; cbn [app Agent.Run].
  - by destruct (tick b a e) as [[? ?] ?].
  - destruct (tick b a x) as [[a1 ms] c]. rewrite IH. destruct (Agent.Run b a1 l) as [a2 out]. by destruct (tick b a2 e) as [[? ?] ?].
Qed.

Lemma ticks_snoc (l : list paction) (a : paction) : ticks (l ++ [a]) = ticks l ++ option_list (tick_of a).
Proof. unfold ticks. rewrite omap_app. cbn. by destruct (tick_of a). Qed.

Definition is_cancel (a : paction) : bool := match a with PSignal | PApply => true | _ => false end.
Lemma cancels_snoc (l : list paction) (a : paction) : is_cancel a = false -> cancels (l ++ [a]) <-> cancels l.
Proof. intros Ha. unfold cancels. rewrite !elem_of_app, !list_elem_of_singleton. split; [|tauto]. by intros [[?| <-]|[?| <-]]; [left| |right|]. Qed.

Lemma polled_snoc (l : list paction) (a : paction) (n : bytes) (file : option bytes) : polled l n file -> polled (l ++ [a]) n file.
Proof. intros (f & x & before & w & Hx & Hp). exists f, x, before, w. split; [|done]. apply elem_of_app. by left. Qed.

Lemma no_final_snoc (l : list paction) (a : paction) : no_final l -> is_final a = false -> no_final (l ++ [a]).
Proof. intros H Ha. apply Forall_app. split; [done|]. by constructor. Qed.

Lemma pc_ok_quiet (l : list paction) (a : paction) (pc : agent_pc) : pc_ok l pc -> tick_of a = None -> is_final a = false -> pc_ok (l ++ [a]) pc.
Proof.
  intros H Ha Hf. assert (Ht : ticks (l ++ [a]) = ticks l) by by rewrite ticks_snoc, Ha, app_nil_r.
  destruct pc; cbn [pc_ok] in *; rewrite ?Ht; [destruct H; split; [done|by apply no_final_snoc]|by apply no_final_snoc|destruct H; split; [done|by apply no_final_snoc]| |].
  - destruct H as (pre & mid & -> & H1 & H2 & H3 & H4). exists pre, (mid ++ [a]).
    rewrite ticks_snoc, Ha, H4, <- app_assoc. done.
  - destruct H as (past & e & ok & post & -> & H1 & H2). exists past, e, ok, (post ++ [a]).
    rewrite ticks_snoc, Ha, H2, <- app_assoc. done.
Qed.

(** ** Lemmas on the pipeline *)
Lemma pipe_ok_cancel (v : event_part) (c c' : bool) : pipe_ok c v -> (c = true -> c' = true) -> pipe_ok c' v.
Proof. intros [H1 H2 H3 H4 H5 H6 H7 H8] Hc. constructor; try done. eauto. Qed.

(** A pipeline that differs only in its buffer or channel. *)
Lemma pipe_ok_data (c : bool) (v : event_part) (pl : Pipeline) :
  pipe_ok c v -> wf (pl_buf pl) -> pl_status pl <> Panicked -> pl_closed pl = pl_closed (vp_pipe v) -> pl_collectors pl = pl_collectors (vp_pipe v) ->
  pipe_ok c (with_pipe v pl).
Proof. intros [H1 H2 H3 H4 H5 H6 H7 H8] Hw Hs Hc Hcs. constructor; cbn [with_pipe vp_pipe vp_watchers vp_auth vp_files]; rewrite ?Hc, ?Hcs; done. Qed.

Lemma system_at : existsb is_system collectors = true -> exists k c, collectors !! k = Some (Main.SystemCollector c).
Proof.
  intros H. apply existsb_exists in H as (x & Hx & Hs). apply list_elem_of_In, list_elem_of_lookup in Hx as [k Hk].
  destruct x as [c|c|c|c]; try done. eauto.
Qed.

Lemma watchers_cancelled (c : bool) (v : event_part) : pipe_ok c v -> vp_watchers v <> [] -> pl_closed (vp_pipe v) = true -> c = true.
Proof.
  intros [_ _ H3 H4 H5 H6 _ _] Hw Hc. destruct (system_at (H6 Hw)) as (k & sc & Hk). apply (H5 k sc Hk). specialize (H3 Hc).
  destruct (lookup_lt_is_Some_2 (pl_collectors (vp_pipe v)) k) as [r Hr]; [rewrite H4; by eapply lookup_lt_Some|].
  destruct r; [|done]. by rewrite (existsb_lookup _ _ Hr) in H3.
Qed.

(** A send while the channel is open. *)
Lemma send_ok (c : bool) (v : event_part) (ev : Event) (pl : Pipeline) :
  pipe_ok c v -> pl_closed (vp_pipe v) = false -> send (vp_pipe v) ev = Some pl -> pipe_ok c (with_pipe v pl).
Proof.
  intros Hok Hcl Hs. unfold send in Hs. rewrite Hcl in Hs. destruct (_ <? _); [|done]. simplify_eq.
  apply pipe_ok_data; [done|apply Hok|apply Hok|done|done].
Qed.

Lemma event_step_ok (s : process) (v : event_part) (a : EventPipeline.action) (pl : Pipeline) d :
  pipe_ok (ps_cancelled s) v -> event_allowed s v a = true -> EventPipeline.step (vp_pipe v) a = Some (pl, d) ->
  pipe_ok (ps_cancelled s) (with_pipe v pl).
Proof.
  intros Hok Ha Hs. pose proof Hok as [H1 H2 H3 H4 H5 H6 H7 H8].
  assert (Hl : EventPipeline.live_step (vp_pipe v) a = Some (pl, d)) by (unfold EventPipeline.step in Hs; by destruct (pl_status (vp_pipe v))). clear Hs.
  destruct a as [k ev|k|ev|k| | | |]; cbn [EventPipeline.live_step event_allowed] in *; [|done|done|..].
  - destruct (pl_collectors (vp_pipe v) !! k) as [[]|] eqn:Hk; [|done..].
    destruct (pl_closed (vp_pipe v)) eqn:Hcl; [by rewrite (existsb_lookup _ _ Hk) in H3; specialize (H3 eq_refl)|].
    destruct (send (vp_pipe v) ev) as [q|] eqn:Hq; [|done]. cbn [mbind option_bind] in Hl. simplify_eq. by eapply send_ok.
  - destruct (pl_collectors (vp_pipe v) !! k) as [[]|] eqn:Hk; [|done..]. simplify_eq.
    constructor; cbn [with_pipe vp_pipe vp_watchers vp_auth vp_files pl_buf pl_status pl_closed pl_collectors]; try done.
    + intros Hc. apply existsb_set_false. auto.
    + by rewrite length_insert.
    + intros j c Hj Hf. destruct (decide (j = k)) as [->|Hne]; [by rewrite Hj in Ha|]. rewrite list_lookup_insert_ne in Hf by done. eauto.
  - destruct (pl_closed (vp_pipe v) || existsb id (pl_collectors (vp_pipe v))) eqn:Hg; [done|]. apply orb_false_iff in Hg as [_ Hg]. simplify_eq. by constructor.
  - destruct (pl_status (vp_pipe v)) eqn:Hst; [|done..]. destruct (pl_fanIn (vp_pipe v)) as [|ev rest]; [done|]. simplify_eq.
    unfold fan_in_body. rewrite (Push_pushed _ _ H1). apply pipe_ok_data; cbn; auto with agent. by rewrite Hst.
  - destruct (pl_status (vp_pipe v)) eqn:Hst; [|done..]. destruct (pl_fanIn (vp_pipe v)); [|done]. destruct (pl_closed (vp_pipe v)); [|done]. simplify_eq.
    by apply pipe_ok_data.
  - rewrite (Drain_drained _ H1) in Hl. simplify_eq. apply pipe_ok_data; cbn; auto with agent.
Qed.

Lemma start_auth_ok (st : AuthRun.shared) : start_auth = Some st ->
  existsb is_auth collectors = true /\ (AuthEvents.lastIPByUser (AuthRun.sh_c st) = None -> cf_ips h = AuthEvents.IPNull).
Proof.
  unfold start_auth. destruct auth_config as [cfg|] eqn:Hc; [|done]. cbn [mbind option_bind]. intros [= <-]. split.
  - unfold auth_config in Hc. apply list_elem_of_lookup_2, list_elem_of_omap in Hc as (x & Hx & Hm). destruct x; try done.
    apply existsb_exists. eexists. split; [by apply list_elem_of_In|done].
  - cbn [AuthRun.sh_c AuthEvents.NewCollector AuthEvents.lastIPByUser]. by destruct (cf_ips h).
Qed.

Lemma start_events_ok (v : event_part) :
  (forall e, Main.pn_events p = Some e -> Main.ep_BufferSize e <= 2 ^ 62) -> start_events = Some v -> pipe_ok false v.
Proof.
  intros Hb Hv. unfold start_events in *. destruct (Main.pn_events p) as [e|] eqn:He; [|done]. cbn [mbind option_bind] in Hv. specialize (Hb e eq_refl).
  destruct (NewPipeline _ _) as [pl|] eqn:Hn; [|done]. cbn [mbind option_bind] in Hv. simplify_eq.
  pose proof (NewPipeline_inv _ _ _ Hn Hb) as [_ Hst _ Hwf _ _ _ Hcl _ _].
  assert (Hcs : pl_collectors pl = replicate (length (Main.ep_collectors e)) true).
  { unfold NewPipeline in Hn. destruct (NewRingBuffer _); [|done]. cbn [mbind option_bind] in Hn. by simplify_eq. }
  constructor; cbn [vp_pipe vp_watchers vp_auth vp_files]; try done.
  - unfold collectors. by rewrite Hcs, length_replicate, He.
  - intros k c _. unfold collectors. rewrite Hcs. by intros [? _]%lookup_replicate_1.
  - apply start_auth_ok.
Qed.

(** ** The invariant *)
Lemma core_quiet (past : list paction) (s s' : process) (a : paction) :
  core_inv past s -> tick_of a = None -> is_final a = false -> is_cancel a = false -> ps_agent s' = ps_agent s -> ps_cancelled s' = ps_cancelled s ->
  ps_fetch s' = ps_fetch s -> ps_restart s' = ps_restart s -> core_inv (past ++ [a]) s'.
Proof.
  intros [H1 H2 H3 H4 H5] Ha Hf Hq Eg Ec Ef Er. constructor; rewrite ?Eg, ?Ec, ?Ef, ?Er; [|by apply pc_ok_quiet|by rewrite cancels_snoc| |].
  - by rewrite ticks_snoc, Ha, app_nil_r.
  - destruct (fp_state (ps_fetch s)); [done..|by apply polled_snoc].
  - intros n Hn. destruct (H5 n Hn) as (? & ? & ?). auto using polled_snoc.
Qed.

(** The agent begins a tick. *)
Lemma core_begin (past : list paction) (s : process) (pc : agent_pc) (a : paction) :
  core_inv past s -> tick_of a = None -> is_cancel a = false -> pc_ok (past ++ [a]) pc -> core_inv (past ++ [a]) (at_pc s pc).
Proof.
  intros [H1 H2 H3 H4 H5] Ha Hq Hpc. constructor; cbn [at_pc with_agent ps_agent ps_cancelled ps_fetch ps_restart ap_agent ap_pushed ap_pc]; [|done|by rewrite cancels_snoc| |].
  - by rewrite ticks_snoc, Ha, app_nil_r.
  - destruct (fp_state (ps_fetch s)); [done..|by apply polled_snoc].
  - intros n Hn. destruct (H5 n Hn) as (? & ? & ?). auto using polled_snoc.
Qed.

(** And ends it. *)
Lemma core_tick (past : list paction) (s : process) (pc : agent_pc) (a : paction) (e : tick_env) (ok : bool) :
  core_inv past s -> tick_of a = Some e -> pc_ok (past ++ [a]) pc -> core_inv (past ++ [a]) (do_tick s pc e ok).
Proof.
  intros [H1 H2 H3 H4 H5] Ha Hpc. assert (Hq : is_cancel a = false) by by destruct a. unfold do_tick. destruct (tick b (ap_agent (ps_agent s)) e) as [[a' ms] c] eqn:Ht.
  constructor; cbn [with_agent ps_agent ps_cancelled ps_fetch ps_restart ap_agent ap_pushed ap_pc]; try done.
  - rewrite ticks_snoc, Ha. change (option_list (Some e)) with [e]. by rewrite Run_snoc, H1, Ht.
  - by rewrite cancels_snoc.
  - destruct (fp_state (ps_fetch s)); [done..|by apply polled_snoc].
  - intros n Hn. destruct (H5 n Hn) as (? & ? & ?). auto using polled_snoc.
Qed.

Lemma core_step (past : list paction) (s s' : process) (a : paction) :
  core_inv past s -> pstep s a = Some s' -> core_inv (past ++ [a]) s'.
Proof.
  intros Hi Hs. unfold pstep in Hs. destruct (ps_end s); [done|]. pose proof Hi as [H1 H2 H3 H4 H5].
  destruct a as [| |e ok| |e ok| |x| |w|act|ev| |w ev|act|files ok|l]; cbn [live_step] in Hs.
  - simplify_eq. constructor; cbn; [by rewrite ticks_snoc, app_nil_r|by apply pc_ok_quiet| | |].
    + split; [|done]. intros _. left. apply elem_of_app. right. by left.
    + destruct (fp_state (ps_fetch s)); [done..|by apply polled_snoc].
    + intros n Hn. destruct (H5 n Hn) as (? & ? & _). auto using polled_snoc.
  - destruct (ap_pc (ps_agent s)); try done; destruct H2 as [_ H2]; simplify_eq; (apply core_begin; [done..|]); by apply no_final_snoc.
  - destruct (ap_pc (ps_agent s)); try done. simplify_eq. apply core_tick; [done..|]. split; [rewrite ticks_snoc; by destruct (ticks past)|by apply no_final_snoc].
  - destruct (ap_pc (ps_agent s)); try done. destruct (ps_cancelled s) eqn:Hc; [|done]. simplify_eq. apply core_begin; [done..|].
    destruct H2 as [Ht Hf]. exists past, []. split_and!; try done. by apply H3.
  - destruct (ap_pc (ps_agent s)); try done. simplify_eq. apply core_tick; [done..|]. by exists past, e, ok, [].
  - destruct (ap_pc (ps_agent s)); try done. simplify_eq. by apply (core_quiet _ s).
  - destruct (fp_state (ps_fetch s)) as [|f|wt n] eqn:Hf; [done| |done]. destruct (Remote.poll _ _ _ _) as [file v] eqn:Hp. simplify_eq.
    constructor; cbn [with_fetch ps_agent ps_cancelled ps_fetch ps_restart fp_state fp_file]; [by rewrite ticks_snoc, app_nil_r|by apply pc_ok_quiet| | |].
    + by rewrite cancels_snoc.
    + destruct v as [f'|wt n]; [done|]. exists f, x, (fp_file (ps_fetch s)), wt. split; [|done]. apply elem_of_app. right. by left.
    + intros n Hn. by destruct (H5 n Hn).
  - destruct (fp_state (ps_fetch s)) as [|f|wt n] eqn:Hf; [done|done|]. simplify_eq.
    constructor; cbn; [by rewrite ticks_snoc, app_nil_r|by apply pc_ok_quiet| |done|].
    + split; [|done]. intros _. right. apply elem_of_app. right. by left.
    + intros m [= <-]. split_and!; [done|by apply polled_snoc|done].
  - destruct (serving && _); [|done]. destruct (Upgrade.RunOnce _ _ _ _) as [d r]. simplify_eq. by apply (core_quiet _ s).
  - destruct (ps_events s) as [v|]; [|done]. cbn [mbind option_bind] in Hs. destruct (event_allowed _ _ _); [|done].
    destruct (EventPipeline.step _ _) as [[pl d]|]; [|done]. cbn [mbind option_bind] in Hs. simplify_eq. by apply (core_quiet _ s).
  - destruct (ps_events s) as [v|]; [|done]. cbn [mbind option_bind] in Hs. destruct flushes; [|done]. simplify_eq. by apply (core_quiet _ s).
  - destruct (ps_events s) as [v|]; [|done]. cbn [mbind option_bind] in Hs. case_bool_decide; [|done].
    destruct (start_watchers _) as [v'|]; [|done]. cbn [mbind option_bind] in Hs. simplify_eq. by apply (core_quiet _ s).
  - destruct (ps_events s) as [v|]; [|done]. cbn [mbind option_bind] in Hs. case_bool_decide; [|done].
    destruct (EventPipeline.step _ _) as [[pl d]|]; [|done]. cbn [mbind option_bind] in Hs. simplify_eq. by apply (core_quiet _ s).
  - destruct (ps_events s) as [v|]; [|done]. cbn [mbind option_bind] in Hs. unfold auth_step in Hs. destruct (vp_auth v) as [st|]; [|done].
    cbn [mbind option_bind] in Hs. destruct (AuthRun.allowed _ _); [|done]. destruct (AuthRun.act_step _ _) as [[st' evs]|]; simplify_eq; by apply (core_quiet _ s).
  - destruct (ps_events s) as [v|]; [|done]. cbn [mbind option_bind] in Hs. unfold baseline_step in Hs. destruct (vp_files v); [done|].
    case_bool_decide; [|done]. destruct (SystemEvents.file_baseline _ _ _ _) as [[st f]|]; simplify_eq; by apply (core_quiet _ s).
  - destruct (ps_events s) as [v|]; [|done]. cbn [mbind option_bind] in Hs. unfold look_step in Hs. destruct (vp_files v) as [fs|]; [|done].
    cbn [mbind option_bind] in Hs. destruct system_collector as [[k cfg]|]; [|done]. cbn [mbind option_bind] in Hs.
    destruct (SystemRun.files_tick _ _ _ _) as [[st evs]|]; simplify_eq; by apply (core_quiet _ s).
Qed.

(** Why a step may crash the process: an upgrade check panics; a watcher of the
    system collector sends after the context was done; the auth collector,
    started with a file of known addresses that holds [null], reads the record
    of a login from another host; or the watcher of the files, started with a
    state file that holds [null], records a file. *)
Definition crash_cause (past : list paction) (s : process) (a : paction) : Prop :=
  (exists w, a = PCheck w /\ (Upgrade.RunOnce sha256hex upgrades w (ps_disk s)).2 = Upgrade.RPanic)
  \/ (exists w ev, a = PWatch w ev /\ existsb is_system collectors = true /\ cancels past)
  \/ (exists now ok data, a = PAuth (AuthRun.ARecord now ok data) /\ existsb is_auth collectors = true
        /\ cf_ips h = AuthEvents.IPNull /\ AuthRun.remote_login now data)
  \/ (((exists files ok, a = PBaseline files ok) \/ exists l, a = PLook l) /\ existsb is_system collectors = true
        /\ cf_states h = SystemEvents.JSONNull).

(** How the action [a] may end the process. *)
Definition end_ok (past : list paction) (s : process) (a : paction) (s' : process) : Prop :=
  match ps_end s' with
  | None => True
  | Some (Exited n) =>
      n = 0 /\ ((a = PReturn /\ stopped past) \/ exists w, a = PCheck w /\ Upgrade.RunOnce sha256hex upgrades w (ps_disk s) = (ps_disk s', Upgrade.RExit))
  | Some Crashed => crash_cause past s a
  end.

Lemma events_same (s s' : process) : events_inv s -> ps_events s' = ps_events s -> (ps_cancelled s = true -> ps_cancelled s' = true) -> events_inv s'.
Proof. intros H E Hc v Hv. rewrite E in Hv. by eapply pipe_ok_cancel; [apply H|]. Qed.

Lemma events_with (s : process) (v : event_part) :
  ps_end s = None -> pipe_ok (ps_cancelled s) v -> ps_end (with_events s v) = None /\ events_inv (with_events s v).
Proof.
  intros He Hok. split; [|by intros v' [= <-]]. cbn [with_events ps_end]. destruct (pl_status (vp_pipe v)) eqn:Hst; [done..|]. by destruct (po_status _ _ Hok).
Qed.

Lemma end_ok_live (past : list paction) (s s' : process) (a : paction) : ps_end s' = None -> end_ok past s a s'.
Proof. unfold end_ok. by intros ->. Qed.

(** A watcher's send panics only after the context was done. *)
Lemma watch_ends (past : list paction) (s : process) (v : event_part) (w : SystemRun.watcher) (ev : Event) (pl : Pipeline) d :
  core_inv past s -> pipe_ok (ps_cancelled s) v -> ps_end s = None -> w ∈ vp_watchers v -> EventPipeline.step (vp_pipe v) (AGoSend ev) = Some (pl, d) ->
  let s' := with_events s (with_pipe v pl) in
  end_ok past s (PWatch w ev) s' /\ (ps_end s' = None -> events_inv s').
Proof.
  intros Hc Hok He Hw Hs. cbv zeta. assert (Hne : vp_watchers v <> []) by (intros Hn; rewrite Hn in Hw; by apply not_elem_of_nil in Hw).
  assert (Hq : send (vp_pipe v) ev = Some pl).
  { unfold EventPipeline.step in Hs. cbn [EventPipeline.live_step] in Hs. destruct (pl_status (vp_pipe v)), (pl_background (vp_pipe v)); try done;
      (destruct (send (vp_pipe v) ev) as [q|]; [|done]); cbn [mbind option_bind] in Hs; by simplify_eq. }
  destruct (pl_closed (vp_pipe v)) eqn:Hcl.
  - unfold send in Hq. rewrite Hcl in Hq. simplify_eq. split; [|done]. right. left. exists w, ev. split; [done|]. split; [by apply (po_watch _ _ Hok)|].
    apply (iv_cancel _ _ Hc). by eapply watchers_cancelled.
  - edestruct (events_with s) as [Hn Hi]; [done| |split; [by apply end_ok_live|by intros _; exact Hi]]. by eapply send_ok.
Qed.

Lemma system_collector_at (k : nat) (cfg : SystemEvents.Config) : system_collector = Some (k, cfg) -> existsb is_system collectors = true.
Proof.
  unfold system_collector. destruct (list_find _ _) as [[k' c']|] eqn:Hf; [|done]. cbn [mbind option_bind]. apply list_find_Some in Hf as (Hk & _ & _).
  destruct c' as [c|c|c|c]; try done. intros _. apply existsb_exists. exists (Main.SystemCollector c). split; [|done]. by eapply list_elem_of_In, list_elem_of_lookup_2.
Qed.

Lemma start_watcher_same (k : nat) (ws : list SystemRun.watcher) (q pl : Pipeline) :
  foldl (start_watcher k) (Some q) ws = Some pl ->
  pl_buf pl = pl_buf q /\ pl_status pl = pl_status q /\ pl_closed pl = pl_closed q /\ pl_collectors pl = pl_collectors q.
Proof.
  revert q. induction ws as [|w ws IH]; intros q H; cbn [foldl] in H; [by simplify_eq|].
  destruct (start_watcher k (Some q) w) as [q1|] eqn:H1.
  - destruct (IH _ H) as (-> & -> & -> & ->). unfold start_watcher, EventPipeline.step in H1. cbn [mbind option_bind EventPipeline.live_step] in H1.
    destruct (pl_status q), (pl_collectors q !! k) as [[]|]; try done; cbn [mbind option_bind] in H1; by simplify_eq.
  - exfalso. clear -H. by induction ws.
Qed.

Lemma watchers_ok (c : bool) (v v' : event_part) : pipe_ok c v -> start_watchers v = Some v' -> pipe_ok c v'.
Proof.
  intros Hok Hw. unfold start_watchers in Hw. destruct system_collector as [[k cfg]|] eqn:Hs; [|done]. cbn [mbind option_bind] in Hw.
  destruct (foldl _ _ _) as [pl|] eqn:Hf; [|done]. cbn [mbind option_bind] in Hw. simplify_eq.
  destruct (start_watcher_same _ _ _ _ Hf) as (E1 & E2 & E3 & E4). destruct Hok as [H1 H2 H3 H4 H5 H6 H7 H8].
  constructor; cbn [vp_pipe vp_watchers vp_auth vp_files]; rewrite ?E1, ?E2, ?E3, ?E4; try done. intros _. by eapply system_collector_at.
Qed.

Lemma requeue_one_ok (c : bool) (v : event_part) (ev : Event) : pipe_ok c v -> pipe_ok c (with_pipe v (requeue_one (vp_pipe v) ev)).
Proof.
  intros Hok. unfold requeue_one. rewrite (Push_pushed _ _ (po_wf _ _ Hok)). pose proof Hok as [Hw Hst _ _ _ _ _ _]. apply pipe_ok_data; cbn; auto with agent.
Qed.

Lemma do_tick_same (s : process) (pc : agent_pc) (e : tick_env) (ok : bool) :
  ps_end (do_tick s pc e ok) = ps_end s /\ ps_events (do_tick s pc e ok) = ps_events s /\ ps_cancelled (do_tick s pc e ok) = ps_cancelled s.
Proof. unfold do_tick. by destruct (tick b (ap_agent (ps_agent s)) e) as [[? ?] ?]. Qed.

(** A step that keeps the process and the pipeline. *)
Lemma ends_same (past : list paction) (s s' : process) (a : paction) :
  events_inv s -> ps_end s' = None -> ps_events s' = ps_events s -> (ps_cancelled s = true -> ps_cancelled s' = true) ->
  end_ok past s a s' /\ (ps_end s' = None -> events_inv s').
Proof. intros H1 H2 H3 H4. split; [by apply end_ok_live|]. intros _. by eapply events_same. Qed.

Lemma ends_with (past : list paction) (s : process) (a : paction) (v : event_part) :
  ps_end s = None -> pipe_ok (ps_cancelled s) v ->
  end_ok past s a (with_events s v) /\ (ps_end (with_events s v) = None -> events_inv (with_events s v)).
Proof. intros He Hok. destruct (events_with s v He Hok) as [H1 H2]. split; [by apply end_ok_live|done]. Qed.

Lemma auth_ends (past : list paction) (s s' : process) (v : event_part) (a : AuthRun.act) :
  pipe_ok (ps_cancelled s) v -> ps_end s = None -> auth_step s v a = Some s' ->
  end_ok past s (PAuth a) s' /\ (ps_end s' = None -> events_inv s').
Proof.
  intros Hok He Hs. unfold auth_step in Hs. destruct (vp_auth v) as [st|] eqn:Ha; [|done]. cbn [mbind option_bind] in Hs.
  destruct (po_auth _ _ Hok st Ha) as [Hin Hnil]. destruct (AuthRun.allowed _ _); [|done].
  destruct (AuthRun.act_step st a) as [[st' evs]|] eqn:Hst; simplify_eq.
  - apply ends_with; [done|]. destruct Hok as [H1 H2 H3 H4 H5 H6 H7 H8]. constructor; try done. cbn [with_auth vp_auth].
    intros x [= <-]. split; [done|]. intros Hn. by eapply Hnil, AuthRun.act_step_known.
  - split; [|done]. destruct (AuthRun.act_panics _ _ Hst) as (Hn & now & ok & data & -> & Hl). right. right. left. by exists now, ok, data; auto.
Qed.

Lemma baseline_ends (past : list paction) (s s' : process) (v : event_part) (files : string -> option (bytes * Z)) (ok : bool) :
  pipe_ok (ps_cancelled s) v -> ps_end s = None -> baseline_step s v files ok = Some s' ->
  end_ok past s (PBaseline files ok) s' /\ (ps_end s' = None -> events_inv s').
Proof.
  intros Hok He Hs. unfold baseline_step in Hs. destruct (vp_files v); [done|]. case_bool_decide as Hw; [|done].
  assert (Hsys : existsb is_system collectors = true) by (apply (po_watch _ _ Hok); intros Hn; rewrite Hn in Hw; by apply not_elem_of_nil in Hw).
  assert (Hk := SystemRun.baseline_known sha256 files (cf_states h) ok). destruct (SystemEvents.file_baseline _ _ _ _) as [[m f]|] eqn:Hb; simplify_eq.
  - apply ends_with; [done|]. destruct Hok as [H1 H2 H3 H4 H5 H6 H7 H8]. constructor; try done. cbn [with_files vp_files].
    intros x [= <-]. split; [done|]. cbn [SystemRun.fs_map]. intros ->. destruct (cf_states h); [| |done|]; by destruct Hk as (? & ? & ?).
  - split; [|done]. right. right. right. split; [left; eauto|]. split; [done|]. destruct (cf_states h); [| |done|]; by destruct Hk as (? & ? & ?).
Qed.

Lemma look_ends (past : list paction) (s s' : process) (v : event_part) (l : SystemRun.files_look) :
  pipe_ok (ps_cancelled s) v -> ps_end s = None -> look_step s v l = Some s' ->
  end_ok past s (PLook l) s' /\ (ps_end s' = None -> events_inv s').
Proof.
  intros Hok He Hs. unfold look_step in Hs. destruct (vp_files v) as [st|] eqn:Hf; [|done]. cbn [mbind option_bind] in Hs.
  destruct (po_files _ _ Hok st Hf) as [Hsys Hnil]. destruct system_collector as [[k cfg]|]; [|done]. cbn [mbind option_bind] in Hs.
  assert (Hk := SystemRun.files_tick_known cfg sha256 st l). destruct (SystemRun.files_tick _ _ _ _) as [[st' evs]|]; simplify_eq.
  - apply ends_with; [done|]. destruct Hok as [H1 H2 H3 H4 H5 H6 H7 H8]. constructor; try done. cbn [with_files vp_files].
    intros x [= <-]. split; [done|]. intros Hn. apply Hnil. destruct (SystemRun.fs_map st) as [m|]; [|done].
    destruct (Hk m eq_refl) as (? & ? & ? & [= <- <-] & ?). congruence.
  - split; [|done]. right. right. right. split; [right; eauto|]. split; [done|]. apply Hnil. destruct (SystemRun.fs_map st) as [m|]; [|done].
    by destruct (Hk m eq_refl) as (? & ? & ? & ? & ?).
Qed.

Lemma step_ends (past : list paction) (s s' : process) (a : paction) :
  core_inv past s -> events_inv s -> pstep s a = Some s' -> end_ok past s a s' /\ (ps_end s' = None -> events_inv s').
Proof.
  intros Hc Hv Hs. unfold pstep in Hs. destruct (ps_end s) eqn:He; [done|].
  destruct a as [| |e ok| |e ok| |x| |w|act|ev| |w ev|act|files ok|l]; cbn [live_step] in Hs.
  - simplify_eq. by apply ends_same.
  - destruct (ap_pc (ps_agent s)); try done; simplify_eq; by apply ends_same.
  - destruct (do_tick_same s Looping e ok) as (E1 & E2 & E3). rewrite He in E1.
    destruct (ap_pc (ps_agent s)); try done. simplify_eq. apply ends_same; [done|done|done|by rewrite E3].
  - destruct (ap_pc (ps_agent s)); try done. destruct (ps_cancelled s) eqn:Hca; [|done]. simplify_eq. by apply ends_same.
  - destruct (do_tick_same s Stopped e ok) as (E1 & E2 & E3). rewrite He in E1.
    destruct (ap_pc (ps_agent s)); try done. simplify_eq. apply ends_same; [done|done|done|by rewrite E3].
  - pose proof (iv_pc _ _ Hc) as Hp. destruct (ap_pc (ps_agent s)) eqn:Hpc; try done. simplify_eq. split; [|done]. unfold end_ok. cbn [with_disk_end ps_end].
    split; [|by left]. unfold run_result, agent_error. by destruct (ps_restart s), (ps_cancelled s).
  - destruct (fp_state (ps_fetch s)); [done| |done]. destruct (Remote.poll _ _ _ _) as [file r]. simplify_eq. by apply ends_same.
  - destruct (fp_state (ps_fetch s)); [done|done|]. simplify_eq. by apply ends_same.
  - destruct (serving && _); [|done]. destruct (Upgrade.RunOnce sha256hex upgrades w (ps_disk s)) as [d r] eqn:Hr. simplify_eq. destruct r.
    + by apply ends_same.
    + split; [|done]. unfold end_ok. cbn [with_disk_end ps_end ps_disk]. split; [done|]. right. by exists w.
    + split; [|done]. left. exists w. by rewrite Hr.
  - destruct (ps_events s) as [v|] eqn:Hev; [|done]. cbn [mbind option_bind] in Hs. destruct (event_allowed _ _ _) eqn:Ha; [|done].
    destruct (EventPipeline.step _ _) as [[pl d]|] eqn:Hst; [|done]. cbn [mbind option_bind] in Hs. simplify_eq.
    apply ends_with; [done|]. eapply event_step_ok; [by apply Hv|done|done].
  - destruct (ps_events s) as [v|] eqn:Hev; [|done]. cbn [mbind option_bind] in Hs. destruct flushes; [|done]. simplify_eq.
    apply ends_with; [done|]. by apply requeue_one_ok, Hv.
  - destruct (ps_events s) as [v|] eqn:Hev; [|done]. cbn [mbind option_bind] in Hs. case_bool_decide; [|done].
    destruct (start_watchers _) as [v'|] eqn:Hw; [|done]. cbn [mbind option_bind] in Hs. simplify_eq.
    apply ends_with; [done|]. by eapply watchers_ok; [apply Hv|].
  - destruct (ps_events s) as [v|] eqn:Hev; [|done]. cbn [mbind option_bind] in Hs. case_bool_decide; [|done].
    destruct (EventPipeline.step _ _) as [[pl d]|] eqn:Hw; [|done]. cbn [mbind option_bind] in Hs. simplify_eq. by eapply watch_ends; [|apply Hv| | |].
  - destruct (ps_events s) as [v|] eqn:Hev; [|done]. cbn [mbind option_bind] in Hs. by eapply auth_ends; [apply Hv| |].
  - destruct (ps_events s) as [v|] eqn:Hev; [|done]. cbn [mbind option_bind] in Hs. by eapply baseline_ends; [apply Hv| |].
  - destruct (ps_events s) as [v|] eqn:Hev; [|done]. cbn [mbind option_bind] in Hs. by eapply look_ends; [apply Hv| |].
Qed.

Lemma prun_snoc (s : process) (l : list paction) (a : paction) : prun s (l ++ [a]) = s1 ← prun s l; pstep s1 a.
Proof. revert s. induction l as [|x l IH]; intros s; cbn [app prun]; [cbn [mbind option_bind]; by destruct (pstep s a)|]. destruct (pstep s x); cbn [mbind option_bind]; [apply IH|done]. Qed.

Context (buffer_fits : forall e, Main.pn_events p = Some e -> Main.ep_BufferSize e <= 2 ^ 62).

Lemma start_inv : core_inv [] start_process /\ events_inv start_process.
Proof.
  split; [|by intros v Hv; apply start_events_ok]. constructor; try done.
  - cbn. split; [done|constructor].
  - split; [done|]. by intros [H|H]; apply not_elem_of_nil in H.
  - cbn [start_process ps_fetch fp_state]. unfold start_fetch. destruct (Main.pn_fetcher p); [|done]. by case_bool_decide.
Qed.

(** Every trace from the start: what holds after it, and how it ended. *)
Lemma trace_inv (acts : list paction) (s : process) :
  prun start_process acts = Some s ->
  core_inv acts s /\ (ps_end s = None -> events_inv s)
  /\ (ps_end s <> None -> exists past a s1, acts = past ++ [a] /\ prun start_process past = Some s1 /\ end_ok past s1 a s).
Proof.
  revert s. induction acts as [|a acts IH] using rev_ind; intros s Hr.
  - injection Hr as <-. destruct start_inv. by split_and!.
  - rewrite prun_snoc in Hr. destruct (prun start_process acts) as [s1|] eqn:H1; [|done]. cbn [mbind option_bind] in Hr. destruct (IH s1 eq_refl) as (Hc & Hv & _).
    assert (He : ps_end s1 = None) by (unfold pstep in Hr; by destruct (ps_end s1)).
    destruct (step_ends acts s1 s a Hc (Hv He) Hr) as [Hend Hv']. split_and!; [by eapply core_step|done|]. intros _. by exists acts, a, s1.
Qed.

(** ** Properties *)

(** C11: how the process ends.  Under every schedule of the agent, the event
    pipeline with the goroutines of its auth and system collectors, the poller,
    the upgrade check and the signals, in which a tick may take any time: what
    the finished ticks pushed is what the agent pushes for them, in order.  The
    process exits only with status 0, and in one of two ways: the command
    returns, which it does after its context was cancelled by a signal or a
    restart, one final tick after that and no tick after the final one; or an
    upgrade check has staged a verified binary.  It crashes only for one of four
    causes: that check panics on a malformed checksum file; a watcher of the
    system collector sends after the context was cancelled; the auth collector
    meets a login from another host and its file of known addresses held [null]
    at the start; or the watcher of the files records a file and its state file
    held [null]. *)
Theorem process_ends (acts : list paction) (s : process) :
  prun start_process acts = Some s ->
  Agent.Run b first_agent (ticks acts) = (ap_agent (ps_agent s), ap_pushed (ps_agent s))
  /\ match ps_end s with
     | None => True
     | Some (Exited n) =>
         n = 0 /\ ((exists past, acts = past ++ [PReturn] /\ stopped past)
                   \/ (exists past w s1, acts = past ++ [PCheck w] /\ prun start_process past = Some s1
                         /\ Upgrade.RunOnce sha256hex upgrades w (ps_disk s1) = (ps_disk s, Upgrade.RExit)))
     | Some Crashed => exists past a s1, acts = past ++ [a] /\ prun start_process past = Some s1 /\ crash_cause past s1 a
     end.
Proof.
  intros Hr. destruct (trace_inv acts s Hr) as (Hc & _ & He). split; [apply Hc|]. destruct (ps_end s) as [[n|]|] eqn:Hs; [| |done];
    destruct (He ltac:(done)) as (past & a & s1 & -> & H1 & Hend); unfold end_ok in Hend; rewrite Hs in Hend.
  - destruct Hend as [-> [[-> Hst]|(w & -> & Hw)]]; split; [done|left; by exists past|done|right; by exists past, w, s1].
  - by exists past, a, s1.
Qed.

(** C12: a restart for a new configuration, end to end.  When the command of a
    process returns after its poller asked for a restart for a version, it has
    made its final push and exits with status 0; and the next start that finds
    the file left behind, unless it is a dry run or its trust mode is off, runs
    with that version's configuration applied over its local one, reports and
    polls with that version, and keeps running while the server answers as it
    did. *)
Theorem restart_completes (past : list paction) (s : process) (version : bytes) (uuid_Parse : bytes -> bool) (i' : inputs) (p' : plan) :
  prun start_process (past ++ [PReturn]) = Some s -> ps_restart s = Some version ->
  Main.in_remote i' = fp_file (ps_fetch s) -> Main.run uuid_Parse sha256hex i' = Main.Running p' ->
  Config.DryRun (Main.pn_cfg p') = false -> Config.RemoteConfig (Main.pn_cfg p') <> Remote.ModeOff ->
  ps_end s = Some (Exited 0) /\ stopped past
  /\ exists x local st g, PPoll x ∈ past
    /\ Config.Load (Main.in_env i') (Main.in_args i') = inr local
    /\ Remote.Load (Main.in_remote i') = Some st /\ Remote.st_Version st = version
    /\ Main.pn_cfg p' = Remote.Apply (Config.Validate local).1 (Remote.st_Config st) (Config.RemoteConfig local)
    /\ Main.ConfigInfo version (Config.RemoteConfig local) ∈ Main.pn_collectors p'
    /\ Main.pn_fetcher p' = Some g /\ Remote.f_Current g = version
    /\ forall y, Remote.t_resp y = Remote.t_resp x -> Remote.poll Main.re_ok g y (Main.in_remote i') = (Main.in_remote i', Remote.Keep g).
Proof.
  intros Hr Hv Hfile Hrun Hdry Hoff. destruct (trace_inv _ _ Hr) as (Hc & _ & _). destruct (iv_restart _ _ Hc _ Hv) as (_ & Hp & Hcan).
  rewrite prun_snoc in Hr. destruct (prun start_process past) as [s1|] eqn:H1; [|done]. cbn [mbind option_bind] in Hr.
  destruct (trace_inv _ _ H1) as (Hc1 & _ & _). unfold pstep in Hr. destruct (ps_end s1); [done|]. cbn [live_step] in Hr.
  pose proof (iv_pc _ _ Hc1) as Hpc. destruct (ap_pc (ps_agent s1)); try done. simplify_eq. cbn [with_disk_end ps_end ps_restart] in *.
  split_and!; [unfold run_result; by rewrite Hv|done|]. destruct Hp as (f & x & before & wait & Hx & Hpoll). cbn [with_disk_end ps_fetch] in *.
  rewrite <- Hfile in Hpoll. apply elem_of_app in Hx as [Hx|Hx%list_elem_of_singleton]; [|done].
  destruct (Main.restart_applies uuid_Parse sha256hex f x before wait version i' p' Hpoll Hrun Hdry Hoff) as (local & st & g & Hrest).
  by exists x, local, st, g.
Qed.
End Process.

(** ** Traces of a process started with the demonstration arguments *)
Definition demo_ev : Event := ev_n 1.
Definition demo_tick : tick_env := demo_env true.
Definition demo_in : inputs := Main.demo_inputs Main.demo_args None.
Definition demo_files : collector_files := {| cf_stat := fun _ => Some true; cf_ips := AuthEvents.IPNone; cf_states := SystemEvents.NoFile |}.
(** State files that hold [null]. *)
Definition null_files : collector_files := {| cf_stat := fun _ => Some true; cf_ips := AuthEvents.IPNull; cf_states := SystemEvents.JSONNull |}.

(** The process after a trace, with what the collectors find. *)
Definition trace (h : collector_files) (acts : list paction) : option (plan * process) :=
  match Main.demo_run Main.demo_args None with
  | Main.Running p => s ← prun demo_build (fun x => x) demo_in p h (start_process (fun x => x) demo_in p h) acts; Some (p, s)
  | _ => None
  end.
Definition fits (p : plan) : bool := match Main.pn_events p with Some e => Main.ep_BufferSize e <=? 2 ^ 62 | None => true end.
Definition crashed (s : process) : bool := match ps_end s with Some Crashed => true | _ => false end.
Definition exits (s : process) : bool := match ps_end s with Some (Exited n) => n =? 0 | _ => false end.

Lemma trace_inv_demo (h : collector_files) (acts : list paction) (p : plan) (s : process) : trace h acts = Some (p, s) ->
  Main.demo_run Main.demo_args None = Main.Running p /\ prun demo_build (fun x => x) demo_in p h (start_process (fun x => x) demo_in p h) acts = Some s.
Proof.
  unfold trace. destruct (Main.demo_run Main.demo_args None) as [| | | | | |p0]; try done. destruct (prun _ _ _ _ _ _) as [s0|] eqn:E; [|done].
  cbn [mbind option_bind]. by intros [= <- <-].
Qed.

Lemma fits_ok (p : plan) : fits p = true -> forall e, Main.pn_events p = Some e -> Main.ep_BufferSize e <= 2 ^ 62.
Proof. unfold fits. intros H e He. rewrite He in H. by apply Z.leb_le. Qed.

Definition one_tick : list paction := [PTick; PTicked demo_tick true].
Definition last_tick : list paction := [PFinal; PFinished demo_tick true].
(** A login event, a signal, a tick already due, and the final tick. *)
Definition acts_stop : list paction := one_tick ++ [PEvents (ASend 0 demo_ev); PTick; PSignal; PTicked demo_tick true] ++ last_tick ++ [PReturn].
(** A login from another host, recorded by a collector without known addresses. *)
Definition acts_login : list paction := one_tick ++ [PAuth (AuthRun.ARecord 0 true (AuthEvents.utmp_bytes AuthEvents.demo_utmp))].

Lemma process_ends_witness :
  (exists p s, trace demo_files acts_stop = Some (p, s) /\ exits s = true
     /\ Agent.Run demo_build (first_agent demo_in p) [demo_tick; demo_tick; demo_tick] = (ap_agent (ps_agent s), ap_pushed (ps_agent s)))
  /\ exists p s, trace null_files acts_login = Some (p, s) /\ ps_end s = Some Crashed
     /\ Agent.Run demo_build (first_agent demo_in p) [demo_tick] = (ap_agent (ps_agent s), ap_pushed (ps_agent s)).
Proof.
  split.
  - assert (Hb : match trace demo_files acts_stop with Some (p, s) => fits p && exits s | None => false end = true) by (vm_compute; reflexivity).
    destruct (trace demo_files acts_stop) as [[p s]|] eqn:E; [|discriminate Hb]. apply andb_true_iff in Hb as [Hf He]. exists p, s. split; [reflexivity|]. split; [exact He|].
    destruct (trace_inv_demo _ _ _ _ E) as [_ Hr].
    exact (proj1 (process_ends demo_build (fun x => x) demo_in p demo_files (fits_ok p Hf) acts_stop s Hr)).
  - assert (Hb : match trace null_files acts_login with Some (p, s) => fits p && crashed s | None => false end = true) by (vm_compute; reflexivity).
    destruct (trace null_files acts_login) as [[p s]|] eqn:E; [|discriminate Hb]. apply andb_true_iff in Hb as [Hf He]. exists p, s. split; [reflexivity|].
    split; [unfold crashed in He; destruct (ps_end s) as [[|]|]; [discriminate He|reflexivity|discriminate He]|].
    destruct (trace_inv_demo _ _ _ _ E) as [_ Hr].
    exact (proj1 (process_ends demo_build (fun x => x) demo_in p null_files (fits_ok p Hf) acts_login s Hr)).
Defined.

(** A poll finds a new version; the agent finishes and the next start has it. *)
Definition past_restart : list paction := one_tick ++ [PPoll Remote.turn_sample; PApply] ++ last_tick.
Lemma restart_completes_witness :
  exists p s p', trace demo_files (past_restart ++ [PReturn]) = Some (p, s) /\ Main.demo_run Main.demo_args Remote.saved_sample = Main.Running p'
    /\ ps_end s = Some (Exited 0) /\ exists g, Main.pn_fetcher p' = Some g /\ Remote.f_Current g = B "v2".
Proof.
  assert (Hb : match trace demo_files (past_restart ++ [PReturn]), Main.demo_run Main.demo_args Remote.saved_sample with
               | Some (p, s), Main.Running p' => fits p && bool_decide (ps_restart s = Some (B "v2")) && bool_decide (Remote.saved_sample = fp_file (ps_fetch s))
                   && negb (Config.DryRun (Main.pn_cfg p')) && negb (bool_decide (Config.RemoteConfig (Main.pn_cfg p') = Remote.ModeOff))
               | _, _ => false end = true) by (vm_compute; reflexivity).
  destruct (trace demo_files (past_restart ++ [PReturn])) as [[p s]|] eqn:E; [|discriminate Hb].
  destruct (Main.demo_run Main.demo_args Remote.saved_sample) as [| | | | | |p'] eqn:E'; try discriminate Hb.
  apply andb_true_iff in Hb as [Hb H5]. apply andb_true_iff in Hb as [Hb H4]. apply andb_true_iff in Hb as [Hb H3]. apply andb_true_iff in Hb as [H1 H2].
  apply bool_decide_eq_true in H2, H3. apply negb_true_iff in H4, H5. apply bool_decide_eq_false in H5. destruct (trace_inv_demo _ _ _ _ E) as [_ Hr].
  destruct (restart_completes demo_build (fun x => x) demo_in p demo_files (fits_ok p H1) past_restart s (B "v2") (fun _ => false)
              (Main.demo_inputs Main.demo_args Remote.saved_sample) p' Hr H2 H3 E' H4 H5) as (He & _ & x & local & st & g & _ & _ & _ & _ & _ & _ & Hg & Hv & _).
  exists p, s, p'. split; [reflexivity|]. split; [reflexivity|]. split; [exact He|]. exists g. exact (conj Hg Hv).
Defined.

(** ** What nobody waits for *)

(** The watchers of the system collector are not waited for: one that finds a
    change while the process stops sends on the channel that was closed when
    the collectors had returned, and the process ends in a panic. *)
Lemma late_watcher_crashes :
  match trace demo_files (one_tick ++ [PWatchers; PSignal] ++ map (fun k => PEvents (AExit k)) [0; 1; 2; 3]%nat
               ++ [PEvents AClose; PWatch SystemRun.WatchPasswd demo_ev]) with
  | Some (_, s) => ps_end s = Some Crashed
  | None => False
  end.
Proof. vm_compute. reflexivity. Qed.

(** The event transport is not waited for either: an event received before the
    signal is still in the buffer when the process exits, although there is a
    transport whose [Run] makes a final flush. *)
Lemma buffered_event_lost :
  match trace demo_files (one_tick ++ [PEvents (ASend 0 demo_ev); PEvents ARecv; PSignal] ++ last_tick ++ [PReturn]) with
  | Some (p, s) => exits s = true /\ flushes p = true
      /\ match ps_events s with Some v => contents (pl_buf (vp_pipe v)) = [demo_ev] | None => False end
  | None => False
  end.
Proof. vm_compute. split; [reflexivity|]. split; reflexivity. Qed.

(** A state file that holds [null] ends every start that finds a watched file:
    the watcher of the files panics before its first look. *)
Lemma null_state_crashes :
  match trace null_files (one_tick ++ [PWatchers; PBaseline (fun _ => Some ([], 0)) true]) with
  | Some (_, s) => ps_end s = Some Crashed
  | None => False
  end.
Proof. vm_compute. reflexivity. Qed.
