(* ===== verification/Sharing.v ===== *)
(** * The session the transports share

    [run] of [cmd/yomins-agent/main.go] makes one session and hands it to the
    metrics transport ([transport/http.go]), the event transport
    ([transport/events.go]), the poster of the log shipper ([transport/post.go])
    and the poller of the remote configuration ([remote/fetch.go]).  Sessions
    are cells of a store and the clients hold addresses into it.  Each client
    is a small state machine: it tests for a pause when it begins an operation,
    and then sends requests and takes answers; the operations of the four
    interleave. *)
From S2P Require Import Prelude GoStrings Session Transport.
Local Open Scope Z_scope.

(** ** The wiring *)
Definition store : Type := list Session.
(** [NewSession]: a new cell and its address. *)
Definition new_session (h : store) : store * nat := (h ++ [NewSession], length h).
(** A constructor given no session makes a private one. *)
Definition session_or_new (h : store) (s : option nat) : store * nat := match s with Some k => (h, k) | None => new_session h end.

Record HTTPConfig := { hc_Server : string; hc_Token : string; hc_Interval : duration; hc_InsecureSkipVerify : bool; hc_Session : option nat }.
Record HTTPTransport := { ht_Server : string; ht_Token : string; ht_Interval : duration; ht_insecure : bool; ht_session : nat }.
Definition NewHTTPTransport (h : store) (cfg : HTTPConfig) : store * HTTPTransport :=
  let '(h', k) := session_or_new h (hc_Session cfg) in
  (h', {| ht_Server := hc_Server cfg; ht_Token := hc_Token cfg; ht_Interval := hc_Interval cfg; ht_insecure := hc_InsecureSkipVerify cfg; ht_session := k |}).

Record Poster := { po_server : string; po_token : string; po_insecure : bool; po_session : nat }.
Definition NewPoster (h : store) (server token : string) (insecureSkipVerify : bool) (session : option nat) : store * Poster :=
  let '(h', k) := session_or_new h session in
  (h', {| po_server := server; po_token := token; po_insecure := insecureSkipVerify; po_session := k |}).

Inductive client := Metrics | Events | Logs | ConfigPoll.
#[export] Instance client_eq_dec : EqDecision client.
Proof. solve_decision. Defined.

(** The sessions as [run] gives them out, in its order: the shared one, the
    event transport (a dry run gives it none), the poster, the metrics
    transport and the poller. *)
Record wiring := { wr_store : store; wr_at : client -> nat }.
Definition wire (server token : string) (interval : duration) (insecure : bool) : wiring :=
  let '(h0, session) := new_session [] in
  let '(h1, ev) := session_or_new h0 (Some session) in
  let '(h2, po) := NewPoster h1 server token insecure (Some session) in
  let '(h3, tp) := NewHTTPTransport h2 {| hc_Server := server; hc_Token := token; hc_Interval := interval; hc_InsecureSkipVerify := insecure; hc_Session := Some session |} in
  {| wr_store := h3;
     wr_at := fun c => match c with Metrics => ht_session tp | Events => ev | Logs => po_session po | ConfigPoll => session end |}.
(** A dry run has only the event transport, with a session of its own. *)
Definition wire_dry : store * nat := session_or_new [] None.

(** ** The clients *)

(** No operation, an operation that may send, a request under way. *)
Inductive phase := Idle | Ready | Waiting.
#[export] Instance phase_eq_dec : EqDecision phase.
Proof. solve_decision. Defined.

Record sharing := { sh_store : store; sh_clock : time; sh_phase : client -> phase; sh_sent : list (client * time) }.

Inductive saction :=
  | SBegin (c : client) (now : time)                      (* the pause test of [Push], [flush], [Post] or [check] *)
  | SSend (c : client) (now : time)                       (* a request goes out *)
  | SAnswer (c : client) (now : time) (ans : string + Response) (again : bool)
                                                          (* its answer; [again]: a retry or a further batch follows *)
  | SGiveUp (c : client) (now : time).                    (* nothing to send, or the retries end *)

Definition time_of (a : saction) : time := match a with SBegin _ t | SSend _ t | SAnswer _ t _ _ | SGiveUp _ t => t end.

(** Whether the client may send again without another test: the metrics push
    retries, the flush retries or goes on with its next batch unless it was
    rejected, the poster and the poller make one request. *)
Definition continues (c : client) (ans : string + Response) : bool :=
  match c with
  | Metrics => retryable ans
  | Events => match ans with inr resp => negb (is_auth (StatusCode resp)) | inl _ => true end
  | Logs | ConfigPoll => false
  end.

(** What an answer does to the session; the poller tells it nothing. *)
Definition session_answer (c : client) (s : Session) (now : time) (ans : string + Response) : Session :=
  match c with ConfigPoll => s | _ => session_after s [(now, ans)] end.

Definition set_phase (st : sharing) (now : time) (c : client) (ph : phase) : sharing := {|
  sh_store := sh_store st; sh_clock := now; sh_phase := fun d => if decide (d = c) then ph else sh_phase st d; sh_sent := sh_sent st |}.

Section Shared.
Context (at_ : client -> nat).

(** The clock does not go back. *)
Definition sstep (st : sharing) (a : saction) : option sharing :=
  if time_of a <? sh_clock st then None
  else match a with
       | SBegin c now =>
           s ← sh_store st !! at_ c;
           match sh_phase st c with Idle => Some (set_phase st now c (if Paused s now then Idle else Ready)) | _ => None end
       | SSend c now =>
           match sh_phase st c with
           | Ready => let st' := set_phase st now c Waiting in
                      Some {| sh_store := sh_store st'; sh_clock := now; sh_phase := sh_phase st'; sh_sent := sh_sent st ++ [(c, now)] |}
           | _ => None
           end
       | SAnswer c now ans again =>
           s ← sh_store st !! at_ c;
           match sh_phase st c with
           | Waiting => let st' := set_phase st now c (if again && continues c ans then Ready else Idle) in
                        Some {| sh_store := <[at_ c := session_answer c s now ans]> (sh_store st); sh_clock := now; sh_phase := sh_phase st'; sh_sent := sh_sent st |}
           | _ => None
           end
       | SGiveUp c now => match sh_phase st c with Ready => Some (set_phase st now c Idle) | _ => None end
       end.

Fixpoint srun (st : sharing) (acts : list saction) : option sharing :=
  match acts with
  | [] => Some st
  | a :: t => st' ← sstep st a; srun st' t
  end.
End Shared.

(** ** Lemmas *)
Lemma wire_shares (server token : string) (interval : duration) (insecure : bool) (c : client) :
  let w := wire server token interval insecure in wr_store w = [NewSession] /\ wr_at w c = 0%nat.
Proof. by destruct c. Qed.

Section OneSession.
Context (at_ : client -> nat) (k : nat) (one : forall c, at_ c = k).

(** The session is paused whenever an action of the run happens. *)
Fixpoint held (st : sharing) (acts : list saction) : Prop :=
  match acts with
  | [] => True
  | a :: t => (forall s, sh_store st !! k = Some s -> Paused s (time_of a) = true) /\ forall st', sstep at_ st a = Some st' -> held st' t
  end.

(** While the session is paused an idle client stays idle and sends nothing. *)
Lemma held_step (st st' : sharing) (a : saction) :
  sstep at_ st a = Some st' -> (forall s, sh_store st !! k = Some s -> Paused s (time_of a) = true) ->
  (forall c, sh_phase st c = Idle -> sh_phase st' c = Idle)
  /\ exists new, sh_sent st' = sh_sent st ++ new /\ Forall (fun r => sh_phase st r.1 <> Idle) new.
Proof.
  intros Hs Hp. unfold sstep in Hs. destruct (_ <? _); [done|]. destruct a as [c t|c t|c t ans again|c t]; cbn [time_of] in Hp.
  - rewrite one in Hs. destruct (sh_store st !! k) as [s|]; [|done]. cbn [mbind option_bind] in Hs. rewrite (Hp s eq_refl) in Hs.
    destruct (sh_phase st c) eqn:Hc; [|done..]. injection Hs as <-. cbn. split; [intros d Hd; by case_decide|]. exists []. by rewrite app_nil_r.
  - destruct (sh_phase st c) eqn:Hc; [done| |done]. injection Hs as <-. cbn. split; [intros d Hd; case_decide; [congruence|done]|].
    exists [(c, t)]. split; [done|]. constructor; [|done]. cbn. by rewrite Hc.
  - destruct (sh_store st !! at_ c); [|done]. cbn [mbind option_bind] in Hs. destruct (sh_phase st c) eqn:Hc; [done..|]. injection Hs as <-. cbn.
    split; [intros d Hd; case_decide; [congruence|done]|]. exists []. by rewrite app_nil_r.
  - destruct (sh_phase st c) eqn:Hc; [done| |done]. injection Hs as <-. cbn. split; [intros d Hd; by case_decide|]. exists []. by rewrite app_nil_r.
Qed.

Lemma held_run (acts : list saction) (st st' : sharing) :
  srun at_ st acts = Some st' -> held st acts ->
  exists new, sh_sent st' = sh_sent st ++ new /\ Forall (fun r => sh_phase st r.1 <> Idle) new.
Proof.
  revert st. induction acts as [|a acts IH]; intros st Hr Hh; cbn [srun held] in *.
  - injection Hr as <-. exists []. by rewrite app_nil_r.
  - destruct (sstep at_ st a) as [st1|] eqn:Hs; [|done]. cbn [mbind option_bind] in Hr. destruct Hh as [Hp Hh].
    destruct (held_step st st1 a Hs Hp) as (Hi & n1 & E1 & F1). destruct (IH st1 Hr (Hh st1 eq_refl)) as (n2 & E2 & F2).
    exists (n1 ++ n2). rewrite E2, E1, app_assoc. split; [done|]. apply Forall_app. split; [done|]. eapply Forall_impl; [exact F2|]. intros r Hr1 Hr0. auto.
Qed.

(** With no operation under way nothing can lift the pause. *)
Lemma idle_silent (acts : list saction) (st st' : sharing) (s : Session) :
  (forall c, sh_phase st c = Idle) -> sh_store st !! k = Some s -> Forall (fun a => time_of a < until s) acts -> srun at_ st acts = Some st' ->
  sh_sent st' = sh_sent st /\ sh_store st' = sh_store st.
Proof.
  intros Hi Hk Ht. revert st Hi Hk. induction Ht as [|a acts Ha Ht IH]; intros st Hi Hk Hr; cbn [srun] in Hr; [by injection Hr as <-|].
  destruct (sstep at_ st a) as [st1|] eqn:Hs; [|done]. cbn [mbind option_bind] in Hr. unfold sstep in Hs. destruct (_ <? _); [done|].
  destruct a as [c t|c t|c t ans again|c t]; cbn [time_of] in Ha; rewrite ?one, ?Hk, ?Hi in Hs; cbn [mbind option_bind] in Hs; try done.
  assert (Hp : Paused s t = true) by by apply Z.ltb_lt. rewrite Hp in Hs. injection Hs as <-.
  destruct (IH (set_phase st t c Idle)) as [E1 E2]; [|done|done|done]. intros d. cbn. by case_decide.
Qed.
End OneSession.

(** ** Properties *)

(** C13: a rejection silences the whole agent.  When the server answers any
    of the metrics, event and log requests with 401 or 403, the session all
    four clients test is paused for the time the server asks for, or for
    between one and thirty minutes, and the operation that was rejected is
    over.  As long as the pause lasts, requests are made only by operations
    that had passed their test before; and when there are none, no request at
    all is made before the pause has run out, and the session stays as it is. *)
Theorem rejection_silences (server token : string) (interval : duration) (insecure : bool)
    (st st1 : sharing) (c : client) (now : time) (resp : Response) (again : bool) :
  let at_ := wr_at (wire server token interval insecure) in
  sstep at_ st (SAnswer c now (inr resp) again) = Some st1 -> c <> ConfigPoll -> StatusCode resp = 401 \/ StatusCode resp = 403 ->
  exists s p, sh_store st1 !! 0%nat = Some s /\ until s = now + p /\ 0 < p
    /\ (0 < retryAfter resp -> p = retryAfter resp) /\ (retryAfter resp <= 0 -> minPause <= p <= maxPause)
    /\ sh_phase st1 c = Idle
    /\ (forall acts st2, srun at_ st1 acts = Some st2 -> held at_ 0 st1 acts ->
          exists new, sh_sent st2 = sh_sent st1 ++ new /\ Forall (fun r => sh_phase st1 r.1 <> Idle) new)
    /\ (forall acts st2, (forall d, sh_phase st1 d = Idle) -> srun at_ st1 acts = Some st2 -> Forall (fun a => time_of a < now + p) acts ->
          sh_sent st2 = sh_sent st1 /\ sh_store st2 = sh_store st1).
Proof.
  intros at_ Hs Hc Hst. assert (one : forall d, at_ d = 0%nat) by by intros [].
  assert (Hauth : is_auth (StatusCode resp) = true /\ is_2xx (StatusCode resp) = false) by by destruct Hst as [-> | ->].
  destruct Hauth as [Ha H2]. unfold sstep in Hs. destruct (_ <? _); [done|]. rewrite one in Hs.
  destruct (sh_store st !! 0%nat) as [s0|] eqn:Hk; [|done]. cbn [mbind option_bind] in Hs. destruct (sh_phase st c); [done..|].
  assert (Hcont : continues c (inr resp) = false) by (destruct c; cbn; rewrite ?Ha, ?H2; done). rewrite Hcont, andb_false_r in Hs. injection Hs as <-.
  assert (Hans : session_answer c s0 now (inr resp) = reject s0 now (rejection resp)) by (destruct c; [..|done]; cbn; by rewrite H2, Ha).
  set (s := reject s0 now (rejection resp)). exists s, (pause s). cbn [sh_store sh_phase sh_sent]. rewrite Hans. fold s.
  assert (Hlook : (<[0%nat := s]> (sh_store st)) !! 0%nat = Some s) by (apply list_lookup_insert_eq; by eapply lookup_lt_Some).
  split_and!; [done|done|apply reject_pause_pos|by intros Hr; apply reject_pause_wait| |cbn; by rewrite decide_True| |].
  - intros Hr. subst s. rewrite reject_pause_nowait by done. unfold minPause, maxPause. go_lia.
  - intros acts st2 Hr Hh. exact (held_run at_ 0 one acts _ st2 Hr Hh).
  - intros acts st2 Hi Hr Ht. pose proof (fun Hi Hk Ht => idle_silent at_ 0 one acts _ st2 s Hi Hk Ht Hr) as Hsil. exact (Hsil Hi Hlook Ht).
Qed.

(** ** Runs *)
Definition at0 : client -> nat := wr_at (wire "https://ingest" "t" minute false).
Definition quiet : sharing := {| sh_store := [NewSession]; sh_clock := 0; sh_phase := fun _ => Idle; sh_sent := [] |}.

(** The session says whether a client that begins now may send. *)
Definition paused_at (st : sharing) (now : time) : bool := match sh_store st !! 0%nat with Some s => Paused s now | None => false end.
Definition after (acts : list saction) : option sharing := srun at0 quiet acts.

Definition reject_events : list saction := [SBegin Events 1; SSend Events 1].
Lemma rejection_silences_witness :
  match after reject_events with
  | Some st => match sstep at0 st (SAnswer Events 2 (inr (resp_of 403)) false) with
               | Some st1 => forall st2, srun at0 st1 [SBegin Metrics 3; SBegin Logs 4; SBegin ConfigPoll (5 * second)] = Some st2 -> sh_sent st2 = sh_sent st1
               | None => False
               end
  | None => False
  end.
Proof.
  destruct (after reject_events) as [st|] eqn:E; [|discriminate E]. destruct (sstep at0 st _) as [st1|] eqn:E1; [|injection E as <-; discriminate E1].
  intros st2 H2.
  destruct (rejection_silences "https://ingest" "t" minute false st st1 Events 2 (resp_of 403) false E1 ltac:(discriminate) ltac:(right; reflexivity))
    as (s & p & Hk & Hu & Hp & _ & Hmin & _ & _ & Hall).
  assert (Hge : minPause <= p) by (apply Hmin; vm_compute; discriminate). unfold minPause in Hge.
  apply (Hall [SBegin Metrics 3; SBegin Logs 4; SBegin ConfigPoll (5 * second)] st2).
  - intros d. injection E as <-. injection E1 as <-. destruct d; reflexivity.
  - exact H2.
  - repeat constructor; cbn [time_of]; go_lia.
Defined.

(** *** What the pause does not reach *)

(** The test is made once per operation: a push that is being retried sends
    again while the agent is rejected. *)
Lemma retry_sends_while_paused :
  match after [SBegin Metrics 1; SSend Metrics 1; SBegin Events 2; SSend Events 2; SAnswer Metrics 3 (inr (resp_of 503)) true;
               SAnswer Events 4 (inr (resp_of 403)) false; SSend Metrics 5] with
  | Some st => paused_at st 5 = true /\ (Metrics, 5) ∈ sh_sent st
  | None => False
  end.
Proof. split; [vm_compute; reflexivity|]. apply (bool_decide_eq_true_1 _). vm_compute. reflexivity. Qed.

(** The acceptance of a request sent before the rejection lifts the pause. *)
Lemma late_success_lifts_pause :
  match after [SBegin Logs 1; SSend Logs 1; SBegin Events 2; SSend Events 2; SAnswer Events 3 (inr (resp_of 403)) false; SAnswer Logs 4 (inr (resp_of 200)) false] with
  | Some st => paused_at st 4 = false
  | None => False
  end.
Proof. vm_compute. reflexivity. Qed.
